(** * StitchWyse request-ingress pipeline: a shallow embedding

    The development follows the TypeScript sources of the repository:

    - [src/lib/cors.ts]                   origin allowlist and CORS headers
    - [src/lib/rate-limit.ts]             fixed-window in-memory rate limiter
    - [src/lib/stripe-price-allowlist.ts] price-id pattern and allowlist
    - [src/app/api/checkout/route.ts]     checkout validator and handler
    - [src/app/api/webhook/route.ts]      webhook handler, bounded body reader
    - [src/app/api/custom-order/route.ts] custom-order validator and handler
    - [docs/framer-checkout-client.ts]    the browser-side checkout helper

    JavaScript strings are sequences of UTF-16 code units and are modelled
    as [list N]; JSON values are an inductive type; the [Map] of the rate
    limiter and the metadata object are [gmap]s; handlers are functions
    from an environment and a request to an outcome (a response, or the
    exception that leaves the handler) and a trace of the effects they
    perform.  Functions of the platform that are not part
    of the repository (the Stripe SDK, [JSON.parse], [Buffer],
    [toLowerCase], ...) are the fields of the class [Platform].

    The file has three parts: the program, the predicates and sample
    requests of the specification, and the properties with their proofs:
    C1 to C10 first, then the further properties X1 to X27 of the same
    code. *)

From Stdlib Require Import ZArith NArith QArith Qround List Ascii String Lia.
From Stdlib Require Strings.Byte Qcanon.
From stdpp Require Import base option list gmap pretty.

Close Scope Q_scope.
Set Warnings "-register-all".
Local Open Scope N_scope.

(* ===================================================================== *)
(** * JavaScript strings *)
(* ===================================================================== *)

(** A JavaScript string is a finite sequence of 16-bit code units. *)
Abbreviation jsstring := (list N).

(** [js "abc"] is the JavaScript string literal ["abc"] (ASCII literals). *)
Definition js (s : string) : jsstring :=
  map N_of_ascii (list_ascii_of_string s).

Module JsString.

(** ECMAScript [WhiteSpace] and [LineTerminator] code units: the set
    stripped by [String.prototype.trim] and matched by the regular
    expression class [\s]. *)
Definition isWhiteSpace (c : N) : bool :=
  (9 <=? c) && (c <=? 13)
  || (c =? 32) || (c =? 160) || (c =? 5760)
  || (8192 <=? c) && (c <=? 8202)
  || (c =? 8232) || (c =? 8233) || (c =? 8239) || (c =? 8287)
  || (c =? 12288) || (c =? 65279).

Fixpoint trimStart (s : jsstring) : jsstring :=
  match s with
  | c :: rest => if isWhiteSpace c then trimStart rest else s
  | [] => []
  end.

Definition trimEnd (s : jsstring) : jsstring := rev (trimStart (rev s)).

(** [s.trim()] *)
Definition trim (s : jsstring) : jsstring := trimEnd (trimStart s).

(** [s.slice(0, n)] for a non-negative constant [n]. *)
Definition slice0 (n : nat) (s : jsstring) : jsstring := take n s.

(** [s.length] *)
Definition len (s : jsstring) : N := N.of_nat (length s).

(** [s.split(sep)] for a one-code-unit separator. *)
Fixpoint split (sep : N) (s : jsstring) : list jsstring :=
  match s with
  | [] => [[]]
  | c :: rest =>
      if c =? sep then [] :: split sep rest
      else match split sep rest with
           | h :: t => (c :: h) :: t
           | [] => [[c]]
           end
  end.

(** [s.startsWith(p)] *)
Fixpoint startsWith (p s : jsstring) : bool :=
  match p, s with
  | [], _ => true
  | _ :: _, [] => false
  | a :: p', b :: s' => (a =? b) && startsWith p' s'
  end.

(** [s === t] on strings. *)
Definition eqb (s t : jsstring) : bool := bool_decide (s = t).

(** Character classes of the regular expressions in the sources. *)
Definition isDigit (c : N) : bool := (48 <=? c) && (c <=? 57).
Definition isUpper (c : N) : bool := (65 <=? c) && (c <=? 90).
Definition isLower (c : N) : bool := (97 <=? c) && (c <=? 122).
(** [[a-zA-Z0-9]] *)
Definition isAlnum (c : N) : bool := isLower c || isUpper c || isDigit c.
(** [[a-zA-Z0-9_]], also the class [\w] *)
Definition isWord (c : N) : bool := isAlnum c || (c =? 95).

(** Case-insensitive comparison of a code unit with a lower-case ASCII
    letter or punctuation mark of a pattern, as the [i] flag without the
    [u] flag does it: only the ASCII upper-case variant of a letter is
    folded onto it (a code unit above 127 is never folded to ASCII). *)
Definition matchesIgnoreCase (p c : N) : bool :=
  (c =? p) || (isLower p && (c =? p - 32)).

Fixpoint startsWithIgnoreCase (p s : jsstring) : bool :=
  match p, s with
  | [], _ => true
  | _ :: _, [] => false
  | a :: p', b :: s' => matchesIgnoreCase a b && startsWithIgnoreCase p' s'
  end.

End JsString.

(* ===================================================================== *)
(** * JSON values *)
(* ===================================================================== *)

(** A JavaScript number obtained from [JSON.parse]: a finite double is a
    rational; a literal out of range parses to an infinity. *)
Inductive jsnumber : Type :=
| NumFinite (q : Q)
| NumInfinity (negative : bool)
| NumNaN.

(** A parsed JSON value.  An object is the list of its own enumerable
    properties in [Object.entries] order. *)
Inductive json : Type :=
| JNull
| JBool (b : bool)
| JNumber (n : jsnumber)
| JString (s : jsstring)
| JArray (elements : list json)
| JObject (entries : list (jsstring * json)).

Module Js.

(** [Number.isInteger(n)] *)
Definition isInteger (n : jsnumber) : bool :=
  match n with
  | NumFinite q => (Qden (Qred q) =? 1)%positive
  | _ => false
  end.

(** [n < k] and [n > k] for an integer constant [k]; comparisons with
    [NaN] are false. *)
Definition ltZ (n : jsnumber) (k : Z) : bool :=
  match n with
  | NumFinite q => negb (Qle_bool (inject_Z k) q)
  | NumInfinity negative => negative
  | NumNaN => false
  end.

Definition gtZ (n : jsnumber) (k : Z) : bool :=
  match n with
  | NumFinite q => negb (Qle_bool q (inject_Z k))
  | NumInfinity negative => negb negative
  | NumNaN => false
  end.

(** Property read [obj.key] on a parsed JSON object; [None] is
    [undefined].  None of the keys read by the sources is a property of
    [Object.prototype]. *)
Fixpoint get (key : jsstring) (entries : list (jsstring * json)) : option json :=
  match entries with
  | [] => None
  | (k, v) :: rest => if JsString.eqb k key then Some v else get key rest
  end.

(** [!input || typeof input !== "object" || Array.isArray(input)] fails
    exactly on objects that are neither [null] nor arrays. *)
Definition asRecord (input : json) : option (list (jsstring * json)) :=
  match input with
  | JObject entries => Some entries
  | _ => None
  end.

(** The [TypeError] of a property read on [undefined] or [null]. *)
Definition propertyOfNothing : string :=
  "TypeError: Cannot read properties of undefined or null".

(** Property read [value.key] on a value that was read from parsed JSON
    ([None] is [undefined]).  Reading a property of [undefined] or [null]
    throws a [TypeError]: the result is [None].  A boolean, a number, a
    string or an array has no property of the names that the sources read
    this way, and the read gives [undefined]. *)
Definition member (key : jsstring) (value : option json) : option (option json) :=
  match value with
  | None | Some JNull => None
  | Some (JObject entries) => Some (get key entries)
  | Some _ => Some None
  end.

(** [Boolean(value)] *)
Definition truthy (value : option json) : bool :=
  match value with
  | None | Some JNull => false
  | Some (JBool b) => b
  | Some (JNumber (NumFinite q)) => negb (Qeq_bool q 0)
  | Some (JNumber (NumInfinity _)) => true
  | Some (JNumber NumNaN) => false
  | Some (JString s) => match s with [] => false | _ :: _ => true end
  | Some (JArray _) | Some (JObject _) => true
  end.

End Js.

(* ===================================================================== *)
(** * Requests, responses, effects and the platform *)
(* ===================================================================== *)

(** [process.env]: the variables the sources read; [None] is an unset
    variable. *)
Record Env : Type := {
  ALLOWED_ORIGIN : option jsstring;
  STRIPE_SECRET_KEY : option jsstring;
  STRIPE_WEBHOOK_SECRET : option jsstring;
  SUCCESS_URL : option jsstring;
  CANCEL_URL : option jsstring;
  DEFAULT_CURRENCY : option jsstring;
  ENFORCE_STRIPE_PRICE_ALLOWLIST : option jsstring;
  ALLOWED_STRIPE_PRICE_IDS : option jsstring;
  NODE_ENV : option jsstring;
  ORDER_EMAIL : option jsstring;
  RESEND_API_KEY : option jsstring;
  TURNSTILE_SECRET_KEY : option jsstring
}.

(** One result of [reader.read()] on the body stream, and what follows
    it: the stream is done, the read rejects, or it yields a value (which
    the loop also allows to be missing) and the stream goes on. *)
Inductive BodyStream : Type :=
| StreamDone
| StreamError
| StreamChunk (value : option (list Byte.byte)) (rest : BodyStream).

(** A header value as a [Headers] object holds it: a ByteString (no code
    unit above 255) without NUL, line feed or carriage return. *)
Definition isHeaderValue (value : jsstring) : bool :=
  forallb (fun c => (c <=? 255) && negb ((c =? 0) || (c =? 10) || (c =? 13))) value.

(** A [Request]: its headers under their lower-case names, and
    [request.body] ([None] is a request without a body). *)
Record Request : Type := {
  headers : gmap string jsstring;
  body : option BodyStream
}.

(** [request.headers.get(name)].  The [Headers] of a request hold header
    values only: an entry of [headers] that is not one stands for no
    header. *)
Definition headers_get (request : Request) (name : string) : option jsstring :=
  match headers request !! name with
  | Some value => if isHeaderValue value then Some value else None
  | None => None
  end.

(** A [NextResponse]: status, JSON body ([None] for [null]) and headers. *)
Record Response : Type := {
  status : Z;
  responseBody : option json;
  responseHeaders : list (string * jsstring)
}.

Inductive LogLevel : Type := LogInfo | LogWarn | LogError.

Record CheckoutItem : Type := {
  priceId : jsstring;
  quantity : jsnumber
}.

(** [Stripe.Checkout.SessionCreateParams] as built by the checkout
    handler (the constant fields [mode], [allow_promotion_codes] and
    [billing_address_collection] are left out). *)
Record SessionCreateParams : Type := {
  line_items : list CheckoutItem;
  success_url : jsstring;
  cancel_url : jsstring;
  params_metadata : gmap jsstring jsstring;
  customer_email : option jsstring
}.

Record Session : Type := {
  sessionUrl : option jsstring;
  sessionId : jsstring
}.

(** What a handler does to the outside world, in order. *)
Inductive Effect : Type :=
| EReadJson                         (** [request.json()] consumes the body *)
| ERead                             (** one [reader.read()] *)
| ECancel                           (** [reader.cancel()] *)
| EReleaseLock                      (** [reader.releaseLock()] *)
| EPush (value : list Byte.byte)    (** [chunks.push(Buffer.from(value))] *)
| ELog (level : LogLevel) (event : string) (detail : list jsstring)
    (** a log line whose fields were read from a webhook event; [None] is
        [undefined] *)
| ELogEvent (level : LogLevel) (event : string) (fields : list (string * option json))
| EConstructEvent (rawBody signature secret : jsstring)
| EListLineItems (session : json)
| ESessionsCreate (params : SessionCreateParams) (idempotencyKey : option jsstring)
| EVerifyTurnstile (token : jsstring)
| ESendEmail (to subject : jsstring).

(** What [fetch] gets from the Turnstile [siteverify] endpoint. *)
Inductive SiteverifyReply : Type :=
| FetchRejected                 (** [fetch] rejects *)
| HttpError (status : N)        (** a response that is not [ok] *)
| NotJson                       (** [response.json()] rejects *)
| Payload (payload : json).     (** the parsed body of the response *)

(** Functions of the language runtime and of the external collaborators.
    A collaborator that throws or rejects returns [None]. *)
Class Platform : Type := {
  (** the number of nested [Array.prototype.join] calls for which the call
      stack has room when a handler converts a value to a string *)
  callStackDepth : nat;
  (** [String.prototype.toLowerCase] *)
  toLowerCase : jsstring -> jsstring;
  (** [Number::toString] *)
  numberToString : jsnumber -> jsstring;
  (** [new URL(value)] does not throw *)
  isValidUrl : jsstring -> bool;
  (** [buffer.toString("utf8")] *)
  utf8Decode : list Byte.byte -> jsstring;
  (** [Buffer.from(s, "base64")] *)
  base64Decode : jsstring -> list Byte.byte;
  (** [JSON.parse] *)
  jsonParse : jsstring -> option json;
  (** [request.json()] *)
  requestJson : Request -> option json;
  (** [new Date(ms).toISOString()] *)
  toISOString : Z -> jsstring;
  (** [stripe.webhooks.constructEvent(rawBody, signature, secret)]: the
      event is the JSON value of the verified body *)
  constructEvent : jsstring -> jsstring -> jsstring -> option json;
  (** [stripe.checkout.sessions.listLineItems(sessionId, ...)] resolves
      (with a list whose [data] is an array, as the SDK documents) *)
  listLineItems : json -> bool;
  (** [stripe.checkout.sessions.create(params, { idempotencyKey })] *)
  sessionsCreate : SessionCreateParams -> option jsstring -> option Session;
  (** [fetch(TURNSTILE_VERIFY_URL, { method: "POST", body: form.toString() })]
      and [response.json()], for the fields of [form] *)
  siteverify : list (string * jsstring) -> SiteverifyReply;
  (** [resend.emails.send] resolves *)
  emailsSend : jsstring -> jsstring -> jsstring -> bool
}.

(** What a handler ends with: a response, or an exception that leaves
    the handler. *)
Inductive Outcome : Type :=
| Responded (response : Response)
| Threw (message : string).

(* ===================================================================== *)
(** * [NextResponse] of [next/server] *)
(* ===================================================================== *)

Module NextResponse.

(** [new Headers(init)] takes every value of [init]: it throws a
    [TypeError] on a value that is not a header value. *)
Definition headersAccepted (headers : list (string * jsstring)) : bool :=
  forallb (fun header => isHeaderValue (snd header)) headers.

(** [new NextResponse(body, { status, headers })]: the response, or the
    [TypeError] of its [Headers] (whose wording depends on the offending
    code unit). *)
Definition create (body : option json) (status : Z) (headers : list (string * jsstring))
  : Outcome :=
  if headersAccepted headers
  then Responded {| status := status; responseBody := body; responseHeaders := headers |}
  else Threw "TypeError: invalid header value".

(** [NextResponse.json(body, { status, headers })] *)
Definition json (body : json) (status : Z) (headers : list (string * jsstring))
  : Outcome :=
  create (Some body) status headers.

End NextResponse.

(* ===================================================================== *)
(** * [src/lib/cors.ts] *)
(* ===================================================================== *)

Module Cors.

Definition ALLOWED_METHODS : jsstring := js "POST, OPTIONS".
Definition ALLOWED_HEADERS : jsstring := js "Content-Type, Stripe-Signature, Idempotency-Key".
Definition MAX_AGE_SECONDS : jsstring := js "3600".

Definition isEmpty (s : jsstring) : bool :=
  match s with [] => true | _ => false end.

Definition parseAllowedOrigins (env : Env) : list jsstring :=
  match ALLOWED_ORIGIN env with
  | None => []
  | Some value =>
      let raw := JsString.trim value in
      if isEmpty raw then []
      else List.filter (fun origin => negb (isEmpty origin))
             (map JsString.trim (JsString.split 44 raw))
  end.

(** [configuredOrigins.includes(origin)] *)
Definition includes (origins : list jsstring) (origin : jsstring) : bool :=
  existsb (JsString.eqb origin) origins.

Definition isOriginAllowed (env : Env) (request : Request) : bool :=
  let configuredOrigins := parseAllowedOrigins env in
  if (length configuredOrigins =? 0)%nat then true
  else
    match headers_get request "origin" with
    | None => false
    | Some originHeader =>
        if isEmpty originHeader then false
        else includes configuredOrigins originHeader
    end.

Definition corsHeaders (env : Env) (request : Request) : list (string * jsstring) :=
  let configuredOrigins := parseAllowedOrigins env in
  let requestOrigin := headers_get request "origin" in
  let allowOrigin :=
    match configuredOrigins with
    | [] => js "*"
    | first :: _ =>
        match requestOrigin with
        | Some origin =>
            if negb (isEmpty origin) && includes configuredOrigins origin
            then origin else first
        | None => first
        end
    end in
  [ ("Access-Control-Allow-Origin", allowOrigin);
    ("Access-Control-Allow-Methods", ALLOWED_METHODS);
    ("Access-Control-Allow-Headers", ALLOWED_HEADERS);
    ("Access-Control-Max-Age", MAX_AGE_SECONDS) ]
  ++ match configuredOrigins with
     | [] => []
     | _ :: _ => [("Vary", js "Origin")]
     end.

(** [NextResponse.json({ error: message }, { status, headers })] *)
Definition jsonError (env : Env) (message : string) (status : Z) (request : Request)
  : Outcome :=
  NextResponse.json (JObject [(js "error", JString (js message))]) status
    (corsHeaders env request).

End Cors.

(* ===================================================================== *)
(** * [src/lib/rate-limit.ts] *)
(* ===================================================================== *)

Module RateLimit.

(** Timestamps are [Date.now()] milliseconds and counts are small
    integers: JavaScript's arithmetic on them is exact, so they are [Z]. *)
Record RateLimitEntry : Type := {
  count : Z;
  resetAt : Z
}.

Record RateLimitConfig : Type := {
  requests : Z;
  window : Z
}.

Record RateLimitResult : Type := {
  allowed : bool;
  remaining : Z;
  result_resetAt : Z
}.

(** [rateLimit(identifier, config)] at time [now] on the module's
    [rateLimitMap]; the entry object is shared with the map, so
    [entry.count++] updates the map. *)
Definition rateLimit (now : Z) (identifier : jsstring) (config : RateLimitConfig)
    (rateLimitMap : gmap jsstring RateLimitEntry)
  : RateLimitResult * gmap jsstring RateLimitEntry :=
  let createNew :=
    let newEntry := {| count := 1; resetAt := now + window config |} in
    ({| allowed := true;
        remaining := requests config - 1;
        result_resetAt := resetAt newEntry |},
     <[identifier := newEntry]> rateLimitMap) in
  match rateLimitMap !! identifier with
  | None => createNew
  | Some entry =>
      if (resetAt entry <? now)%Z then createNew
      else
        let entry := {| count := count entry + 1; resetAt := resetAt entry |} in
        let rateLimitMap := <[identifier := entry]> rateLimitMap in
        if (count entry >? requests config)%Z then
          ({| allowed := false; remaining := 0; result_resetAt := resetAt entry |},
           rateLimitMap)
        else
          ({| allowed := true;
              remaining := requests config - count entry;
              result_resetAt := resetAt entry |},
           rateLimitMap)
  end.

(** The hourly [setInterval] sweep. *)
Definition cleanup (now : Z) (rateLimitMap : gmap jsstring RateLimitEntry)
  : gmap jsstring RateLimitEntry :=
  filter (fun kv => ¬ (resetAt (snd kv) < now)%Z) rateLimitMap.

(** Successive calls for one identifier at the given times. *)
Fixpoint rateLimitCalls (times : list Z) (identifier : jsstring)
    (config : RateLimitConfig) (rateLimitMap : gmap jsstring RateLimitEntry)
  : list RateLimitResult * gmap jsstring RateLimitEntry :=
  match times with
  | [] => ([], rateLimitMap)
  | now :: later =>
      let '(result, rateLimitMap) := rateLimit now identifier config rateLimitMap in
      let '(results, rateLimitMap) := rateLimitCalls later identifier config rateLimitMap in
      (result :: results, rateLimitMap)
  end.

End RateLimit.

(* ===================================================================== *)
(** * [src/lib/stripe-price-allowlist.ts] *)
(* ===================================================================== *)

Module PriceAllowlist.

(** [/^price_[a-zA-Z0-9]+$/.test(s)] *)
Definition PRICE_ID_PATTERN_test (s : jsstring) : bool :=
  JsString.startsWith (js "price_") s
  && match drop 6 s with
     | [] => false
     | rest => forallb JsString.isAlnum rest
     end.

Definition parseCsv (input : jsstring) : list jsstring :=
  List.filter (fun value => (0 <? length value)%nat)
    (map JsString.trim (JsString.split 44 input)).

Record StripePriceAllowlist : Type := {
  enforce : bool;
  allowedPriceIds : gset jsstring
}.

Definition getStripePriceAllowlist `{Platform} (env : Env) : StripePriceAllowlist :=
  let allowlistRaw := default [] (JsString.trim <$> ALLOWED_STRIPE_PRICE_IDS env) in
  let enforceRaw := default [] (JsString.trim <$> ENFORCE_STRIPE_PRICE_ALLOWLIST env) in
  let allowed : gset jsstring := list_to_set (parseCsv allowlistRaw) in
  let enforce :=
    if (0 <? length enforceRaw)%nat
    then JsString.eqb (toLowerCase enforceRaw) (js "true")
    else bool_decide (NODE_ENV env = Some (js "production")) in
  {| enforce := enforce; allowedPriceIds := allowed |}.

(** Returns the error message, [None] for [null]. *)
Definition validateStripePriceId (priceId : jsstring) : option string :=
  let trimmed := JsString.trim priceId in
  if Cors.isEmpty trimmed then Some "priceId must be a non-empty string."%string
  else if negb (PRICE_ID_PATTERN_test trimmed)
  then Some "priceId must look like a Stripe Price ID (price_...)."%string
  else None.

End PriceAllowlist.

(* ===================================================================== *)
(** * [String(value)] on parsed JSON values *)
(* ===================================================================== *)

Module JsConvert.

(** The exceptions of [String(value)]. *)
Inductive Exception : Type :=
| NotPrimitive          (** [TypeError]: no primitive value *)
| CallStackExceeded.    (** [RangeError]: the call stack is exhausted *)

Definition message (e : Exception) : string :=
  match e with
  | NotPrimitive => "TypeError: Cannot convert object to primitive value"
  | CallStackExceeded => "RangeError: Maximum call stack size exceeded"
  end.

(** [String(value)], with room for [depth] nested calls of
    [Array.prototype.join].  Strings, booleans, numbers and [null]
    convert directly.  An array converts through [Array.prototype.join]:
    its elements are converted in turn ([null] to the empty string) and
    joined with commas; every level of nesting is one more call on the
    stack, and the conversion throws a [RangeError] when the stack has no
    room for it.  An object converts through [OrdinaryToPrimitive]:
    [toString] is tried first, then [valueOf].  An object without own
    [toString] property inherits [Object.prototype.toString] and gives
    ["[object Object]"]; an own [toString] property of a parsed JSON
    object is never callable, [valueOf] (own, not callable, or inherited,
    returning the object itself) yields no primitive either, and the
    conversion throws a [TypeError]. *)
Fixpoint toString `{Platform} (depth : nat) (value : json) {struct value}
  : Exception + jsstring :=
  match value with
  | JNull => inr (js "null")
  | JBool b => inr (if b then js "true" else js "false")
  | JNumber n => inr (numberToString n)
  | JString s => inr s
  | JArray elements =>
      match depth with
      | O => inl CallStackExceeded
      | S depth =>
          (fix join (l : list json) : Exception + jsstring :=
             match l with
             | [] => inr []
             | element :: rest =>
                 match (match element with
                        | JNull => inr []
                        | _ => toString depth element
                        end) with
                 | inl e => inl e
                 | inr s =>
                     match join rest with
                     | inl e => inl e
                     | inr r => inr (match rest with [] => s | _ :: _ => s ++ 44 :: r end)
                     end
                 end
             end) elements
      end
  | JObject entries =>
      match Js.get (js "toString") entries with
      | Some _ => inl NotPrimitive
      | None => inr (js "[object Object]")
      end
  end.

End JsConvert.

(* ===================================================================== *)
(** * [src/app/api/checkout/route.ts] *)
(* ===================================================================== *)

Module Checkout.

Import Cors PriceAllowlist.

Definition MAX_QUANTITY : Z := 99.
Definition MAX_LINE_ITEMS : nat := 50.
Definition MAX_METADATA_KEY_LENGTH : nat := 40.
Definition MAX_METADATA_VALUE_LENGTH : nat := 500.
Definition MAX_METADATA_ENTRIES : nat := 50.

Record CheckoutPayload : Type := {
  items : list CheckoutItem;
  customerEmail : option jsstring;
  metadata : option (list (jsstring * json))
}.

(** The errors of [validatePayload], with the index of the item for the
    per-item ones; [errorMessage] gives the string the source builds. *)
Inductive ItemError : Type :=
| ItemNotObject
| PriceIdNotString
| PriceIdInvalid (priceIdError : string)
| QuantityInvalid.

Inductive ValidationError : Type :=
| BodyNotObject
| ItemsNotArray
| ItemsTooMany
| ItemInvalid (index : nat) (e : ItemError)
| CustomerEmailNotString
| MetadataNotObject.

Definition errorMessage (e : ValidationError) : string :=
  match e with
  | BodyNotObject => "Body must be a JSON object."
  | ItemsNotArray => "items must be a non-empty array."
  | ItemsTooMany => "items must not exceed " ++ pretty MAX_LINE_ITEMS ++ " line items."
  | ItemInvalid index ItemNotObject =>
      "items[" ++ pretty index ++ "] must be an object."
  | ItemInvalid index PriceIdNotString =>
      "items[" ++ pretty index ++ "].priceId must be a string."
  | ItemInvalid index (PriceIdInvalid priceIdError) =>
      "items[" ++ pretty index ++ "]." ++ priceIdError
  | ItemInvalid index QuantityInvalid =>
      "items[" ++ pretty index ++ "].quantity must be an integer between 1 and 99."
  | CustomerEmailNotString => "customerEmail must be a string when provided."
  | MetadataNotObject => "metadata must be an object when provided."
  end%string.

Definition getRequiredUrl `{Platform} (value : option jsstring) : option jsstring :=
  match JsString.trim <$> value with
  | None => None
  | Some value =>
      if isEmpty value then None
      else if isValidUrl value then Some value else None
  end.

(** [rawKey.replace(/[^a-zA-Z0-9_]/g, "_").slice(0, MAX_METADATA_KEY_LENGTH)] *)
Definition sanitizeKey (rawKey : jsstring) : jsstring :=
  JsString.slice0 MAX_METADATA_KEY_LENGTH
    (map (fun c => if JsString.isWord c then c else 95) rawKey).

(** [sanitized[key] = value] on a plain object: an ordinary property is
    created or overwritten; ["__proto__"] is the accessor of
    [Object.prototype], whose setter ignores a string. *)
Definition setProperty (key value : jsstring) (sanitized : gmap jsstring jsstring)
  : gmap jsstring jsstring :=
  if JsString.eqb key (js "__proto__") then sanitized
  else <[key := value]> sanitized.

(** The [for ... of Object.entries(input)] loop: the exception of
    [String(rawValue)], or the object built. *)
Fixpoint sanitizeEntries `{Platform} (entries : list (jsstring * json))
    (sanitized : gmap jsstring jsstring)
  : JsConvert.Exception + gmap jsstring jsstring :=
  match entries with
  | [] => inr sanitized
  | (rawKey, rawValue) :: rest =>
      if (MAX_METADATA_ENTRIES - 1 <=? size sanitized)%nat then inr sanitized
      else
        match rawValue with
        | JNull => sanitizeEntries rest sanitized
        | _ =>
            let key := sanitizeKey rawKey in
            if isEmpty key || JsString.eqb key (js "source")
            then sanitizeEntries rest sanitized
            else
              match JsConvert.toString callStackDepth rawValue with
              | inl exception => inl exception
              | inr text =>
                  sanitizeEntries rest
                    (setProperty key (JsString.slice0 MAX_METADATA_VALUE_LENGTH text)
                       sanitized)
              end
        end
  end.

(** [sanitizeMetadata(input)]: the object returned, [None] when the loop
    throws. *)
Definition sanitizeMetadata `{Platform} (input : option (list (jsstring * json)))
  : option (gmap jsstring jsstring) :=
  match (match input with
         | Some entries => sanitizeEntries entries ∅
         | None => inr ∅
         end) with
  | inl _ => None
  | inr sanitized => Some (<[js "source" := js "framer"]> sanitized)
  end.

(** The exception that leaves [sanitizeMetadata(input)] when it throws. *)
Definition sanitizeMetadataException `{Platform} (input : option (list (jsstring * json)))
  : string :=
  match input with
  | Some entries =>
      match sanitizeEntries entries ∅ with
      | inl exception => JsConvert.message exception
      | inr _ => ""
      end
  | None => ""
  end.

(** The loop over [itemsInput.entries()], from position [index] on. *)
Fixpoint validateItems (index : nat) (itemsInput : list json)
  : ValidationError + list CheckoutItem :=
  match itemsInput with
  | [] => inr []
  | item :: rest =>
      match Js.asRecord item with
      | None => inl (ItemInvalid index ItemNotObject)
      | Some itemObject =>
          match Js.get (js "priceId") itemObject with
          | Some (JString priceId) =>
              match validateStripePriceId priceId with
              | Some priceIdError => inl (ItemInvalid index (PriceIdInvalid priceIdError))
              | None =>
                  match Js.get (js "quantity") itemObject with
                  | Some (JNumber quantity) =>
                      if negb (Js.isInteger quantity)
                         || Js.ltZ quantity 1
                         || Js.gtZ quantity MAX_QUANTITY
                      then inl (ItemInvalid index QuantityInvalid)
                      else
                        match validateItems (S index) rest with
                        | inl e => inl e
                        | inr parsedItems =>
                            inr ({| priceId := JsString.trim priceId;
                                    quantity := quantity |} :: parsedItems)
                        end
                  | _ => inl (ItemInvalid index QuantityInvalid)
                  end
              end
          | _ => inl (ItemInvalid index PriceIdNotString)
          end
      end
  end.

Definition validatePayload (input : json) : ValidationError + CheckoutPayload :=
  match Js.asRecord input with
  | None => inl BodyNotObject
  | Some body =>
      match Js.get (js "items") body with
      | Some (JArray itemsInput) =>
          if (length itemsInput =? 0)%nat then inl ItemsNotArray
          else if (MAX_LINE_ITEMS <? length itemsInput)%nat then inl ItemsTooMany
          else
            match validateItems 0 itemsInput with
            | inl e => inl e
            | inr parsedItems =>
                match (match Js.get (js "customerEmail") body with
                       | None => inr None
                       | Some (JString customerEmailInput) =>
                           let trimmedEmail := JsString.trim customerEmailInput in
                           if (0 <? length trimmedEmail)%nat
                           then inr (Some trimmedEmail) else inr None
                       | Some _ => inl CustomerEmailNotString
                       end) with
                | inl e => inl e
                | inr customerEmail =>
                    match Js.get (js "metadata") body with
                    | None =>
                        inr {| items := parsedItems;
                               customerEmail := customerEmail;
                               metadata := None |}
                    | Some (JObject metadataInput) =>
                        inr {| items := parsedItems;
                               customerEmail := customerEmail;
                               metadata := Some metadataInput |}
                    | Some _ => inl MetadataNotObject
                    end
                end
            end
      | _ => inl ItemsNotArray
      end
  end.

(** [getStripeClient()] of [src/lib/stripe.ts] returns a client; it
    throws when [STRIPE_SECRET_KEY] is unset or empty. *)
Definition getStripeClient (env : Env) : bool :=
  match STRIPE_SECRET_KEY env with
  | None => false
  | Some secretKey => negb (isEmpty secretKey)
  end.

(** [items.map(item => item.priceId).filter(id => !allowedPriceIds.has(id))] *)
Definition invalidIds (allowlist : StripePriceAllowlist) (payload : CheckoutPayload)
  : list jsstring :=
  List.filter (fun priceId => negb (bool_decide (priceId ∈ allowedPriceIds allowlist)))
    (map priceId (items payload)).

(** The end of [POST], from [sanitizeMetadata] on: the session is built
    and created. *)
Definition createSession `{Platform} (env : Env) (request : Request)
    (successUrl cancelUrl : jsstring) (payload : CheckoutPayload)
  : list Effect * Outcome :=
  match sanitizeMetadata (metadata payload) with
  | None => ([], Threw (sanitizeMetadataException (metadata payload)))
  | Some metadata =>
      let currency :=
        match JsString.trim <$> DEFAULT_CURRENCY env with
        | Some (c :: rest) => c :: rest
        | _ => js "gbp"
        end in
      let metadata :=
        <[js "default_currency" := JsString.slice0 MAX_METADATA_VALUE_LENGTH currency]>
          metadata in
      let params :=
        {| line_items := items payload;
           success_url := successUrl;
           cancel_url := cancelUrl;
           params_metadata := metadata;
           customer_email := customerEmail payload |} in
      let idempotencyKey :=
        match headers_get request "idempotency-key" with
        | Some idempotencyKeyHeader =>
            if (0 <? length (JsString.trim idempotencyKeyHeader))%nat
            then Some (JsString.slice0 255 (JsString.trim idempotencyKeyHeader))
            else None
        | None => None
        end in
      let failed := jsonError env "Failed to create checkout session." 500 request in
      if negb (getStripeClient env)
      then ([ELog LogError "checkout_session_create_failed" []], failed)
      else
        match sessionsCreate params idempotencyKey with
        | None =>
            ([ESessionsCreate params idempotencyKey;
              ELog LogError "checkout_session_create_failed" []], failed)
        | Some session =>
            ([ESessionsCreate params idempotencyKey;
              ELog LogInfo "checkout_session_created" [sessionId session]],
             match sessionUrl session with
             | Some (c :: rest) =>
                 NextResponse.json
                   (JObject [(js "url", JString (c :: rest));
                             (js "id", JString (sessionId session))])
                   200 (corsHeaders env request)
             | _ =>
                 jsonError env
                   "Stripe session was created without a redirect URL." 500 request
             end)
        end
  end.

(** [POST] of the checkout route. *)
Definition POST `{Platform} (env : Env) (request : Request) : list Effect * Outcome :=
  if negb (isOriginAllowed env request)
  then ([], jsonError env "Forbidden origin." 403 request)
  else
    match getRequiredUrl (SUCCESS_URL env), getRequiredUrl (CANCEL_URL env) with
    | Some successUrl, Some cancelUrl =>
        let allowlist := getStripePriceAllowlist env in
        match requestJson request with
        | None =>
            ([EReadJson], jsonError env "Invalid JSON request body." 400 request)
        | Some body =>
            match validatePayload body with
            | inl error =>
                ([EReadJson], jsonError env (errorMessage error) 400 request)
            | inr payload =>
                let proceed (logged : list Effect) :=
                  let '(effects, outcome) :=
                    createSession env request successUrl cancelUrl payload in
                  (EReadJson :: logged ++ effects, outcome) in
                if enforce allowlist then
                  if (size (allowedPriceIds allowlist) =? 0)%nat then
                    ([EReadJson],
                     jsonError env
                       "Server misconfigured: ENFORCE_STRIPE_PRICE_ALLOWLIST is enabled but ALLOWED_STRIPE_PRICE_IDS is empty."
                       500 request)
                  else if (0 <? length (invalidIds allowlist payload))%nat then
                    ([EReadJson;
                      ELog LogWarn "checkout_rejected_price_not_allowlisted"
                        (invalidIds allowlist payload)],
                     jsonError env "Cart contains invalid items." 400 request)
                  else proceed []
                else if (0 <? size (allowedPriceIds allowlist))%nat then
                  if (0 <? length (invalidIds allowlist payload))%nat then
                    proceed [ELog LogWarn "checkout_warning_price_not_allowlisted"
                               (invalidIds allowlist payload)]
                  else proceed []
                else proceed []
            end
        end
    | _, _ =>
        ([], jsonError env
           "Server misconfigured: SUCCESS_URL and CANCEL_URL must be valid absolute URLs."
           500 request)
    end.

(** [OPTIONS] of the checkout route: the preflight request. *)
Definition OPTIONS (env : Env) (request : Request) : Outcome :=
  if negb (isOriginAllowed env request)
  then jsonError env "Forbidden origin." 403 request
  else NextResponse.create None 204 (corsHeaders env request).

End Checkout.

(* ===================================================================== *)
(** * The bounded body reader

    [parseContentLength] and [readRequestBodyWithLimit] are defined, with
    the same text, in [src/app/api/webhook/route.ts] and in
    [src/app/api/custom-order/route.ts]. *)
(* ===================================================================== *)

Module BodyReader.

Record ParsedContentLength : Type := {
  bytes : option N;
  invalid : bool
}.

Inductive FailureReason : Type := too_large | invalid_body.

Inductive BodyReadResult : Type :=
| ReadOk (body : jsstring)
| ReadFailed (reason : FailureReason).

(** [/^\d+$/.test(s)] *)
Definition digitsOnly (s : jsstring) : bool :=
  match s with
  | [] => false
  | _ :: _ => forallb JsString.isDigit s
  end.

(** The value of a string of decimal digits. *)
Definition decimalValue (s : jsstring) : N :=
  fold_left (fun acc c => 10 * acc + (c - 48)) s 0.

Definition MAX_SAFE_INTEGER : N := 2 ^ 53 - 1.

(** [Number.parseInt(trimmed, 10)] followed by [Number.isSafeInteger]:
    [parseInt] rounds the decimal value to the nearest double; rounding
    is monotone and leaves the integers up to [2^53] unchanged, so the
    result is a safe integer exactly when the decimal value is at most
    [2^53 - 1], and it then is that value. *)
Definition parseContentLength (headerValue : option jsstring) : ParsedContentLength :=
  match headerValue with
  | None => {| bytes := None; invalid := false |}
  | Some headerValue =>
      let trimmed := JsString.trim headerValue in
      if negb (digitsOnly trimmed) then {| bytes := None; invalid := true |}
      else
        let value := decimalValue trimmed in
        if negb (value <=? MAX_SAFE_INTEGER) then {| bytes := None; invalid := true |}
        else {| bytes := Some value; invalid := false |}
  end.

(** [value.byteLength] *)
Definition byteLength (value : list Byte.byte) : N := N.of_nat (length value).

(** [Buffer.concat(chunks, totalLength)]: the chunks in order, cut or
    zero-filled to [totalLength] bytes. *)
Definition Buffer_concat (chunks : list (list Byte.byte)) (totalLength : N)
  : list Byte.byte :=
  let all := concat chunks in
  take (N.to_nat totalLength) all
  ++ replicate (N.to_nat totalLength - length all) Byte.x00.

(** The [while (true)] loop, with [chunks] and [totalBytes] as loop
    state; [EPush value] records [chunks.push(Buffer.from(value))], and
    [reader.cancel()] is taken to resolve. *)
Fixpoint readLoop `{Platform} (maxBytes : N) (stream : BodyStream)
    (chunks : list (list Byte.byte)) (totalBytes : N)
  : list Effect * BodyReadResult :=
  match stream with
  | StreamDone =>
      ([ERead; EReleaseLock], ReadOk (utf8Decode (Buffer_concat chunks totalBytes)))
  | StreamError => ([ERead; EReleaseLock], ReadFailed invalid_body)
  | StreamChunk None rest =>
      let '(effects, result) := readLoop maxBytes rest chunks totalBytes in
      (ERead :: effects, result)
  | StreamChunk (Some value) rest =>
      let totalBytes := totalBytes + byteLength value in
      if maxBytes <? totalBytes
      then ([ERead; ECancel; EReleaseLock], ReadFailed too_large)
      else
        let '(effects, result) := readLoop maxBytes rest (chunks ++ [value]) totalBytes in
        (ERead :: EPush value :: effects, result)
  end.

Definition readRequestBodyWithLimit `{Platform} (request : Request) (maxBytes : N)
  : list Effect * BodyReadResult :=
  match body request with
  | None => ([], ReadOk (js ""))
  | Some stream => readLoop maxBytes stream [] 0
  end.

End BodyReader.

(* ===================================================================== *)
(** * [src/app/api/webhook/route.ts] *)
(* ===================================================================== *)

Module Webhook.

Import Cors BodyReader.

Definition MAX_WEBHOOK_BODY_BYTES : N := 256 * 1024.

Definition getWebhookSecret (env : Env) : option jsstring :=
  match JsString.trim <$> STRIPE_WEBHOOK_SECRET env with
  | Some (c :: rest) => Some (c :: rest)
  | _ => None
  end.

(** [value.key] on a value that is neither [undefined] nor [null]. *)
Definition field (key : string) (value : option json) : option json :=
  default None (Js.member (js key) value).

Definition extractCustomerId (customer : option json) : option json :=
  if negb (Js.truthy customer) then Some JNull
  else
    match customer with
    | Some (JString id) => Some (JString id)
    | _ => field "id" customer
    end.

(** [safeListCheckoutLineItems(stripe, sessionId)]: a failure of the
    call is logged and gives [null]. *)
Definition safeListCheckoutLineItems `{Platform} (sessionId : json) : list Effect :=
  EListLineItems sessionId
  :: (if listLineItems sessionId then []
      else [ELogEvent LogError "webhook_list_line_items_failed"
              [("sessionId", Some sessionId)]]).

(** The [switch (event.type)]: what the handler does with a verified
    event, and the exception that leaves it, if any.  The line items that
    the SDK returned are left out of the log line. *)
Definition routeEvent `{Platform} (event : json) : list Effect * option string :=
  match Js.member (js "type") (Some event) with
  | None => ([], Some Js.propertyOfNothing)
  | Some type =>
      let unhandled :=
        ([ELogEvent LogInfo "webhook_unhandled_event"
            [("type", type); ("id", field "id" (Some event))]], None) in
      match type with
      | Some (JString type) =>
          if JsString.eqb type (js "checkout.session.completed") then
            match Js.member (js "object") (field "data" (Some event)) with
            | None => ([], Some Js.propertyOfNothing)
            | Some session =>
                match Js.member (js "id") session with
                | None => ([], Some Js.propertyOfNothing)
                | Some sessionId =>
                    ((match sessionId with
                      | Some id =>
                          if Js.truthy sessionId then safeListCheckoutLineItems id else []
                      | None => []
                      end)
                     ++ [ELogEvent LogInfo "checkout.session.completed"
                           [("eventId", field "id" (Some event));
                            ("sessionId", sessionId);
                            ("sessionStatus", field "status" session);
                            ("paymentStatus", field "payment_status" session);
                            ("amountTotal", field "amount_total" session);
                            ("currency", field "currency" session);
                            ("customerId",
                             extractCustomerId (field "customer" session))]],
                     None)
                end
            end
          else if JsString.eqb type (js "payment_intent.succeeded") then
            match Js.member (js "object") (field "data" (Some event)) with
            | None => ([], Some Js.propertyOfNothing)
            | Some paymentIntent =>
                match Js.member (js "id") paymentIntent with
                | None => ([], Some Js.propertyOfNothing)
                | Some paymentIntentId =>
                    ([ELogEvent LogInfo "payment_intent.succeeded"
                        [("eventId", field "id" (Some event));
                         ("paymentIntentId", paymentIntentId);
                         ("status", field "status" paymentIntent);
                         ("amount", field "amount" paymentIntent);
                         ("currency", field "currency" paymentIntent);
                         ("customerId",
                          extractCustomerId (field "customer" paymentIntent))]],
                     None)
                end
            end
          else unhandled
      | _ => unhandled
      end
  end.

(** [NextResponse.json({ received: true }, { headers: corsHeaders(request) })] *)
Definition received (env : Env) (request : Request) : Outcome :=
  NextResponse.json (JObject [(js "received", JBool true)]) 200
    (corsHeaders env request).

(** [POST] of the webhook route. *)
Definition POST `{Platform} (env : Env) (request : Request) : list Effect * Outcome :=
  match getWebhookSecret env with
  | None =>
      ([], jsonError env "Server misconfigured: missing STRIPE_WEBHOOK_SECRET." 500
             request)
  | Some webhookSecret =>
      match headers_get request "stripe-signature" with
      | Some (c :: rest) =>
          let signature := c :: rest in
          let contentLength := parseContentLength (headers_get request "content-length") in
          if invalid contentLength then
            ([], jsonError env "Invalid Content-Length header." 400 request)
          else if match bytes contentLength with
                  | Some declared => MAX_WEBHOOK_BODY_BYTES <? declared
                  | None => false
                  end then
            ([], jsonError env "Payload too large." 413 request)
          else
            let '(readEffects, bodyRead) :=
              readRequestBodyWithLimit request MAX_WEBHOOK_BODY_BYTES in
            match bodyRead with
            | ReadFailed too_large =>
                (readEffects, jsonError env "Payload too large." 413 request)
            | ReadFailed invalid_body =>
                (readEffects ++ [ELog LogError "webhook_body_read_failed" []],
                 jsonError env "Invalid webhook request body." 400 request)
            | ReadOk rawBody =>
                if negb (Checkout.getStripeClient env) then
                  (readEffects, Threw "Missing STRIPE_SECRET_KEY environment variable.")
                else
                  match constructEvent rawBody signature webhookSecret with
                  | None =>
                      (readEffects
                       ++ [EConstructEvent rawBody signature webhookSecret;
                           ELog LogError "webhook_signature_verification_failed" []],
                       jsonError env "Invalid webhook signature." 400 request)
                  | Some event =>
                      (readEffects
                       ++ EConstructEvent rawBody signature webhookSecret
                       :: fst (routeEvent event),
                       match snd (routeEvent event) with
                       | Some exception => Threw exception
                       | None => received env request
                       end)
                  end
            end
      | _ => ([], jsonError env "Missing Stripe-Signature header." 400 request)
      end
  end.

(** [OPTIONS] of the webhook route. *)
Definition OPTIONS (env : Env) (request : Request) : Outcome :=
  NextResponse.create None 204 (corsHeaders env request).

End Webhook.

(* ===================================================================== *)
(** * [src/app/api/custom-order/route.ts] *)
(* ===================================================================== *)

Module CustomOrder.

Import Cors BodyReader.

Definition MAX_REQUEST_BYTES : N := 3 * 1024 * 1024.
Definition MAX_DESIGN_IMAGE_BYTES : N := 2 * 1024 * 1024.
Definition MAX_CAPTCHA_TOKEN_LENGTH : nat := 2048.
Definition MAX_NAME_LENGTH : nat := 100.
Definition MAX_EMAIL_LENGTH : nat := 254.
Definition MAX_PRODUCT_FIELD_LENGTH : nat := 100.
Definition MAX_COLOR_LENGTH : nat := 64.
Definition MAX_COLORS : nat := 10.

Record CustomOrderData : Type := {
  name : jsstring;
  email : jsstring;
  productType : jsstring;
  colors : list jsstring;
  orientation : jsstring;
  stitchType : jsstring;
  (** [None] is [undefined], [Some None] is [null] *)
  designImage : option (option jsstring)
}.

(** [/^[^\s@]+@[^\s@]+\.[^\s@]+$/.test(s)]: a non-empty run without
    white space or [@], an [@], and a run without white space or [@] that
    has a dot strictly inside it. *)
Definition notSpaceOrAt (c : N) : bool :=
  negb (JsString.isWhiteSpace c) && negb (c =? 64).

Fixpoint splitAt (sep : N) (s : jsstring) : option (jsstring * jsstring) :=
  match s with
  | [] => None
  | c :: rest =>
      if c =? sep then Some ([], rest)
      else match splitAt sep rest with
           | Some (before, after) => Some (c :: before, after)
           | None => None
           end
  end.

Definition EMAIL_REGEX_test (s : jsstring) : bool :=
  match splitAt 64 s with
  | Some (c :: local, domain) =>
      forallb notSpaceOrAt (c :: local)
      && forallb notSpaceOrAt domain
      && match domain with
         | _ :: inner => existsb (N.eqb 46) (removelast inner)
         | [] => false
         end
  | _ => false
  end.

(** [s.replace(/[<>]/g, "")] *)
Definition removeAngleBrackets (s : jsstring) : jsstring :=
  List.filter (fun c => negb ((c =? 60) || (c =? 62))) s.

(** [s.replace(/javascript:/gi, "")]: scanning from the left, a match
    is dropped and the scan resumes after it; [skip] counts the code
    units of the current match still to drop. *)
Fixpoint removeJavascript (skip : nat) (s : jsstring) : jsstring :=
  match s with
  | [] => []
  | c :: rest =>
      match skip with
      | S k => removeJavascript k rest
      | O =>
          if JsString.startsWithIgnoreCase (js "javascript:") s
          then removeJavascript 10 rest
          else c :: removeJavascript 0 rest
      end
  end.

(** The longest prefix of word characters. *)
Fixpoint wordRun (s : jsstring) : nat :=
  match s with
  | c :: rest => if JsString.isWord c then S (wordRun rest) else 0
  | [] => 0
  end.

(** The length of the match of [/on\w+=/i] at the start of [s], if any:
    [\w+] is greedy, and since [=] is no word character the match exists
    exactly when the longest run of word characters after [on] is
    non-empty and followed by [=]. *)
Definition eventHandlerMatch (s : jsstring) : option nat :=
  match s with
  | o :: n :: rest =>
      if JsString.matchesIgnoreCase 111 o && JsString.matchesIgnoreCase 110 n then
        let run := wordRun rest in
        match run, drop run rest with
        | S _, c :: _ => if c =? 61 then Some (2 + run + 1)%nat else None
        | _, _ => None
        end
      else None
  | _ => None
  end.

(** [s.replace(/on\w+=/gi, "")] *)
Fixpoint removeEventHandlers (skip : nat) (s : jsstring) : jsstring :=
  match s with
  | [] => []
  | c :: rest =>
      match skip with
      | S k => removeEventHandlers k rest
      | O =>
          match eventHandlerMatch s with
          | Some matched => removeEventHandlers (matched - 1) rest
          | None => c :: removeEventHandlers 0 rest
          end
      end
  end.

Definition sanitizeInput (input : jsstring) (maxLength : nat) : jsstring :=
  JsString.slice0 maxLength
    (JsString.trim
       (removeEventHandlers 0
          (removeJavascript 0
             (removeAngleBrackets input)))).

(** [/^data:(image\/png|image\/jpeg);base64,([A-Za-z0-9+/=]+)$/]: the
    second group of the match. *)
Definition isBase64Char (c : N) : bool :=
  JsString.isAlnum c || (c =? 43) || (c =? 47) || (c =? 61).

Definition stripPrefix (p s : jsstring) : option jsstring :=
  if JsString.startsWith p s then Some (drop (length p) s) else None.

Definition dataUriMatch (s : jsstring) : option jsstring :=
  match stripPrefix (js "data:") s with
  | None => None
  | Some afterScheme =>
      match (match stripPrefix (js "image/png") afterScheme with
             | Some r => Some r
             | None => stripPrefix (js "image/jpeg") afterScheme
             end) with
      | None => None
      | Some afterType =>
          match stripPrefix (js ";base64,") afterType with
          | Some (c :: rest) =>
              if forallb isBase64Char (c :: rest) then Some (c :: rest) else None
          | _ => None
          end
      end
  end.

(** [None] is [undefined], [Some None] is [null]. *)
Definition parseDesignImage `{Platform} (input : option json) : option (option jsstring) :=
  match input with
  | None => None
  | Some JNull => Some None
  | Some (JString input) =>
      let trimmed := JsString.trim input in
      if isEmpty trimmed then Some None
      else
        match dataUriMatch trimmed with
        | None => None
        | Some encoded =>
            let decodedBuffer := base64Decode encoded in
            if (byteLength decodedBuffer =? 0)
               || (MAX_DESIGN_IMAGE_BYTES <? byteLength decodedBuffer)
            then None
            else Some (Some trimmed)
        end
  | Some _ => None
  end.

(** The loop over [colors]. *)
Fixpoint sanitizeColors (colors : list json) : string + list jsstring :=
  match colors with
  | [] => inr []
  | JString color :: rest =>
      let sanitizedColor := sanitizeInput color MAX_COLOR_LENGTH in
      if isEmpty sanitizedColor then inl "Each color must be non-empty."%string
      else
        match sanitizeColors rest with
        | inl e => inl e
        | inr sanitizedColors => inr (sanitizedColor :: sanitizedColors)
        end
  | _ :: _ => inl "Each color must be a string."%string
  end.

(** [validatePayload]: the error message, or the payload with the
    captcha token ([None] for [null]). *)
Definition validatePayload `{Platform} (input : json)
  : string + (CustomOrderData * option jsstring) :=
  match Js.asRecord input with
  | None => inl "Body must be a JSON object."%string
  | Some body =>
      match Js.get (js "name") body, Js.get (js "email") body,
            Js.get (js "productType") body with
      | Some (JString name), Some (JString email), Some (JString productType) =>
          let trimmedName := JsString.trim name in
          let trimmedEmail := JsString.trim email in
          let trimmedProductType := JsString.trim productType in
          if isEmpty trimmedName || isEmpty trimmedEmail || isEmpty trimmedProductType
          then inl "Missing required fields."%string
          else if negb (EMAIL_REGEX_test trimmedEmail)
          then inl "Invalid email format."%string
          else if (length trimmedName <? 2)%nat
                  || (MAX_NAME_LENGTH <? length trimmedName)%nat
                  || (MAX_EMAIL_LENGTH <? length trimmedEmail)%nat
                  || (MAX_PRODUCT_FIELD_LENGTH <? length trimmedProductType)%nat
          then inl "Invalid field length."%string
          else
            match Js.get (js "colors") body with
            | Some (JArray colors) =>
                if (length colors =? 0)%nat || (MAX_COLORS <? length colors)%nat
                then inl "Invalid colors selection (1-10 colors required)."%string
                else
                  match sanitizeColors colors with
                  | inl e => inl e
                  | inr sanitizedColors =>
                      let orientationValue :=
                        match Js.get (js "orientation") body with
                        | Some (JString orientation) => orientation
                        | _ => js ""
                        end in
                      let stitchTypeValue :=
                        match Js.get (js "stitchType") body with
                        | Some (JString stitchType) => stitchType
                        | _ => js ""
                        end in
                      let parsedDesignImage :=
                        parseDesignImage (Js.get (js "designImage") body) in
                      match Js.get (js "designImage") body, parsedDesignImage with
                      | Some _, None => inl "Invalid design image payload."%string
                      | _, _ =>
                          match (match Js.get (js "captchaToken") body with
                                 | None | Some JNull => inr None
                                 | Some (JString rawCaptchaToken) =>
                                     let trimmedCaptchaToken :=
                                       JsString.trim rawCaptchaToken in
                                     if isEmpty trimmedCaptchaToken
                                        || (MAX_CAPTCHA_TOKEN_LENGTH
                                            <? length trimmedCaptchaToken)%nat
                                     then inl "Invalid captcha token."%string
                                     else inr (Some trimmedCaptchaToken)
                                 | Some _ => inl "Invalid captcha token."%string
                                 end) with
                          | inl e => inl e
                          | inr captchaToken =>
                              inr ({| name := sanitizeInput trimmedName MAX_NAME_LENGTH;
                                      email := sanitizeInput trimmedEmail MAX_EMAIL_LENGTH;
                                      productType :=
                                        sanitizeInput trimmedProductType
                                          MAX_PRODUCT_FIELD_LENGTH;
                                      colors := sanitizedColors;
                                      orientation :=
                                        sanitizeInput orientationValue
                                          MAX_PRODUCT_FIELD_LENGTH;
                                      stitchType :=
                                        sanitizeInput stitchTypeValue
                                          MAX_PRODUCT_FIELD_LENGTH;
                                      designImage := parsedDesignImage |},
                                   captchaToken)
                          end
                      end
                  end
            | _ => inl "Invalid colors selection (1-10 colors required)."%string
            end
      | _, _, _ => inl "Missing required fields."%string
      end
  end.

Definition nonEmptyTrimmed (value : option jsstring) : option jsstring :=
  match JsString.trim <$> value with
  | Some (c :: rest) => Some (c :: rest)
  | _ => None
  end.

Definition getTurnstileSecret (env : Env) : option jsstring :=
  nonEmptyTrimmed (TURNSTILE_SECRET_KEY env).

Definition getClientIp (request : Request) : jsstring :=
  let fromRealIp :=
    match nonEmptyTrimmed (headers_get request "x-real-ip") with
    | Some realIp => JsString.slice0 100 realIp
    | None => js "unknown"
    end in
  match headers_get request "x-forwarded-for" with
  | Some (c :: rest) =>
      match JsString.trim <$> head (JsString.split 44 (c :: rest)) with
      | Some (h :: firstHop) => JsString.slice0 100 (h :: firstHop)
      | _ => fromRealIp
      end
  | _ => fromRealIp
  end.

(** [verifyTurnstileToken({ token, secret, ip })]: [verified] and
    [errorCodes]; [None] when reading [payload["error-codes"]] throws, on
    a reply whose body is [null]. *)
Definition verifyTurnstileToken `{Platform} (token secret ip : jsstring)
  : option (bool * list jsstring) :=
  let form :=
    [("secret", secret); ("response", token)]
    ++ (if JsString.eqb ip (js "unknown") then [] else [("remoteip", ip)]) in
  match siteverify form with
  | FetchRejected => Some (false, [js "network_error"])
  | HttpError status => Some (false, [js ("http_" ++ pretty status)%string])
  | NotJson => Some (false, [js "invalid_response"])
  | Payload payload =>
      match Js.member (js "error-codes") (Some payload),
            Js.member (js "success") (Some payload) with
      | Some errorCodes, Some success =>
          let parsedErrorCodes :=
            match errorCodes with
            | Some (JArray codes) =>
                omap (fun code => match code with JString c => Some c | _ => None end)
                  codes
            | _ => []
            end in
          Some (match success with Some (JBool true) => true | _ => false end,
                parsedErrorCodes)
      | _, _ => None
      end
  end.

(** [NextResponse.json(fields, { status, headers: corsHeaders(request) })] *)
Definition jsonResponse (env : Env) (request : Request) (status : Z)
    (fields : list (jsstring * json)) : Outcome :=
  NextResponse.json (JObject fields) status (corsHeaders env request).

Definition errorResponse (env : Env) (request : Request) (status : Z)
    (message : string) : Outcome :=
  jsonResponse env request status [(js "error", JString (js message))].

(** The body of the [try] block once the payload is validated: captcha
    check and email delivery.  [Threw] is an exception raised inside the
    block. *)
Definition deliver `{Platform} (env : Env) (request : Request) (ip : jsstring)
    (sanitizedData : CustomOrderData) (captchaToken : option jsstring)
  : list Effect * Outcome :=
  let send (before : list Effect) : list Effect * Outcome :=
    match nonEmptyTrimmed (ORDER_EMAIL env) with
    | None =>
        (before, errorResponse env request 500
                   "Server misconfigured: missing ORDER_EMAIL.")
    | Some orderEmail =>
        match nonEmptyTrimmed (RESEND_API_KEY env) with
        | Some resendApiKey =>
            let subject := js "New Custom Order - " ++ productType sanitizedData in
            if emailsSend resendApiKey orderEmail subject then
              (before ++ [ESendEmail orderEmail subject;
                          ELog LogInfo "custom_order_email_sent" []],
               jsonResponse env request 200
                 [(js "success", JBool true);
                  (js "message",
                   JString (js "Order received! We'll contact you within 24 hours."))])
            else
              (before ++ [ESendEmail orderEmail subject],
               Threw "resend.emails.send rejected")
        | None =>
            (before ++ [ELog LogWarn "custom_order_email_skipped" []],
             errorResponse env request 500
               "Server misconfigured: missing RESEND_API_KEY.")
        end
    end in
  match getTurnstileSecret env with
  | None => send []
  | Some turnstileSecret =>
      match captchaToken with
      | None => ([], errorResponse env request 400 "Captcha verification is required.")
      | Some token =>
          match verifyTurnstileToken token turnstileSecret ip with
          | None => ([EVerifyTurnstile token], Threw Js.propertyOfNothing)
          | Some (verified, errorCodes) =>
              if verified then send [EVerifyTurnstile token]
              else
                ([EVerifyTurnstile token;
                  ELog LogWarn "custom_order_captcha_failed" errorCodes],
                 errorResponse env request 403 "Captcha verification failed.")
          end
      end
  end.

(** The [try] block of [POST]; [Threw] is an exception raised inside
    the block. *)
Definition tryBlock `{Platform} (env : Env) (request : Request) (ip : jsstring)
  : list Effect * Outcome :=
  let '(readEffects, rawBody) := readRequestBodyWithLimit request MAX_REQUEST_BYTES in
  match rawBody with
  | ReadFailed too_large =>
      (readEffects, errorResponse env request 413 "Payload too large.")
  | ReadFailed invalid_body =>
      (readEffects, errorResponse env request 400 "Invalid request body.")
  | ReadOk text =>
      match jsonParse text with
      | None => (readEffects, errorResponse env request 400 "Invalid JSON request body.")
      | Some parsedBody =>
          match validatePayload parsedBody with
          | inl error => (readEffects, errorResponse env request 400 error)
          | inr (sanitizedData, captchaToken) =>
              let '(effects, outcome) :=
                deliver env request ip sanitizedData captchaToken in
              (readEffects ++ effects, outcome)
          end
      end
  end.

(** [POST] of the custom-order route at time [now], on the rate
    limiter's map.  An exception raised inside the [try] block, also one
    raised while a response is built there, is caught: it is logged and
    answered with the 500 response of the [catch] block. *)
Definition POST `{Platform} (env : Env) (now : Z)
    (rateLimitMap : gmap jsstring RateLimit.RateLimitEntry) (request : Request)
  : list Effect * Outcome * gmap jsstring RateLimit.RateLimitEntry :=
  let ip := getClientIp request in
  let '(rateLimitResult, rateLimitMap) :=
    RateLimit.rateLimit now (js "custom-order:" ++ ip)
      {| RateLimit.requests := 5; RateLimit.window := 60000 |} rateLimitMap in
  if negb (RateLimit.allowed rateLimitResult) then
    ([],
     jsonResponse env request 429
       [(js "error", JString (js "Too many requests. Please try again later."));
        (js "resetAt", JString (toISOString (RateLimit.result_resetAt rateLimitResult)))],
     rateLimitMap)
  else
    let contentType := default [] (toLowerCase <$> headers_get request "content-type") in
    if negb (JsString.startsWith (js "application/json") contentType) then
      ([], errorResponse env request 415
             "Unsupported content type. Use application/json.", rateLimitMap)
    else
      let contentLength := parseContentLength (headers_get request "content-length") in
      if invalid contentLength then
        ([], errorResponse env request 400 "Invalid Content-Length header.", rateLimitMap)
      else if match bytes contentLength with
              | Some declared => MAX_REQUEST_BYTES <? declared
              | None => false
              end then
        ([], errorResponse env request 413 "Payload too large.", rateLimitMap)
      else
        let '(effects, outcome) := tryBlock env request ip in
        match outcome with
        | Responded response => (effects, Responded response, rateLimitMap)
        | Threw _ =>
            (effects ++ [ELog LogError "custom_order_request_failed" []],
             errorResponse env request 500 "Failed to process order. Please try again.",
             rateLimitMap)
        end.

(** [OPTIONS] of the custom-order route. *)
Definition OPTIONS (env : Env) (request : Request) : Outcome :=
  NextResponse.create None 200 (corsHeaders env request).

End CustomOrder.

(* ===================================================================== *)
(** * [docs/framer-checkout-client.ts]

    The browser-side helper that builds the body of the checkout
    request. *)
(* ===================================================================== *)

Module FramerCartItem.

(** A [FramerCartItem], as far as the helper reads it. *)
Record t : Type := {
  stripePriceId : jsstring;
  quantity : jsnumber
}.

End FramerCartItem.

Module FramerClient.

Import Cors.

(** [a + b] on numbers.  The sum of two finite numbers is their rational
    sum: this is exact for integers of magnitude up to [2^53], the only
    numbers that [aggregateItems] adds once [assertValidCartItems] has
    passed (the rounding of other sums is not modelled). *)
Definition add (a b : jsnumber) : jsnumber :=
  match a, b with
  | NumNaN, _ | _, NumNaN => NumNaN
  | NumInfinity s, NumInfinity t => if Bool.eqb s t then NumInfinity s else NumNaN
  | NumInfinity s, NumFinite _ | NumFinite _, NumInfinity s => NumInfinity s
  | NumFinite p, NumFinite q => NumFinite (Qred (p + q))
  end.

(** [Math.min(k, x)] for an integer constant [k]. *)
Definition min (k : Z) (x : jsnumber) : jsnumber :=
  match x with
  | NumNaN => NumNaN
  | NumInfinity negative => if negative then x else NumFinite (inject_Z k)
  | NumFinite q => if Qle_bool (inject_Z k) q then NumFinite (inject_Z k) else x
  end.

(** The loop of [assertValidCartItems], from position [index] on: the
    message of the error thrown, [None] when the loop ends normally. *)
Fixpoint assertValidItemsFrom (index : nat) (items : list FramerCartItem.t)
  : option string :=
  match items with
  | [] => None
  | item :: rest =>
      if isEmpty (FramerCartItem.stripePriceId item)
      then Some ("Invalid stripePriceId at cart index " ++ pretty index ++ ".")%string
      else if negb (Js.isInteger (FramerCartItem.quantity item))
              || Js.ltZ (FramerCartItem.quantity item) 1
              || Js.gtZ (FramerCartItem.quantity item) 99
      then Some ("Invalid quantity at cart index " ++ pretty index
                 ++ ". Quantity must be 1-99.")%string
      else assertValidItemsFrom (S index) rest
  end.

Definition assertValidCartItems (items : list FramerCartItem.t) : option string :=
  if (length items =? 0)%nat then Some "Cart is empty."%string
  else assertValidItemsFrom 0 items.

(** [map.get(key)] and [map.set(key, value)] on a [Map]: the entries
    stay in insertion order, and setting an existing key keeps its
    place. *)
Fixpoint mapGet (key : jsstring) (entries : list (jsstring * jsnumber))
  : option jsnumber :=
  match entries with
  | [] => None
  | (k, v) :: rest => if JsString.eqb k key then Some v else mapGet key rest
  end.

Fixpoint mapSet (key : jsstring) (value : jsnumber)
    (entries : list (jsstring * jsnumber)) : list (jsstring * jsnumber) :=
  match entries with
  | [] => [(key, value)]
  | (k, v) :: rest =>
      if JsString.eqb k key then (k, value) :: rest
      else (k, v) :: mapSet key value rest
  end.

(** The [for (const item of items)] loop on [quantityByPriceId]. *)
Definition aggregateLoop (items : list FramerCartItem.t)
    (quantityByPriceId : list (jsstring * jsnumber)) : list (jsstring * jsnumber) :=
  fold_left
    (fun quantityByPriceId item =>
       let current :=
         default (NumFinite 0)
           (mapGet (FramerCartItem.stripePriceId item) quantityByPriceId) in
       let next := min 99 (add current (FramerCartItem.quantity item)) in
       mapSet (FramerCartItem.stripePriceId item) next quantityByPriceId)
    items quantityByPriceId.

Definition aggregateItems (items : list FramerCartItem.t) : list CheckoutItem :=
  map (fun entry => {| priceId := fst entry; quantity := snd entry |})
    (aggregateLoop items []).

(** The body that [createCheckoutSession] posts, as the JSON value that
    [JSON.stringify(payload)] denotes; [inl] is the message of the error
    thrown by [assertValidCartItems].  [metadata] is what the helper's
    own [sanitizeMetadata] returned ([None] for [undefined]); properties
    that are [undefined] are left out by [JSON.stringify]. *)
Definition requestPayload (items : list FramerCartItem.t)
    (customerEmail : option jsstring) (metadata : option (list (jsstring * jsstring)))
  : string + json :=
  match assertValidCartItems items with
  | Some message => inl message
  | None =>
      inr (JObject
        ([(js "items",
           JArray (map (fun item =>
                          JObject [(js "priceId", JString (priceId item));
                                   (js "quantity", JNumber (quantity item))])
                     (aggregateItems items)))]
         ++ match JsString.trim <$> customerEmail with
            | Some (c :: rest) => [(js "customerEmail", JString (c :: rest))]
            | _ => []
            end
         ++ match metadata with
            | Some entries =>
                [(js "metadata",
                  JObject (map (fun entry => (fst entry, JString (snd entry))) entries))]
            | None => []
            end))
  end.

End FramerClient.

(* ===================================================================== *)
(** * A reference platform

    A small executable instance of [Platform], used to run the handlers
    on concrete requests: ASCII lower-casing, the standard base64
    alphabet, a verifier that accepts the signature [secret ++ rawBody],
    and a body whose JSON value is given. *)
(* ===================================================================== *)

Module Reference.

Definition lowerAscii (c : N) : N :=
  if JsString.isUpper c then c + 32 else c.

(** The value of a base64 digit. *)
Definition sextet (c : N) : option N :=
  if JsString.isUpper c then Some (c - 65)
  else if JsString.isLower c then Some (c - 97 + 26)
  else if JsString.isDigit c then Some (c - 48 + 52)
  else if c =? 43 then Some 62
  else if c =? 47 then Some 63
  else None.

Definition byteOf (n : N) : Byte.byte :=
  default Byte.x00 (Byte.of_N (n mod 256)).

(** Decoding stops at the first padding character; a trailing group of
    two or three digits gives one or two bytes. *)
Fixpoint decodeSextets (digits : list N) : list Byte.byte :=
  match digits with
  | a :: b :: c :: d :: rest =>
      byteOf (a * 4 + b / 16) :: byteOf (b * 16 + c / 4) :: byteOf (c * 64 + d)
      :: decodeSextets rest
  | [a; b; c] => [byteOf (a * 4 + b / 16); byteOf (b * 16 + c / 4)]
  | [a; b] => [byteOf (a * 4 + b / 16)]
  | _ => []
  end.

Fixpoint leadingSextets (s : jsstring) : list N :=
  match s with
  | c :: rest =>
      match sextet c with
      | Some v => v :: leadingSextets rest
      | None => []
      end
  | [] => []
  end.

Definition base64 (s : jsstring) : list Byte.byte :=
  decodeSextets (leadingSextets s).

(** The event of a body that verifies is the JSON value of the body. *)
Definition verify (parsed : option json) (rawBody signature secret : jsstring)
  : option json :=
  if JsString.eqb signature (secret ++ rawBody) then parsed else None.

(** The platform on which every request body parses to [parsed]. *)
Definition platform (parsed : option json) : Platform :=
  {| callStackDepth := 1000;
     toLowerCase := map lowerAscii;
     numberToString := fun _ => js "0";
     isValidUrl := JsString.startsWith (js "https://");
     utf8Decode := map (fun b => Byte.to_N b);
     base64Decode := base64;
     jsonParse := fun _ => parsed;
     requestJson := fun _ => parsed;
     toISOString := fun _ => js "1970-01-01T00:00:00.000Z";
     constructEvent := verify parsed;
     listLineItems := fun _ => true;
     sessionsCreate := fun _ _ =>
       Some {| sessionUrl := Some (js "https://checkout.stripe.com/c/pay/cs_test_1");
               sessionId := js "cs_test_1" |};
     siteverify := fun _ => Payload (JObject [(js "success", JBool true)]);
     emailsSend := fun _ _ _ => true |}.

Definition emptyEnv : Env :=
  {| ALLOWED_ORIGIN := None;
     STRIPE_SECRET_KEY := None;
     STRIPE_WEBHOOK_SECRET := None;
     SUCCESS_URL := None;
     CANCEL_URL := None;
     DEFAULT_CURRENCY := None;
     ENFORCE_STRIPE_PRICE_ALLOWLIST := None;
     ALLOWED_STRIPE_PRICE_IDS := None;
     NODE_ENV := None;
     ORDER_EMAIL := None;
     RESEND_API_KEY := None;
     TURNSTILE_SECRET_KEY := None |}.

(** A request with the given headers and a body delivered in one chunk. *)
Definition request (headers : list (string * string)) (text : string) : Request :=
  {| headers := list_to_map (map (fun kv => (fst kv, js (snd kv))) headers);
     body := Some (StreamChunk
                     (Some (map (fun c => byteOf c) (js text))) StreamDone) |}.

End Reference.

Local Close Scope N_scope.

(* ===================================================================== *)
(** * Specification

    The predicates in which the properties below are stated, and the
    sample requests on which the handlers are run. *)
(* ===================================================================== *)

(** ** Responses *)

Section ResponseSpec.

(** The response with the CORS headers of [request]. *)
Definition jsonAnswer (env : Env) (request : Request) (status : Z) (body : json)
  : Response :=
  {| status := status;
     responseBody := Some body;
     responseHeaders := Cors.corsHeaders env request |}.

(** The error response with the given status and message. *)
Definition errorAnswer (env : Env) (request : Request) (status : Z) (message : string)
  : Response :=
  jsonAnswer env request status (JObject [(js "error", JString (js message))]).

(** The response of a preflight request. *)
Definition preflightAnswer (env : Env) (request : Request) (status : Z) : Response :=
  {| status := status;
     responseBody := None;
     responseHeaders := Cors.corsHeaders env request |}.

(** The exception of a response whose headers are not accepted. *)
Definition headerException : Outcome := Threw "TypeError: invalid header value".

(** The origin that the response to [request] names in
    [Access-Control-Allow-Origin]: the request's own origin when it is a
    configured one, else the first configured origin, and ["*"] when none
    is configured. *)
Definition reflectedOrigin (env : Env) (request : Request) : jsstring :=
  match Cors.parseAllowedOrigins env with
  | [] => js "*"
  | first :: _ =>
      match headers_get request "origin" with
      | Some origin => if bool_decide (origin ∈ Cors.parseAllowedOrigins env)
                       then origin else first
      | None => first
      end
  end.

(** The response to [request] can be built: the origin it names is a
    header value. *)
Definition answerable (env : Env) (request : Request) : Prop :=
  isHeaderValue (reflectedOrigin env request) = true.

(** Every configured origin is a header value. *)
Definition originsAreHeaderValues (env : Env) : Prop :=
  Forall (fun origin => isHeaderValue origin = true) (Cors.parseAllowedOrigins env).

(** The handler builds [response] for [request]: that is its answer
    when the request is answerable, and otherwise it throws the exception
    of the response's headers. *)
Definition answers (env : Env) (request : Request) (outcome : Outcome)
    (response : Response) : Prop :=
  (answerable env request → outcome = Responded response)
  ∧ (¬ answerable env request → outcome = headerException).

(** The same inside the [try] block of the custom-order handler, after
    the effects [effects]: the exception of the response's headers is
    caught and logged, and the response of the [catch] block throws it
    again. *)
Definition answersInTry (env : Env) (request : Request) (answer : list Effect * Outcome)
    (effects : list Effect) (response : Response) : Prop :=
  (answerable env request → answer = (effects, Responded response))
  ∧ (¬ answerable env request →
     answer = (effects ++ [ELog LogError "custom_order_request_failed" []],
               headerException)).

End ResponseSpec.

(** ** Origin gate *)

Section OriginGateSpec.

Context `{Platform}.


End OriginGateSpec.

(** ** Rate limiter *)

Section RateLimiterSpec.

Import RateLimit.

Implicit Types (m : gmap jsstring RateLimitEntry) (identifier : jsstring).

(** No entry, or an entry whose window has expired at [now]. *)
Definition freshOrExpired m identifier (now : Z) : Prop :=
  m !! identifier = None
  ∨ ∃ entry, m !! identifier = Some entry ∧ (resetAt entry < now)%Z.

(** The limit-[n] property of the spec: of [n + 1] calls inside one
    window, the first of which opens the window, calls [1..n] are allowed
    and call [n + 1] is denied; every result reports the window's reset
    time, and a denied call's reset time is not before the call. *)
Definition limitSequence (n : nat) : Prop :=
  ∀ identifier (w : Z) m (first : Z) (later : list Z),
    freshOrExpired m identifier first →
    length later = n →
    Forall (fun now => (now ≤ first + w)%Z) later →
    let config := {| requests := Z.of_nat n; window := w |} in
    let results := fst (rateLimitCalls (first :: later) identifier config m) in
    map allowed results = replicate n true ++ [false]
    ∧ Forall (fun result => result_resetAt result = (first + w)%Z) results
    ∧ ∀ i now result,
        (first :: later) !! i = Some now → results !! i = Some result →
        allowed result = false → (now ≤ result_resetAt result)%Z.

End RateLimiterSpec.

(** ** Bounded body reader *)

Section BodyReaderSpec.

Import BodyReader.

Context `{Platform}.

(** The values the stream delivers, in order. *)
Fixpoint streamChunks (stream : BodyStream) : list (list Byte.byte) :=
  match stream with
  | StreamChunk (Some value) rest => value :: streamChunks rest
  | StreamChunk None rest => streamChunks rest
  | StreamDone | StreamError => []
  end.

(** The stream ends with a failing read. *)
Fixpoint streamFails (stream : BodyStream) : bool :=
  match stream with
  | StreamChunk _ rest => streamFails rest
  | StreamError => true
  | StreamDone => false
  end.

(** Cumulative byte count of a list of chunks. *)
Definition totalLength (chunks : list (list Byte.byte)) : N :=
  byteLength (concat chunks).

(** The chunks a trace has buffered. *)
Fixpoint pushed (trace : list Effect) : list (list Byte.byte) :=
  match trace with
  | EPush value :: rest => value :: pushed rest
  | _ :: rest => pushed rest
  | [] => []
  end.

(** The text of the whole body of a request. *)
Definition rawBodyOf (request : Request) : jsstring :=
  match body request with
  | None => js ""
  | Some stream => utf8Decode (concat (streamChunks stream))
  end.

(** A declared length that is not numeric, negative, or not a safe
    integer. *)
Inductive MalformedLength (headerValue : jsstring) : Prop :=
| NonNumeric :
    JsString.trim headerValue = []
    ∨ Exists (fun c => JsString.isDigit c = false) (JsString.trim headerValue) →
    MalformedLength headerValue
| Negative (digits : jsstring) :
    JsString.trim headerValue = 45%N :: digits →
    MalformedLength headerValue
| NotSafeInteger :
    Forall (fun c => JsString.isDigit c = true) (JsString.trim headerValue) →
    (2 ^ 53 - 1 < decimalValue (JsString.trim headerValue))%N →
    MalformedLength headerValue.

(** A declared length made of decimal digits, with a safe value. *)
Definition WellFormedLength (headerValue : jsstring) (value : N) : Prop :=
  JsString.trim headerValue ≠ []
  ∧ Forall (fun c => JsString.isDigit c = true) (JsString.trim headerValue)
  ∧ decimalValue (JsString.trim headerValue) = value
  ∧ (value ≤ 2 ^ 53 - 1)%N.

(** The custom-order request passes the rate limiter and the
    content-type check, which come before the Content-Length check. *)
Definition reachesLengthCheck (now : Z)
    (rateLimitMap : gmap jsstring RateLimit.RateLimitEntry) (request : Request) : Prop :=
  RateLimit.allowed
    (fst (RateLimit.rateLimit now (js "custom-order:" ++ CustomOrder.getClientIp request)
            {| RateLimit.requests := 5; RateLimit.window := 60000 |} rateLimitMap))
  = true
  ∧ JsString.startsWith (js "application/json")
      (default [] (toLowerCase <$> headers_get request "content-type"))
    = true.

(** C5 as the spec words it, for the webhook: a malformed declared
    length is answered with the invalid-header error. *)
Definition malformedLengthIsRejected : Prop :=
  ∀ env request headerValue,
    headers_get request "content-length" = Some headerValue →
    MalformedLength headerValue →
    snd (Webhook.POST env request)
    = Responded (errorAnswer env request 400 "Invalid Content-Length header.").

(** And a declared length above the ceiling is answered with the
    too-large error. *)
Definition oversizedLengthIsRejected : Prop :=
  ∀ env request headerValue value,
    headers_get request "content-length" = Some headerValue →
    WellFormedLength headerValue value →
    (Webhook.MAX_WEBHOOK_BODY_BYTES < value)%N →
    snd (Webhook.POST env request)
    = Responded (errorAnswer env request 413 "Payload too large.").

End BodyReaderSpec.

(** ** Webhook verification *)

Section WebhookSpec.

Import BodyReader.

Context `{Platform}.

(** The effects of the [switch (event.type)]. *)
Definition isRoutingEffect (e : Effect) : bool :=
  match e with
  | EListLineItems _ => true
  | ELogEvent _ _ _ => true
  | _ => false
  end.

(** Some event was routed. *)
Definition routed (trace : list Effect) : bool := existsb isRoutingEffect trace.


(** C1 as the spec words it: whenever the secret is configured and the
    signature header is present, a body that does not verify is answered
    with the 400 "Invalid webhook signature." response. *)
Definition rejectsUnverifiedAsInvalidSignature : Prop :=
  ∀ env request secret c signature,
    Webhook.getWebhookSecret env = Some secret →
    headers_get request "stripe-signature" = Some (c :: signature) →
    constructEvent (rawBodyOf request) (c :: signature) secret = None →
    snd (Webhook.POST env request)
    = Responded (errorAnswer env request 400 "Invalid webhook signature.").

End WebhookSpec.

(** ** Checkout *)

Section CheckoutSpec.

Import Cors PriceAllowlist Checkout.

(** What C8 asks of the returned map. *)
Definition sanitizedMetadata (m : gmap jsstring jsstring) : Prop :=
  m !! js "source" = Some (js "framer")
  ∧ (∀ key value, m !! key = Some value →
       Forall (fun c => JsString.isWord c = true) key
       ∧ length key ≤ 40
       ∧ length value ≤ 500)
  ∧ size m ≤ 50.

(** The invariant of the loop over the entries. *)
Definition sanitizedSoFar (m : gmap jsstring jsstring) : Prop :=
  (∀ key value, m !! key = Some value →
     Forall (fun c => JsString.isWord c = true) key
     ∧ length key ≤ 40
     ∧ length value ≤ 500)
  ∧ size m ≤ 49.

(** [s] matches [^price_[a-zA-Z0-9]+$]. *)
Definition matchesPricePattern (s : jsstring) : Prop :=
  ∃ rest, s = js "price_" ++ rest
          ∧ rest ≠ []
          ∧ Forall (fun c => JsString.isAlnum c = true) rest.

(** [n] is an integer between 1 and 99. *)
Definition integerInRange (n : jsnumber) : Prop :=
  ∃ (z : Z) (q : Q), (1 ≤ z ≤ 99)%Z ∧ n = NumFinite q ∧ (q == inject_Z z)%Q.

Definition itemPriceId (item : json) : option jsstring :=
  match Js.asRecord item with
  | Some entries =>
      match Js.get (js "priceId") entries with
      | Some (JString priceId) => Some priceId
      | _ => None
      end
  | None => None
  end.

Definition itemQuantity (item : json) : option jsnumber :=
  match Js.asRecord item with
  | Some entries =>
      match Js.get (js "quantity") entries with
      | Some (JNumber quantity) => Some quantity
      | _ => None
      end
  | None => None
  end.

(** Each constraint with the error that names it: the item is an object,
    its [priceId] is a string, non-empty after trimming, of the Stripe
    form, and its [quantity] is an integer in [1, 99]. *)
Definition itemConstraints (index : nat) (item : json) : list (bool * ValidationError) :=
  [ (match Js.asRecord item with Some _ => true | None => false end,
     ItemInvalid index ItemNotObject);
    (match itemPriceId item with Some _ => true | None => false end,
     ItemInvalid index PriceIdNotString);
    (match itemPriceId item with
     | Some priceId => negb (isEmpty (JsString.trim priceId))
     | None => false
     end,
     ItemInvalid index (PriceIdInvalid "priceId must be a non-empty string."));
    (match itemPriceId item with
     | Some priceId => PRICE_ID_PATTERN_test (JsString.trim priceId)
     | None => false
     end,
     ItemInvalid index
       (PriceIdInvalid "priceId must look like a Stripe Price ID (price_...)."));
    (match itemQuantity item with
     | Some quantity =>
         Js.isInteger quantity
         && negb (Js.ltZ quantity 1) && negb (Js.gtZ quantity MAX_QUANTITY)
     | None => false
     end,
     ItemInvalid index QuantityInvalid) ].

Fixpoint itemsConstraints (index : nat) (itemsInput : list json)
  : list (bool * ValidationError) :=
  match itemsInput with
  | [] => []
  | item :: rest => itemConstraints index item ++ itemsConstraints (S index) rest
  end.

Definition bodyField (key : string) (input : json) : option json :=
  match Js.asRecord input with
  | Some body => Js.get (js key) body
  | None => None
  end.

Definition bodyItems (input : json) : list json :=
  match bodyField "items" input with
  | Some (JArray itemsInput) => itemsInput
  | _ => []
  end.

(** The body is an object; [items] is a non-empty array; of at most 50
    entries; every item is valid, in order; [customerEmail], if given, is
    a string; [metadata], if given, is an object. *)
Definition constraints (input : json) : list (bool * ValidationError) :=
  [ (match Js.asRecord input with Some _ => true | None => false end, BodyNotObject);
    (match bodyField "items" input with
     | Some (JArray (_ :: _)) => true
     | _ => false
     end, ItemsNotArray);
    (length (bodyItems input) <=? MAX_LINE_ITEMS, ItemsTooMany) ]
  ++ itemsConstraints 0 (bodyItems input)
  ++ [ (match bodyField "customerEmail" input with
        | None | Some (JString _) => true
        | Some _ => false
        end, CustomerEmailNotString);
       (match bodyField "metadata" input with
        | None | Some (JObject _) => true
        | Some _ => false
        end, MetadataNotObject) ].

(** The error of the first constraint that does not hold. *)
Fixpoint firstViolation (checks : list (bool * ValidationError))
  : option ValidationError :=
  match checks with
  | [] => None
  | (holds, e) :: rest => if holds then firstViolation rest else Some e
  end.

Definition validItem (item : json) : Prop :=
  ∃ entries priceId quantity,
    item = JObject entries
    ∧ Js.get (js "priceId") entries = Some (JString priceId)
    ∧ JsString.trim priceId ≠ []
    ∧ matchesPricePattern (JsString.trim priceId)
    ∧ Js.get (js "quantity") entries = Some (JNumber quantity)
    ∧ integerInRange quantity.

Definition validItems (input : json) : Prop :=
  ∃ body itemsInput,
    input = JObject body
    ∧ Js.get (js "items") body = Some (JArray itemsInput)
    ∧ itemsInput ≠ []
    ∧ length itemsInput ≤ 50
    ∧ Forall validItem itemsInput.

Definition validOptionalFields (input : json) : Prop :=
  (bodyField "customerEmail" input = None
   ∨ ∃ customerEmail, bodyField "customerEmail" input = Some (JString customerEmail))
  ∧ (bodyField "metadata" input = None
     ∨ ∃ metadata, bodyField "metadata" input = Some (JObject metadata)).

Definition accepted (input : json) : Prop :=
  ∃ payload, validatePayload input = inr payload.

(** C3 as the spec words it. *)
Definition acceptsExactlyValidItems : Prop :=
  ∀ input, accepted input ↔ validItems input.

Definition holds (check : bool * ValidationError) : Prop := fst check = true.

End CheckoutSpec.

(** ** Custom order *)

Section CustomOrderSpec.

Import Cors BodyReader CustomOrder.

Context `{Platform}.

(** [s] matches the strict [data:] URI pattern, with payload [encoded]. *)
Definition strictDataUri (s encoded : jsstring) : Prop :=
  ∃ mime,
    (mime = js "image/png" ∨ mime = js "image/jpeg")
    ∧ s = js "data:" ++ mime ++ js ";base64," ++ encoded
    ∧ encoded ≠ []
    ∧ Forall (fun c => isBase64Char c = true) encoded.

(** The decoded image is non-empty and within the ceiling. *)
Definition decodesWithinCeiling (encoded : jsstring) : Prop :=
  (0 < byteLength (base64Decode encoded) ≤ MAX_DESIGN_IMAGE_BYTES)%N.

(** A present [designImage] that the validator treats as no image:
    [null], or a string that is empty after trimming. *)
Definition blankImage (value : json) : Prop :=
  value = JNull ∨ ∃ raw, value = JString raw ∧ JsString.trim raw = [].

(** A present [designImage] that is a valid embedded image. *)
Definition validImage (value : json) : Prop :=
  ∃ raw encoded,
    value = JString raw
    ∧ strictDataUri (JsString.trim raw) encoded
    ∧ decodesWithinCeiling encoded.

(** [text] is [pattern], up to the case of the ASCII letters. *)
Definition sameIgnoringCase (pattern text : jsstring) : Prop :=
  Forall2 (fun p c => c = p ∨ ((97 ≤ p ≤ 122)%N ∧ c = (p - 32)%N)) pattern text.

(** The matches of [/[<>]/], of [/javascript:/i] and of [/on\w+=/i]. *)
Definition angleBracket (m : jsstring) : Prop := m = [60%N] ∨ m = [62%N].

Definition javascriptScheme (m : jsstring) : Prop :=
  sameIgnoringCase (js "javascript:") m.

Definition wordCharacter (c : N) : Prop :=
  (48 ≤ c ≤ 57)%N ∨ (65 ≤ c ≤ 90)%N ∨ (97 ≤ c ≤ 122)%N ∨ c = 95%N.

Definition eventHandlerAttribute (m : jsstring) : Prop :=
  ∃ o n word,
    m = o :: n :: word ++ [61%N]
    ∧ sameIgnoringCase (js "on") [o; n]
    ∧ word ≠ []
    ∧ Forall wordCharacter word.

(** [s.replace(pattern, "")] for a pattern with the [g] flag whose
    matches are the strings in [M]: scanning [s] from the left, a match
    that starts at the current position is dropped and the scan goes on
    after it; a code unit at which no match starts is kept. *)
Inductive Removed (M : jsstring → Prop) : jsstring → jsstring → Prop :=
| Removed_end : Removed M [] []
| Removed_match (m rest out : jsstring) :
    M m → Removed M rest out → Removed M (m ++ rest) out
| Removed_keep (c : N) (rest out : jsstring) :
    (∀ m tail, M m → c :: rest ≠ m ++ tail) →
    Removed M rest out → Removed M (c :: rest) (c :: out).

(** A pattern of which at most one match starts at any position. *)
Definition matchesOnce (M : jsstring → Prop) : Prop :=
  ∀ m m' tail tail', M m → M m' → m ++ tail = m' ++ tail' → m = m'.

(** [sanitizeInput] as C10 describes it: angle brackets, [javascript:]
    prefixes and [on...=] patterns are stripped, in this order, and the
    result is trimmed and cut to [maxLength]. *)
Definition Sanitized (input : jsstring) (maxLength : nat) (output : jsstring) : Prop :=
  ∃ a b c,
    Removed angleBracket input a
    ∧ Removed javascriptScheme a b
    ∧ Removed eventHandlerAttribute b c
    ∧ output = take maxLength (JsString.trim c).

(** C9 as the spec words it: the present field of an accepted body is a
    valid embedded image. *)
Definition presentImageIsValidated : Prop :=
  ∀ input body value payload captchaToken,
    input = JObject body →
    Js.get (js "designImage") body = Some value →
    validatePayload input = inr (payload, captchaToken) →
    validImage value.

End CustomOrderSpec.

(** ** Further predicates *)

Section RateLimiterTrafficSpec.

Import RateLimit.

(** Calls by any identifiers, each with its time and configuration, in
    order: the map they leave. *)
Fixpoint rateLimitTraffic (calls : list (Z * jsstring * RateLimitConfig))
    (rateLimitMap : gmap jsstring RateLimitEntry) : gmap jsstring RateLimitEntry :=
  match calls with
  | [] => rateLimitMap
  | (now, identifier, config) :: later =>
      rateLimitTraffic later (snd (rateLimit now identifier config rateLimitMap))
  end.

(** The result of the call that brings the window's count to [k], under
    a limit of [n]. *)
Definition windowResult (n : nat) (resetAt : Z) (k : nat) : RateLimitResult :=
  {| allowed := bool_decide (k ≤ n);
     remaining := Z.max 0 (Z.of_nat n - Z.of_nat k);
     result_resetAt := resetAt |}.

End RateLimiterTrafficSpec.

Section WebhookOutcomeSpec.

Import BodyReader.

Context `{Platform}.

(** The request passes every guard that precedes the Stripe client: the
    webhook secret is configured, the signature header is present, the
    declared length is absent or valid and within the limit, and the body
    is read within the limit. *)
Definition webhookGuardsPass (env : Env) (request : Request) : Prop :=
  (∃ secret, Webhook.getWebhookSecret env = Some secret)
  ∧ (∃ c signature, headers_get request "stripe-signature" = Some (c :: signature))
  ∧ invalid (parseContentLength (headers_get request "content-length")) = false
  ∧ (∀ declared,
       bytes (parseContentLength (headers_get request "content-length")) = Some declared →
       (declared ≤ Webhook.MAX_WEBHOOK_BODY_BYTES)%N)
  ∧ (∃ rawBody,
       snd (readRequestBodyWithLimit request Webhook.MAX_WEBHOOK_BODY_BYTES)
       = ReadOk rawBody).

(** The info-level log lines of a trace about events, with their
    fields. *)
Definition infoLogs (trace : list Effect) : list (string * list (string * option json)) :=
  omap (fun e => match e with
                 | ELogEvent LogInfo event fields => Some (event, fields)
                 | _ => None
                 end) trace.

(** The sessions whose line items a trace lists. *)
Definition listedSessions (trace : list Effect) : list json :=
  omap (fun e => match e with EListLineItems session => Some session | _ => None end)
    trace.

(** [event.type], when the event is an object and the type a string. *)
Definition eventType (event : json) : option jsstring :=
  match event with
  | JObject entries =>
      match Js.get (js "type") entries with
      | Some (JString type) => Some type
      | _ => None
      end
  | _ => None
  end.

(** The event is of one of the two types that the handler looks into. *)
Definition handledEvent (event : json) : Prop :=
  eventType event = Some (js "checkout.session.completed")
  ∨ eventType event = Some (js "payment_intent.succeeded").

(** [event.data.object], when [event] and [event.data] are objects. *)
Definition eventObject (event : json) : option json :=
  match event with
  | JObject entries =>
      match Js.get (js "data") entries with
      | Some (JObject data) => Js.get (js "object") data
      | _ => None
      end
  | _ => None
  end.

(** The events on which the [switch] throws: [null], and an event of a
    handled type without an object in its data. *)
Definition malformedEvent (event : json) : Prop :=
  event = JNull
  ∨ (handledEvent event ∧ (eventObject event = None ∨ eventObject event = Some JNull)).

End WebhookOutcomeSpec.

Section CheckoutSessionSpec.

Import Checkout.

(** The sessions a trace asks Stripe to create, with their idempotency
    keys. *)
Definition sessionsCreated (trace : list Effect)
  : list (SessionCreateParams * option jsstring) :=
  omap (fun e => match e with
                 | ESessionsCreate params idempotencyKey => Some (params, idempotencyKey)
                 | _ => None
                 end) trace.

(** A line item as Stripe may be asked to charge it. *)
Definition vettedItem (item : CheckoutItem) : Prop :=
  matchesPricePattern (priceId item) ∧ integerInRange (quantity item).

(** The currency recorded in the session's metadata. *)
Definition defaultCurrency (env : Env) : jsstring :=
  match JsString.trim <$> DEFAULT_CURRENCY env with
  | Some (c :: rest) => c :: rest
  | _ => js "gbp"
  end.

(** A JSON value that is neither an array nor an object. *)
Definition primitive (value : json) : Prop :=
  match value with
  | JArray _ | JObject _ => False
  | _ => True
  end.

End CheckoutSessionSpec.

Section ConfigurationListSpec.

(** [pieces.join(sep)] for a one-code-unit separator. *)
Fixpoint join (sep : N) (pieces : list jsstring) : jsstring :=
  match pieces with
  | [] => []
  | [piece] => piece
  | piece :: rest => piece ++ sep :: join sep rest
  end.

(** The entries of a comma-separated configuration value: the trimmed
    pieces that are not empty. *)
Definition listedIn (value : option jsstring) (entry : jsstring) : Prop :=
  entry ≠ []
  ∧ ∃ raw piece,
      value = Some raw
      ∧ piece ∈ JsString.split 44 (JsString.trim raw)
      ∧ JsString.trim piece = entry.

End ConfigurationListSpec.

Section CustomOrderPayloadSpec.

Import CustomOrder.

(** No angle bracket occurs in [s]. *)
Definition noAngleBrackets (s : jsstring) : Prop := (60%N ∉ s) ∧ (62%N ∉ s).

(** The text fields of an accepted custom order. *)
Definition textFields (payload : CustomOrderData) : list jsstring :=
  [name payload; email payload; productType payload;
   orientation payload; stitchType payload] ++ colors payload.

End CustomOrderPayloadSpec.

Section CustomOrderEmailSpec.

Import CustomOrder.

(** [s] has the shape [local@x.y]: three non-empty runs without white
    space or [@], separated by an [@] and a dot. *)
Definition emailShape (s : jsstring) : Prop :=
  ∃ local x y,
    s = local ++ 64%N :: x ++ 46%N :: y
    ∧ local ≠ [] ∧ x ≠ [] ∧ y ≠ []
    ∧ Forall (fun c => notSpaceOrAt c = true) (local ++ x ++ y).

End CustomOrderEmailSpec.

Section CustomOrderOutcomeSpec.

Import CustomOrder.

(** The effects of reading the body. *)
Definition isReadEffect (e : Effect) : bool :=
  match e with
  | ERead | ECancel | EReleaseLock | EPush _ => true
  | _ => false
  end.

(** The emails a trace sends, with recipient and subject. *)
Definition emailsSent (trace : list Effect) : list (jsstring * jsstring) :=
  omap (fun e => match e with ESendEmail to subject => Some (to, subject) | _ => None end)
    trace.

(** The captcha tokens a trace submits for verification. *)
Definition captchaChecks (trace : list Effect) : list jsstring :=
  omap (fun e => match e with EVerifyTurnstile token => Some token | _ => None end)
    trace.

(** The rate limiter's key and configuration for a custom-order request. *)
Definition quotaKey (request : Request) : jsstring :=
  js "custom-order:" ++ getClientIp request.

Definition quotaConfig : RateLimit.RateLimitConfig :=
  {| RateLimit.requests := 5; RateLimit.window := 60000 |}.

(** The local function [send] of [deliver]: the email delivery, after
    the effects [before]. *)
Definition sendOrder `{Platform} (env : Env) (request : Request)
    (sanitizedData : CustomOrderData) (before : list Effect)
  : list Effect * Outcome :=
  match nonEmptyTrimmed (ORDER_EMAIL env) with
  | None =>
      (before, errorResponse env request 500
                 "Server misconfigured: missing ORDER_EMAIL.")
  | Some orderEmail =>
      match nonEmptyTrimmed (RESEND_API_KEY env) with
      | Some resendApiKey =>
          let subject := js "New Custom Order - " ++ productType sanitizedData in
          if emailsSend resendApiKey orderEmail subject then
            (before ++ [ESendEmail orderEmail subject;
                        ELog LogInfo "custom_order_email_sent" []],
             jsonResponse env request 200
               [(js "success", JBool true);
                (js "message",
                 JString (js "Order received! We'll contact you within 24 hours."))])
          else
            (before ++ [ESendEmail orderEmail subject],
             Threw "resend.emails.send rejected")
      | None =>
          (before ++ [ELog LogWarn "custom_order_email_skipped" []],
           errorResponse env request 500
             "Server misconfigured: missing RESEND_API_KEY.")
      end
  end.

(** The [catch] block of [POST], applied to what the [try] block did. *)
Definition catchBlock (env : Env) (request : Request) (tried : list Effect * Outcome)
  : list Effect * Outcome :=
  match snd tried with
  | Responded response => (fst tried, Responded response)
  | Threw _ =>
      (fst tried ++ [ELog LogError "custom_order_request_failed" []],
       errorResponse env request 500 "Failed to process order. Please try again.")
  end.

End CustomOrderOutcomeSpec.

Section CustomOrderTrafficSpec.

Import CustomOrder.

Context `{Platform}.

(** Successive custom-order requests, each at its time, on the rate
    limiter's map: the answers and the map they leave. *)
Fixpoint customOrderRequests (env : Env) (calls : list (Z * Request))
    (rateLimitMap : gmap jsstring RateLimit.RateLimitEntry)
  : list (list Effect * Outcome) * gmap jsstring RateLimit.RateLimitEntry :=
  match calls with
  | [] => ([], rateLimitMap)
  | (now, request) :: later =>
      let '(answer, rateLimitMap) := POST env now rateLimitMap request in
      let '(answers, rateLimitMap) := customOrderRequests env later rateLimitMap in
      (answer :: answers, rateLimitMap)
  end.

(** The request was answered 429. *)
Definition tooManyRequests (answer : list Effect * Outcome) : bool :=
  match snd answer with
  | Responded response => (status response =? 429)%Z
  | Threw _ => false
  end.

End CustomOrderTrafficSpec.

Section FramerClientSpec.

Import FramerClient.

(** The integer a number stands for, when it is one. *)
Definition integerValue (n : jsnumber) : Z :=
  match n with
  | NumFinite q => Qfloor q
  | _ => 0
  end.

(** The total quantity of a price id in a cart. *)
Fixpoint cartTotal (priceId : jsstring) (items : list FramerCartItem.t) : Z :=
  match items with
  | [] => 0
  | item :: rest =>
      (if JsString.eqb (FramerCartItem.stripePriceId item) priceId
       then integerValue (FramerCartItem.quantity item) else 0)
      + cartTotal priceId rest
  end.

(** A cart item that [assertValidCartItems] lets through. *)
Definition validCartItem (item : FramerCartItem.t) : Prop :=
  FramerCartItem.stripePriceId item ≠ []
  ∧ integerInRange (FramerCartItem.quantity item).

(** The loop invariant of [aggregateItems]: after the items [seen], the
    map has one entry for each of their price ids, holding the total
    quantity capped at 99. *)
Definition aggregated (seen : list FramerCartItem.t)
    (quantityByPriceId : list (jsstring * jsnumber)) : Prop :=
  NoDup (map fst quantityByPriceId)
  ∧ (∀ id, id ∈ map fst quantityByPriceId
           ↔ id ∈ map FramerCartItem.stripePriceId seen)
  ∧ (∀ id value,
       mapGet id quantityByPriceId = Some value →
       value = NumFinite (inject_Z (Z.min 99 (cartTotal id seen)))
       ∧ (1 ≤ cartTotal id seen)%Z)
  ∧ length quantityByPriceId ≤ length seen.

End FramerClientSpec.

Section FramerClientServerSpec.

Import FramerClient.

(** The price id of every cart item is, once trimmed, of the Stripe
    form that the server asks for. *)
Definition stripePriceIds (items : list FramerCartItem.t) : Prop :=
  Forall (fun item =>
            PriceAllowlist.PRICE_ID_PATTERN_test
              (JsString.trim (FramerCartItem.stripePriceId item)) = true) items.

(** The payload that the server's validator returns for the client's
    request. *)
Definition serverPayload (items : list FramerCartItem.t)
    (customerEmail : option jsstring) (metadata : option (list (jsstring * jsstring)))
  : Checkout.CheckoutPayload :=
  {| Checkout.items :=
       map (fun item => {| priceId := JsString.trim (priceId item);
                           quantity := quantity item |})
         (aggregateItems items);
     Checkout.customerEmail :=
       match JsString.trim <$> customerEmail with
       | Some (c :: rest) => Some (c :: rest)
       | _ => None
       end;
     Checkout.metadata :=
       (fun entries => map (fun entry => (fst entry, JString (snd entry))) entries)
       <$> metadata |}.

End FramerClientServerSpec.

(** ** Sample requests *)

Module Samples.

Definition env : Env :=
  {| ALLOWED_ORIGIN := None;
     STRIPE_SECRET_KEY := Some (js "sk_test_1");
     STRIPE_WEBHOOK_SECRET := Some (js "whsec_1");
     SUCCESS_URL := Some (js "https://shop.example/success");
     CANCEL_URL := Some (js "https://shop.example/cancel");
     DEFAULT_CURRENCY := None;
     ENFORCE_STRIPE_PRICE_ALLOWLIST := None;
     ALLOWED_STRIPE_PRICE_IDS := None;
     NODE_ENV := None;
     ORDER_EMAIL := Some (js "orders@shop.example");
     RESEND_API_KEY := Some (js "re_1");
     TURNSTILE_SECRET_KEY := None |}.

(** A webhook notification of 300000 bytes, declared as such, with a
    signature that does not verify. *)
Definition oversizedWebhook : Request :=
  {| headers := list_to_map [("stripe-signature", js "t=1,v1=bad");
                             ("content-length", js "300000")];
     body := Some (StreamChunk (Some (replicate (N.to_nat 300000) Byte.x20))
                     StreamDone) |}.

(** A small webhook notification with a signature that does not verify. *)
Definition forgedWebhook : Request :=
  Reference.request [("stripe-signature", "t=1,v1=bad")] "{}".

(** A webhook notification without signature, with a declared length
    that is no number. *)
Definition unsignedWebhook : Request :=
  Reference.request [("content-length", "abc")] "{}".

(** A webhook notification without signature that declares 300000
    bytes. *)
Definition unsignedOversizedWebhook : Request :=
  Reference.request [("content-length", "300000")] "{}".

End Samples.

Module OriginSamples.

(** An allowed origin with a code unit above 255: [https://☃.example]. *)
Definition snowman : jsstring := js "https://" ++ [9731%N] ++ js ".example".

Definition env : Env :=
  {| ALLOWED_ORIGIN := Some snowman;
     STRIPE_SECRET_KEY := Some (js "sk_test_1");
     STRIPE_WEBHOOK_SECRET := Some (js "whsec_1");
     SUCCESS_URL := Some (js "https://shop.example/success");
     CANCEL_URL := Some (js "https://shop.example/cancel");
     DEFAULT_CURRENCY := None;
     ENFORCE_STRIPE_PRICE_ALLOWLIST := None;
     ALLOWED_STRIPE_PRICE_IDS := None;
     NODE_ENV := None;
     ORDER_EMAIL := Some (js "orders@shop.example");
     RESEND_API_KEY := Some (js "re_1");
     TURNSTILE_SECRET_KEY := None |}.


End OriginSamples.

Module MetadataSamples.

(** [{"note": {"toString": 1}}] *)
Definition throwingMetadata : list (jsstring * json) :=
  [(js "note", JObject [(js "toString", JNumber (NumFinite (1 # 1)))])].

(** [{"items": [{"priceId": "price_1", "quantity": 1}],
      "metadata": {"note": {"toString": 1}}}] *)
Definition throwingCheckout : json :=
  JObject [(js "items",
            JArray [JObject [(js "priceId", JString (js "price_1"));
                             (js "quantity", JNumber (NumFinite (1 # 1)))]]);
           (js "metadata", JObject throwingMetadata)].

Definition checkoutRequest : Request :=
  Reference.request [("content-type", "application/json")] "".

End MetadataSamples.

Module CheckoutSamples.

(** [{"items": [{"priceId": "price_1", "quantity": 1}], "customerEmail": 5}] *)
Definition numericEmail : json :=
  JObject [(js "items",
            JArray [JObject [(js "priceId", JString (js "price_1"));
                             (js "quantity", JNumber (NumFinite (1 # 1)))]]);
           (js "customerEmail", JNumber (NumFinite (5 # 1)))].

(** [{"items": [{"priceId": " price_1 ", "quantity": 2}]}] *)
Definition plainCart : json :=
  JObject [(js "items",
            JArray [JObject [(js "priceId", JString (js " price_1 "));
                             (js "quantity", JNumber (NumFinite (2 # 1)))]])].

End CheckoutSamples.

Module CustomOrderSamples.

(** [{"name": "Ann", "email": "ann@example.com", "productType": "Beanie",
      "colors": ["red"], "designImage": "  "}] *)
Definition blankImageOrder : json :=
  JObject [(js "name", JString (js "Ann"));
           (js "email", JString (js "ann@example.com"));
           (js "productType", JString (js "Beanie"));
           (js "colors", JArray [JString (js "red")]);
           (js "designImage", JString (js "  "))].

(** The same order with a two-byte PNG data URI. *)
Definition imageOrder : json :=
  JObject [(js "name", JString (js "Ann"));
           (js "email", JString (js "ann@example.com"));
           (js "productType", JString (js "Beanie"));
           (js "colors", JArray [JString (js "red")]);
           (js "designImage", JString (js " data:image/png;base64,aGk= "))].

End CustomOrderSamples.

Module AllowlistSamples.

(** Advisory mode: enforcement off, an allowed set configured. *)
Definition advisoryEnv : Env :=
  {| ALLOWED_ORIGIN := Some (js "https://shop.example");
     STRIPE_SECRET_KEY := Some (js "sk_test_1");
     STRIPE_WEBHOOK_SECRET := Some (js "whsec_1");
     SUCCESS_URL := Some (js "https://shop.example/success");
     CANCEL_URL := Some (js "https://shop.example/cancel");
     DEFAULT_CURRENCY := None;
     ENFORCE_STRIPE_PRICE_ALLOWLIST := Some (js "False");
     ALLOWED_STRIPE_PRICE_IDS := Some (js "price_ok, price_also");
     NODE_ENV := Some (js "production");
     ORDER_EMAIL := None;
     RESEND_API_KEY := None;
     TURNSTILE_SECRET_KEY := None |}.

Definition request : Request :=
  Reference.request [("origin", "https://shop.example");
                     ("content-type", "application/json")] "".

Definition cartPayload : Checkout.CheckoutPayload :=
  {| Checkout.items := [{| priceId := js "price_1"; quantity := NumFinite (2 # 1) |}];
     Checkout.customerEmail := None;
     Checkout.metadata := None |}.

End AllowlistSamples.

Module TrafficSamples.

(** A custom-order request that names its address in [x-real-ip]. *)
Definition fromAddress (address : string) : Request :=
  Reference.request [("x-real-ip", address); ("content-type", "application/json")] "{}".

(** Six requests from one address inside one minute. *)
Definition sixRequests : list (Z * Request) :=
  map (fun now => (now, fromAddress "203.0.113.7"))
    [1000; 2000; 3000; 4000; 5000; 6000]%Z.

(** Three requests, each naming another address. *)
Definition threeAddresses : list (Z * Request) :=
  [(1000%Z, fromAddress "203.0.113.7");
   (1001%Z, fromAddress "203.0.113.8");
   (1002%Z, fromAddress "203.0.113.9")].

(** A body of five bytes, delivered in one chunk. *)
Definition helloStream : BodyStream :=
  StreamChunk (Some (map Reference.byteOf (js "hello"))) StreamDone.

Definition hello : Request :=
  {| headers := ∅; body := Some helloStream |}.

(** A webhook notification whose signature verifies on the reference
    platform. *)
Definition signedWebhook : Request :=
  Reference.request [("stripe-signature", "whsec_1{}")] "{}".

(** The event of a payment that succeeded. *)
Definition paymentEvent : json :=
  JObject [(js "id", JString (js "evt_1"));
           (js "type", JString (js "payment_intent.succeeded"));
           (js "data",
            JObject [(js "object", JObject [(js "id", JString (js "pi_1"))])])].

End TrafficSamples.

Module SessionSamples.

(** [{"items": [{"priceId": " price_1 ", "quantity": 2}],
      "metadata": {"note": "gift"}}] *)
Definition noteCart : json :=
  JObject [(js "items",
            JArray [JObject [(js "priceId", JString (js " price_1 "));
                             (js "quantity", JNumber (NumFinite (2 # 1)))]]);
           (js "metadata", JObject [(js "note", JString (js "gift"))])].

Definition notePayload : Checkout.CheckoutPayload :=
  {| Checkout.items := [{| priceId := js "price_1"; quantity := NumFinite (2 # 1) |}];
     Checkout.customerEmail := None;
     Checkout.metadata := Some [(js "note", JString (js "gift"))] |}.

(** The session that the checkout handler asks for on [noteCart]. *)
Definition noteParams : SessionCreateParams :=
  {| line_items := [{| priceId := js "price_1"; quantity := NumFinite (2 # 1) |}];
     success_url := js "https://shop.example/success";
     cancel_url := js "https://shop.example/cancel";
     params_metadata :=
       <[js "default_currency" := js "gbp"]>
         (<[js "source" := js "framer"]> (<[js "note" := js "gift"]> ∅));
     customer_email := None |}.

Definition request : Request :=
  Reference.request [("content-type", "application/json");
                     ("idempotency-key", " order-42 ")] "".

End SessionSamples.

Module ClientSamples.

(** A cart with 60 and 60 of one price and 1 of another. *)
Definition cart : list FramerCartItem.t :=
  [{| FramerCartItem.stripePriceId := js "price_a";
      FramerCartItem.quantity := NumFinite (60 # 1) |};
   {| FramerCartItem.stripePriceId := js "price_b";
      FramerCartItem.quantity := NumFinite (1 # 1) |};
   {| FramerCartItem.stripePriceId := js "price_a";
      FramerCartItem.quantity := NumFinite (60 # 1) |}].

End ClientSamples.

Module ProductionSamples.

(** Production without an allowlist: enforcement is on by default. *)
Definition env : Env :=
  {| ALLOWED_ORIGIN := None;
     STRIPE_SECRET_KEY := Some (js "sk_live_1");
     STRIPE_WEBHOOK_SECRET := Some (js "whsec_1");
     SUCCESS_URL := Some (js "https://shop.example/success");
     CANCEL_URL := Some (js "https://shop.example/cancel");
     DEFAULT_CURRENCY := None;
     ENFORCE_STRIPE_PRICE_ALLOWLIST := Some (js "  ");
     ALLOWED_STRIPE_PRICE_IDS := Some (js " , ");
     NODE_ENV := Some (js "production");
     ORDER_EMAIL := None;
     RESEND_API_KEY := None;
     TURNSTILE_SECRET_KEY := None |}.

End ProductionSamples.

(* ===================================================================== *)
(** * The model on concrete inputs *)
(* ===================================================================== *)

Example trim_example :
  JsString.trim (js "  price_1 ") = js "price_1".
Proof. reflexivity. Qed.

Example split_example :
  JsString.split 44 (js "a,,b") = [js "a"; js ""; js "b"].
Proof. reflexivity. Qed.

Example price_id_ok : PriceAllowlist.validateStripePriceId (js " price_1Ab ") = None.
Proof. reflexivity. Qed.

Example price_id_bad :
  PriceAllowlist.validateStripePriceId (js "price_") =
  Some "priceId must look like a Stripe Price ID (price_...)."%string.
Proof. reflexivity. Qed.

Example sanitize_script :
  CustomOrder.sanitizeInput (js " <b onclick=alert(1)>JavaScript:x</b> ") 100
  = js "b alert(1)x/b".
Proof. reflexivity. Qed.

Example email_ok : CustomOrder.EMAIL_REGEX_test (js "a@b.co") = true.
Proof. reflexivity. Qed.

Example email_bad : CustomOrder.EMAIL_REGEX_test (js "a@b.") = false.
Proof. reflexivity. Qed.

Example base64_example :
  Reference.base64 (js "aGk=") = [Byte.x68; Byte.x69].
Proof. reflexivity. Qed.

Example parseContentLength_examples :
  BodyReader.parseContentLength (Some (js " 1024 "))
  = {| BodyReader.bytes := Some 1024%N; BodyReader.invalid := false |}
  ∧ BodyReader.parseContentLength (Some (js "-1"))
    = {| BodyReader.bytes := None; BodyReader.invalid := true |}
  ∧ BodyReader.parseContentLength (Some (js "9007199254740992"))
    = {| BodyReader.bytes := None; BodyReader.invalid := true |}
  ∧ BodyReader.parseContentLength None
    = {| BodyReader.bytes := None; BodyReader.invalid := false |}.
Proof. repeat split. Qed.

Example read_within_limit :
  BodyReader.readRequestBodyWithLimit (H := Reference.platform None)
    {| headers := ∅;
       body := Some (StreamChunk (Some [Byte.x68]) (StreamChunk None
                       (StreamChunk (Some [Byte.x69]) StreamDone))) |}
    2
  = ([ERead; EPush [Byte.x68]; ERead; ERead; EPush [Byte.x69]; ERead; EReleaseLock],
     BodyReader.ReadOk (js "hi")).
Proof. reflexivity. Qed.

Example read_over_limit :
  BodyReader.readRequestBodyWithLimit (H := Reference.platform None)
    {| headers := ∅;
       body := Some (StreamChunk (Some [Byte.x68])
                       (StreamChunk (Some [Byte.x69; Byte.x21]) StreamError)) |}
    2
  = ([ERead; EPush [Byte.x68]; ERead; ECancel; EReleaseLock],
     BodyReader.ReadFailed BodyReader.too_large).
Proof. reflexivity. Qed.

Example origin_examples :
  Cors.parseAllowedOrigins AllowlistSamples.advisoryEnv = [js "https://shop.example"]
  ∧ Cors.isOriginAllowed AllowlistSamples.advisoryEnv AllowlistSamples.request = true
  ∧ Cors.isOriginAllowed AllowlistSamples.advisoryEnv
      (Reference.request [("origin", "https://evil.example")] "")
    = false
  ∧ Cors.isOriginAllowed AllowlistSamples.advisoryEnv (Reference.request [] "") = false
  ∧ Cors.isOriginAllowed Samples.env (Reference.request [] "") = true.
Proof. repeat split. Qed.

Example checkout_plain_cart :
  Checkout.validatePayload CheckoutSamples.plainCart = inr AllowlistSamples.cartPayload.
Proof. reflexivity. Qed.

Example checkout_quantity_errors :
  Checkout.errorMessage
    <$> [Checkout.ItemInvalid 0 Checkout.QuantityInvalid; Checkout.ItemsTooMany]
  = ["items[0].quantity must be an integer between 1 and 99."%string;
     "items must not exceed 50 line items."%string].
Proof. reflexivity. Qed.

Example sanitizeMetadata_example :
  Checkout.sanitizeMetadata (H := Reference.platform None)
    (Some [(js "order id", JString (js "42"));
           (js "source", JString (js "spoofed"));
           (js "__proto__", JString (js "x"));
           (js "skipped", JNull)])
  = Some (<[js "source" := js "framer"]> (<[js "order_id" := js "42"]> ∅)).
Proof. reflexivity. Qed.

Example custom_order_image :
  ∃ payload,
    CustomOrder.validatePayload (H := Reference.platform None)
      CustomOrderSamples.imageOrder
    = inr (payload, None)
    ∧ CustomOrder.designImage payload = Some (Some (js "data:image/png;base64,aGk=")).
Proof. eexists. split; reflexivity. Qed.

(* ===================================================================== *)
(** * Origin gate (C4) *)
(* ===================================================================== *)

Section OriginGate.

Context `{Platform}.

Lemma isEmpty_true (s : jsstring) : Cors.isEmpty s = true ↔ s = [].
Proof. destruct s; simpl; split; congruence. Qed.

Lemma isEmpty_false (s : jsstring) : Cors.isEmpty s = false ↔ s ≠ [].
Proof. destruct s; simpl; split; congruence. Qed.

Lemma eqb_true (s t : jsstring) : JsString.eqb s t = true ↔ s = t.
Proof. unfold JsString.eqb. apply bool_decide_eq_true. Qed.

Lemma includes_spec (origins : list jsstring) (origin : jsstring) :
  Cors.includes origins origin = true ↔ origin ∈ origins.
Proof.
  unfold Cors.includes. rewrite existsb_exists, list_elem_of_In. split.
  - intros (o & Hin & Heq). apply eqb_true in Heq. by subst.
  - intros Hin. exists origin. split; [done | by apply eqb_true].
Qed.

(** Every configured origin is a non-empty string: empty pieces of
    [ALLOWED_ORIGIN] are filtered out. *)
Lemma parseAllowedOrigins_nonempty (env : Env) (origin : jsstring) :
  origin ∈ Cors.parseAllowedOrigins env → origin ≠ [].
Proof.
  unfold Cors.parseAllowedOrigins.
  destruct (ALLOWED_ORIGIN env) as [value|]; [|by intros ?%elem_of_nil].
  destruct (Cors.isEmpty (JsString.trim value)); [by intros ?%elem_of_nil|].
  rewrite list_elem_of_In, filter_In. intros [_ Hne].
  by apply negb_true_iff, isEmpty_false in Hne.
Qed.

Lemma isOriginAllowed_cases (env : Env) (request : Request) :
  Cors.isOriginAllowed env request
  = match Cors.parseAllowedOrigins env with
    | [] => true
    | _ :: _ =>
        match headers_get request "origin" with
        | None => false
        | Some originHeader =>
            negb (Cors.isEmpty originHeader)
            && Cors.includes (Cors.parseAllowedOrigins env) originHeader
        end
    end.
Proof.
  unfold Cors.isOriginAllowed.
  destruct (Cors.parseAllowedOrigins env) as [|first others]; [done|].
  cbn [length Nat.eqb]. destruct (headers_get request "origin") as [origin|]; [|done].
  by destruct (Cors.isEmpty origin).
Qed.

(** A header that a request carries is a header value. *)
Lemma headers_get_value (request : Request) (name : string) (value : jsstring) :
  headers_get request name = Some value → isHeaderValue value = true.
Proof.
  unfold headers_get. destruct (headers request !! name) as [v|]; [|done].
  destruct (isHeaderValue v) eqn:Hv; [|done]. by intros [= <-].
Qed.

(** The headers of a response: the reflected origin and constants. *)
Lemma corsHeaders_reflected (env : Env) (request : Request) :
  Cors.corsHeaders env request
  = [ ("Access-Control-Allow-Origin", reflectedOrigin env request);
      ("Access-Control-Allow-Methods", Cors.ALLOWED_METHODS);
      ("Access-Control-Allow-Headers", Cors.ALLOWED_HEADERS);
      ("Access-Control-Max-Age", Cors.MAX_AGE_SECONDS) ]
    ++ match Cors.parseAllowedOrigins env with
       | [] => []
       | _ :: _ => [("Vary", js "Origin")]
       end.
Proof.
  unfold Cors.corsHeaders, reflectedOrigin.
  destruct (Cors.parseAllowedOrigins env) as [|first others] eqn:Hcfg; [done|].
  destruct (headers_get request "origin") as [origin|]; [|done].
  do 2 f_equal. f_equal.
  destruct (bool_decide_reflect (origin ∈ first :: others)) as [Hin|Hout].
  - rewrite (proj2 (includes_spec _ _) Hin).
    rewrite <- Hcfg in Hin. apply parseAllowedOrigins_nonempty in Hin.
    by rewrite (proj2 (isEmpty_false _) Hin).
  - destruct (Cors.includes (first :: others) origin) eqn:Hinc;
      [by apply includes_spec in Hinc|].
    by rewrite andb_false_r.
Qed.

Lemma headersAccepted_cors (env : Env) (request : Request) :
  NextResponse.headersAccepted (Cors.corsHeaders env request)
  = isHeaderValue (reflectedOrigin env request).
Proof.
  rewrite corsHeaders_reflected. unfold NextResponse.headersAccepted.
  rewrite forallb_app. cbn [forallb snd].
  change (isHeaderValue Cors.ALLOWED_METHODS) with true.
  change (isHeaderValue Cors.ALLOWED_HEADERS) with true.
  change (isHeaderValue Cors.MAX_AGE_SECONDS) with true.
  cbn [andb]. rewrite andb_true_r.
  destruct (Cors.parseAllowedOrigins env); cbn [forallb snd];
    [|change (isHeaderValue (js "Origin")) with true]; by rewrite andb_true_r.
Qed.

(** A response with the CORS headers of an answerable request is
    built, and building it throws otherwise. *)
Lemma create_answerable (env : Env) (request : Request) (body : option json)
    (status : Z) :
  answerable env request →
  NextResponse.create body status (Cors.corsHeaders env request)
  = Responded {| status := status;
                 responseBody := body;
                 responseHeaders := Cors.corsHeaders env request |}.
Proof.
  unfold answerable, NextResponse.create. rewrite headersAccepted_cors. by intros ->.
Qed.

Lemma create_unanswerable (env : Env) (request : Request) (body : option json)
    (status : Z) :
  ¬ answerable env request →
  NextResponse.create body status (Cors.corsHeaders env request) = headerException.
Proof.
  unfold answerable, NextResponse.create. rewrite headersAccepted_cors.
  by destruct (isHeaderValue (reflectedOrigin env request)).
Qed.

Lemma jsonError_answerable (env : Env) (request : Request) (message : string)
    (status : Z) :
  answerable env request →
  Cors.jsonError env message status request
  = Responded (errorAnswer env request status message).
Proof. intros Hok. unfold Cors.jsonError, NextResponse.json. by rewrite create_answerable. Qed.

Lemma jsonError_unanswerable (env : Env) (request : Request) (message : string)
    (status : Z) :
  ¬ answerable env request →
  Cors.jsonError env message status request = headerException.
Proof. intros Hno. unfold Cors.jsonError, NextResponse.json. by rewrite create_unanswerable. Qed.

Lemma answerable_dec (env : Env) (request : Request) :
  answerable env request ∨ ¬ answerable env request.
Proof. unfold answerable. destruct (isHeaderValue _); [by left|by right]. Qed.

(** The reflected origin is ["*"], the request's own origin or the first
    configured origin. *)
Lemma reflectedOrigin_cases (env : Env) (request : Request) :
  (Cors.parseAllowedOrigins env = [] ∧ reflectedOrigin env request = js "*")
  ∨ (headers_get request "origin" = Some (reflectedOrigin env request)
     ∧ reflectedOrigin env request ∈ Cors.parseAllowedOrigins env)
  ∨ (∃ others, Cors.parseAllowedOrigins env = reflectedOrigin env request :: others).
Proof.
  unfold reflectedOrigin.
  destruct (Cors.parseAllowedOrigins env) as [|first others] eqn:Hcfg; [by left|].
  right. destruct (headers_get request "origin") as [origin|]; [|right; by eexists].
  case_bool_decide; [by left|right; by eexists].
Qed.

(** With well-formed configured origins every request is answerable. *)
Lemma originsAreHeaderValues_answerable (env : Env) (request : Request) :
  originsAreHeaderValues env → answerable env request.
Proof.
  unfold originsAreHeaderValues, answerable. rewrite Forall_forall. intros Hall.
  destruct (reflectedOrigin_cases env request) as [[_ ->] | [[_ Hin] | [others Hcfg]]].
  - done.
  - by apply Hall.
  - apply Hall. rewrite Hcfg. left.
Qed.

(** A request that passes the origin gate is answerable: the response
    names ["*"] or the request's own origin. *)
Lemma allowed_answerable (env : Env) (request : Request) :
  Cors.isOriginAllowed env request = true → answerable env request.
Proof.
  rewrite isOriginAllowed_cases. unfold answerable, reflectedOrigin.
  destruct (Cors.parseAllowedOrigins env) as [|first others] eqn:Hcfg; [done|].
  destruct (headers_get request "origin") as [origin|] eqn:Horigin; [|done].
  intros [_ Hin%includes_spec]%andb_true_iff.
  rewrite bool_decide_eq_true_2 by done. by apply (headers_get_value request "origin").
Qed.



End OriginGate.

(* ===================================================================== *)
(** * Responses *)
(* ===================================================================== *)

Section Responses.

Lemma jsonError_answers (env : Env) (request : Request) (message : string)
    (status : Z) :
  answers env request (Cors.jsonError env message status request)
    (errorAnswer env request status message).
Proof.
  split; [apply jsonError_answerable | apply jsonError_unanswerable].
Qed.

Lemma jsonResponse_answers (env : Env) (request : Request) (status : Z)
    (fields : list (jsstring * json)) :
  answers env request (CustomOrder.jsonResponse env request status fields)
    (jsonAnswer env request status (JObject fields)).
Proof.
  unfold CustomOrder.jsonResponse, NextResponse.json.
  split; intros Hanswerable;
    [by rewrite create_answerable | by rewrite create_unanswerable].
Qed.

Lemma errorResponse_answers (env : Env) (request : Request) (status : Z)
    (message : string) :
  answers env request (CustomOrder.errorResponse env request status message)
    (errorAnswer env request status message).
Proof. apply jsonResponse_answers. Qed.

(** A response that was built has the status, the body and the headers
    it was asked to have. *)
Lemma create_Responded (body : option json) (code : Z)
    (headers : list (string * jsstring)) (response : Response) :
  NextResponse.create body code headers = Responded response →
  response = {| status := code; responseBody := body; responseHeaders := headers |}.
Proof.
  unfold NextResponse.create. destruct (NextResponse.headersAccepted headers); [|done].
  by intros [= <-].
Qed.

Lemma jsonError_status (env : Env) (request : Request) (message : string) (code : Z)
    (response : Response) :
  Cors.jsonError env message code request = Responded response →
  status response = code.
Proof. by intros ->%create_Responded. Qed.

Lemma json_status (body : json) (code : Z) (headers : list (string * jsstring))
    (response : Response) :
  NextResponse.json body code headers = Responded response → status response = code.
Proof. by intros ->%create_Responded. Qed.

(** What [answers] leaves open is decided by the request. *)
Lemma answers_outcome (env : Env) (request : Request) (outcome : Outcome)
    (response : Response) :
  answers env request outcome response →
  outcome = Responded response ∨ outcome = headerException.
Proof.
  intros [Hyes Hno]. destruct (answerable_dec env request); [left|right]; auto.
Qed.

(** A response built inside the [try] block of the custom-order
    handler: an exception of its headers is caught, logged, and thrown
    again by the response of the [catch] block. *)
Lemma catch_answers (env : Env) (request : Request) (effects : list Effect)
    (outcome : Outcome) (response : Response)
    (rateLimitMap : gmap jsstring RateLimit.RateLimitEntry) :
  answers env request outcome response →
  answersInTry env request
    (fst (match outcome with
          | Responded response => (effects, Responded response, rateLimitMap)
          | Threw _ =>
              (effects ++ [ELog LogError "custom_order_request_failed" []],
               CustomOrder.errorResponse env request 500
                 "Failed to process order. Please try again.",
               rateLimitMap)
          end))
    effects response.
Proof.
  intros [Hyes Hno]. split; intros Hanswerable.
  - by rewrite (Hyes Hanswerable).
  - rewrite (Hno Hanswerable). cbn [headerException fst]. f_equal.
    by apply (proj2 (errorResponse_answers env request 500 _)).
Qed.

End Responses.

(* ===================================================================== *)
(** * Rate limiter (C2) *)
(* ===================================================================== *)

Section RateLimiter.

Import RateLimit.

Implicit Types (m : gmap jsstring RateLimitEntry) (identifier : jsstring).

Lemma rateLimit_new m identifier (now : Z) (config : RateLimitConfig) :
  freshOrExpired m identifier now →
  rateLimit now identifier config m
  = ({| allowed := true;
        remaining := requests config - 1;
        result_resetAt := now + window config |},
     <[identifier := {| count := 1; resetAt := now + window config |}]> m).
Proof.
  unfold rateLimit. intros [-> | (entry & -> & Hexpired)]; [done|].
  by apply Z.ltb_lt in Hexpired as ->.
Qed.

Lemma rateLimit_within m identifier (now : Z) (config : RateLimitConfig)
    (entry : RateLimitEntry) :
  m !! identifier = Some entry →
  ¬ (resetAt entry < now)%Z →
  rateLimit now identifier config m
  = ({| allowed := bool_decide (count entry + 1 ≤ requests config)%Z;
        remaining := if bool_decide (count entry + 1 ≤ requests config)%Z
                     then requests config - (count entry + 1) else 0;
        result_resetAt := resetAt entry |},
     <[identifier := {| count := count entry + 1; resetAt := resetAt entry |}]> m).
Proof.
  unfold rateLimit. intros -> Hwithin.
  apply Z.ltb_nlt in Hwithin as ->. cbn [count resetAt].
  destruct (Z.gtb_spec (count entry + 1) (requests config));
    [rewrite bool_decide_eq_false_2 by lia | rewrite bool_decide_eq_true_2 by lia];
    done.
Qed.

(** Calls of another identifier leave this identifier's entry alone. *)
Lemma rateLimit_other m identifier other (now : Z) (config : RateLimitConfig) :
  identifier ≠ other →
  snd (rateLimit now other config m) !! identifier = m !! identifier.
Proof.
  intros Hne. unfold rateLimit.
  destruct (m !! other) as [entry|]; [destruct (resetAt entry <? now)%Z|];
    repeat case_match; cbn [snd]; by rewrite lookup_insert_ne.
Qed.

(** The sweep removes only entries that a call at or after the sweep
    treats as expired: it never changes a later result. *)
Lemma rateLimit_cleanup m identifier (swept now : Z) (config : RateLimitConfig) :
  (swept ≤ now)%Z →
  fst (rateLimit now identifier config (cleanup swept m))
  = fst (rateLimit now identifier config m).
Proof.
  intros Hle. unfold rateLimit, cleanup.
  destruct (m !! identifier) as [entry|] eqn:Hm.
  - destruct (decide (resetAt entry < swept)%Z) as [Hold|Hkeep].
    + rewrite (map_lookup_filter_None_2 _ m identifier).
      * by rewrite (proj2 (Z.ltb_lt _ _)) by lia.
      * right. intros x Hx. rewrite Hm in Hx. injection Hx as <-. cbn. lia.
    + rewrite (map_lookup_filter_Some_2 _ m identifier entry Hm Hkeep).
      destruct (resetAt entry <? now)%Z; [done|]. by repeat case_match.
  - rewrite (map_lookup_filter_None_2 _ m identifier); [done|]. by left.
Qed.

(** Calls inside the window of an entry with count [c]: call [k] is
    allowed exactly when [c + k] is within the limit. *)
Lemma rateLimitCalls_within (config : RateLimitConfig) identifier (later : list Z) :
  ∀ m (c r : Z),
    m !! identifier = Some {| count := c; resetAt := r |} →
    Forall (fun now => (now ≤ r)%Z) later →
    let results := fst (rateLimitCalls later identifier config m) in
    map allowed results
    = map (fun k => bool_decide (c + Z.of_nat k ≤ requests config)%Z)
        (seq 1 (length later))
    ∧ Forall (fun result => result_resetAt result = r) results.
Proof.
  induction later as [|now later IH]; intros m c r Hm Hwithin; [done|].
  apply Forall_cons in Hwithin as [Hnow Hlater].
  cbn [rateLimitCalls].
  rewrite (rateLimit_within m identifier now config _ Hm) by (cbn; lia).
  cbn [count resetAt].
  specialize (IH (<[identifier := {| count := c + 1; resetAt := r |}]> m)
                (c + 1)%Z r (lookup_insert_eq _ _ _) Hlater).
  destruct (rateLimitCalls later identifier config
              (<[identifier := {| count := c + 1; resetAt := r |}]> m))
    as [results m'] eqn:Hcalls.
  cbn [fst] in IH |- *. destruct IH as [IHallowed IHreset]. split.
  - cbn [map length seq allowed]. f_equal.
    rewrite IHallowed, <- (seq_shift (length later) 1), map_map.
    apply map_ext. intros k. apply bool_decide_ext. lia.
  - by apply Forall_cons.
Qed.

Lemma map_seq_all_true (P : nat → Prop) `{∀ k, Decision (P k)} (len start : nat) :
  (∀ k, start ≤ k < start + len → P k) →
  map (fun k => bool_decide (P k)) (seq start len) = replicate len true.
Proof.
  revert start. induction len as [|len IH]; intros start Hall; [done|].
  cbn [seq map replicate]. f_equal.
  - apply bool_decide_eq_true_2, Hall. lia.
  - apply IH. intros k Hk. apply Hall. lia.
Qed.

Lemma limitSequence_positive (n : nat) : 1 ≤ n → limitSequence n.
Proof.
  intros Hn identifier w m first later Hfresh Hlen Hwithin config results.
  subst results. cbn [rateLimitCalls].
  rewrite (rateLimit_new m identifier first config Hfresh).
  pose proof (rateLimitCalls_within config identifier later
                (<[identifier := {| count := 1; resetAt := first + window config |}]> m)
                1%Z (first + window config)%Z (lookup_insert_eq _ _ _) Hwithin)
    as Hcalls.
  destruct (rateLimitCalls later identifier config
              (<[identifier := {| count := 1; resetAt := first + window config |}]> m))
    as [results m'] eqn:Hrun.
  cbn [fst] in Hcalls |- *. cbv zeta in Hcalls. destruct Hcalls as [Hallowed Hreset].
  assert (Hlist : map allowed results = replicate (n - 1) true ++ [false]).
  { rewrite Hallowed, Hlen. destruct n as [|n']; [lia|].
    replace (S n' - 1) with n' by lia.
    rewrite seq_S, map_app. f_equal.
    - apply (map_seq_all_true (fun k => (1 + Z.of_nat k ≤ requests config)%Z)).
      intros k Hk. cbn. lia.
    - cbn. f_equal. apply bool_decide_eq_false_2. lia. }
  split; [|split].
  - cbn [map allowed]. rewrite Hlist. destruct n as [|n']; [lia|].
    by replace (S n' - 1) with n' by lia.
  - apply Forall_cons. by split.
  - intros i now result Htime Hresult Hdenied. destruct i as [|i].
    + cbn in Hresult. injection Hresult as <-. done.
    + cbn in Htime, Hresult.
      rewrite Forall_lookup in Hreset. rewrite (Hreset i result Hresult).
      rewrite Forall_lookup in Hwithin. exact (Hwithin i now Htime).
Qed.

(** C2, as the code has it.  The first call for an identifier without
    entry, or whose window has expired, opens a window that ends at
    [now + window] with count 1 and is allowed; a later call inside the
    window increments the count, is allowed exactly when the new count is
    at most the limit, and reports the window's reset time, which is not
    before the call; hence, for a limit [n] of at least 1, of [n + 1] calls
    inside one window calls [1..n] are allowed and call [n + 1] is denied,
    with the reset time reported on every call. *)
Theorem rateLimit_fixed_window identifier (config : RateLimitConfig) m (now : Z) :
  (freshOrExpired m identifier now →
   rateLimit now identifier config m
   = ({| allowed := true;
         remaining := requests config - 1;
         result_resetAt := now + window config |},
      <[identifier := {| count := 1; resetAt := now + window config |}]> m))
  ∧ (∀ entry,
       m !! identifier = Some entry → ¬ (resetAt entry < now)%Z →
       let result := fst (rateLimit now identifier config m) in
       snd (rateLimit now identifier config m) !! identifier
       = Some {| count := count entry + 1; resetAt := resetAt entry |}
       ∧ allowed result = bool_decide (count entry + 1 ≤ requests config)%Z
       ∧ result_resetAt result = resetAt entry
       ∧ (now ≤ result_resetAt result)%Z)
  ∧ (∀ n, 1 ≤ n → limitSequence n).
Proof.
  split; [|split].
  - apply rateLimit_new.
  - intros entry Hm Hwithin. cbv zeta.
    rewrite (rateLimit_within m identifier now config entry Hm Hwithin).
    cbn [fst snd allowed result_resetAt]. rewrite lookup_insert_eq.
    repeat split. lia.
  - apply limitSequence_positive.
Qed.

(** With limit 0 the first call is still allowed: [limitSequence 0]
    asks for one call that is denied. *)
Lemma rateLimit_limit_zero :
  map allowed
    (fst (rateLimitCalls [1000%Z] (js "client")
            {| requests := 0; window := 60000 |} ∅))
  = [true]
  ∧ ¬ limitSequence 0.
Proof.
  split; [reflexivity|].
  intros Hclaim.
  destruct (Hclaim (js "client") 60000%Z ∅ 1000%Z [])
    as [Hallowed _]; [by left | done | done |].
  discriminate Hallowed.
Qed.

(** Five calls are allowed and the sixth is denied under the limit of
    the custom-order route. *)
Lemma rateLimit_fixed_window_witness :
  map allowed
    (fst (rateLimitCalls [1000; 1001; 1002; 2000; 3000; 61000]%Z (js "client")
            {| requests := 5; window := 60000 |} ∅))
  = [true; true; true; true; true; false].
Proof.
  pose proof (rateLimit_fixed_window (js "client")
                {| requests := 5; window := 60000 |} ∅ 1000%Z) as (_ & _ & Hseq).
  destruct (Hseq 5 ltac:(lia) (js "client") 60000%Z ∅ 1000%Z
              [1001; 1002; 2000; 3000; 61000]%Z) as [Hallowed _].
  - by left.
  - reflexivity.
  - repeat constructor; lia.
  - exact Hallowed.
Defined.

End RateLimiter.

(* ===================================================================== *)
(** * Bounded body reader (C6) *)
(* ===================================================================== *)

Section BoundedBodyReader.

Import BodyReader.

Context `{Platform}.

Lemma totalLength_app (a b : list (list Byte.byte)) :
  totalLength (a ++ b) = (totalLength a + totalLength b)%N.
Proof. unfold totalLength, byteLength. rewrite concat_app, length_app. lia. Qed.

Lemma totalLength_cons (value : list Byte.byte) (chunks : list (list Byte.byte)) :
  totalLength (value :: chunks) = (byteLength value + totalLength chunks)%N.
Proof. unfold totalLength, byteLength. cbn [concat]. rewrite length_app. lia. Qed.

Lemma totalLength_snoc (chunks : list (list Byte.byte)) (value : list Byte.byte) :
  totalLength (chunks ++ [value]) = (totalLength chunks + byteLength value)%N.
Proof.
  rewrite totalLength_app, totalLength_cons.
  change (totalLength []) with 0%N. lia.
Qed.

Lemma Buffer_concat_exact (chunks : list (list Byte.byte)) :
  Buffer_concat chunks (totalLength chunks) = concat chunks.
Proof.
  unfold Buffer_concat, totalLength, byteLength. rewrite Nat2N.id.
  rewrite firstn_all, Nat.sub_diag. cbn. by rewrite app_nil_r.
Qed.

Lemma pushed_app (a b : list Effect) : pushed (a ++ b) = pushed a ++ pushed b.
Proof.
  induction a as [|e a IH]; [done|]. destruct e; cbn; rewrite ?IH; done.
Qed.

(** What the loop does from a state in which [chunks] is buffered. *)
Lemma readLoop_too_large (maxBytes : N) (stream : BodyStream) :
  ∀ chunks,
    (maxBytes < totalLength (chunks ++ streamChunks stream))%N →
    (totalLength chunks ≤ maxBytes)%N →
    snd (readLoop maxBytes stream chunks (totalLength chunks)) = ReadFailed too_large
    ∧ ∃ before value after,
        streamChunks stream = before ++ value :: after
        ∧ (totalLength (chunks ++ before) ≤ maxBytes)%N
        ∧ (maxBytes < totalLength (chunks ++ before ++ [value]))%N
        ∧ pushed (fst (readLoop maxBytes stream chunks (totalLength chunks))) = before
        ∧ ∃ reads,
            fst (readLoop maxBytes stream chunks (totalLength chunks))
            = reads ++ [ERead; ECancel; EReleaseLock]
            ∧ ECancel ∉ reads.
Proof.
  induction stream as [| |value rest IH]; intros chunks Hover Hfits.
  - cbn in Hover. rewrite app_nil_r in Hover. lia.
  - cbn in Hover. rewrite app_nil_r in Hover. lia.
  - destruct value as [value|]; cbn [readLoop streamChunks] in *.
    + destruct (N.ltb_spec maxBytes (totalLength chunks + byteLength value)) as [Hlt|Hge].
      * split; [done|]. exists [], value, (streamChunks rest).
        cbn [app fst pushed]. rewrite app_nil_r, totalLength_snoc.
        repeat split; try done.
        exists []. split; [done|]. apply not_elem_of_nil.
      * rewrite <- totalLength_snoc.
        destruct (IH (chunks ++ [value])) as (Hres & before & v & after & Hsplit
          & Hle & Hlt & Hpushed & reads & Htrace & Hcancel).
        { by rewrite <- app_assoc. }
        { rewrite totalLength_snoc. lia. }
        destruct (readLoop maxBytes rest (chunks ++ [value])
                    (totalLength (chunks ++ [value]))) as [trace result].
        cbn [fst snd] in *. split; [done|].
        exists (value :: before), v, after. rewrite Hsplit.
        rewrite <- !app_assoc in Hle, Hlt. cbn [app] in Hle, Hlt.
        repeat split; try done.
        -- cbn. by rewrite Hpushed.
        -- exists (ERead :: EPush value :: reads). rewrite Htrace. split; [done|].
           rewrite !not_elem_of_cons. done.
    + destruct (IH chunks Hover Hfits) as (Hres & before & v & after & Hsplit
        & Hle & Hlt & Hpushed & reads & Htrace & Hcancel).
      destruct (readLoop maxBytes rest chunks (totalLength chunks)) as [trace result].
      cbn [fst snd] in *. split; [done|].
      exists before, v, after. repeat split; try done.
      exists (ERead :: reads). rewrite Htrace. split; [done|].
      rewrite not_elem_of_cons. done.
Qed.

Lemma readLoop_buffered (maxBytes : N) (stream : BodyStream) :
  ∀ chunks,
    (totalLength chunks ≤ maxBytes)%N →
    (totalLength
       (chunks ++ pushed (fst (readLoop maxBytes stream chunks (totalLength chunks))))
     ≤ maxBytes)%N.
Proof.
  induction stream as [| |value rest IH]; intros chunks Hfits.
  - cbn. by rewrite app_nil_r.
  - cbn. by rewrite app_nil_r.
  - destruct value as [value|]; cbn [readLoop].
    + destruct (N.ltb_spec maxBytes (totalLength chunks + byteLength value)) as [Hlt|Hge].
      * cbn. by rewrite app_nil_r.
      * rewrite <- totalLength_snoc.
        specialize (IH (chunks ++ [value])). rewrite totalLength_snoc in IH at 1.
        specialize (IH Hge).
        destruct (readLoop maxBytes rest (chunks ++ [value])
                    (totalLength (chunks ++ [value]))) as [trace result].
        cbn [fst pushed]. by rewrite <- app_assoc in IH.
    + specialize (IH chunks Hfits).
      destruct (readLoop maxBytes rest chunks (totalLength chunks)) as [trace result].
      done.
Qed.

Lemma readLoop_ok (maxBytes : N) (stream : BodyStream) :
  ∀ chunks text,
    snd (readLoop maxBytes stream chunks (totalLength chunks)) = ReadOk text →
    text = utf8Decode (concat (chunks ++ streamChunks stream))
    ∧ pushed (fst (readLoop maxBytes stream chunks (totalLength chunks)))
      = streamChunks stream
    ∧ streamFails stream = false.
Proof.
  induction stream as [| |value rest IH]; intros chunks text Hok.
  - cbn in *. rewrite Buffer_concat_exact in Hok. rewrite app_nil_r.
    by injection Hok as <-.
  - done.
  - destruct value as [value|]; cbn [readLoop streamChunks streamFails] in *.
    + destruct (N.ltb_spec maxBytes (totalLength chunks + byteLength value)); [done|].
      rewrite <- totalLength_snoc in *. specialize (IH (chunks ++ [value]) text).
      destruct (readLoop maxBytes rest (chunks ++ [value])
                  (totalLength (chunks ++ [value]))) as [trace result].
      cbn [fst snd pushed] in *. destruct (IH Hok) as (-> & -> & ->).
      by rewrite <- app_assoc.
    + specialize (IH chunks text).
      destruct (readLoop maxBytes rest chunks (totalLength chunks)) as [trace result].
      exact (IH Hok).
Qed.

Lemma readLoop_completes (maxBytes : N) (stream : BodyStream) :
  ∀ chunks,
    (totalLength (chunks ++ streamChunks stream) ≤ maxBytes)%N →
    streamFails stream = false →
    snd (readLoop maxBytes stream chunks (totalLength chunks))
    = ReadOk (utf8Decode (concat (chunks ++ streamChunks stream))).
Proof.
  induction stream as [| |value rest IH]; intros chunks Hfits Hends.
  - cbn. by rewrite Buffer_concat_exact, app_nil_r.
  - done.
  - destruct value as [value|]; cbn [readLoop streamChunks streamFails] in *.
    + change (value :: streamChunks rest) with ([value] ++ streamChunks rest) in *.
      rewrite app_assoc in *.
      destruct (N.ltb_spec maxBytes (totalLength chunks + byteLength value)) as [Hlt|Hge].
      * rewrite totalLength_app, totalLength_snoc in Hfits. lia.
      * rewrite <- totalLength_snoc. specialize (IH (chunks ++ [value]) Hfits Hends).
        destruct (readLoop maxBytes rest (chunks ++ [value])
                    (totalLength (chunks ++ [value]))) as [trace result].
        exact IH.
    + specialize (IH chunks Hfits Hends).
      destruct (readLoop maxBytes rest chunks (totalLength chunks)) as [trace result].
      exact IH.
Qed.

Lemma pushed_prefix (earlier trace : list Effect) :
  earlier `prefix_of` trace →
  (totalLength (pushed earlier) ≤ totalLength (pushed trace))%N.
Proof.
  intros [later ->]. rewrite pushed_app, totalLength_app. lia.
Qed.

(** C6.  [readRequestBodyWithLimit] answers a request without body with
    the empty string.  On a body stream: when the cumulative byte count of
    the stream's chunks exceeds [maxBytes] it returns the too-large
    failure, having buffered exactly the chunks before the one that
    crosses the ceiling and having cancelled the stream right after
    reading that chunk; when it succeeds, the text is the decoding of the
    concatenation of all the chunks of the stream, and it does succeed on
    every stream that ends normally within the ceiling.  At every point of
    the read the bytes buffered so far do not exceed [maxBytes]. *)
Theorem readRequestBodyWithLimit_bounded (request : Request) (maxBytes : N) :
  let trace := fst (readRequestBodyWithLimit request maxBytes) in
  let result := snd (readRequestBodyWithLimit request maxBytes) in
  (body request = None → trace = [] ∧ result = ReadOk (js ""))
  ∧ (∀ stream, body request = Some stream →
       ((maxBytes < totalLength (streamChunks stream))%N →
        result = ReadFailed too_large
        ∧ ∃ before value after,
            streamChunks stream = before ++ value :: after
            ∧ (totalLength before ≤ maxBytes)%N
            ∧ (maxBytes < totalLength (before ++ [value]))%N
            ∧ pushed trace = before
            ∧ ∃ reads, trace = reads ++ [ERead; ECancel; EReleaseLock]
                       ∧ ECancel ∉ reads)
       ∧ (∀ text, result = ReadOk text →
            text = utf8Decode (concat (streamChunks stream))
            ∧ streamFails stream = false
            ∧ (totalLength (streamChunks stream) ≤ maxBytes)%N)
       ∧ ((totalLength (streamChunks stream) ≤ maxBytes)%N →
          streamFails stream = false →
          result = ReadOk (utf8Decode (concat (streamChunks stream)))))
  ∧ (∀ earlier, earlier `prefix_of` trace →
       (totalLength (pushed earlier) ≤ maxBytes)%N).
Proof.
  cbv zeta. unfold readRequestBodyWithLimit.
  assert (Hzero : (totalLength [] ≤ maxBytes)%N) by (change (totalLength []) with 0%N; lia).
  split; [|split].
  - by intros ->.
  - intros stream ->. change 0%N with (totalLength []). split; [|split].
    + intros Hover. by apply (readLoop_too_large maxBytes stream []).
    + intros text Hok.
      destruct (readLoop_ok maxBytes stream [] text Hok) as (-> & Hpushed & Hends).
      repeat split; try done.
      rewrite <- Hpushed. apply (readLoop_buffered maxBytes stream [] Hzero).
    + intros Hfits Hends. by apply (readLoop_completes maxBytes stream []).
  - intros earlier Hprefix. destruct (body request) as [stream|].
    + etransitivity; [exact (pushed_prefix _ _ Hprefix)|].
      change 0%N with (totalLength []).
      apply (readLoop_buffered maxBytes stream [] Hzero).
    + apply prefix_nil_inv in Hprefix as ->. exact Hzero.
Qed.

(** The two ends of a read, for the handlers. *)
Lemma read_too_large (request : Request) (maxBytes : N) (stream : BodyStream) :
  body request = Some stream →
  (maxBytes < totalLength (streamChunks stream))%N →
  snd (readRequestBodyWithLimit request maxBytes) = ReadFailed too_large
  ∧ (∃ reads, fst (readRequestBodyWithLimit request maxBytes)
              = reads ++ [ERead; ECancel; EReleaseLock])
  ∧ (totalLength (pushed (fst (readRequestBodyWithLimit request maxBytes))) ≤ maxBytes)%N.
Proof.
  intros Hbody Hover. unfold readRequestBodyWithLimit. rewrite Hbody.
  assert (Hzero : (totalLength [] ≤ maxBytes)%N) by (change (totalLength []) with 0%N; lia).
  change 0%N with (totalLength []).
  destruct (readLoop_too_large maxBytes stream [] Hover Hzero)
    as (Hresult & before & value & after & _ & _ & _ & _ & reads & Htrace & _).
  split; [done|]. split; [by exists reads|].
  apply (readLoop_buffered maxBytes stream [] Hzero).
Qed.

Lemma read_completes (request : Request) (maxBytes : N) (stream : BodyStream) :
  body request = Some stream →
  (totalLength (streamChunks stream) ≤ maxBytes)%N →
  streamFails stream = false →
  snd (readRequestBodyWithLimit request maxBytes) = ReadOk (rawBodyOf request)
  ∧ pushed (fst (readRequestBodyWithLimit request maxBytes)) = streamChunks stream.
Proof.
  intros Hbody Hfits Hends. unfold readRequestBodyWithLimit, rawBodyOf. rewrite Hbody.
  change 0%N with (totalLength []).
  pose proof (readLoop_completes maxBytes stream [] Hfits Hends) as Hok.
  split; [done|]. by apply (readLoop_ok maxBytes stream [] _ Hok).
Qed.

End BoundedBodyReader.

(* ===================================================================== *)
(** * Content-Length handling (C5) *)
(* ===================================================================== *)

Section ContentLength.

Import BodyReader.

Context `{Platform}.

Lemma forallb_true_Forall {A} (f : A → bool) (l : list A) :
  forallb f l = true ↔ Forall (fun x => f x = true) l.
Proof.
  induction l as [|x l IH]; cbn; [by split; constructor|].
  rewrite andb_true_iff, Forall_cons, IH. done.
Qed.

Lemma forallb_false_Exists {A} (f : A → bool) (l : list A) :
  forallb f l = false ↔ Exists (fun x => f x = false) l.
Proof.
  induction l as [|x l IH]; cbn; [split; [done|by intros ?%Exists_nil]|].
  rewrite andb_false_iff, Exists_cons, IH. done.
Qed.

Lemma digitsOnly_true (s : jsstring) :
  digitsOnly s = true ↔ s ≠ [] ∧ Forall (fun c => JsString.isDigit c = true) s.
Proof.
  unfold digitsOnly. destruct s as [|c s].
  - split; [done|]. by intros [? _].
  - rewrite forallb_true_Forall. split; [by split|by intros [_ ?]].
Qed.

Lemma digitsOnly_false (s : jsstring) :
  digitsOnly s = false ↔ s = [] ∨ Exists (fun c => JsString.isDigit c = false) s.
Proof.
  unfold digitsOnly. destruct s as [|c s].
  - split; [by left|done].
  - rewrite forallb_false_Exists. split; [by right|by intros [?|?]].
Qed.

Lemma parseContentLength_malformed (headerValue : jsstring) :
  MalformedLength headerValue →
  parseContentLength (Some headerValue) = {| bytes := None; invalid := true |}.
Proof.
  unfold parseContentLength. intros [Hnon | digits Hneg | Hdigits Hlarge].
  - by rewrite (proj2 (digitsOnly_false _) Hnon).
  - rewrite (proj2 (digitsOnly_false _)); [done|]. right. rewrite Hneg.
    by apply Exists_cons_hd.
  - destruct (digitsOnly (JsString.trim headerValue)); [|done]. cbn [negb].
    unfold MAX_SAFE_INTEGER. by rewrite (proj2 (N.leb_gt _ _) Hlarge).
Qed.

Lemma parseContentLength_wellformed (headerValue : jsstring) (value : N) :
  WellFormedLength headerValue value →
  parseContentLength (Some headerValue) = {| bytes := Some value; invalid := false |}.
Proof.
  intros (Hne & Hdigits & Hvalue & Hsafe). unfold parseContentLength.
  rewrite (proj2 (digitsOnly_true _)) by done. cbn [negb].
  rewrite Hvalue. unfold MAX_SAFE_INTEGER. by rewrite (proj2 (N.leb_le _ _) Hsafe).
Qed.

(** Every declared length is either malformed or well formed. *)
Lemma length_malformed_or_wellformed (headerValue : jsstring) :
  MalformedLength headerValue
  ∨ ∃ value, WellFormedLength headerValue value.
Proof.
  destruct (digitsOnly (JsString.trim headerValue)) eqn:Hd.
  - apply digitsOnly_true in Hd as [Hne Hall].
    destruct (N.le_gt_cases (decimalValue (JsString.trim headerValue)) (2 ^ 53 - 1)).
    + right. by eexists.
    + left. by apply NotSafeInteger.
  - left. apply NonNumeric. by apply digitsOnly_false.
Qed.

(** The switch of the webhook handler and the delivery of a custom
    order buffer nothing. *)
Lemma routeEvent_pushed (event : json) : pushed (fst (Webhook.routeEvent event)) = [].
Proof.
  unfold Webhook.routeEvent, Webhook.safeListCheckoutLineItems.
  repeat case_match; done.
Qed.

Lemma deliver_pushed (env : Env) (request : Request) (ip : jsstring)
    (sanitizedData : CustomOrder.CustomOrderData) (captchaToken : option jsstring) :
  pushed (fst (CustomOrder.deliver env request ip sanitizedData captchaToken)) = [].
Proof.
  unfold CustomOrder.deliver. repeat case_match; done.
Qed.

(** C5, as the code has it.  In the webhook handler, once the secret is
    configured and the signature header is present, and in the
    custom-order handler, once the request has passed the rate limiter and
    the content-type check, the declared Content-Length is handled as
    follows.  A malformed value (not numeric, negative or not a safe
    integer) is answered, without any effect, with the 400 "Invalid
    Content-Length header." response, which is not the too-large
    response.  A well-formed value above the endpoint's ceiling is
    answered, without any effect, with the 413 "Payload too large."
    response.  Without the header the handler goes on with the bounded
    read of the body: when the chunks of the body exceed the ceiling, the
    stream is cancelled with no more than the ceiling buffered and the
    answer is the same 413 response; when the body ends normally within
    the ceiling, every chunk is buffered and the text of the body is what
    the handler verifies, respectively parses.  Each of these answers is
    given when the request is answerable; otherwise building it throws.
    On every request, also one that an earlier check answers, a malformed
    or too large declared length leaves the handler without effect: no
    body byte is read. *)
Theorem content_length_handling (env : Env) (request : Request) (now : Z)
    (rateLimitMap : gmap jsstring RateLimit.RateLimitEntry) :
  (∀ secret c signature,
     Webhook.getWebhookSecret env = Some secret →
     headers_get request "stripe-signature" = Some (c :: signature) →
     let answer := Webhook.POST env request in
     (∀ headerValue,
        headers_get request "content-length" = Some headerValue →
        MalformedLength headerValue →
        fst answer = []
        ∧ answers env request (snd answer)
            (errorAnswer env request 400 "Invalid Content-Length header."))
     ∧ (∀ headerValue value,
          headers_get request "content-length" = Some headerValue →
          WellFormedLength headerValue value →
          (Webhook.MAX_WEBHOOK_BODY_BYTES < value)%N →
          fst answer = []
          ∧ answers env request (snd answer)
              (errorAnswer env request 413 "Payload too large."))
     ∧ (headers_get request "content-length" = None →
        let read := readRequestBodyWithLimit request Webhook.MAX_WEBHOOK_BODY_BYTES in
        fst read `prefix_of` fst answer
        ∧ ∀ stream,
            body request = Some stream →
            ((Webhook.MAX_WEBHOOK_BODY_BYTES < totalLength (streamChunks stream))%N →
             fst answer = fst read
             ∧ (∃ reads, fst read = reads ++ [ERead; ECancel; EReleaseLock])
             ∧ (totalLength (pushed (fst answer)) ≤ Webhook.MAX_WEBHOOK_BODY_BYTES)%N
             ∧ answers env request (snd answer)
                 (errorAnswer env request 413 "Payload too large."))
            ∧ ((totalLength (streamChunks stream) ≤ Webhook.MAX_WEBHOOK_BODY_BYTES)%N →
               streamFails stream = false →
               pushed (fst answer) = streamChunks stream
               ∧ (Checkout.getStripeClient env = true →
                  EConstructEvent (utf8Decode (concat (streamChunks stream)))
                    (c :: signature) secret
                  ∈ fst answer))))
  ∧ (reachesLengthCheck now rateLimitMap request →
     let answer := fst (CustomOrder.POST env now rateLimitMap request) in
     (∀ headerValue,
        headers_get request "content-length" = Some headerValue →
        MalformedLength headerValue →
        fst answer = []
        ∧ answers env request (snd answer)
            (errorAnswer env request 400 "Invalid Content-Length header."))
     ∧ (∀ headerValue value,
          headers_get request "content-length" = Some headerValue →
          WellFormedLength headerValue value →
          (CustomOrder.MAX_REQUEST_BYTES < value)%N →
          fst answer = []
          ∧ answers env request (snd answer)
              (errorAnswer env request 413 "Payload too large."))
     ∧ (headers_get request "content-length" = None →
        let read := readRequestBodyWithLimit request CustomOrder.MAX_REQUEST_BYTES in
        fst read `prefix_of` fst answer
        ∧ ∀ stream,
            body request = Some stream →
            ((CustomOrder.MAX_REQUEST_BYTES < totalLength (streamChunks stream))%N →
             (∃ reads, fst read = reads ++ [ERead; ECancel; EReleaseLock])
             ∧ (totalLength (pushed (fst answer)) ≤ CustomOrder.MAX_REQUEST_BYTES)%N
             ∧ answersInTry env request answer (fst read)
                 (errorAnswer env request 413 "Payload too large."))
            ∧ ((totalLength (streamChunks stream) ≤ CustomOrder.MAX_REQUEST_BYTES)%N →
               streamFails stream = false →
               pushed (fst answer) = streamChunks stream
               ∧ (jsonParse (utf8Decode (concat (streamChunks stream))) = None →
                  answersInTry env request answer (fst read)
                    (errorAnswer env request 400 "Invalid JSON request body.")))))
  ∧ (∀ headerValue,
       headers_get request "content-length" = Some headerValue →
       MalformedLength headerValue
       ∨ (∃ value, WellFormedLength headerValue value
                   ∧ (Webhook.MAX_WEBHOOK_BODY_BYTES < value)%N) →
       fst (Webhook.POST env request) = [])
  ∧ (∀ headerValue,
       headers_get request "content-length" = Some headerValue →
       MalformedLength headerValue
       ∨ (∃ value, WellFormedLength headerValue value
                   ∧ (CustomOrder.MAX_REQUEST_BYTES < value)%N) →
       fst (fst (CustomOrder.POST env now rateLimitMap request)) = [])
  ∧ errorAnswer env request 400 "Invalid Content-Length header."
    ≠ errorAnswer env request 413 "Payload too large.".
Proof.
  assert (Hparsed : ∀ (ceiling : N) headerValue,
            MalformedLength headerValue
            ∨ (∃ value, WellFormedLength headerValue value ∧ (ceiling < value)%N) →
            invalid (parseContentLength (Some headerValue)) = true
            ∨ (invalid (parseContentLength (Some headerValue)) = false
               ∧ ∃ value, bytes (parseContentLength (Some headerValue)) = Some value
                          ∧ (ceiling <? value)%N = true)).
  { intros ceiling headerValue [Hbad | (value & Hgood & Hlarge)].
    - left. by rewrite (parseContentLength_malformed _ Hbad).
    - right. rewrite (parseContentLength_wellformed _ _ Hgood). split; [done|].
      exists value. split; [done|]. by apply N.ltb_lt. }
  split; [|split; [|split; [|split]]].
  - intros secret c signature Hsecret Hsignature. cbv zeta.
    unfold Webhook.POST. rewrite Hsecret, Hsignature. split; [|split].
    + intros headerValue -> Hbad. rewrite (parseContentLength_malformed _ Hbad).
      cbn [invalid fst snd]. split; [done|apply jsonError_answers].
    + intros headerValue value -> Hgood Hlarge.
      rewrite (parseContentLength_wellformed _ _ Hgood). cbn [invalid bytes].
      rewrite (proj2 (N.ltb_lt _ _) Hlarge). cbn [fst snd].
      split; [done|apply jsonError_answers].
    + intros ->. cbn [parseContentLength invalid bytes]. split.
      * destruct (readRequestBodyWithLimit request Webhook.MAX_WEBHOOK_BODY_BYTES)
          as [readEffects bodyRead].
        cbn [fst snd]. destruct bodyRead as [rawBody|[]]; [|done|by eexists].
        destruct (negb (Checkout.getStripeClient env)); [done|].
        destruct (constructEvent _ _ _); by eexists.
      * intros stream Hbody. split.
        -- intros Hover.
           destruct (read_too_large request _ stream Hbody Hover)
             as (Hresult & Hreads & Hbuffered).
           destruct (readRequestBodyWithLimit request Webhook.MAX_WEBHOOK_BODY_BYTES)
             as [readEffects bodyRead].
           cbn [fst snd] in *. subst bodyRead. cbn [fst snd].
           repeat split; try done; apply jsonError_answers.
        -- intros Hfits Hends.
           destruct (read_completes request _ stream Hbody Hfits Hends)
             as (Hresult & Hpushed).
           unfold rawBodyOf in Hresult. rewrite Hbody in Hresult.
           destruct (readRequestBodyWithLimit request Webhook.MAX_WEBHOOK_BODY_BYTES)
             as [readEffects bodyRead].
           cbn [fst snd] in *. subst bodyRead.
           destruct (Checkout.getStripeClient env); cbn [negb fst].
           ++ split.
              ** destruct (constructEvent _ _ _) as [event|]; cbn [fst];
                   rewrite pushed_app; cbn [pushed];
                   rewrite ?routeEvent_pushed, Hpushed; apply app_nil_r.
              ** intros _.
                 destruct (constructEvent _ _ _) as [event|]; cbn [fst];
                   apply elem_of_app; right; left.
           ++ split; [done|]. intros [=].
  - intros [Hallowed Htype]. cbv zeta. unfold CustomOrder.POST.
    destruct (RateLimit.rateLimit _ _ _ _) as [rateLimitResult rateLimitMap'].
    cbn [fst] in Hallowed. rewrite Hallowed, Htype. cbn [negb]. split; [|split].
    + intros headerValue -> Hbad. rewrite (parseContentLength_malformed _ Hbad).
      cbn [invalid fst snd]. split; [done|apply errorResponse_answers].
    + intros headerValue value -> Hgood Hlarge.
      rewrite (parseContentLength_wellformed _ _ Hgood). cbn [invalid bytes].
      rewrite (proj2 (N.ltb_lt _ _) Hlarge). cbn [fst snd].
      split; [done|apply errorResponse_answers].
    + intros ->. cbn [parseContentLength invalid bytes].
      assert (Hprefix : ∀ (tried : list Effect * Outcome) earlier,
                earlier `prefix_of` fst tried →
                earlier `prefix_of`
                  fst (fst (let '(effects, outcome) := tried in
                            match outcome with
                            | Responded response =>
                                (effects, Responded response, rateLimitMap')
                            | Threw _ =>
                                (effects
                                 ++ [ELog LogError "custom_order_request_failed" []],
                                 CustomOrder.errorResponse env request 500
                                   "Failed to process order. Please try again.",
                                 rateLimitMap')
                            end))).
      { intros [effects [response|message]] earlier Hearlier; cbn [fst] in *; [done|].
        by apply prefix_app_r. }
      assert (Hpushed : ∀ (tried : list Effect * Outcome),
                pushed (fst (fst (let '(effects, outcome) := tried in
                                  match outcome with
                                  | Responded response =>
                                      (effects, Responded response, rateLimitMap')
                                  | Threw _ =>
                                      (effects
                                       ++ [ELog LogError "custom_order_request_failed" []],
                                       CustomOrder.errorResponse env request 500
                                         "Failed to process order. Please try again.",
                                       rateLimitMap')
                                  end)))
                = pushed (fst tried)).
      { intros [effects [response|message]]; cbn [fst]; [done|].
        rewrite pushed_app. apply app_nil_r. }
      split.
      * apply Hprefix. unfold CustomOrder.tryBlock.
        destruct (readRequestBodyWithLimit request CustomOrder.MAX_REQUEST_BYTES)
          as [readEffects rawBody].
        cbn [fst]. destruct rawBody as [text|[]]; [|done|done].
        destruct (jsonParse text) as [parsedBody|]; [|done].
        destruct (CustomOrder.validatePayload parsedBody) as [|[]]; [done|].
        destruct (CustomOrder.deliver _ _ _ _ _). by eexists.
      * intros stream Hbody. split.
        -- intros Hover.
           destruct (read_too_large request _ stream Hbody Hover)
             as (Hresult & Hreads & Hbuffered).
           rewrite Hpushed. unfold CustomOrder.tryBlock.
           destruct (readRequestBodyWithLimit request CustomOrder.MAX_REQUEST_BYTES)
             as [readEffects rawBody].
           cbn [fst snd] in *. subst rawBody. cbn [fst].
           split; [done|]. split; [done|].
           apply catch_answers, errorResponse_answers.
        -- intros Hfits Hends.
           destruct (read_completes request _ stream Hbody Hfits Hends)
             as (Hresult & Hread).
           unfold rawBodyOf in Hresult. rewrite Hbody in Hresult.
           rewrite Hpushed. unfold CustomOrder.tryBlock.
           destruct (readRequestBodyWithLimit request CustomOrder.MAX_REQUEST_BYTES)
             as [readEffects rawBody].
           cbn [fst snd] in *. subst rawBody. split.
           ++ destruct (jsonParse _) as [parsedBody|]; [|done].
              destruct (CustomOrder.validatePayload parsedBody) as [|[data token]];
                [done|].
              pose proof (deliver_pushed env request
                            (CustomOrder.getClientIp request) data token) as Hquiet.
              destruct (CustomOrder.deliver _ _ _ _ _) as [effects outcome].
              cbn [fst] in *. rewrite pushed_app, Hquiet, Hread. apply app_nil_r.
           ++ intros ->. apply catch_answers, errorResponse_answers.
  - intros headerValue Hheader Hlength. unfold Webhook.POST.
    destruct (Webhook.getWebhookSecret env) as [secret|]; [|done].
    destruct (headers_get request "stripe-signature") as [[|c signature]|];
      [done| |done].
    rewrite Hheader.
    destruct (Hparsed Webhook.MAX_WEBHOOK_BODY_BYTES headerValue Hlength)
      as [-> | (-> & value & -> & ->)]; done.
  - intros headerValue Hheader Hlength. unfold CustomOrder.POST.
    destruct (RateLimit.rateLimit _ _ _ _) as [rateLimitResult rateLimitMap'].
    destruct (negb (RateLimit.allowed rateLimitResult)); [done|].
    destruct (negb (JsString.startsWith _ _)); [done|].
    rewrite Hheader.
    destruct (Hparsed CustomOrder.MAX_REQUEST_BYTES headerValue Hlength)
      as [-> | (-> & value & -> & ->)]; done.
  - unfold errorAnswer, jsonAnswer. intros [=].
Qed.

End ContentLength.

(* ===================================================================== *)
(** * Webhook verification (C1) *)
(* ===================================================================== *)

Section WebhookVerification.

Import BodyReader.

Context `{Platform}.

Lemma routed_app (a b : list Effect) : routed (a ++ b) = routed a || routed b.
Proof. apply existsb_app. Qed.

Lemma readLoop_not_routed (maxBytes : N) (stream : BodyStream) :
  ∀ chunks totalBytes,
    routed (fst (readLoop maxBytes stream chunks totalBytes)) = false.
Proof.
  induction stream as [| |value rest IH]; intros chunks totalBytes; [done|done|].
  destruct value as [value|]; cbn [readLoop].
  - destruct (maxBytes <? totalBytes + byteLength value)%N; [done|].
    specialize (IH (chunks ++ [value]) (totalBytes + byteLength value)%N).
    by destruct (readLoop maxBytes rest _ _).
  - specialize (IH chunks totalBytes). by destruct (readLoop maxBytes rest _ _).
Qed.

Lemma read_not_routed (request : Request) (maxBytes : N) :
  routed (fst (readRequestBodyWithLimit request maxBytes)) = false.
Proof.
  unfold readRequestBodyWithLimit. destruct (body request); [|done].
  apply readLoop_not_routed.
Qed.

Lemma read_ok_rawBody (request : Request) (maxBytes : N) (text : jsstring) :
  snd (readRequestBodyWithLimit request maxBytes) = ReadOk text →
  text = rawBodyOf request.
Proof.
  unfold readRequestBodyWithLimit, rawBodyOf.
  destruct (body request) as [stream|]; [|by intros [= <-]].
  intros Hok. by apply (readLoop_ok maxBytes stream [] text) in Hok as [-> _].
Qed.

(** The handler, case by case. *)
Lemma webhook_POST_after_guards (env : Env) (request : Request)
    (secret signature : jsstring) (c : N) :
  Webhook.getWebhookSecret env = Some secret →
  headers_get request "stripe-signature" = Some (c :: signature) →
  let contentLength := parseContentLength (headers_get request "content-length") in
  let read := readRequestBodyWithLimit request Webhook.MAX_WEBHOOK_BODY_BYTES in
  Webhook.POST env request
  = if invalid contentLength then
      ([], Cors.jsonError env "Invalid Content-Length header." 400 request)
    else if match bytes contentLength with
            | Some declared => (Webhook.MAX_WEBHOOK_BODY_BYTES <? declared)%N
            | None => false
            end then
      ([], Cors.jsonError env "Payload too large." 413 request)
    else
      match snd read with
      | ReadFailed too_large =>
          (fst read, Cors.jsonError env "Payload too large." 413 request)
      | ReadFailed invalid_body =>
          (fst read ++ [ELog LogError "webhook_body_read_failed" []],
           Cors.jsonError env "Invalid webhook request body." 400 request)
      | ReadOk rawBody =>
          if negb (Checkout.getStripeClient env) then
            (fst read, Threw "Missing STRIPE_SECRET_KEY environment variable.")
          else
            match constructEvent rawBody (c :: signature) secret with
            | None =>
                (fst read
                 ++ [EConstructEvent rawBody (c :: signature) secret;
                     ELog LogError "webhook_signature_verification_failed" []],
                 Cors.jsonError env "Invalid webhook signature." 400 request)
            | Some event =>
                (fst read
                 ++ EConstructEvent rawBody (c :: signature) secret
                 :: fst (Webhook.routeEvent event),
                 match snd (Webhook.routeEvent event) with
                 | Some exception => Threw exception
                 | None => Webhook.received env request
                 end)
            end
      end.
Proof.
  intros Hsecret Hsignature. cbv zeta. unfold Webhook.POST.
  rewrite Hsecret, Hsignature.
  by destruct (readRequestBodyWithLimit request Webhook.MAX_WEBHOOK_BODY_BYTES).
Qed.

(** An error response is never a 200. *)
Lemma jsonError_not_ok (env : Env) (request : Request) (message : string)
    (code : Z) (response : Response) :
  code ≠ 200%Z →
  Cors.jsonError env message code request = Responded response →
  status response ≠ 200%Z.
Proof.
  intros Hcode. unfold Cors.jsonError, NextResponse.json, NextResponse.create.
  destruct (NextResponse.headersAccepted _); [|done]. by intros [= <-].
Qed.

(** C1, as the code has it.  Without a configured webhook secret the
    handler builds the 500 misconfiguration response.  With the secret but
    without (or with an empty) [Stripe-Signature] header it builds the 400
    "Missing Stripe-Signature header." response.  When the secret and the
    signature are present, the Content-Length header is absent or valid
    and within the ceiling, the body has been read within the ceiling,
    the Stripe client is configured and the raw body does not verify, it
    builds the 400 "Invalid webhook signature." response.  Each of these
    is the answer when the request is answerable; otherwise building it
    throws.  On every request whose body does not verify no event is
    routed and no response of status 200 is given; and whenever an event
    is routed, it is the event that [constructEvent] returned for the raw
    body that was read, the signature header and the configured secret,
    and the routing comes after that verification.  The three error
    responses differ. *)
Theorem webhook_verification (env : Env) (request : Request) :
  let answer := Webhook.POST env request in
  (Webhook.getWebhookSecret env = None →
   fst answer = []
   ∧ answers env request (snd answer)
       (errorAnswer env request 500
          "Server misconfigured: missing STRIPE_WEBHOOK_SECRET."))
  ∧ (∀ secret,
       Webhook.getWebhookSecret env = Some secret →
       headers_get request "stripe-signature" = None
       ∨ headers_get request "stripe-signature" = Some [] →
       fst answer = []
       ∧ answers env request (snd answer)
           (errorAnswer env request 400 "Missing Stripe-Signature header."))
  ∧ (∀ secret c signature rawBody,
       Webhook.getWebhookSecret env = Some secret →
       headers_get request "stripe-signature" = Some (c :: signature) →
       (headers_get request "content-length" = None
        ∨ ∃ headerValue value,
            headers_get request "content-length" = Some headerValue
            ∧ WellFormedLength headerValue value
            ∧ (value ≤ Webhook.MAX_WEBHOOK_BODY_BYTES)%N) →
       snd (readRequestBodyWithLimit request Webhook.MAX_WEBHOOK_BODY_BYTES)
       = ReadOk rawBody →
       Checkout.getStripeClient env = true →
       constructEvent rawBody (c :: signature) secret = None →
       answers env request (snd answer)
         (errorAnswer env request 400 "Invalid webhook signature.")
       ∧ routed (fst answer) = false)
  ∧ (∀ secret c signature,
       Webhook.getWebhookSecret env = Some secret →
       headers_get request "stripe-signature" = Some (c :: signature) →
       constructEvent (rawBodyOf request) (c :: signature) secret = None →
       routed (fst answer) = false
       ∧ ∀ response, snd answer = Responded response → status response ≠ 200%Z)
  ∧ (routed (fst answer) = true →
     ∃ secret c signature event,
       Webhook.getWebhookSecret env = Some secret
       ∧ headers_get request "stripe-signature" = Some (c :: signature)
       ∧ snd (readRequestBodyWithLimit request Webhook.MAX_WEBHOOK_BODY_BYTES)
         = ReadOk (rawBodyOf request)
       ∧ constructEvent (rawBodyOf request) (c :: signature) secret = Some event
       ∧ fst answer
         = fst (readRequestBodyWithLimit request Webhook.MAX_WEBHOOK_BODY_BYTES)
           ++ EConstructEvent (rawBodyOf request) (c :: signature) secret
           :: fst (Webhook.routeEvent event))
  ∧ errorAnswer env request 500 "Server misconfigured: missing STRIPE_WEBHOOK_SECRET."
    ≠ errorAnswer env request 400 "Missing Stripe-Signature header."
  ∧ errorAnswer env request 500 "Server misconfigured: missing STRIPE_WEBHOOK_SECRET."
    ≠ errorAnswer env request 400 "Invalid webhook signature."
  ∧ errorAnswer env request 400 "Missing Stripe-Signature header."
    ≠ errorAnswer env request 400 "Invalid webhook signature.".
Proof.
  cbv zeta. split; [|split; [|split; [|split; [|split; [|split; [|split]]]]]].
  - intros Hsecret. unfold Webhook.POST. rewrite Hsecret. cbn [fst snd].
    split; [done|apply jsonError_answers].
  - intros secret Hsecret Hmissing. unfold Webhook.POST. rewrite Hsecret.
    destruct Hmissing as [-> | ->]; cbn [fst snd];
      (split; [done|apply jsonError_answers]).
  - intros secret c signature rawBody Hsecret Hsignature Hlength Hread Hclient Hverify.
    rewrite (webhook_POST_after_guards env request secret signature c Hsecret Hsignature).
    cbv zeta.
    assert (Hpass : invalid (parseContentLength (headers_get request "content-length"))
                    = false
                    ∧ match bytes (parseContentLength
                                     (headers_get request "content-length")) with
                      | Some declared => (Webhook.MAX_WEBHOOK_BODY_BYTES <? declared)%N
                      | None => false
                      end = false).
    { destruct Hlength as [-> | (headerValue & value & -> & Hgood & Hle)]; [done|].
      rewrite (parseContentLength_wellformed _ _ Hgood). cbn [invalid bytes].
      split; [done|]. by apply N.ltb_ge. }
    destruct Hpass as [-> ->]. rewrite Hread, Hclient, Hverify. cbn [negb fst snd].
    split; [apply jsonError_answers|]. rewrite routed_app, read_not_routed. done.
  - intros secret c signature Hsecret Hsignature Hverify.
    rewrite (webhook_POST_after_guards env request secret signature c Hsecret Hsignature).
    cbv zeta.
    pose proof (read_not_routed request Webhook.MAX_WEBHOOK_BODY_BYTES) as Hquiet.
    assert (Hdiffer : ∀ message code response,
              code ≠ 200%Z →
              Cors.jsonError env message code request = Responded response →
              status response ≠ 200%Z)
      by (intros message code response; apply jsonError_not_ok).
    destruct (parseContentLength (headers_get request "content-length"))
      as [[declared|] []]; cbn [invalid bytes];
      try (destruct (Webhook.MAX_WEBHOOK_BODY_BYTES <? declared)%N);
      try (by split; [|intros response; apply Hdiffer]).
    all: destruct (snd (readRequestBodyWithLimit request Webhook.MAX_WEBHOOK_BODY_BYTES))
           as [rawBody|[]] eqn:Hread;
         [ apply read_ok_rawBody in Hread as ->;
           destruct (negb (Checkout.getStripeClient env)); [done|];
           rewrite Hverify; cbn [fst snd]; rewrite routed_app, Hquiet;
           by split; [|intros response; apply Hdiffer]
         | by split; [|intros response; apply Hdiffer]
         | cbn [fst snd]; rewrite routed_app, Hquiet;
           by split; [|intros response; apply Hdiffer] ].
  - intros Hrouted.
    destruct (Webhook.getWebhookSecret env) as [secret|] eqn:Hsecret;
      [|by unfold Webhook.POST in Hrouted; rewrite Hsecret in Hrouted].
    destruct (headers_get request "stripe-signature") as [[|c signature]|] eqn:Hsignature;
      [by unfold Webhook.POST in Hrouted; rewrite Hsecret, Hsignature in Hrouted| |
       by unfold Webhook.POST in Hrouted; rewrite Hsecret, Hsignature in Hrouted].
    exists secret, c, signature.
    rewrite (webhook_POST_after_guards env request secret signature c Hsecret Hsignature)
      in Hrouted |- *.
    cbv zeta in Hrouted |- *.
    pose proof (read_not_routed request Webhook.MAX_WEBHOOK_BODY_BYTES) as Hquiet.
    destruct (parseContentLength (headers_get request "content-length"))
      as [[declared|] []]; cbn [invalid bytes] in Hrouted |- *;
      try (destruct (Webhook.MAX_WEBHOOK_BODY_BYTES <? declared)%N);
      try done.
    all: destruct (snd (readRequestBodyWithLimit request Webhook.MAX_WEBHOOK_BODY_BYTES))
           as [rawBody|[]] eqn:Hread;
         [ apply read_ok_rawBody in Hread as ->;
           destruct (negb (Checkout.getStripeClient env));
           [ cbn [fst] in Hrouted; by rewrite Hquiet in Hrouted |];
           destruct (constructEvent _ _ _) as [event|];
           [ by exists event
           | cbn [fst] in Hrouted; rewrite routed_app, Hquiet in Hrouted; done ]
         | cbn [fst] in Hrouted; by rewrite Hquiet in Hrouted
         | cbn [fst] in Hrouted; rewrite routed_app, Hquiet in Hrouted; done ].
  - unfold errorAnswer, jsonAnswer. intros [=].
  - unfold errorAnswer, jsonAnswer. intros [=].
  - unfold errorAnswer, jsonAnswer. intros [=].
Qed.

End WebhookVerification.

(** A notification above the ceiling is answered with 413 although its
    body does not verify. *)
Lemma webhook_oversized_unverified :
  Webhook.POST (H := Reference.platform None) Samples.env Samples.oversizedWebhook
  = ([], Responded (errorAnswer Samples.env Samples.oversizedWebhook 413
                      "Payload too large."))
  ∧ constructEvent (Platform := Reference.platform None)
      (rawBodyOf (H := Reference.platform None) Samples.oversizedWebhook)
      (js "t=1,v1=bad") (js "whsec_1")
    = None
  ∧ ¬ rejectsUnverifiedAsInvalidSignature (H := Reference.platform None).
Proof.
  assert (Hverify : constructEvent (Platform := Reference.platform None)
                      (rawBodyOf (H := Reference.platform None) Samples.oversizedWebhook)
                      (js "t=1,v1=bad") (js "whsec_1") = None).
  { cbn [constructEvent Reference.platform]. unfold Reference.verify.
    by destruct (JsString.eqb _ _). }
  split; [reflexivity|]. split; [exact Hverify|].
  intros Hclaim.
  specialize (Hclaim Samples.env Samples.oversizedWebhook (js "whsec_1")
                116%N (js "=1,v1=bad") eq_refl eq_refl Hverify).
  discriminate Hclaim.
Qed.

(** A forged notification within the ceiling is answered with the
    invalid-signature response, and nothing is routed. *)
Lemma webhook_verification_witness :
  answers Samples.env Samples.forgedWebhook
    (snd (Webhook.POST (H := Reference.platform None) Samples.env Samples.forgedWebhook))
    (errorAnswer Samples.env Samples.forgedWebhook 400 "Invalid webhook signature.")
  ∧ routed (fst (Webhook.POST (H := Reference.platform None)
                   Samples.env Samples.forgedWebhook))
    = false.
Proof.
  refine (proj1 (proj2 (proj2 (webhook_verification (H := Reference.platform None)
                                 Samples.env Samples.forgedWebhook)))
            (js "whsec_1") 116%N (js "=1,v1=bad") [123; 125]%N _ _ _ _ _ _).
  - reflexivity.
  - reflexivity.
  - by left.
  - reflexivity.
  - reflexivity.
  - reflexivity.
Defined.

(* ===================================================================== *)
(** * Price allowlist enforcement (C7) *)
(* ===================================================================== *)

Section PriceAllowlistEnforcement.

Import Cors PriceAllowlist Checkout.

Context `{Platform}.

Lemma size_zero_empty (allowed : gset jsstring) :
  (size allowed =? 0) = true ↔ allowed = ∅.
Proof.
  rewrite Nat.eqb_eq. split.
  - intros Hsize. by apply leibniz_equiv, size_empty_iff.
  - intros ->. apply size_empty.
Qed.

Lemma size_positive_nonempty (allowed : gset jsstring) :
  (0 <? size allowed) = true ↔ allowed ≠ ∅.
Proof.
  rewrite Nat.ltb_lt, <- size_zero_empty, Nat.eqb_eq. lia.
Qed.

(** The violating ids are the price ids of the payload that are not in
    the allowed set. *)
Lemma invalidIds_spec (allowlist : StripePriceAllowlist) (payload : CheckoutPayload)
    (id : jsstring) :
  id ∈ invalidIds allowlist payload
  ↔ (id ∉ allowedPriceIds allowlist)
    ∧ (∃ item, item ∈ items payload ∧ priceId item = id).
Proof.
  unfold invalidIds.
  rewrite list_elem_of_In, filter_In, <- list_elem_of_In, list_elem_of_fmap.
  rewrite negb_true_iff, bool_decide_eq_false. split.
  - intros [(item & -> & Hitem) Hnot]. split; [done|]. by exists item.
  - intros [Hnot (item & Hitem & <-)]. split; [|done]. by exists item.
Qed.

Lemma invalidIds_nonempty (allowlist : StripePriceAllowlist) (payload : CheckoutPayload) :
  (0 <? length (invalidIds allowlist payload)) = true
  ↔ ∃ item, item ∈ items payload ∧ priceId item ∉ allowedPriceIds allowlist.
Proof.
  rewrite Nat.ltb_lt. split.
  - destruct (invalidIds allowlist payload) as [|id ids] eqn:Hids; [cbn; lia|].
    intros _. assert (Hin : id ∈ invalidIds allowlist payload) by (rewrite Hids; left).
    apply invalidIds_spec in Hin as (Hnot & item & Hitem & <-). by exists item.
  - intros (item & Hitem & Hnot).
    assert (Hin : priceId item ∈ invalidIds allowlist payload).
    { apply invalidIds_spec. split; [done|]. by exists item. }
    destruct (invalidIds allowlist payload); [by apply elem_of_nil in Hin|cbn; lia].
Qed.

(** The session that [createSession] asks Stripe for: its parameters
    and its idempotency key. *)
Lemma createSession_session (env : Env) (request : Request)
    (successUrl cancelUrl : jsstring) (payload : CheckoutPayload)
    (params : SessionCreateParams) (key : option jsstring) :
  ESessionsCreate params key
  ∈ fst (createSession env request successUrl cancelUrl payload) →
  getStripeClient env = true
  ∧ (∃ sanitized,
       sanitizeMetadata (metadata payload) = Some sanitized
       ∧ params
         = {| line_items := items payload;
              success_url := successUrl;
              cancel_url := cancelUrl;
              params_metadata :=
                <[js "default_currency" :=
                    JsString.slice0 MAX_METADATA_VALUE_LENGTH (defaultCurrency env)]>
                  sanitized;
              customer_email := customerEmail payload |})
  ∧ key
    = match headers_get request "idempotency-key" with
      | Some idempotencyKeyHeader =>
          match JsString.trim idempotencyKeyHeader with
          | [] => None
          | c :: rest => Some (JsString.slice0 255 (c :: rest))
          end
      | None => None
      end
  ∧ sessionsCreated (fst (createSession env request successUrl cancelUrl payload))
    = [(params, key)].
Proof.
  unfold createSession.
  destruct (sanitizeMetadata (metadata payload)) as [sanitized|];
    [|by intros ?%elem_of_nil].
  cbn zeta.
  match goal with
  | |- context [sessionsCreate ?p ?k] => set (params' := p); set (key' := k)
  end.
  assert (Hkey :
    key' = match headers_get request "idempotency-key" with
           | Some idempotencyKeyHeader =>
               match JsString.trim idempotencyKeyHeader with
               | [] => None
               | c :: rest => Some (JsString.slice0 255 (c :: rest))
               end
           | None => None
           end).
  { subst key'.
    destruct (headers_get request "idempotency-key") as [header|]; [|done].
    by destruct (JsString.trim header). }
  destruct (getStripeClient env); cbn [negb].
  2:{ cbn [fst]. rewrite elem_of_cons, elem_of_nil. by intros [|]. }
  destruct (sessionsCreate params' key') as [session|]; cbn [fst];
    rewrite !elem_of_cons, elem_of_nil; (intros [Heq|[|[]]]; [|done]);
    injection Heq as -> ->;
    (split; [done|]); (split; [by eexists|]); done.
Qed.

(** With sanitized metadata and a configured Stripe client, the session
    is asked for. *)
Lemma createSession_creates (env : Env) (request : Request)
    (successUrl cancelUrl : jsstring) (payload : CheckoutPayload)
    (sanitized : gmap jsstring jsstring) :
  sanitizeMetadata (metadata payload) = Some sanitized →
  getStripeClient env = true →
  ∃ key,
    ESessionsCreate
      {| line_items := items payload;
         success_url := successUrl;
         cancel_url := cancelUrl;
         params_metadata :=
           <[js "default_currency" :=
               JsString.slice0 MAX_METADATA_VALUE_LENGTH (defaultCurrency env)]>
             sanitized;
         customer_email := customerEmail payload |} key
    ∈ fst (createSession env request successUrl cancelUrl payload).
Proof.
  intros Hsanitized Hclient. unfold createSession. rewrite Hsanitized, Hclient.
  cbn zeta. cbn [negb].
  match goal with
  | |- context [sessionsCreate ?p ?k] => exists k; destruct (sessionsCreate p k)
  end; cbn [fst]; left.
Qed.

(** What the end of the handler answers is never one of the two
    responses of the allowlist check. *)
Lemma createSession_not_rejected (env : Env) (request : Request)
    (successUrl cancelUrl : jsstring) (payload : CheckoutPayload) (message : string) :
  message = "Cart contains invalid items."%string
  ∨ message
    = "Server misconfigured: ENFORCE_STRIPE_PRICE_ALLOWLIST is enabled but ALLOWED_STRIPE_PRICE_IDS is empty."%string →
  ∀ code,
    snd (createSession env request successUrl cancelUrl payload)
    ≠ Responded (errorAnswer env request code message).
Proof.
  intros Hmessage code. unfold createSession.
  destruct (sanitizeMetadata (metadata payload)) as [sanitized|]; [|done].
  cbn zeta.
  assert (Herror : ∀ other status,
            (other = "Failed to create checkout session."%string
             ∨ other = "Stripe session was created without a redirect URL."%string) →
            jsonError env other status request
            ≠ Responded (errorAnswer env request code message)).
  { intros other status Hother.
    unfold jsonError, NextResponse.json, NextResponse.create.
    destruct (NextResponse.headersAccepted _); [|done].
    unfold errorAnswer, jsonAnswer. intros [= _ Heq].
    destruct Hmessage as [-> | ->], Hother as [-> | ->]; discriminate Heq. }
  destruct (negb (getStripeClient env)); cbn [snd]; [apply Herror; by left|].
  match goal with
  | |- context [sessionsCreate ?p ?k] => destruct (sessionsCreate p k) as [session|]
  end; cbn [snd]; [|apply Herror; by left].
  destruct (sessionUrl session) as [[|c rest]|]; try (apply Herror; by right).
  unfold NextResponse.json, NextResponse.create.
  destruct (NextResponse.headersAccepted _); [|done].
  unfold errorAnswer, jsonAnswer. intros [=].
Qed.

(** C7.  Once the checkout handler holds a validated payload (the
    origin is allowed, both URLs are configured, the body parses and
    validates): with enforcement enabled and an empty allowed set the
    answer is the 500 misconfiguration response; with enforcement enabled,
    a non-empty allowed set and an item whose price id is not in it, the
    answer is the 400 "Cart contains invalid items." response, which is
    not the 500 one; with enforcement disabled and a non-empty allowed set
    the violating ids are logged as a warning, if there are any, and the
    handler goes on to create the session: it asks Stripe once for a
    session with all the items of the payload, the violating ones
    included, whenever the metadata can be sanitized and the Stripe client
    is configured (and only then); its answer is neither of the two
    responses of the allowlist check. *)
Theorem allowlist_enforcement (env : Env) (request : Request) (body : json)
    (payload : CheckoutPayload) (successUrl cancelUrl : jsstring) :
  isOriginAllowed env request = true →
  getRequiredUrl (SUCCESS_URL env) = Some successUrl →
  getRequiredUrl (CANCEL_URL env) = Some cancelUrl →
  requestJson request = Some body →
  validatePayload body = inr payload →
  let allowlist := getStripePriceAllowlist env in
  let misconfigured :=
    errorAnswer env request 500
      "Server misconfigured: ENFORCE_STRIPE_PRICE_ALLOWLIST is enabled but ALLOWED_STRIPE_PRICE_IDS is empty." in
  let rejected := errorAnswer env request 400 "Cart contains invalid items." in
  (enforce allowlist = true → allowedPriceIds allowlist = ∅ →
   POST env request = ([EReadJson], Responded misconfigured))
  ∧ (enforce allowlist = true → allowedPriceIds allowlist ≠ ∅ →
     (∃ item, item ∈ items payload ∧ priceId item ∉ allowedPriceIds allowlist) →
     POST env request
     = ([EReadJson;
         ELog LogWarn "checkout_rejected_price_not_allowlisted"
           (invalidIds allowlist payload)],
        Responded rejected))
  ∧ (enforce allowlist = false → allowedPriceIds allowlist ≠ ∅ →
     let session := createSession env request successUrl cancelUrl payload in
     ((∃ item, item ∈ items payload ∧ priceId item ∉ allowedPriceIds allowlist) →
      POST env request
      = (EReadJson
         :: ELog LogWarn "checkout_warning_price_not_allowlisted"
              (invalidIds allowlist payload)
         :: fst session,
         snd session))
     ∧ ((∀ item, item ∈ items payload → priceId item ∈ allowedPriceIds allowlist) →
        POST env request = (EReadJson :: fst session, snd session))
     ∧ (∀ sanitized,
          sanitizeMetadata (metadata payload) = Some sanitized →
          getStripeClient env = true →
          ∃ key,
            sessionsCreated (fst (POST env request))
            = [({| line_items := items payload;
                   success_url := successUrl;
                   cancel_url := cancelUrl;
                   params_metadata :=
                     <[js "default_currency" :=
                         JsString.slice0 MAX_METADATA_VALUE_LENGTH (defaultCurrency env)]>
                       sanitized;
                   customer_email := customerEmail payload |}, key)])
     ∧ ((∃ params key, ESessionsCreate params key ∈ fst (POST env request)) →
        is_Some (sanitizeMetadata (metadata payload)) ∧ getStripeClient env = true)
     ∧ snd (POST env request) ≠ Responded misconfigured
     ∧ snd (POST env request) ≠ Responded rejected)
  ∧ misconfigured ≠ rejected.
Proof.
  intros Horigin Hsuccess Hcancel Hjson Hvalid. cbv zeta.
  pose proof (allowed_answerable env request Horigin) as Hanswerable.
  unfold POST. rewrite Horigin, Hsuccess, Hcancel, Hjson, Hvalid. cbn [negb].
  split; [|split; [|split]].
  - intros -> Hempty. rewrite (proj2 (size_zero_empty _) Hempty).
    by rewrite (jsonError_answerable env request _ _ Hanswerable).
  - intros -> Hnonempty Hviolating.
    destruct (size (allowedPriceIds (getStripePriceAllowlist env)) =? 0) eqn:Hsize;
      [by apply size_zero_empty in Hsize|].
    rewrite (proj2 (invalidIds_nonempty _ _) Hviolating).
    by rewrite (jsonError_answerable env request _ _ Hanswerable).
  - intros -> Hnonempty. rewrite (proj2 (size_positive_nonempty _) Hnonempty).
    assert (Hshape :
      ∃ logged,
        (if 0 <? length (invalidIds (getStripePriceAllowlist env) payload)
         then
           let '(effects, outcome) :=
             createSession env request successUrl cancelUrl payload in
           (EReadJson
            :: [ELog LogWarn "checkout_warning_price_not_allowlisted"
                  (invalidIds (getStripePriceAllowlist env) payload)] ++ effects,
            outcome)
         else
           let '(effects, outcome) :=
             createSession env request successUrl cancelUrl payload in
           (EReadJson :: [] ++ effects, outcome))
        = (EReadJson :: logged
             ++ fst (createSession env request successUrl cancelUrl payload),
           snd (createSession env request successUrl cancelUrl payload))
        ∧ sessionsCreated logged = []
        ∧ ∀ params key, ESessionsCreate params key ∉ logged).
    { destruct (0 <? length _);
        destruct (createSession env request successUrl cancelUrl payload);
        eexists; (split; [reflexivity|]); (split; [done|]); intros params key;
        [rewrite elem_of_cons, elem_of_nil; by intros [|] | apply not_elem_of_nil]. }
    destruct Hshape as (logged & Hshape & Hsilent & Hnone).
    split; [|split; [|split; [|split; [|split]]]].
    + intros Hviolating. rewrite (proj2 (invalidIds_nonempty _ _) Hviolating).
      by destruct (createSession env request successUrl cancelUrl payload).
    + intros Hall.
      destruct (0 <? length (invalidIds (getStripePriceAllowlist env) payload))
        eqn:Hids.
      * apply invalidIds_nonempty in Hids as (item & Hitem & Hnot).
        by specialize (Hall item Hitem).
      * by destruct (createSession env request successUrl cancelUrl payload).
    + intros sanitized Hsanitized Hclient. rewrite Hshape. cbn [fst].
      destruct (createSession_creates env request successUrl cancelUrl payload
                  sanitized Hsanitized Hclient) as [key Hin].
      exists key.
      apply createSession_session in Hin as (_ & _ & _ & Hcreated).
      change (EReadJson :: logged ++ ?l) with ([EReadJson] ++ logged ++ l).
      unfold sessionsCreated in *. rewrite !omap_app, Hsilent, Hcreated. done.
    + rewrite Hshape. cbn [fst]. intros (params & key & Hin).
      apply elem_of_cons in Hin as [|Hin]; [done|].
      apply elem_of_app in Hin as [Hin|Hin]; [by apply Hnone in Hin|].
      apply createSession_session in Hin as (Hclient & (sanitized & -> & _) & _).
      by split; [eexists|].
    + rewrite Hshape. cbn [snd]. apply createSession_not_rejected. by right.
    + rewrite Hshape. cbn [snd]. apply createSession_not_rejected. by left.
  - unfold errorAnswer, jsonAnswer. intros [=].
Qed.

End PriceAllowlistEnforcement.

(* ===================================================================== *)
(** * Metadata sanitization (C8) *)
(* ===================================================================== *)

Section MetadataSanitization.

Import Cors Checkout.

Context `{Platform}.

Lemma sanitizeKey_word (rawKey : jsstring) :
  Forall (fun c => JsString.isWord c = true) (sanitizeKey rawKey)
  ∧ length (sanitizeKey rawKey) ≤ 40.
Proof.
  unfold sanitizeKey, JsString.slice0, MAX_METADATA_KEY_LENGTH. split.
  - apply Forall_take, Forall_fmap, Forall_forall. intros c _. cbn.
    by destruct (JsString.isWord c) eqn:Hc.
  - rewrite length_take. lia.
Qed.

Lemma slice0_length (n : nat) (s : jsstring) : length (JsString.slice0 n s) ≤ n.
Proof. unfold JsString.slice0. rewrite length_take. lia. Qed.

Lemma setProperty_sanitized (key value : jsstring) (m : gmap jsstring jsstring) :
  sanitizedSoFar m → size m < MAX_METADATA_ENTRIES - 1 →
  Forall (fun c => JsString.isWord c = true) key → length key ≤ 40 →
  length value ≤ MAX_METADATA_VALUE_LENGTH →
  sanitizedSoFar (setProperty key value m).
Proof.
  unfold MAX_METADATA_ENTRIES, MAX_METADATA_VALUE_LENGTH.
  intros [Hentries Hsize] Hroom Hword Hkey Hvalue. unfold setProperty.
  destruct (JsString.eqb key (js "__proto__")); [by split|]. split.
  - intros k v. rewrite lookup_insert. case_decide as Hk.
    + intros [= <-]. by subst k.
    + apply Hentries.
  - rewrite map_size_insert. destruct (m !! key); cbn; lia.
Qed.

Lemma sanitizeEntries_sanitized (entries : list (jsstring * json)) :
  ∀ m result,
    sanitizedSoFar m →
    sanitizeEntries entries m = inr result →
    sanitizedSoFar result.
Proof.
  induction entries as [|[rawKey rawValue] rest IH]; intros m result Hm Hrun.
  - by injection Hrun as <-.
  - cbn [sanitizeEntries] in Hrun.
    destruct (Nat.leb_spec (MAX_METADATA_ENTRIES - 1) (size m)) as [Hfull|Hroom];
      [by injection Hrun as <-|].
    assert (Hstep :
      match (if isEmpty (sanitizeKey rawKey)
                || JsString.eqb (sanitizeKey rawKey) (js "source")
             then sanitizeEntries rest m
             else match JsConvert.toString callStackDepth rawValue with
                  | inl exception => inl exception
                  | inr text =>
                      sanitizeEntries rest
                        (setProperty (sanitizeKey rawKey)
                           (JsString.slice0 MAX_METADATA_VALUE_LENGTH text) m)
                  end) with
      | inr r => sanitizedSoFar r
      | inl _ => True
      end).
    { clear Hrun.
      destruct (isEmpty (sanitizeKey rawKey)
                || JsString.eqb (sanitizeKey rawKey) (js "source")).
      - destruct (sanitizeEntries rest m) eqn:Hrest; [done|]. by apply (IH m).
      - destruct (JsConvert.toString callStackDepth rawValue) as [|text]; [done|].
        destruct (sanitizeEntries rest
                    (setProperty (sanitizeKey rawKey)
                       (JsString.slice0 MAX_METADATA_VALUE_LENGTH text) m))
          eqn:Hrest; [done|].
        apply (IH _ _ (setProperty_sanitized _ _ m Hm Hroom
                         (proj1 (sanitizeKey_word rawKey))
                         (proj2 (sanitizeKey_word rawKey))
                         (slice0_length _ _)) Hrest). }
    destruct rawValue; try (by rewrite Hrun in Hstep).
    by apply (IH m).
Qed.

(** Whenever [sanitizeMetadata] returns, the map is sanitized. *)
Lemma sanitizeMetadata_sanitized (input : option (list (jsstring * json)))
    (m : gmap jsstring jsstring) :
  sanitizeMetadata input = Some m → sanitizedMetadata m.
Proof.
  unfold sanitizeMetadata.
  assert (Hempty : sanitizedSoFar ∅).
  { split; [by intros key value Hin; rewrite lookup_empty in Hin|].
    rewrite map_size_empty. lia. }
  destruct (match input with
            | Some entries => sanitizeEntries entries ∅
            | None => inr ∅
            end) as [|sanitized] eqn:Hloop; [done|].
  intros [= <-].
  assert (Hsanitized : sanitizedSoFar sanitized).
  { destruct input as [entries|]; [|by injection Hloop as <-].
    by apply (sanitizeEntries_sanitized entries ∅). }
  destruct Hsanitized as [Hentries Hsize]. split; [|split].
  - apply lookup_insert_eq.
  - intros key value. rewrite lookup_insert. case_decide as Hkey.
    + intros [= <-]. subst key. split; [|cbn; lia].
      apply forallb_true_Forall. reflexivity.
    + apply Hentries.
  - rewrite map_size_insert. destruct (sanitized !! js "source"); cbn; lia.
Qed.

(** It returns whenever every value converts to a string. *)
Lemma sanitizeEntries_returns (entries : list (jsstring * json)) :
  ∀ m,
    Forall (fun entry => ∃ text,
              JsConvert.toString callStackDepth (snd entry) = inr text) entries →
    ∃ sanitized, sanitizeEntries entries m = inr sanitized.
Proof.
  induction entries as [|[rawKey rawValue] rest IH]; intros m Hconvert; [by eexists|].
  apply Forall_cons in Hconvert as [[text Htext] Hrest]. cbn [snd] in Htext.
  cbn [sanitizeEntries]. destruct (_ <=? _); [by eexists|].
  destruct rawValue; try (by apply IH);
    destruct (isEmpty _ || _); try (by apply IH); rewrite Htext; by apply IH.
Qed.

End MetadataSanitization.

(** C8 fails on the code: for the client-supplied metadata object
    [{"note": {"toString": 1}}], [String(rawValue)] throws and
    [sanitizeMetadata] returns no map; the checkout handler, which calls
    it outside any [try], throws as well. *)
Theorem sanitizeMetadata_throws `{Platform} :
  Checkout.sanitizeMetadata (Some MetadataSamples.throwingMetadata) = None
  ∧ Checkout.validatePayload MetadataSamples.throwingCheckout
    = inr {| Checkout.items := [{| priceId := js "price_1";
                                   quantity := NumFinite (1 # 1) |}];
             Checkout.customerEmail := None;
             Checkout.metadata := Some MetadataSamples.throwingMetadata |}
  ∧ Checkout.POST (H := Reference.platform (Some MetadataSamples.throwingCheckout))
      Samples.env MetadataSamples.checkoutRequest
    = ([EReadJson], Threw "TypeError: Cannot convert object to primitive value").
Proof.
  split; [reflexivity|]. split; [reflexivity|]. vm_compute. reflexivity.
Qed.

(* ===================================================================== *)
(** * Checkout validation (C3) *)
(* ===================================================================== *)

Section CheckoutValidation.

Import Cors PriceAllowlist Checkout.

Lemma startsWith_app (p s : jsstring) :
  JsString.startsWith p s = true ↔ ∃ rest, s = p ++ rest.
Proof.
  revert s. induction p as [|a p IH]; intros s; cbn.
  - split; [by exists s|done].
  - destruct s as [|b s]; [split; [done|by intros [rest [=]]]|].
    rewrite andb_true_iff, N.eqb_eq, IH. split.
    + intros [-> [rest ->]]. by exists rest.
    + intros [rest [= -> ->]]. split; [done|by exists rest].
Qed.

Lemma PRICE_ID_PATTERN_test_spec (s : jsstring) :
  PRICE_ID_PATTERN_test s = true ↔ matchesPricePattern s.
Proof.
  unfold PRICE_ID_PATTERN_test, matchesPricePattern.
  rewrite andb_true_iff, startsWith_app. split.
  - intros [[rest ->] Hrest]. exists rest.
    change (drop 6 (js "price_" ++ rest)) with rest in Hrest.
    destruct rest as [|c rest]; [done|]. split; [done|]. split; [done|].
    by apply forallb_true_Forall.
  - intros (rest & -> & Hne & Hall). split; [by exists rest|].
    change (drop 6 (js "price_" ++ rest)) with rest.
    destruct rest as [|c rest]; [done|]. by apply forallb_true_Forall.
Qed.

Lemma Qred_inject_Z (z : Z) : Qred (inject_Z z) = inject_Z z.
Proof.
  apply Qcanon.Qred_identity. cbn. apply Z.gcd_1_r.
Qed.

Lemma isInteger_spec (q : Q) :
  Js.isInteger (NumFinite q) = true ↔ ∃ z : Z, (q == inject_Z z)%Q.
Proof.
  cbn [Js.isInteger]. rewrite Pos.eqb_eq. split.
  - intros Hden. exists (Qnum (Qred q)).
    rewrite <- (Qred_correct q) at 1.
    destruct (Qred q) as [num den]. cbn in Hden |- *. by subst den.
  - intros [z Hz]. apply Qred_complete in Hz. rewrite Hz, Qred_inject_Z. done.
Qed.

Lemma quantity_check_spec (n : jsnumber) :
  negb (Js.isInteger n) || Js.ltZ n 1 || Js.gtZ n MAX_QUANTITY = false
  ↔ integerInRange n.
Proof.
  unfold integerInRange, MAX_QUANTITY.
  rewrite !orb_false_iff, negb_false_iff. split.
  - intros [[Hint Hlow] Hhigh]. destruct n as [q| |]; [|done|done].
    apply isInteger_spec in Hint as [z Hz]. exists z, q.
    cbn [Js.ltZ Js.gtZ] in Hlow, Hhigh.
    apply negb_false_iff, Qle_bool_iff in Hlow, Hhigh.
    rewrite Hz in Hlow, Hhigh. rewrite <- Zle_Qle in Hlow, Hhigh. done.
  - intros (z & q & Hrange & -> & Hz). cbn [Js.ltZ Js.gtZ].
    rewrite !negb_false_iff. split; [split|].
    + apply isInteger_spec. by exists z.
    + apply Qle_bool_iff. rewrite Hz, <- Zle_Qle. lia.
    + apply Qle_bool_iff. rewrite Hz, <- Zle_Qle. lia.
Qed.

Lemma firstViolation_app (a b : list (bool * ValidationError)) :
  firstViolation (a ++ b)
  = match firstViolation a with
    | Some e => Some e
    | None => firstViolation b
    end.
Proof.
  induction a as [|[holds e] a IH]; [done|]. cbn. by destruct holds.
Qed.

Lemma validateItems_firstViolation (itemsInput : list json) :
  ∀ index,
    match validateItems index itemsInput with
    | inl e => firstViolation (itemsConstraints index itemsInput) = Some e
    | inr _ => firstViolation (itemsConstraints index itemsInput) = None
    end.
Proof.
  induction itemsInput as [|item rest IH]; intros index; [done|].
  cbn [validateItems itemsConstraints]. rewrite firstViolation_app.
  unfold itemConstraints, itemPriceId, itemQuantity.
  destruct item as [| | | | |entries]; try reflexivity.
  cbn [Js.asRecord].
  destruct (Js.get (js "priceId") entries) as [[| | |priceId| |]|]; try reflexivity.
  unfold validateStripePriceId.
  destruct (isEmpty (JsString.trim priceId)); [reflexivity|].
  destruct (PRICE_ID_PATTERN_test (JsString.trim priceId)); [|reflexivity].
  cbn [negb].
  destruct (Js.get (js "quantity") entries) as [[| |quantity| | |]|]; try reflexivity.
  destruct (Js.isInteger quantity), (Js.ltZ quantity 1), (Js.gtZ quantity MAX_QUANTITY);
    try reflexivity.
  cbn [negb orb andb firstViolation]. specialize (IH (S index)).
  by destruct (validateItems (S index) rest).
Qed.

Lemma validatePayload_firstViolation (input : json) :
  match validatePayload input with
  | inl e => firstViolation (constraints input) = Some e
  | inr _ => firstViolation (constraints input) = None
  end.
Proof.
  unfold validatePayload, constraints, bodyItems, bodyField.
  destruct input as [| | | | |body]; try reflexivity.
  cbn [Js.asRecord].
  destruct (Js.get (js "items") body) as [[| | | |itemsInput|]|]; try reflexivity.
  destruct itemsInput as [|item rest]; [reflexivity|].
  cbn [length Nat.eqb app firstViolation].
  destruct (Nat.ltb_spec MAX_LINE_ITEMS (S (length rest))) as [Hmany|Hfew].
  - by rewrite (proj2 (Nat.leb_gt _ _) Hmany).
  - rewrite (proj2 (Nat.leb_le _ _) Hfew), firstViolation_app.
    pose proof (validateItems_firstViolation (item :: rest) 0) as Hitems.
    destruct (validateItems 0 (item :: rest)) as [e|parsedItems];
      rewrite Hitems; [done|].
    destruct (Js.get (js "customerEmail") body) as [[| | |customerEmailInput| |]|];
      try reflexivity.
    + destruct (0 <? length (JsString.trim customerEmailInput));
        by destruct (Js.get (js "metadata") body) as [[]|].
    + by destruct (Js.get (js "metadata") body) as [[]|].
Qed.

Lemma firstViolation_None (checks : list (bool * ValidationError)) :
  firstViolation checks = None ↔ Forall holds checks.
Proof.
  induction checks as [|[ok e] checks IH]; [by split; constructor|].
  cbn [firstViolation]. rewrite Forall_cons. unfold holds at 1. cbn [fst].
  destruct ok; [rewrite IH|]; split; try done; by intros [? ?].
Qed.

Lemma itemConstraints_valid (index : nat) (item : json) :
  Forall holds (itemConstraints index item) ↔ validItem item.
Proof.
  unfold itemConstraints, itemPriceId, itemQuantity, validItem.
  rewrite !Forall_cons, Forall_nil. unfold holds. cbn [fst]. split.
  - intros (Hobject & Hstring & Hnonempty & Hpattern & Hquantity & _).
    destruct item as [| | | | |entries]; try done. cbn [Js.asRecord] in *.
    destruct (Js.get (js "priceId") entries) as [[| | |priceId| |]|] eqn:Hp; try done.
    destruct (Js.get (js "quantity") entries) as [[| |quantity| | |]|] eqn:Hq; try done.
    exists entries, priceId, quantity. repeat split; try done.
    + by apply isEmpty_false, negb_true_iff.
    + by apply PRICE_ID_PATTERN_test_spec.
    + apply quantity_check_spec.
      apply andb_true_iff in Hquantity as [[Hint Hlow]%andb_true_iff Hhigh].
      rewrite Hint. apply negb_true_iff in Hlow as ->, Hhigh as ->. done.
  - intros (entries & priceId & quantity & -> & Hp & Hnonempty & Hpattern & Hq & Hrange).
    cbn [Js.asRecord]. rewrite Hp, Hq. repeat split.
    + by apply negb_true_iff, isEmpty_false.
    + by apply PRICE_ID_PATTERN_test_spec.
    + apply quantity_check_spec in Hrange.
      apply orb_false_iff in Hrange as [[Hint Hlow]%orb_false_iff Hhigh].
      apply negb_false_iff in Hint as ->. by rewrite Hlow, Hhigh.
Qed.

Lemma itemsConstraints_valid (itemsInput : list json) :
  ∀ index, Forall holds (itemsConstraints index itemsInput) ↔ Forall validItem itemsInput.
Proof.
  induction itemsInput as [|item rest IH]; intros index; [by split; constructor|].
  cbn [itemsConstraints]. rewrite Forall_app, Forall_cons, itemConstraints_valid, IH.
  done.
Qed.

Lemma constraints_valid (input : json) :
  Forall holds (constraints input) ↔ validItems input ∧ validOptionalFields input.
Proof.
  unfold constraints, validItems, validOptionalFields, bodyItems, bodyField.
  cbn [app]. rewrite !Forall_cons, Forall_app, !Forall_cons, Forall_nil, itemsConstraints_valid.
  unfold holds. cbn [fst]. split.
  - intros (Hobject & Harray & Hfew & Hitems & Hemail & Hmetadata & _).
    destruct input as [| | | | |body]; try done. cbn [Js.asRecord] in *.
    destruct (Js.get (js "items") body) as [[| | | |[|item rest]|]|] eqn:Hget;
      try done.
    split.
    + exists body, (item :: rest). repeat split; try done.
      by apply Nat.leb_le in Hfew.
    + split.
      * destruct (Js.get (js "customerEmail") body) as [[]|]; try done;
          [right; by eexists | by left].
      * destruct (Js.get (js "metadata") body) as [[]|]; try done;
          [right; by eexists | by left].
  - intros [(body & itemsInput & -> & Hitems & Hne & Hfew & Hvalid) [Hemail Hmetadata]].
    cbn [Js.asRecord] in *. rewrite Hitems.
    destruct itemsInput as [|item rest]; [done|]. repeat split; try done.
    + by apply Nat.leb_le.
    + by destruct Hemail as [-> | [customerEmail ->]].
    + by destruct Hmetadata as [-> | [metadata ->]].
Qed.

Lemma accepted_iff_no_violation (input : json) :
  accepted input ↔ firstViolation (constraints input) = None.
Proof.
  pose proof (validatePayload_firstViolation input) as Hfirst. unfold accepted.
  destruct (validatePayload input) as [e|payload]; split; try done.
  - by intros [payload [=]].
  - by rewrite Hfirst.
  - by exists payload.
Qed.

Lemma integerInRange_finite (q : Q) :
  integerInRange (NumFinite q) ↔ ∃ z : Z, (1 ≤ z ≤ 99)%Z ∧ (q == inject_Z z)%Q.
Proof.
  unfold integerInRange. split.
  - intros (z & q' & Hz & [= <-] & Hq). by exists z.
  - intros (z & Hz & Hq). by exists z, q.
Qed.

(** C3, as the code has it.  The validator accepts a body exactly when
    it is a JSON object whose [items] is a non-empty array of at most 50
    item objects, each with a string [priceId] that after trimming is
    non-empty and matches [^price_[a-zA-Z0-9]+$] and a [quantity] that is
    an integer in [1, 99], and whose [customerEmail], if present, is a
    string and whose [metadata], if present, is an object.  A body with an
    item whose quantity is not an integer in [1, 99] (0, 100 and the
    non-integers are not) is rejected.  A rejected body gets one error,
    that of the first constraint, in the order of [constraints], that
    it violates. *)
Theorem checkout_validation (input : json) :
  (accepted input ↔ validItems input ∧ validOptionalFields input)
  ∧ (∀ item quantity,
       item ∈ bodyItems input → itemQuantity item = Some quantity →
       ¬ integerInRange quantity →
       ∃ e, validatePayload input = inl e)
  ∧ (¬ integerInRange (NumFinite 0)
     ∧ ¬ integerInRange (NumFinite 100)
     ∧ ∀ q : Q, (∀ z : Z, ¬ (q == inject_Z z)%Q) → ¬ integerInRange (NumFinite q))
  ∧ (∀ e, validatePayload input = inl e ↔ firstViolation (constraints input) = Some e).
Proof.
  split; [|split; [|split]].
  - by rewrite accepted_iff_no_violation, firstViolation_None, constraints_valid.
  - intros item quantity Hitem Hquantity Hbad.
    destruct (validatePayload input) as [e|payload] eqn:Hrun; [by exists e|].
    exfalso. apply Hbad.
    assert (Haccepted : accepted input) by (by exists payload).
    rewrite accepted_iff_no_violation, firstViolation_None, constraints_valid
      in Haccepted.
    destruct Haccepted as [(body & itemsInput & -> & Hitems & _ & _ & Hvalid) _].
    unfold bodyItems, bodyField in Hitem. cbn [Js.asRecord] in Hitem.
    rewrite Hitems in Hitem. rewrite Forall_forall in Hvalid.
    destruct (Hvalid item Hitem) as (entries & p & q & -> & _ & _ & _ & Hq & Hrange).
    unfold itemQuantity in Hquantity. cbn [Js.asRecord] in Hquantity.
    rewrite Hq in Hquantity. by injection Hquantity as <-.
  - split; [|split].
    + rewrite integerInRange_finite. intros (z & Hz & Hq).
      apply (proj1 (inject_Z_injective 0 z)) in Hq. lia.
    + rewrite integerInRange_finite. intros (z & Hz & Hq).
      apply (proj1 (inject_Z_injective 100 z)) in Hq. lia.
    + intros q Hnot. rewrite integerInRange_finite. intros (z & _ & Hq).
      exact (Hnot z Hq).
  - intros e. pose proof (validatePayload_firstViolation input) as Hfirst.
    destruct (validatePayload input) as [e'|payload].
    + rewrite Hfirst. split; by intros [= ->].
    + rewrite Hfirst. split; by intros [=].
Qed.

End CheckoutValidation.

Lemma validItems_numericEmail : validItems CheckoutSamples.numericEmail.
Proof.
  eexists _, _. split; [reflexivity|]. split; [reflexivity|].
  split; [done|]. split; [cbn; lia|].
  repeat constructor.
  eexists _, (js "price_1"), (NumFinite (1 # 1)).
  split; [reflexivity|]. split; [reflexivity|]. split; [done|].
  split; [by apply PRICE_ID_PATTERN_test_spec|]. split; [reflexivity|].
  exists 1%Z, (1 # 1)%Q. split; [lia|]. split; reflexivity.
Qed.

(** A body with valid items and a numeric [customerEmail] is rejected. *)
Lemma checkout_rejects_numeric_email :
  Checkout.validatePayload CheckoutSamples.numericEmail
  = inl Checkout.CustomerEmailNotString
  ∧ validItems CheckoutSamples.numericEmail
  ∧ ¬ acceptsExactlyValidItems.
Proof.
  split; [reflexivity|]. split; [exact validItems_numericEmail|].
  intros Hclaim.
  destruct (proj2 (Hclaim CheckoutSamples.numericEmail) validItems_numericEmail)
    as [payload Haccepted].
  discriminate Haccepted.
Qed.

(* ===================================================================== *)
(** * Custom-order validation (C9, C10) *)
(* ===================================================================== *)

Section CustomOrderValidation.

Import Cors BodyReader CustomOrder.

Context `{Platform}.

Lemma stripPrefix_spec (p s rest : jsstring) :
  stripPrefix p s = Some rest ↔ s = p ++ rest.
Proof.
  unfold stripPrefix. destruct (JsString.startsWith p s) eqn:Hstarts.
  - apply startsWith_app in Hstarts as [r ->]. rewrite drop_app_length. split.
    + by intros [= ->].
    + by intros ->%app_inv_head.
  - split; [done|]. intros ->.
    assert (JsString.startsWith p (p ++ rest) = true)
      by (apply startsWith_app; by exists rest).
    congruence.
Qed.

Lemma dataUriMatch_spec (s encoded : jsstring) :
  dataUriMatch s = Some encoded ↔ strictDataUri s encoded.
Proof.
  unfold dataUriMatch, strictDataUri. split.
  - destruct (stripPrefix (js "data:") s) as [afterScheme|] eqn:Hscheme; [|done].
    apply stripPrefix_spec in Hscheme as ->.
    destruct (stripPrefix (js "image/png") afterScheme) as [afterType|] eqn:Hpng.
    + apply stripPrefix_spec in Hpng as ->.
      destruct (stripPrefix (js ";base64,") afterType) as [[|c rest]|] eqn:Hbase;
        [done| |done].
      apply stripPrefix_spec in Hbase as ->.
      destruct (forallb isBase64Char (c :: rest)) eqn:Hall; [|done].
      intros [= <-]. exists (js "image/png"). repeat split; try done; [by left|].
      by apply forallb_true_Forall.
    + destruct (stripPrefix (js "image/jpeg") afterScheme) as [afterType|] eqn:Hjpeg;
        [|done].
      apply stripPrefix_spec in Hjpeg as ->.
      destruct (stripPrefix (js ";base64,") afterType) as [[|c rest]|] eqn:Hbase;
        [done| |done].
      apply stripPrefix_spec in Hbase as ->.
      destruct (forallb isBase64Char (c :: rest)) eqn:Hall; [|done].
      intros [= <-]. exists (js "image/jpeg"). repeat split; try done; [by right|].
      by apply forallb_true_Forall.
  - intros (mime & Hmime & -> & Hne & Hall).
    rewrite (proj2 (stripPrefix_spec (js "data:") _ _) eq_refl).
    assert (Htype :
      match stripPrefix (js "image/png") (mime ++ js ";base64," ++ encoded) with
      | Some r => Some r
      | None => stripPrefix (js "image/jpeg") (mime ++ js ";base64," ++ encoded)
      end = Some (js ";base64," ++ encoded))
      by (destruct Hmime as [-> | ->]; reflexivity).
    rewrite Htype, (proj2 (stripPrefix_spec (js ";base64,") _ _) eq_refl).
    destruct encoded as [|c rest]; [done|].
    by rewrite (proj2 (forallb_true_Forall _ _) Hall).
Qed.

(** [parseDesignImage] on a present field. *)
Lemma parseDesignImage_present (value : json) :
  parseDesignImage (Some value)
  = match value with
    | JNull => Some None
    | JString input =>
        if isEmpty (JsString.trim input) then Some None
        else
          match dataUriMatch (JsString.trim input) with
          | Some encoded =>
              if (byteLength (base64Decode encoded) =? 0)%N
                 || (MAX_DESIGN_IMAGE_BYTES <? byteLength (base64Decode encoded))%N
              then None
              else Some (Some (JsString.trim input))
          | None => None
          end
    | _ => None
    end.
Proof. by destruct value. Qed.

Lemma parseDesignImage_image (value : json) (image : jsstring) :
  parseDesignImage (Some value) = Some (Some image)
  ↔ ∃ input encoded,
      value = JString input
      ∧ image = JsString.trim input
      ∧ strictDataUri image encoded
      ∧ decodesWithinCeiling encoded.
Proof.
  rewrite parseDesignImage_present. unfold decodesWithinCeiling. split.
  - destruct value as [| | |input| |]; try done.
    destruct (isEmpty (JsString.trim input)); [done|].
    destruct (dataUriMatch (JsString.trim input)) as [encoded|] eqn:Hmatch; [|done].
    destruct (N.eqb_spec (byteLength (base64Decode encoded)) 0); [done|].
    destruct (N.ltb_spec MAX_DESIGN_IMAGE_BYTES (byteLength (base64Decode encoded)));
      [done|].
    intros [= <-]. exists input, encoded. repeat split; try done; [|lia].
    by apply dataUriMatch_spec.
  - intros (input & encoded & -> & -> & Huri & Hsize).
    assert (Hne : JsString.trim input ≠ []).
    { destruct Huri as (mime & _ & -> & _). done. }
    apply isEmpty_false in Hne as ->.
    apply dataUriMatch_spec in Huri as ->.
    rewrite (proj2 (N.eqb_neq _ _)) by lia.
    by rewrite (proj2 (N.ltb_ge _ _)) by lia.
Qed.

(** What an accepted custom-order body looks like. *)
Lemma validatePayload_accepted (input : json) (payload : CustomOrderData)
    (captchaToken : option jsstring) :
  validatePayload input = inr (payload, captchaToken) →
  ∃ body rawName rawEmail rawProductType rawColors,
    input = JObject body
    ∧ Js.get (js "name") body = Some (JString rawName)
    ∧ Js.get (js "email") body = Some (JString rawEmail)
    ∧ Js.get (js "productType") body = Some (JString rawProductType)
    ∧ Js.get (js "colors") body = Some (JArray rawColors)
    ∧ 2 ≤ length (JsString.trim rawName) ≤ MAX_NAME_LENGTH
    ∧ 0 < length (JsString.trim rawEmail) ≤ MAX_EMAIL_LENGTH
    ∧ 0 < length (JsString.trim rawProductType) ≤ MAX_PRODUCT_FIELD_LENGTH
    ∧ EMAIL_REGEX_test (JsString.trim rawEmail) = true
    ∧ 1 ≤ length rawColors ≤ MAX_COLORS
    ∧ sanitizeColors rawColors = inr (colors payload)
    ∧ name payload = sanitizeInput (JsString.trim rawName) MAX_NAME_LENGTH
    ∧ email payload = sanitizeInput (JsString.trim rawEmail) MAX_EMAIL_LENGTH
    ∧ productType payload
      = sanitizeInput (JsString.trim rawProductType) MAX_PRODUCT_FIELD_LENGTH
    ∧ designImage payload = parseDesignImage (Js.get (js "designImage") body)
    ∧ (Js.get (js "designImage") body = None ∨ is_Some (designImage payload)).
Proof.
  unfold validatePayload. intros Hrun.
  destruct input as [| | | | |body]; try done. cbn [Js.asRecord] in Hrun.
  destruct (Js.get (js "name") body) as [[| | |rawName| |]|] eqn:Hname; try done.
  destruct (Js.get (js "email") body) as [[| | |rawEmail| |]|] eqn:Hemail; try done.
  destruct (Js.get (js "productType") body) as [[| | |rawProductType| |]|] eqn:Htype;
    try done.
  destruct (isEmpty (JsString.trim rawName)) eqn:Hn; [done|].
  destruct (isEmpty (JsString.trim rawEmail)) eqn:He; [done|].
  destruct (isEmpty (JsString.trim rawProductType)) eqn:Hp; [done|].
  cbn [orb] in Hrun.
  destruct (EMAIL_REGEX_test (JsString.trim rawEmail)) eqn:Hregex; [|done].
  cbn [negb] in Hrun.
  destruct (Nat.ltb_spec (length (JsString.trim rawName)) 2); [done|].
  destruct (Nat.ltb_spec MAX_NAME_LENGTH (length (JsString.trim rawName))); [done|].
  destruct (Nat.ltb_spec MAX_EMAIL_LENGTH (length (JsString.trim rawEmail))); [done|].
  destruct (Nat.ltb_spec MAX_PRODUCT_FIELD_LENGTH
              (length (JsString.trim rawProductType))); [done|].
  cbn [orb] in Hrun.
  destruct (Js.get (js "colors") body) as [[| | | |rawColors|]|] eqn:Hcolors; try done.
  destruct (Nat.eqb_spec (length rawColors) 0); [done|].
  destruct (Nat.ltb_spec MAX_COLORS (length rawColors)); [done|].
  cbn [orb] in Hrun.
  destruct (sanitizeColors rawColors) as [e|sanitizedColors] eqn:Hsanitized; [done|].
  apply isEmpty_false in Hn, He, Hp.
  assert (Hpositive : ∀ s : jsstring, s ≠ [] → 0 < length s)
    by (intros [|c s] Hs; [done|cbn; lia]).
  exists body, rawName, rawEmail, rawProductType, rawColors.
  destruct (Js.get (js "designImage") body) as [value|] eqn:Himage.
  - destruct (parseDesignImage (Some value)) as [parsed|] eqn:Hparsed; [|done].
    destruct (match Js.get (js "captchaToken") body with
              | Some (JString rawCaptchaToken) => _
              | Some JNull => _
              | Some _ => _
              | None => _
              end) as [e|token]; [done|].
    injection Hrun as <- <-. cbn [name email productType colors designImage].
    repeat split; try done; try lia; try (by apply Hpositive). by right.
  - destruct (match Js.get (js "captchaToken") body with
              | Some (JString rawCaptchaToken) => _
              | Some JNull => _
              | Some _ => _
              | None => _
              end) as [e|token]; [by destruct (parseDesignImage None)|].
    assert (Hnone : parseDesignImage None = None) by done.
    rewrite Hnone in Hrun.
    injection Hrun as <- <-. cbn [name email productType colors designImage].
    repeat split; try done; try lia; try (by apply Hpositive). by left.
Qed.

Lemma parseDesignImage_cases (value : json) :
  (blankImage value ∧ parseDesignImage (Some value) = Some None)
  ∨ (validImage value
     ∧ ∃ raw, value = JString raw
              ∧ parseDesignImage (Some value) = Some (Some (JsString.trim raw)))
  ∨ (¬ blankImage value ∧ ¬ validImage value ∧ parseDesignImage (Some value) = None).
Proof.
  destruct (parseDesignImage (Some value)) as [[image|]|] eqn:Hparsed.
  - right. left.
    apply parseDesignImage_image in Hparsed as (raw & encoded & -> & -> & Huri & Hsize).
    split; [by exists raw, encoded|]. by exists raw.
  - left. split; [|done]. rewrite parseDesignImage_present in Hparsed.
    destruct value as [| | |raw| |]; try done; [by left|]. right. exists raw.
    split; [done|]. apply isEmpty_true.
    destruct (isEmpty (JsString.trim raw)); [done|].
    destruct (dataUriMatch (JsString.trim raw)); [|done].
    by destruct (_ || _).
  - right. right. split; [|split; [|done]].
    + intros [-> | (raw & -> & Hblank)]; [done|].
      rewrite parseDesignImage_present, Hblank in Hparsed. done.
    + intros (raw & encoded & -> & Huri & Hsize).
      assert (Hgood : parseDesignImage (Some (JString raw))
                      = Some (Some (JsString.trim raw)))
        by (apply parseDesignImage_image; by exists raw, encoded).
      congruence.
Qed.

(** C9, as the code has it.  For a custom-order body in which
    [designImage] is present: [null] and a string that is empty after
    trimming are accepted as no image ([null] in the payload); any other
    value of an accepted body is a string that, trimmed, matches the
    strict [data:] URI pattern for [image/png] or [image/jpeg] with a
    base64 payload that decodes to a non-empty buffer of at most
    2*1024*1024 bytes, and the payload carries the trimmed string; a
    present value that is neither blank nor such an image invalidates the
    whole body with a validation error; and every accepted payload's
    non-null [designImage] decodes within the ceiling. *)
Theorem design_image_validation (input : json) :
  (∀ body value payload captchaToken,
     input = JObject body →
     Js.get (js "designImage") body = Some value →
     validatePayload input = inr (payload, captchaToken) →
     (blankImage value ∧ designImage payload = Some None)
     ∨ (validImage value
        ∧ ∃ raw, value = JString raw
                 ∧ designImage payload = Some (Some (JsString.trim raw))))
  ∧ (∀ body value,
       input = JObject body →
       Js.get (js "designImage") body = Some value →
       ¬ blankImage value → ¬ validImage value →
       ∃ e, validatePayload input = inl e)
  ∧ (∀ payload captchaToken image,
       validatePayload input = inr (payload, captchaToken) →
       designImage payload = Some (Some image) →
       ∃ encoded,
         strictDataUri image encoded
         ∧ (0 < byteLength (base64Decode encoded) ≤ 2 * 1024 * 1024)%N).
Proof.
  assert (Hpresent : ∀ body value payload captchaToken,
            input = JObject body →
            Js.get (js "designImage") body = Some value →
            validatePayload input = inr (payload, captchaToken) →
            designImage payload = parseDesignImage (Some value)
            ∧ is_Some (designImage payload)).
  { intros body value payload captchaToken -> Hget Hrun.
    apply validatePayload_accepted in Hrun
      as (body' & n & e & p & c & [= <-] & _ & _ & _ & _ & _ & _ & _ & _ & _ & _
          & _ & _ & _ & Himage & Hsome).
    rewrite Hget in Himage, Hsome. split; [done|]. by destruct Hsome. }
  split; [|split].
  - intros body value payload captchaToken Hinput Hget Hrun.
    destruct (Hpresent _ _ _ _ Hinput Hget Hrun) as [Himage Hsome].
    destruct (parseDesignImage_cases value)
      as [[Hblank Hparsed] | [[Hvalid (raw & -> & Hparsed)] | (_ & _ & Hparsed)]].
    + left. split; [done|]. by rewrite Himage.
    + right. split; [done|]. exists raw. split; [done|]. by rewrite Himage.
    + rewrite Himage, Hparsed in Hsome. by destruct Hsome.
  - intros body value Hinput Hget Hnotblank Hnotvalid.
    destruct (validatePayload input) as [e|[payload captchaToken]] eqn:Hrun;
      [by exists e|].
    destruct (Hpresent _ _ _ _ Hinput Hget eq_refl) as [Himage Hsome].
    destruct (parseDesignImage_cases value)
      as [[Hblank _] | [[Hvalid _] | (_ & _ & Hparsed)]]; [done|done|].
    rewrite Himage, Hparsed in Hsome. by destruct Hsome.
  - intros payload captchaToken image Hrun Himage.
    apply validatePayload_accepted in Hrun
      as (body & n & e & p & c & -> & _ & _ & _ & _ & _ & _ & _ & _ & _ & _
          & _ & _ & _ & Hparsed & _).
    rewrite Himage in Hparsed. symmetry in Hparsed.
    destruct (Js.get (js "designImage") body) as [value|]; [|done].
    apply parseDesignImage_image in Hparsed as (raw & encoded & _ & _ & Huri & Hsize).
    by exists encoded.
Qed.

(** ** The sanitizer against its description *)

Lemma matchesIgnoreCase_spec (p c : N) :
  JsString.matchesIgnoreCase p c = true
  ↔ c = p ∨ ((97 ≤ p ≤ 122)%N ∧ c = (p - 32)%N).
Proof.
  unfold JsString.matchesIgnoreCase, JsString.isLower.
  rewrite orb_true_iff, !andb_true_iff, !N.eqb_eq, !N.leb_le. tauto.
Qed.

Lemma startsWithIgnoreCase_spec (p s : jsstring) :
  JsString.startsWithIgnoreCase p s = true
  ↔ ∃ m tail, s = m ++ tail ∧ sameIgnoringCase p m.
Proof.
  revert s. induction p as [|a p IH]; intros s; cbn [JsString.startsWithIgnoreCase].
  - split; [|done]. intros _. exists [], s. split; [done|constructor].
  - destruct s as [|b s].
    + split; [done|]. intros (m & tail & Hs & Hm).
      inversion Hm; subst. discriminate Hs.
    + rewrite andb_true_iff, matchesIgnoreCase_spec, IH. split.
      * intros [Hb (m & tail & -> & Hm)]. exists (b :: m), tail.
        split; [done|]. by constructor.
      * intros (m & tail & Hs & Hm). inversion Hm as [|? c ? m' Hc Hm']; subst.
        injection Hs as -> ->. split; [done|]. by exists m', tail.
Qed.

Lemma sameIgnoringCase_length (p m : jsstring) :
  sameIgnoringCase p m → length m = length p.
Proof. intros Hm. symmetry. by apply Forall2_length in Hm. Qed.

Lemma isWord_spec (c : N) : JsString.isWord c = true ↔ wordCharacter c.
Proof.
  unfold JsString.isWord, JsString.isAlnum, JsString.isLower, JsString.isUpper,
    JsString.isDigit, wordCharacter.
  rewrite !orb_true_iff, !andb_true_iff, !N.leb_le, N.eqb_eq. tauto.
Qed.

(** The longest run of word characters. *)
Lemma wordRun_app (word tail : jsstring) :
  Forall wordCharacter word →
  match tail with c :: _ => ¬ wordCharacter c | [] => True end →
  wordRun (word ++ tail) = length word.
Proof.
  intros Hword Htail. induction Hword as [|c word Hc Hword IH]; cbn [app wordRun length].
  - destruct tail as [|c tail]; [done|]. cbn [wordRun].
    destruct (JsString.isWord c) eqn:Hc; [by apply isWord_spec in Hc|done].
  - rewrite (proj2 (isWord_spec c) Hc). by rewrite IH.
Qed.

Lemma wordRun_split (s : jsstring) :
  Forall wordCharacter (take (wordRun s) s)
  ∧ wordRun s ≤ length s.
Proof.
  induction s as [|c s [IHword IHlen]]; cbn [wordRun]; [split; [constructor|done]|].
  destruct (JsString.isWord c) eqn:Hc; cbn [take length]; [|split; [constructor|lia]].
  split; [|lia]. constructor; [by apply isWord_spec|done].
Qed.

Lemma equals_not_word : ¬ wordCharacter 61%N.
Proof. unfold wordCharacter. lia. Qed.

Lemma eventHandlerMatch_Some (s : jsstring) (matched : nat) :
  eventHandlerMatch s = Some matched
  ↔ ∃ m tail, s = m ++ tail ∧ eventHandlerAttribute m ∧ length m = matched.
Proof.
  unfold eventHandlerMatch. split.
  - destruct s as [|o [|n rest]]; [done|done|].
    destruct (JsString.matchesIgnoreCase 111 o && JsString.matchesIgnoreCase 110 n)
      eqn:Hon; [|done].
    apply andb_true_iff in Hon as [Ho%matchesIgnoreCase_spec Hn%matchesIgnoreCase_spec].
    destruct (wordRun_split rest) as [Hword Hlen].
    destruct (wordRun rest) as [|run] eqn:Hrun; [done|].
    destruct (drop (S run) rest) as [|c tail] eqn:Hdrop; [done|].
    destruct (N.eqb_spec c 61) as [->|]; [|done]. intros [= <-].
    exists (o :: n :: take (S run) rest ++ [61%N]), tail. split; [|split].
    + cbn [app]. do 2 f_equal. rewrite <- app_assoc. cbn [app].
      by rewrite <- Hdrop, take_drop.
    + exists o, n, (take (S run) rest). split; [done|]. split; [|split; [|done]].
      * unfold sameIgnoringCase. change (js "on") with [111%N; 110%N].
        constructor; [exact Ho|]. constructor; [exact Hn|]. constructor.
      * destruct rest; [cbn in Hlen; lia|done].
    + cbn [length]. rewrite length_app, length_take. cbn [length]. lia.
  - intros (m & tail & -> & (o & n & word & -> & Hon & Hne & Hword) & <-).
    unfold sameIgnoringCase in Hon. change (js "on") with [111%N; 110%N] in Hon.
    inversion Hon as [|? ? ? ? Ho Hon']; subst.
    inversion Hon' as [|? ? ? ? Hn _]; subst.
    cbn [app].
    rewrite (proj2 (matchesIgnoreCase_spec _ _) Ho),
      (proj2 (matchesIgnoreCase_spec _ _) Hn).
    cbn [andb]. cbv zeta. rewrite <- app_assoc. cbn [app].
    rewrite (wordRun_app word (61%N :: tail) Hword equals_not_word).
    pose proof (drop_app_length word (61%N :: tail)) as Hdrop.
    destruct word as [|w word]; [done|].
    cbn [length] in *. rewrite Hdrop, N.eqb_refl.
    f_equal. rewrite length_app. cbn [length]. lia.
Qed.

Lemma eventHandlerMatch_None (s : jsstring) :
  eventHandlerMatch s = None
  ↔ ∀ m tail, eventHandlerAttribute m → s ≠ m ++ tail.
Proof.
  split.
  - intros Hnone m tail Hm ->.
    assert (Hsome : eventHandlerMatch (m ++ tail) = Some (length m)).
    { apply eventHandlerMatch_Some. by exists m, tail. }
    by rewrite Hnone in Hsome.
  - intros Hno. destruct (eventHandlerMatch s) as [matched|] eqn:Hmatch; [|done].
    apply eventHandlerMatch_Some in Hmatch as (m & tail & -> & Hm & _).
    by destruct (Hno m tail Hm).
Qed.

Lemma removeJavascript_skip (s : jsstring) :
  ∀ skip, removeJavascript skip s = removeJavascript 0 (drop skip s).
Proof.
  induction s as [|c s IH]; intros [|skip]; try done.
  cbn [removeJavascript drop]. apply IH.
Qed.

Lemma removeEventHandlers_skip (s : jsstring) :
  ∀ skip, removeEventHandlers skip s = removeEventHandlers 0 (drop skip s).
Proof.
  induction s as [|c s IH]; intros [|skip]; try done.
  cbn [removeEventHandlers drop]. apply IH.
Qed.

Lemma removeAngleBrackets_removed (s : jsstring) :
  Removed angleBracket s (removeAngleBrackets s).
Proof.
  induction s as [|c s IH]; [constructor|].
  unfold removeAngleBrackets in *. cbn [List.filter].
  destruct (N.eqb_spec c 60) as [->|Hlt]; cbn [orb negb].
  - apply (Removed_match _ [60%N] s); [by left|done].
  - destruct (N.eqb_spec c 62) as [->|Hgt]; cbn [negb].
    + apply (Removed_match _ [62%N] s); [by right|done].
    + apply Removed_keep; [|done].
      intros m tail [-> | ->] [= ? _]; done.
Qed.

Lemma removeJavascript_removed (s : jsstring) :
  Removed javascriptScheme s (removeJavascript 0 s).
Proof.
  remember (length s) as n eqn:Hn. revert s Hn.
  induction n as [n IH] using lt_wf_ind. intros s ->.
  destruct s as [|c rest]; [constructor|]. cbn [removeJavascript].
  destruct (JsString.startsWithIgnoreCase (js "javascript:") (c :: rest)) eqn:Hstart.
  - apply startsWithIgnoreCase_spec in Hstart as (m & tail & Hs & Hm).
    pose proof (sameIgnoringCase_length _ _ Hm) as Hlen.
    change (length (js "javascript:")) with 11 in Hlen.
    rewrite removeJavascript_skip.
    replace (drop 10 rest) with tail.
    2:{ change (drop 10 rest) with (drop 11 (c :: rest)). rewrite Hs, <- Hlen.
        by rewrite drop_app_length. }
    rewrite Hs. apply Removed_match; [done|].
    apply (IH (length tail)); [|done].
    apply (f_equal length) in Hs. rewrite length_app in Hs. cbn [length] in Hs |- *. lia.
  - apply Removed_keep.
    + intros m tail Hm Hs.
      assert (Hyes : JsString.startsWithIgnoreCase (js "javascript:") (c :: rest) = true)
        by (apply startsWithIgnoreCase_spec; by exists m, tail).
      by rewrite Hstart in Hyes.
    + apply (IH (length rest)); [cbn [length]; lia|done].
Qed.

Lemma removeEventHandlers_removed (s : jsstring) :
  Removed eventHandlerAttribute s (removeEventHandlers 0 s).
Proof.
  remember (length s) as n eqn:Hn. revert s Hn.
  induction n as [n IH] using lt_wf_ind. intros s ->.
  destruct s as [|c rest]; [constructor|]. cbn [removeEventHandlers].
  destruct (eventHandlerMatch (c :: rest)) as [matched|] eqn:Hmatch.
  - apply eventHandlerMatch_Some in Hmatch as (m & tail & Hs & Hm & Hlen).
    assert (Hpos : 0 < matched).
    { destruct Hm as (o & n & word & -> & _). subst matched. cbn [length]. lia. }
    rewrite removeEventHandlers_skip.
    replace (drop (matched - 1) rest) with tail.
    2:{ replace (drop (matched - 1) rest) with (drop matched (c :: rest))
          by (destruct matched; [lia|cbn [drop]; f_equal; lia]).
        rewrite Hs, <- Hlen. by rewrite drop_app_length. }
    rewrite Hs. apply Removed_match; [done|].
    apply (IH (length tail)); [|done].
    apply (f_equal length) in Hs. rewrite length_app in Hs. cbn [length] in Hs |- *. lia.
  - apply Removed_keep.
    + by apply eventHandlerMatch_None.
    + apply (IH (length rest)); [cbn [length]; lia|done].
Qed.

Lemma Removed_functional (M : jsstring → Prop) (s out out' : jsstring) :
  matchesOnce M → (∀ m, M m → m ≠ []) →
  Removed M s out → Removed M s out' → out = out'.
Proof.
  intros Honce Hnonempty Hout. revert out'.
  induction Hout as [|m rest out Hm Hrest IH|c rest out Hno Hrest IH]; intros out' Hout'.
  - inversion Hout' as [|m' rest' ? Hm' _ Hs|]; [done|].
    apply app_eq_nil in Hs as [-> _]. by destruct (Hnonempty [] Hm').
  - inversion Hout' as [Hs|m' rest' ? Hm' Hrest' Hs|c rest' out'' Hno _ Hs].
    + symmetry in Hs. apply app_eq_nil in Hs as [-> _]. by destruct (Hnonempty [] Hm).
    + pose proof (Honce m' m rest' rest Hm' Hm Hs) as ->.
      apply app_inv_head in Hs as ->. subst. by apply IH.
    + destruct (Hno m rest Hm). done.
  - inversion Hout' as [|m' rest' ? Hm' _ Hs|c' rest' out'' _ Hrest' [Hc Hs]].
    + by destruct (Hno m' rest' Hm').
    + subst. f_equal. by apply IH.
Qed.

Lemma angleBracket_once : matchesOnce angleBracket ∧ ∀ m, angleBracket m → m ≠ [].
Proof.
  split.
  - intros m m' tail tail' [-> | ->] [-> | ->] [=]; done.
  - by intros m [-> | ->].
Qed.

Lemma sameIgnoringCase_once (pattern : jsstring) (m m' tail tail' : jsstring) :
  sameIgnoringCase pattern m → sameIgnoringCase pattern m' →
  m ++ tail = m' ++ tail' → m = m'.
Proof.
  intros Hm Hm' Hs.
  assert (Hlen : length m = length m')
    by (rewrite (sameIgnoringCase_length _ _ Hm), (sameIgnoringCase_length _ _ Hm'); done).
  by apply app_inj_1 in Hs as [-> _].
Qed.

Lemma javascriptScheme_once :
  matchesOnce javascriptScheme ∧ ∀ m, javascriptScheme m → m ≠ [].
Proof.
  split.
  - intros m m' tail tail'. apply sameIgnoringCase_once.
  - intros m Hm ->. by apply sameIgnoringCase_length in Hm.
Qed.

Lemma eventHandlerAttribute_once :
  matchesOnce eventHandlerAttribute ∧ ∀ m, eventHandlerAttribute m → m ≠ [].
Proof.
  split.
  - intros m m' tail tail' Hm Hm' Hs.
    assert (Hmatch : eventHandlerMatch (m ++ tail) = Some (length m))
      by (apply eventHandlerMatch_Some; by exists m, tail).
    assert (Hmatch' : eventHandlerMatch (m' ++ tail') = Some (length m'))
      by (apply eventHandlerMatch_Some; by exists m', tail').
    rewrite Hs, Hmatch' in Hmatch. injection Hmatch as Hlen.
    by apply app_inj_1 in Hs as [-> _].
  - by intros m (o & n & word & -> & _).
Qed.

(** [sanitizeInput] is the sanitizer that C10 describes. *)
Lemma sanitizeInput_Sanitized (input : jsstring) (maxLength : nat) (output : jsstring) :
  Sanitized input maxLength output ↔ output = sanitizeInput input maxLength.
Proof.
  split.
  - intros (a & b & c & Ha & Hb & Hc & ->).
    destruct angleBracket_once as [Hab1 Hab2].
    destruct javascriptScheme_once as [Hjs1 Hjs2].
    destruct eventHandlerAttribute_once as [Heh1 Heh2].
    pose proof (Removed_functional _ _ _ _ Hab1 Hab2 Ha
                  (removeAngleBrackets_removed input)) as ->.
    pose proof (Removed_functional _ _ _ _ Hjs1 Hjs2 Hb
                  (removeJavascript_removed _)) as ->.
    pose proof (Removed_functional _ _ _ _ Heh1 Heh2 Hc
                  (removeEventHandlers_removed _)) as ->.
    done.
  - intros ->. eexists _, _, _.
    split; [apply removeAngleBrackets_removed|].
    split; [apply removeJavascript_removed|].
    split; [apply removeEventHandlers_removed|]. done.
Qed.

(** C10.  In the custom-order validator the length bounds are checked
    on the trimmed raw fields [name], [email] and [productType], and
    [sanitizeInput] is applied to them afterwards; [sanitizeInput] is the
    sanitizer that strips angle brackets, then [javascript:] prefixes,
    then [on...=] patterns, and trims and cuts the result.  So there are
    accepted bodies whose payload name is shorter than the checked minimum
    of 2: a name of two angle brackets, and a name that is a
    [javascript:] prefix, both give the empty string. *)
Theorem sanitization_after_length_checks :
  (∀ input payload captchaToken,
     validatePayload input = inr (payload, captchaToken) →
     ∃ body rawName rawEmail rawProductType,
       input = JObject body
       ∧ Js.get (js "name") body = Some (JString rawName)
       ∧ Js.get (js "email") body = Some (JString rawEmail)
       ∧ Js.get (js "productType") body = Some (JString rawProductType)
       ∧ 2 ≤ length (JsString.trim rawName) ≤ 100
       ∧ 1 ≤ length (JsString.trim rawEmail) ≤ 254
       ∧ 1 ≤ length (JsString.trim rawProductType) ≤ 100
       ∧ Sanitized (JsString.trim rawName) 100 (name payload)
       ∧ Sanitized (JsString.trim rawEmail) 254 (email payload)
       ∧ Sanitized (JsString.trim rawProductType) 100 (productType payload))
  ∧ (∀ input maxLength output,
       Sanitized input maxLength output ↔ output = sanitizeInput input maxLength)
  ∧ (∃ body payload captchaToken,
       validatePayload (JObject body) = inr (payload, captchaToken)
       ∧ Js.get (js "name") body = Some (JString (js "<<"))
       ∧ length (JsString.trim (js "<<")) = 2
       ∧ name payload = js ""
       ∧ length (name payload) < 2)
  ∧ (∃ body payload captchaToken,
       validatePayload (JObject body) = inr (payload, captchaToken)
       ∧ Js.get (js "name") body = Some (JString (js "JavaScript:"))
       ∧ length (JsString.trim (js "JavaScript:")) = 11
       ∧ name payload = js ""
       ∧ length (name payload) < 2).
Proof.
  split; [|split; [exact sanitizeInput_Sanitized|split]].
  - intros input payload captchaToken Hrun.
    apply validatePayload_accepted in Hrun
      as (body & rawName & rawEmail & rawProductType & c & -> & Hname & Hemail
          & Hproduct & _ & Hlname & Hlemail & Hlproduct & _ & _ & _
          & Hsname & Hsemail & Hsproduct & _).
    exists body, rawName, rawEmail, rawProductType.
    unfold MAX_NAME_LENGTH, MAX_EMAIL_LENGTH, MAX_PRODUCT_FIELD_LENGTH in *.
    repeat (split; [done || lia|]).
    split; [by apply sanitizeInput_Sanitized|].
    split; by apply sanitizeInput_Sanitized.
  - exists [(js "name", JString (js "<<"));
            (js "email", JString (js "ann@example.com"));
            (js "productType", JString (js "Beanie"));
            (js "colors", JArray [JString (js "red")])].
    eexists _, _. split; [reflexivity|]. split; [reflexivity|].
    split; [reflexivity|]. split; [reflexivity|].
    change (length (js "") < 2). cbn. lia.
  - exists [(js "name", JString (js "JavaScript:"));
            (js "email", JString (js "ann@example.com"));
            (js "productType", JString (js "Beanie"));
            (js "colors", JArray [JString (js "red")])].
    eexists _, _. split; [reflexivity|]. split; [reflexivity|].
    split; [reflexivity|]. split; [reflexivity|].
    change (length (js "") < 2). cbn. lia.
Qed.

End CustomOrderValidation.

(** A body whose [designImage] is a blank string is accepted, and the
    field is dropped to [null]. *)
Lemma custom_order_accepts_blank_image :
  (∃ payload,
     CustomOrder.validatePayload (H := Reference.platform None)
       CustomOrderSamples.blankImageOrder
     = inr (payload, None)
     ∧ CustomOrder.designImage payload = Some None)
  ∧ ¬ validImage (H := Reference.platform None) (JString (js "  "))
  ∧ ¬ presentImageIsValidated (H := Reference.platform None).
Proof.
  assert (Hnot : ¬ validImage (H := Reference.platform None) (JString (js "  "))).
  { intros (raw & encoded & [= <-] & (mime & _ & Huri & _) & _).
    vm_compute in Huri. discriminate Huri. }
  split; [eexists; split; reflexivity|]. split; [exact Hnot|].
  intros Hclaim. apply Hnot.
  eapply (Hclaim CustomOrderSamples.blankImageOrder); reflexivity.
Qed.

(** An order with a small PNG data URI is accepted with the trimmed
    URI, which decodes to two bytes. *)
Lemma design_image_validation_witness :
  ∃ encoded,
    strictDataUri (js "data:image/png;base64,aGk=") encoded
    ∧ (0 < BodyReader.byteLength
             (base64Decode (Platform := Reference.platform None) encoded)
       ≤ 2 * 1024 * 1024)%N.
Proof.
  refine (proj2 (proj2 (design_image_validation (H := Reference.platform None)
                          CustomOrderSamples.imageOrder))
            _ None (js "data:image/png;base64,aGk=") _ _).
  - reflexivity.
  - reflexivity.
Defined.


(** In advisory mode a cart with a price id outside the allowed set
    goes on to session creation: Stripe is asked for a session with that
    item. *)
Lemma allowlist_enforcement_witness :
  ∃ key,
    sessionsCreated
      (fst (Checkout.POST (H := Reference.platform (Some CheckoutSamples.plainCart))
              AllowlistSamples.advisoryEnv AllowlistSamples.request))
    = [({| line_items := [{| priceId := js "price_1"; quantity := NumFinite (2 # 1) |}];
           success_url := js "https://shop.example/success";
           cancel_url := js "https://shop.example/cancel";
           params_metadata :=
             <[js "default_currency" := js "gbp"]> (<[js "source" := js "framer"]> ∅);
           customer_email := None |}, key)].
Proof.
  refine (proj1 (proj2 (proj2 (proj1 (proj2 (proj2
            (allowlist_enforcement (H := Reference.platform (Some CheckoutSamples.plainCart))
               AllowlistSamples.advisoryEnv AllowlistSamples.request
               CheckoutSamples.plainCart AllowlistSamples.cartPayload
               (js "https://shop.example/success") (js "https://shop.example/cancel")
               _ _ _ _ _))) _ _)))
            (<[js "source" := js "framer"]> ∅) _ _).
  - reflexivity.
  - reflexivity.
  - reflexivity.
  - reflexivity.
  - reflexivity.
  - reflexivity.
  - intros Hempty.
    assert (Hin : js "price_ok"
                  ∈ PriceAllowlist.allowedPriceIds
                      (PriceAllowlist.getStripePriceAllowlist
                         (H := Reference.platform (Some CheckoutSamples.plainCart))
                         AllowlistSamples.advisoryEnv)).
    { apply elem_of_list_to_set. left. }
    rewrite Hempty in Hin. by apply elem_of_empty in Hin.
  - reflexivity.
  - reflexivity.
Defined.

(** A webhook notification without signature is answered with the
    missing-signature response whatever length it declares: with the
    status 400 of that response, not with the invalid-header one, when
    the declared length is no number, and not with 413 when the declared
    length is above the ceiling. *)
Lemma content_length_after_guards :
  Webhook.POST (H := Reference.platform None) Samples.env Samples.unsignedWebhook
  = ([], Responded (errorAnswer Samples.env Samples.unsignedWebhook 400
                      "Missing Stripe-Signature header."))
  ∧ headers_get Samples.unsignedWebhook "content-length" = Some (js "abc")
  ∧ MalformedLength (js "abc")
  ∧ ¬ malformedLengthIsRejected (H := Reference.platform None)
  ∧ Webhook.POST (H := Reference.platform None) Samples.env
      Samples.unsignedOversizedWebhook
    = ([], Responded (errorAnswer Samples.env Samples.unsignedOversizedWebhook 400
                        "Missing Stripe-Signature header."))
  ∧ headers_get Samples.unsignedOversizedWebhook "content-length" = Some (js "300000")
  ∧ WellFormedLength (js "300000") 300000
  ∧ ¬ oversizedLengthIsRejected (H := Reference.platform None).
Proof.
  assert (Hbad : MalformedLength (js "abc")).
  { apply NonNumeric. right. apply Exists_cons_hd. reflexivity. }
  assert (Hlarge : WellFormedLength (js "300000") 300000).
  { split; [by vm_compute|]. split; [repeat constructor|].
    split; [reflexivity|by vm_compute]. }
  split; [reflexivity|]. split; [reflexivity|]. split; [exact Hbad|].
  split.
  { intros Hclaim.
    specialize (Hclaim Samples.env Samples.unsignedWebhook (js "abc") eq_refl Hbad).
    discriminate Hclaim. }
  split; [reflexivity|]. split; [reflexivity|]. split; [exact Hlarge|].
  intros Hclaim.
  specialize (Hclaim Samples.env Samples.unsignedOversizedWebhook (js "300000")
                300000%N eq_refl Hlarge eq_refl).
  discriminate Hclaim.
Qed.

(** A signed webhook notification with a non-numeric Content-Length is
    answered, without any effect, with the invalid-header response. *)
Lemma content_length_handling_witness :
  let request := Reference.request [("stripe-signature", "t=1,v1=bad");
                                    ("content-length", "12a")] "{}" in
  fst (Webhook.POST (H := Reference.platform None) Samples.env request) = []
  ∧ answers Samples.env request
      (snd (Webhook.POST (H := Reference.platform None) Samples.env request))
      (errorAnswer Samples.env request 400 "Invalid Content-Length header.").
Proof.
  refine (proj1 (proj1 (content_length_handling (H := Reference.platform None)
                          Samples.env
                          (Reference.request [("stripe-signature", "t=1,v1=bad");
                                              ("content-length", "12a")] "{}")
                          0%Z ∅)
                   (js "whsec_1") 116%N (js "=1,v1=bad") _ _) (js "12a") _ _).
  - reflexivity.
  - reflexivity.
  - reflexivity.
  - apply NonNumeric. right.
    apply Exists_cons_tl, Exists_cons_tl, Exists_cons_hd. reflexivity.
Defined.

(* ===================================================================== *)
(** * Further properties (X1 to X27) *)
(* ===================================================================== *)

(** Membership in a list of constants. *)
Ltac listed := by (rewrite ?elem_of_cons; auto 10).

(** The status of a response that was built is the status asked for. *)
Ltac built_status :=
  match goal with
  | Hbuilt : Cors.jsonError _ _ _ _ = Responded _ |- _ =>
      apply jsonError_status in Hbuilt; rewrite Hbuilt; try done
  | Hbuilt : NextResponse.json _ _ _ = Responded _ |- _ =>
      apply json_status in Hbuilt; rewrite Hbuilt; try done
  | Hbuilt : NextResponse.create _ _ _ = Responded _ |- _ =>
      apply create_Responded in Hbuilt; rewrite Hbuilt; try done
  end.

(* ===================================================================== *)
(** * CORS headers and preflight *)
(* ===================================================================== *)

Section CorsHeaders.

Import Cors.

Context `{Platform}.

(** X1.  [corsHeaders] never reflects an origin that is not configured:
    without configured origins the Access-Control-Allow-Origin header is
    the wildcard and there is no Vary header; with configured origins
    the header is always one of them, namely the request's origin when
    that is configured and the first configured origin otherwise, and
    Vary: Origin is sent. *)
Theorem corsHeaders_allow_origin (env : Env) (request : Request) :
  let configuredOrigins := parseAllowedOrigins env in
  ∃ allowOrigin others,
    corsHeaders env request = ("Access-Control-Allow-Origin", allowOrigin) :: others
    ∧ (configuredOrigins = [] →
       allowOrigin = js "*" ∧ ("Vary", js "Origin") ∉ others)
    ∧ (configuredOrigins ≠ [] →
       allowOrigin ∈ configuredOrigins
       ∧ (∀ origin, headers_get request "origin" = Some origin →
            origin ∈ configuredOrigins → allowOrigin = origin)
       ∧ ((∀ origin, headers_get request "origin" = Some origin →
             origin ∉ configuredOrigins) →
          head configuredOrigins = Some allowOrigin)
       ∧ ("Vary", js "Origin") ∈ others).
Proof.
  intros configuredOrigins. subst configuredOrigins. unfold corsHeaders.
  destruct (parseAllowedOrigins env) as [|first rest] eqn:Hconfigured.
  - eexists _, _. split; [reflexivity|]. split; [|done].
    intros _. split; [reflexivity|].
    cbn. rewrite !not_elem_of_cons. repeat split; try discriminate.
    apply not_elem_of_nil.
  - eexists _, _. split; [reflexivity|]. split; [done|]. intros _.
    assert (Hvary : ("Vary"%string, js "Origin")
                    ∈ [("Access-Control-Allow-Methods"%string, ALLOWED_METHODS);
                       ("Access-Control-Allow-Headers"%string, ALLOWED_HEADERS);
                       ("Access-Control-Max-Age"%string, MAX_AGE_SECONDS)]
                      ++ [("Vary"%string, js "Origin")]).
    { apply elem_of_app. right. apply list_elem_of_singleton. reflexivity. }
    destruct (headers_get request "origin") as [origin|] eqn:Horigin.
    + destruct (negb (isEmpty origin) && includes (first :: rest) origin) eqn:Hlisted.
      * apply andb_true_iff in Hlisted as [_ Hin%includes_spec].
        split; [done|]. split; [by intros ? [= <-] _|].
        split; [intros Hnone; by destruct (Hnone origin)|done].
      * split; [apply list_elem_of_here|]. split; [|done].
        intros ? [= <-] Hin. exfalso.
        apply andb_false_iff in Hlisted as [Hempty|Hout].
        -- apply negb_false_iff, isEmpty_true in Hempty. subst origin.
           rewrite <- Hconfigured in Hin.
           by apply parseAllowedOrigins_nonempty in Hin.
        -- apply includes_spec in Hin. congruence.
    + split; [apply list_elem_of_here|]. split; [done|]. split; done.
Qed.

(** X2.  The checkout preflight and the checkout POST apply the same
    origin gate.  On a denied request both end in the same way, without
    any effect: they build the 403 "Forbidden origin." response, which is
    the answer when the request is answerable, and throw otherwise.  An
    allowed preflight is answered 204 with no body and the CORS headers,
    and an allowed POST is never answered 403. *)
Theorem checkout_preflight_agrees_with_POST (env : Env) (request : Request) :
  (isOriginAllowed env request = false →
   Checkout.OPTIONS env request = snd (Checkout.POST env request)
   ∧ fst (Checkout.POST env request) = []
   ∧ answers env request (Checkout.OPTIONS env request)
       (errorAnswer env request 403 "Forbidden origin."))
  ∧ (isOriginAllowed env request = true →
     Checkout.OPTIONS env request = Responded (preflightAnswer env request 204)
     ∧ ∀ response,
         snd (Checkout.POST env request) = Responded response →
         status response ≠ 403%Z).
Proof.
  split.
  - intros Hdenied. unfold Checkout.OPTIONS, Checkout.POST. rewrite Hdenied.
    cbn [negb fst snd]. split; [done|]. split; [done|]. apply jsonError_answers.
  - intros Hallowed. split.
    + unfold Checkout.OPTIONS. rewrite Hallowed. cbn [negb].
      by rewrite (create_answerable env request _ _ (allowed_answerable _ _ Hallowed)).
    + intros response. unfold Checkout.POST, Checkout.createSession. rewrite Hallowed.
      cbn [negb].
      repeat case_match; cbn [snd]; intros Heq; simplify_eq; built_status.
Qed.

End CorsHeaders.

(* ===================================================================== *)
(** * Rate limiter: isolation, sweep and quota *)
(* ===================================================================== *)

Section RateLimiterQuota.

Import RateLimit.

Implicit Types (m : gmap jsstring RateLimitEntry) (identifier : jsstring).

Lemma rateLimit_result_lookup m m' identifier (now : Z) (config : RateLimitConfig) :
  m !! identifier = m' !! identifier →
  fst (rateLimit now identifier config m) = fst (rateLimit now identifier config m').
Proof.
  intros Hsame. unfold rateLimit. rewrite Hsame.
  destruct (m' !! identifier) as [entry|]; [|done].
  destruct (resetAt entry <? now)%Z; [done|]. cbn.
  by destruct (count entry + 1 >? requests config)%Z.
Qed.

Lemma rateLimitTraffic_other identifier (calls : list (Z * jsstring * RateLimitConfig)) :
  ∀ m,
    Forall (fun call => snd (fst call) ≠ identifier) calls →
    rateLimitTraffic calls m !! identifier = m !! identifier.
Proof.
  induction calls as [|[[now other] config] later IH]; intros m Hothers; [done|].
  apply Forall_cons in Hothers as [Hother Hlater]. cbn in Hother. cbn.
  rewrite IH by done. by apply rateLimit_other.
Qed.

(** X3.  Identifiers are isolated: calls made for other identifiers, at
    any times and with any limits, leave an identifier's entry as it was
    and do not change the result of its next call. *)
Theorem rateLimit_identifiers_isolated identifier
    (calls : list (Z * jsstring * RateLimitConfig)) m (now : Z)
    (config : RateLimitConfig) :
  Forall (fun call => snd (fst call) ≠ identifier) calls →
  rateLimitTraffic calls m !! identifier = m !! identifier
  ∧ fst (rateLimit now identifier config (rateLimitTraffic calls m))
    = fst (rateLimit now identifier config m).
Proof.
  intros Hothers. split; [by apply rateLimitTraffic_other|].
  by apply rateLimit_result_lookup, rateLimitTraffic_other.
Qed.

(** X4.  The hourly sweep keeps exactly the entries whose window has not
    expired, never grows the map, and is invisible to callers: every
    later call returns what it would have returned without the sweep. *)
Theorem cleanup_sweep m (swept : Z) :
  (∀ identifier entry,
     cleanup swept m !! identifier = Some entry
     ↔ m !! identifier = Some entry ∧ (swept ≤ resetAt entry)%Z)
  ∧ size (cleanup swept m) ≤ size m
  ∧ (∀ identifier (now : Z) (config : RateLimitConfig),
       (swept ≤ now)%Z →
       fst (rateLimit now identifier config (cleanup swept m))
       = fst (rateLimit now identifier config m)).
Proof.
  split; [|split].
  - intros identifier entry. unfold cleanup.
    rewrite map_lookup_filter_Some. cbn. split; intros [? ?]; split; try done; lia.
  - apply map_size_filter.
  - intros identifier now config Hlater. by apply rateLimit_cleanup.
Qed.

Lemma rateLimitCalls_app (a b : list Z) identifier (config : RateLimitConfig) m :
  rateLimitCalls (a ++ b) identifier config m
  = (fst (rateLimitCalls a identifier config m)
     ++ fst (rateLimitCalls b identifier config
               (snd (rateLimitCalls a identifier config m))),
     snd (rateLimitCalls b identifier config
            (snd (rateLimitCalls a identifier config m)))).
Proof.
  revert m. induction a as [|now later IH]; intros m; cbn.
  - by destruct (rateLimitCalls b identifier config m).
  - destruct (rateLimit now identifier config m) as [result m1].
    rewrite IH.
    destruct (rateLimitCalls later identifier config m1) as [results m2]. cbn.
    by destruct (rateLimitCalls b identifier config m2).
Qed.

Lemma windowResult_within (n c : nat) (r : Z) :
  {| allowed := bool_decide (Z.of_nat c + 1 ≤ Z.of_nat n)%Z;
     remaining := if bool_decide (Z.of_nat c + 1 ≤ Z.of_nat n)%Z
                  then Z.of_nat n - (Z.of_nat c + 1) else 0;
     result_resetAt := r |}
  = windowResult n r (S c).
Proof.
  unfold windowResult.
  rewrite (bool_decide_ext (S c ≤ n) (Z.of_nat c + 1 ≤ Z.of_nat n)%Z) by lia.
  case_bool_decide; f_equal; lia.
Qed.

(** Calls inside a window that holds [c] calls: the results, and the
    entry they leave. *)
Lemma rateLimitCalls_counted (n : nat) (w : Z) identifier (later : list Z) :
  ∀ m (c : nat) (r : Z),
    m !! identifier = Some {| count := Z.of_nat c; resetAt := r |} →
    Forall (fun now => (now ≤ r)%Z) later →
    fst (rateLimitCalls later identifier {| requests := Z.of_nat n; window := w |} m)
    = map (windowResult n r) (seq (S c) (length later))
    ∧ snd (rateLimitCalls later identifier {| requests := Z.of_nat n; window := w |} m)
      !! identifier
      = Some {| count := Z.of_nat (c + length later); resetAt := r |}.
Proof.
  induction later as [|now later IH]; intros m c r Hentry Hwithin.
  - cbn. split; [done|]. by rewrite Nat.add_0_r.
  - apply Forall_cons in Hwithin as [Hnow Hlater]. cbn beta in Hnow.
    cbn [rateLimitCalls length seq map].
    rewrite (rateLimit_within m identifier now _ _ Hentry) by (cbn; lia).
    cbn [count resetAt requests].
    destruct (IH (<[identifier := {| count := Z.of_nat c + 1; resetAt := r |}]> m)
                (S c) r) as [Hresults Hfinal]; [|done|].
    { rewrite lookup_insert_eq. do 2 f_equal. lia. }
    destruct (rateLimitCalls later identifier _
                (<[identifier := {| count := Z.of_nat c + 1; resetAt := r |}]> m))
      as [results final].
    cbn [fst snd] in *. split.
    + by rewrite Hresults, windowResult_within.
    + rewrite Hfinal. do 2 f_equal. lia.
Qed.

(** Calls from the one that opens a window on. *)
Lemma rateLimitCalls_window (n : nat) (w : Z) identifier m (first : Z) (later : list Z) :
  1 ≤ n →
  freshOrExpired m identifier first →
  Forall (fun now => (now ≤ first + w)%Z) later →
  fst (rateLimitCalls (first :: later) identifier
         {| requests := Z.of_nat n; window := w |} m)
  = map (windowResult n (first + w)) (seq 1 (S (length later)))
  ∧ snd (rateLimitCalls (first :: later) identifier
           {| requests := Z.of_nat n; window := w |} m) !! identifier
    = Some {| count := Z.of_nat (S (length later)); resetAt := first + w |}.
Proof.
  intros Hn Hfresh Hwithin.
  cbn [rateLimitCalls]. rewrite (rateLimit_new _ _ _ _ Hfresh).
  cbn [requests window].
  destruct (rateLimitCalls_counted n w identifier later
              (<[identifier := {| count := 1; resetAt := first + w |}]> m)
              1 (first + w)) as [Hresults Hfinal]; [|done|].
  { by rewrite lookup_insert_eq. }
  destruct (rateLimitCalls later identifier _
              (<[identifier := {| count := 1; resetAt := first + w |}]> m))
    as [results final].
  cbn [fst snd] in *. split; [|done].
  rewrite Hresults. cbn [seq map]. f_equal.
  unfold windowResult. rewrite bool_decide_true by lia. f_equal. lia.
Qed.

Lemma windowResult_allowed_count (n : nat) (r : Z) (len start : nat) :
  length (List.filter allowed (map (windowResult n r) (seq start len)))
  = Nat.min len (S n - start).
Proof.
  revert start. induction len as [|len IH]; intros start; [done|].
  cbn [seq map List.filter]. unfold windowResult at 1. cbn [allowed].
  case_bool_decide; cbn [length]; rewrite IH; lia.
Qed.

(** X5.  However many calls are made inside one window, at most [n]
    are allowed: the call that brings the window's count to [k] is
    allowed exactly when [k ≤ n], reports [max 0 (n - k)] remaining
    calls and the window's reset time. *)
Theorem rateLimit_window_quota (n : nat) (w : Z) identifier m (first : Z)
    (later : list Z) :
  1 ≤ n →
  freshOrExpired m identifier first →
  Forall (fun now => (now ≤ first + w)%Z) later →
  let config := {| requests := Z.of_nat n; window := w |} in
  let results := fst (rateLimitCalls (first :: later) identifier config m) in
  results = map (windowResult n (first + w)) (seq 1 (S (length later)))
  ∧ length (List.filter allowed results) = Nat.min (S (length later)) n.
Proof.
  intros Hn Hfresh Hwithin config results. subst results config.
  destruct (rateLimitCalls_window n w identifier m first later Hn Hfresh Hwithin)
    as [Hresults _].
  split; [done|]. rewrite Hresults, windowResult_allowed_count. lia.
Qed.

(** X6.  The window is fixed, not sliding: [n] calls in one window and
    [n] calls that start right after it has expired are all allowed,
    however close in time the two batches are. *)
Theorem rateLimit_boundary_burst (n : nat) (w : Z) identifier m
    (first second : Z) (batch1 batch2 : list Z) :
  1 ≤ n →
  freshOrExpired m identifier first →
  S (length batch1) = n →
  S (length batch2) = n →
  Forall (fun now => (now ≤ first + w)%Z) batch1 →
  (first + w < second)%Z →
  Forall (fun now => (now ≤ second + w)%Z) batch2 →
  let config := {| requests := Z.of_nat n; window := w |} in
  map allowed
    (fst (rateLimitCalls ((first :: batch1) ++ (second :: batch2)) identifier config m))
  = replicate (n + n) true.
Proof.
  intros Hn Hfresh Hlen1 Hlen2 Hwithin1 Hexpired Hwithin2 config. subst config.
  rewrite rateLimitCalls_app. cbn [fst].
  destruct (rateLimitCalls_window n w identifier m first batch1 Hn Hfresh Hwithin1)
    as [Hresults1 Hfinal1].
  destruct (rateLimitCalls_window n w identifier
              (snd (rateLimitCalls (first :: batch1) identifier
                      {| requests := Z.of_nat n; window := w |} m))
              second batch2 Hn) as [Hresults2 _]; [|done|].
  { right. eexists. split; [exact Hfinal1|]. cbn. lia. }
  rewrite Hresults1, Hresults2, map_app, replicate_add, Hlen1, Hlen2.
  assert (Hall : ∀ r, map allowed (map (windowResult n r) (seq 1 n)) = replicate n true).
  { intros r. rewrite map_map. cbn [windowResult allowed].
    apply (map_seq_all_true (fun k => k ≤ n)). lia. }
  by rewrite !Hall.
Qed.

End RateLimiterQuota.

(* ===================================================================== *)
(** * Bounded body reader: lock, cancellation and outcome *)
(* ===================================================================== *)

Section BodyReaderOutcome.

Import BodyReader.

Context `{Platform}.

Lemma readLoop_trace (maxBytes : N) (stream : BodyStream) :
  ∀ chunks totalBytes,
    let trace := fst (readLoop maxBytes stream chunks totalBytes) in
    let result := snd (readLoop maxBytes stream chunks totalBytes) in
    (∃ before, trace = ERead :: before ++ [EReleaseLock] ∧ EReleaseLock ∉ before)
    ∧ (ECancel ∈ trace ↔ result = ReadFailed too_large).
Proof.
  induction stream as [| |[value|] rest IH]; intros chunks totalBytes; cbn zeta.
  - cbn. split.
    + exists []. split; [done|]. apply not_elem_of_nil.
    + rewrite !elem_of_cons, elem_of_nil. split; [|done]. intros [|[|[]]]; done.
  - cbn. split.
    + exists []. split; [done|]. apply not_elem_of_nil.
    + rewrite !elem_of_cons, elem_of_nil. split; [|done]. intros [|[|[]]]; done.
  - cbn [readLoop].
    destruct (maxBytes <? totalBytes + byteLength value)%N.
    + cbn. split.
      * exists [ECancel]. split; [done|].
        rewrite elem_of_cons, elem_of_nil. intros [|]; done.
      * split; [done|]. intros _. rewrite !elem_of_cons. auto.
    + specialize (IH (chunks ++ [value]) (totalBytes + byteLength value)%N).
      destruct (readLoop maxBytes rest (chunks ++ [value])
                  (totalBytes + byteLength value)) as [effects result].
      cbn [fst snd] in *. destruct IH as [(before & -> & Hbefore) Hcancel]. split.
      * exists (EPush value :: ERead :: before). split; [done|].
        rewrite !not_elem_of_cons. done.
      * rewrite <- Hcancel, !elem_of_cons. split; [intros [|[|[|]]]|]; auto; done.
  - cbn [readLoop]. specialize (IH chunks totalBytes).
    destruct (readLoop maxBytes rest chunks totalBytes) as [effects result].
    cbn [fst snd] in *. destruct IH as [(before & -> & Hbefore) Hcancel]. split.
    + exists (ERead :: before). split; [done|].
      rewrite !not_elem_of_cons. done.
    + rewrite <- Hcancel, !elem_of_cons. split; [intros [|[|]]|]; auto; done.
Qed.

Lemma readLoop_fails (maxBytes : N) (stream : BodyStream) :
  ∀ chunks,
    (totalLength (chunks ++ streamChunks stream) ≤ maxBytes)%N →
    streamFails stream = true →
    snd (readLoop maxBytes stream chunks (totalLength chunks))
    = ReadFailed invalid_body.
Proof.
  induction stream as [| |[value|] rest IH]; intros chunks Hfits Hfails;
    cbn in Hfails; [done|done| |].
  - cbn [readLoop streamChunks] in *.
    rewrite <- totalLength_snoc.
    assert (Hsnoc : chunks ++ value :: streamChunks rest
                    = (chunks ++ [value]) ++ streamChunks rest)
      by (by rewrite <- app_assoc).
    rewrite Hsnoc in Hfits.
    assert (Hnow : (totalLength (chunks ++ [value]) ≤ maxBytes)%N).
    { rewrite totalLength_app in Hfits. lia. }
    apply N.ltb_ge in Hnow. rewrite Hnow.
    specialize (IH (chunks ++ [value]) Hfits Hfails).
    by destruct (readLoop maxBytes rest (chunks ++ [value])
                   (totalLength (chunks ++ [value]))).
  - cbn [readLoop streamChunks] in *.
    specialize (IH chunks Hfits Hfails).
    by destruct (readLoop maxBytes rest chunks (totalLength chunks)).
Qed.

(** X7.  On every path through the read loop the reader's lock is
    released exactly once, as the last step, and at least one read
    precedes it; the stream is cancelled exactly when the result is
    [too_large], which happens exactly when the delivered chunks exceed
    the limit; the result is [invalid_body] exactly when a read fails
    before the limit is exceeded. *)
Theorem readRequestBodyWithLimit_outcome (request : Request) (maxBytes : N)
    (stream : BodyStream) :
  body request = Some stream →
  let trace := fst (readRequestBodyWithLimit request maxBytes) in
  let result := snd (readRequestBodyWithLimit request maxBytes) in
  (∃ before, trace = ERead :: before ++ [EReleaseLock] ∧ EReleaseLock ∉ before)
  ∧ (ECancel ∈ trace ↔ result = ReadFailed too_large)
  ∧ (result = ReadFailed too_large
     ↔ (maxBytes < totalLength (streamChunks stream))%N)
  ∧ (result = ReadFailed invalid_body
     ↔ (totalLength (streamChunks stream) ≤ maxBytes)%N ∧ streamFails stream = true).
Proof.
  intros Hbody. unfold readRequestBodyWithLimit. rewrite Hbody. cbn zeta.
  destruct (readLoop_trace maxBytes stream [] 0%N) as [Hlock Hcancel].
  split; [done|]. split; [done|].
  change 0%N with (totalLength []).
  assert (Hempty : (totalLength [] ≤ maxBytes)%N).
  { change (totalLength []) with 0%N. lia. }
  destruct (N.ltb_spec maxBytes (totalLength (streamChunks stream))) as [Hover|Hfits].
  - destruct (readLoop_too_large maxBytes stream [] Hover Hempty) as [Hresult _].
    rewrite Hresult. split; [done|]. split; [done|]. intros [? _]. lia.
  - destruct (streamFails stream) eqn:Hfails.
    + rewrite (readLoop_fails maxBytes stream [] Hfits Hfails).
      split; [|done]. split; [done|lia].
    + rewrite (readLoop_completes maxBytes stream [] Hfits Hfails).
      split; [split; [done|lia]|]. split; [done|]. by intros [_ ?].
Qed.

End BodyReaderOutcome.

(* ===================================================================== *)
(** * Webhook: outcomes *)
(* ===================================================================== *)

Section WebhookOutcomes.

Import BodyReader.

Context `{Platform}.

(** The switch on a verified event, by the shape of the event: it throws
    on a malformed event before any effect; on any other event it logs
    the event once, with its id, after listing the line items of a
    completed checkout session that has an id. *)
Lemma routeEvent_cases (event : json) :
  (malformedEvent event
   ∧ Webhook.routeEvent event = ([], Some Js.propertyOfNothing))
  ∨ (¬ malformedEvent event
     ∧ snd (Webhook.routeEvent event) = None
     ∧ ∃ listing name fields key,
         fst (Webhook.routeEvent event) = listing ++ [ELogEvent LogInfo name fields]
         ∧ (key, Webhook.field "id" (Some event)) ∈ fields
         ∧ (listing = []
            ∨ ∃ session object,
                eventType event = Some (js "checkout.session.completed")
                ∧ eventObject event = Some (JObject object)
                ∧ Js.get (js "id") object = Some session
                ∧ Js.truthy (Some session) = true
                ∧ (listing = [EListLineItems session]
                   ∨ listing
                     = [EListLineItems session;
                        ELogEvent LogError "webhook_list_line_items_failed"
                          [("sessionId", Some session)]]))).
Proof.
  destruct event as [|b|n|s|elements|entries].
  - left. split; [by left|done].
  - right. split; [by intros [[=]|[[[=]|[=]] _]]|]. split; [done|].
    by (eexists [], _, _, "id"%string; split; [done|]; split; [rewrite !elem_of_cons; auto|by left]).
  - right. split; [by intros [[=]|[[[=]|[=]] _]]|]. split; [done|].
    by (eexists [], _, _, "id"%string; split; [done|]; split; [rewrite !elem_of_cons; auto|by left]).
  - right. split; [by intros [[=]|[[[=]|[=]] _]]|]. split; [done|].
    by (eexists [], _, _, "id"%string; split; [done|]; split; [rewrite !elem_of_cons; auto|by left]).
  - right. split; [by intros [[=]|[[[=]|[=]] _]]|]. split; [done|].
    by (eexists [], _, _, "id"%string; split; [done|]; split; [rewrite !elem_of_cons; auto|by left]).
  - unfold malformedEvent, handledEvent, eventType, eventObject, Webhook.routeEvent,
      Js.member.
    change (Webhook.field "data" (Some (JObject entries)))
      with (Js.get (js "data") entries).
    destruct (Js.get (js "type") entries) as [type|] eqn:Htype.
    2:{ right. split; [by intros [[=]|[[[=]|[=]] _]]|]. split; [done|].
        by (eexists [], _, _, "id"%string; split; [done|]; split; [rewrite !elem_of_cons; auto|by left]). }
    destruct type as [|b|n|type|elements|fields];
      try (right; (split; [by intros [[=]|[[[=]|[=]] _]]|]); (split; [done|]);
           by (eexists [], _, _, "id"%string; split; [done|]; split; [rewrite !elem_of_cons; auto|by left])).
    destruct (JsString.eqb type (js "checkout.session.completed")) eqn:Hcompleted.
    + apply eqb_true in Hcompleted as ->.
      destruct (Js.get (js "data") entries) as [[|b|n|s|elements|data]|] eqn:Hdata;
        try (left; split; [right; split; [by left|by left]|done]).
      destruct (Js.get (js "object") data) as [[|b|n|s|elements|object]|] eqn:Hobject;
        try (left; split; [right; split; [by left|by (left + right)]|done]).
      1-4: right; (split; [by intros [[=]|[_ [[=]|[=]]]]|]); (split; [done|]);
           eexists [], _, _, "eventId"%string; (split; [done|]);
           (split; [rewrite !elem_of_cons; auto|by left]).
      right. split; [by intros [[=]|[_ [[=]|[=]]]]|]. split; [done|].
      cbn [fst].
      destruct (Js.get (js "id") object) as [session|] eqn:Hid.
      2:{ eexists [], _, _, "eventId"%string. split; [done|].
          split; [rewrite !elem_of_cons; auto|by left]. }
      destruct (Js.truthy (Some session)) eqn:Htruthy.
      2:{ eexists [], _, _, "eventId"%string. split; [done|].
          split; [rewrite !elem_of_cons; auto|by left]. }
      unfold Webhook.safeListCheckoutLineItems.
      destruct (listLineItems session);
        eexists _, _, _, "eventId"%string; (split; [reflexivity|]);
        (split; [rewrite !elem_of_cons; auto|]); right; exists session, object;
        repeat (split; [done|]); [by left|by right].
    + destruct (JsString.eqb type (js "payment_intent.succeeded")) eqn:Hsucceeded.
      * apply eqb_true in Hsucceeded as ->.
        destruct (Js.get (js "data") entries) as [[|b|n|s|elements|data]|] eqn:Hdata;
          try (left; split; [right; split; [by right|by left]|done]).
        destruct (Js.get (js "object") data) as [[|b|n|s|elements|object]|] eqn:Hobject;
          try (left; split; [right; split; [by right|by (left + right)]|done]).
        all: right; (split; [by intros [[=]|[_ [[=]|[=]]]]|]); (split; [done|]);
             eexists [], _, _, "eventId"%string; (split; [done|]);
             (split; [rewrite !elem_of_cons; auto|by left]).
      * right. split.
        -- intros [[=]|[[[= ->]|[= ->]] _]].
           ++ unfold JsString.eqb in Hcompleted. by case_bool_decide.
           ++ unfold JsString.eqb in Hsucceeded. by case_bool_decide.
        -- split; [done|]. by (eexists [], _, _, "id"%string; split; [done|]; split; [rewrite !elem_of_cons; auto|by left]).
Qed.

Lemma routeEvent_infoLogs (event : json) :
  ¬ malformedEvent event →
  ∃ name fields key,
    infoLogs (fst (Webhook.routeEvent event)) = [(name, fields)]
    ∧ (key, Webhook.field "id" (Some event)) ∈ fields.
Proof.
  intros Hwell.
  destruct (routeEvent_cases event)
    as [[Hbad _] | (_ & _ & listing & name & fields & key & -> & Hkey & Hlisting)];
    [done|].
  exists name, fields, key. split; [|done].
  unfold infoLogs. rewrite omap_app.
  by destruct Hlisting as [-> | (session & object & _ & _ & _ & _ & [-> | ->])].
Qed.

Lemma routeEvent_listedSessions (event : json) :
  listedSessions (fst (Webhook.routeEvent event)) = []
  ∨ ∃ session object,
      listedSessions (fst (Webhook.routeEvent event)) = [session]
      ∧ eventType event = Some (js "checkout.session.completed")
      ∧ eventObject event = Some (JObject object)
      ∧ Js.get (js "id") object = Some session
      ∧ Js.truthy (Some session) = true.
Proof.
  destruct (routeEvent_cases event)
    as [[_ ->] | (_ & _ & listing & name & fields & key & -> & _ & Hlisting)];
    [by left|].
  unfold listedSessions. rewrite omap_app.
  destruct Hlisting as [-> | (session & object & ? & ? & ? & ? & [-> | ->])];
    [by left| |]; right; by exists session, object.
Qed.

Lemma routeEvent_routed (event : json) :
  routed (fst (Webhook.routeEvent event)) = true ↔ ¬ malformedEvent event.
Proof.
  destruct (routeEvent_cases event)
    as [[Hbad ->] | (Hwell & _ & listing & name & fields & key & -> & _)].
  - by split.
  - split; [done|]. intros _. rewrite routed_app. apply orb_true_iff. by right.
Qed.

Lemma routeEvent_no_verification (event : json) (rawBody signature secret : jsstring) :
  EConstructEvent rawBody signature secret ∉ fst (Webhook.routeEvent event).
Proof.
  destruct (routeEvent_cases event)
    as [[_ ->] | (_ & _ & listing & name & fields & key & -> & _ & Hlisting)];
    [apply not_elem_of_nil|].
  destruct Hlisting as [-> | (session & object & _ & _ & _ & _ & [-> | ->])];
    cbn [app]; rewrite ?not_elem_of_cons; repeat split; try done;
    apply not_elem_of_nil.
Qed.

(** Building a response throws exactly when the request is not
    answerable. *)
Lemma create_Threw (env : Env) (request : Request) (body : option json) (code : Z) :
  (∃ message, NextResponse.create body code (Cors.corsHeaders env request)
              = Threw message)
  ↔ ¬ answerable env request.
Proof.
  destruct (answerable_dec env request) as [Hyes|Hno].
  - rewrite (create_answerable env request _ _ Hyes). split; [by intros [? ?]|done].
  - rewrite (create_unanswerable env request _ _ Hno). split; [done|by eexists].
Qed.

Lemma webhookGuardsPass_POST (env : Env) (request : Request) :
  webhookGuardsPass env request →
  ∃ secret c signature,
    Webhook.getWebhookSecret env = Some secret
    ∧ headers_get request "stripe-signature" = Some (c :: signature)
    ∧ snd (readRequestBodyWithLimit request Webhook.MAX_WEBHOOK_BODY_BYTES)
      = ReadOk (rawBodyOf request)
    ∧ Webhook.POST env request
      = let read := readRequestBodyWithLimit request Webhook.MAX_WEBHOOK_BODY_BYTES in
        if negb (Checkout.getStripeClient env) then
          (fst read, Threw "Missing STRIPE_SECRET_KEY environment variable.")
        else
          match constructEvent (rawBodyOf request) (c :: signature) secret with
          | None =>
              (fst read
               ++ [EConstructEvent (rawBodyOf request) (c :: signature) secret;
                   ELog LogError "webhook_signature_verification_failed" []],
               Cors.jsonError env "Invalid webhook signature." 400 request)
          | Some event =>
              (fst read
               ++ EConstructEvent (rawBodyOf request) (c :: signature) secret
               :: fst (Webhook.routeEvent event),
               match snd (Webhook.routeEvent event) with
               | Some exception => Threw exception
               | None => Webhook.received env request
               end)
          end.
Proof.
  intros ((secret & Hsecret) & (c & signature & Hsignature) & Hvalid & Hdeclared
          & rawBody & Hread).
  exists secret, c, signature.
  pose proof (read_ok_rawBody _ _ _ Hread) as ->.
  split; [done|]. split; [done|]. split; [done|].
  rewrite (webhook_POST_after_guards env request secret signature c Hsecret Hsignature).
  cbn zeta. rewrite Hvalid, Hread.
  destruct (bytes (parseContentLength (headers_get request "content-length")))
    as [declared|] eqn:Hbytes; [|done].
  specialize (Hdeclared declared eq_refl). apply N.ltb_ge in Hdeclared.
  by rewrite Hdeclared.
Qed.

(** X8.  A verified event is acknowledged unless it is malformed.  Once
    the guards have passed, the Stripe client is configured and the
    signature verifies, the handler routes the event.  On a malformed
    event ([null], or an event of type [checkout.session.completed] or
    [payment_intent.succeeded] whose [data.object] is missing or [null])
    the handler throws a [TypeError] before any log or listing.  Any
    other event is acknowledged with the 200 "received" response (when
    the request is answerable), whatever its type and whether or not
    listing the line items succeeds; it is logged exactly once at info
    level with its id, and line items are listed at most once, only for a
    [checkout.session.completed] event whose object is an object with a
    truthy [id]. *)
Theorem webhook_verified_event_acknowledged (env : Env) (request : Request)
    (secret signature : jsstring) (event : json) :
  webhookGuardsPass env request →
  Checkout.getStripeClient env = true →
  Webhook.getWebhookSecret env = Some secret →
  headers_get request "stripe-signature" = Some signature →
  constructEvent (rawBodyOf request) signature secret = Some event →
  let answer := Webhook.POST env request in
  let routing := fst (Webhook.routeEvent event) in
  fst answer
  = fst (readRequestBodyWithLimit request Webhook.MAX_WEBHOOK_BODY_BYTES)
    ++ EConstructEvent (rawBodyOf request) signature secret :: routing
  ∧ (malformedEvent event →
     routing = [] ∧ snd answer = Threw Js.propertyOfNothing)
  ∧ (¬ malformedEvent event →
     answers env request (snd answer)
       (jsonAnswer env request 200 (JObject [(js "received", JBool true)]))
     ∧ (∃ name fields key,
          infoLogs routing = [(name, fields)]
          ∧ (key, Webhook.field "id" (Some event)) ∈ fields)
     ∧ (listedSessions routing = []
        ∨ ∃ session object,
            listedSessions routing = [session]
            ∧ eventType event = Some (js "checkout.session.completed")
            ∧ eventObject event = Some (JObject object)
            ∧ Js.get (js "id") object = Some session
            ∧ Js.truthy (Some session) = true)).
Proof.
  intros Hguards Hclient Hsecret Hsignature Hverified. cbv zeta.
  destruct (webhookGuardsPass_POST env request Hguards)
    as (secret' & c & signature' & Hsecret' & Hsignature' & _ & Hpost).
  rewrite Hsecret in Hsecret'. rewrite Hsignature in Hsignature'.
  injection Hsecret' as <-. injection Hsignature' as ->.
  rewrite Hpost. cbn zeta. rewrite Hclient, Hverified. cbn [negb fst snd].
  split; [done|]. split.
  - intros Hbad.
    destruct (routeEvent_cases event) as [[_ ->] | [Hwell _]]; [done|].
    by destruct (Hwell Hbad).
  - intros Hwell. split; [|split].
    + destruct (routeEvent_cases event) as [[Hbad _] | (_ & -> & _)]; [done|].
      unfold Webhook.received, NextResponse.json.
      split; intros Hanswerable;
        [by rewrite create_answerable | by rewrite create_unanswerable].
    + by apply routeEvent_infoLogs.
    + apply routeEvent_listedSessions.
Qed.

Lemma read_no_verification (request : Request) (maxBytes : N)
    (rawBody signature secret : jsstring) :
  EConstructEvent rawBody signature secret
  ∉ fst (readRequestBodyWithLimit request maxBytes).
Proof.
  unfold readRequestBodyWithLimit.
  destruct (body request) as [stream|]; [|apply not_elem_of_nil].
  generalize (@nil (list Byte.byte)) 0%N.
  induction stream as [| |[value|] rest IH]; intros chunks totalBytes; cbn [readLoop].
  - cbn. rewrite !not_elem_of_cons. split; [done|]. split; [done|]. apply not_elem_of_nil.
  - cbn. rewrite !not_elem_of_cons. split; [done|]. split; [done|]. apply not_elem_of_nil.
  - destruct (maxBytes <? totalBytes + byteLength value)%N.
    + cbn. rewrite !not_elem_of_cons.
      split; [done|]. split; [done|]. split; [done|]. apply not_elem_of_nil.
    + specialize (IH (chunks ++ [value]) (totalBytes + byteLength value)%N).
      destruct (readLoop maxBytes rest (chunks ++ [value])
                  (totalBytes + byteLength value)) as [effects result].
      cbn [fst] in *. rewrite !not_elem_of_cons. done.
  - specialize (IH chunks totalBytes).
    destruct (readLoop maxBytes rest chunks totalBytes) as [effects result].
    cbn [fst] in *. rewrite !not_elem_of_cons. done.
Qed.

(** A request that fails a guard ends with an error response, without
    verification and without routing. *)
Lemma webhook_POST_rejected (env : Env) (request : Request) :
  webhookGuardsPass env request
  ∨ (¬ webhookGuardsPass env request
     ∧ ∃ message code,
         snd (Webhook.POST env request) = Cors.jsonError env message code request
         ∧ code ∈ [400; 413; 500]%Z
         ∧ routed (fst (Webhook.POST env request)) = false
         ∧ ∀ rawBody signature secret,
             EConstructEvent rawBody signature secret ∉ fst (Webhook.POST env request)).
Proof.
  unfold webhookGuardsPass, Webhook.POST.
  destruct (Webhook.getWebhookSecret env) as [secret|].
  2:{ right. split; [by intros [[? ?] _]|]. eexists _, 500%Z.
      split; [done|]. split; [listed|]. split; [done|].
      intros. apply not_elem_of_nil. }
  destruct (headers_get request "stripe-signature") as [[|c signature]|].
  1,3: right; (split; [by intros (_ & (? & ? & ?) & _)|]); eexists _, 400%Z;
       (split; [done|]); (split; [listed|]); (split; [done|]);
       intros; apply not_elem_of_nil.
  destruct (invalid (parseContentLength (headers_get request "content-length"))).
  { right. split; [by intros (_ & _ & ? & _)|]. eexists _, 400%Z.
    split; [done|]. split; [listed|]. split; [done|].
    intros. apply not_elem_of_nil. }
  destruct (bytes (parseContentLength (headers_get request "content-length")))
    as [declared|].
  - destruct (N.ltb_spec Webhook.MAX_WEBHOOK_BODY_BYTES declared) as [Hover|Hfits].
    { right. split.
      - intros (_ & _ & _ & Hdeclared & _). specialize (Hdeclared declared eq_refl). lia.
      - eexists _, 413%Z. split; [done|]. split; [listed|]. split; [done|].
        intros. apply not_elem_of_nil. }
    pose proof (read_not_routed request Webhook.MAX_WEBHOOK_BODY_BYTES) as Hrouted.
    pose proof (read_no_verification request Webhook.MAX_WEBHOOK_BODY_BYTES) as Hverify.
    destruct (readRequestBodyWithLimit request Webhook.MAX_WEBHOOK_BODY_BYTES)
      as [readEffects [rawBody|[]]]; cbn [fst snd] in *.
    + left. split; [by eexists|]. split; [by eexists _, _|]. split; [done|].
      split; [by intros ? [= <-]|]. by eexists.
    + right. split; [by intros (_ & _ & _ & _ & ? & ?)|]. eexists _, 413%Z.
      split; [done|]. split; [listed|]. done.
    + right. split; [by intros (_ & _ & _ & _ & ? & ?)|]. eexists _, 400%Z.
      split; [done|]. split; [listed|]. split.
      * by rewrite routed_app, Hrouted.
      * intros. rewrite elem_of_app, list_elem_of_singleton.
        intros [?|?]; [by eapply Hverify|done].
  - pose proof (read_not_routed request Webhook.MAX_WEBHOOK_BODY_BYTES) as Hrouted.
    pose proof (read_no_verification request Webhook.MAX_WEBHOOK_BODY_BYTES) as Hverify.
    destruct (readRequestBodyWithLimit request Webhook.MAX_WEBHOOK_BODY_BYTES)
      as [readEffects [rawBody|[]]]; cbn [fst snd] in *.
    + left. split; [by eexists|]. split; [by eexists _, _|]. split; [done|].
      split; [done|]. by eexists.
    + right. split; [by intros (_ & _ & _ & _ & ? & ?)|]. eexists _, 413%Z.
      split; [done|]. split; [listed|]. done.
    + right. split; [by intros (_ & _ & _ & _ & ? & ?)|]. eexists _, 400%Z.
      split; [done|]. split; [listed|]. split.
      * by rewrite routed_app, Hrouted.
      * intros. rewrite elem_of_app, list_elem_of_singleton.
        intros [?|?]; [by eapply Hverify|done].
Qed.

(** X9.  The outcomes of the webhook POST.  It leaves with an unhandled
    exception exactly when the request is not answerable (then building
    any response throws), or every guard has passed, the body included,
    and STRIPE_SECRET_KEY is missing or the verified event is malformed.
    Otherwise it answers with status 200, 400, 413 or 500; the status is
    200 exactly when an event was routed, which is exactly when the guards
    pass, the Stripe client is configured and the whole body verifies
    against the configured secret and the signature header.  Verification
    is only ever attempted on the whole body, with that secret and that
    header. *)
Theorem webhook_POST_outcomes (env : Env) (request : Request) :
  let answer := Webhook.POST env request in
  ((∃ message, snd answer = Threw message)
   ↔ ¬ answerable env request
     ∨ (webhookGuardsPass env request
        ∧ (Checkout.getStripeClient env = false
           ∨ ∃ secret signature event,
               Webhook.getWebhookSecret env = Some secret
               ∧ headers_get request "stripe-signature" = Some signature
               ∧ constructEvent (rawBodyOf request) signature secret = Some event
               ∧ malformedEvent event)))
  ∧ (∀ response,
       snd answer = Responded response →
       status response ∈ [200; 400; 413; 500]%Z
       ∧ (status response = 200%Z ↔ routed (fst answer) = true)
       ∧ (status response = 200%Z
          ↔ webhookGuardsPass env request
            ∧ Checkout.getStripeClient env = true
            ∧ ∃ secret signature event,
                Webhook.getWebhookSecret env = Some secret
                ∧ headers_get request "stripe-signature" = Some signature
                ∧ constructEvent (rawBodyOf request) signature secret = Some event))
  ∧ (∀ rawBody signature secret,
       EConstructEvent rawBody signature secret ∈ fst answer →
       rawBody = rawBodyOf request
       ∧ Webhook.getWebhookSecret env = Some secret
       ∧ headers_get request "stripe-signature" = Some signature
       ∧ Checkout.getStripeClient env = true).
Proof.
  cbv zeta.
  assert (Herror : ∀ message code,
            (∃ thrown, Cors.jsonError env message code request = Threw thrown)
            ↔ ¬ answerable env request)
    by (intros; apply create_Threw).
  destruct (webhook_POST_rejected env request)
    as [Hguards|(Hguards & message & code & Hpost & Hcode & Hrouted & Hverify)].
  - destruct (webhookGuardsPass_POST env request Hguards)
      as (secret & c & signature & Hsecret & Hsignature & _ & Hpost).
    pose proof (read_not_routed request Webhook.MAX_WEBHOOK_BODY_BYTES) as Hrouted.
    pose proof (read_no_verification request Webhook.MAX_WEBHOOK_BODY_BYTES) as Hverify.
    rewrite Hpost. cbn zeta. clear Hpost.
    destruct (Checkout.getStripeClient env); cbn [negb].
    + destruct (constructEvent (rawBodyOf request) (c :: signature) secret)
        as [event|] eqn:Hevent; cbn [fst snd].
      * assert (Hthis : ∀ secret' signature' event',
                  Webhook.getWebhookSecret env = Some secret' →
                  headers_get request "stripe-signature" = Some signature' →
                  constructEvent (rawBodyOf request) signature' secret' = Some event' →
                  event' = event).
        { intros secret' signature' event' Hs Hg He.
          rewrite Hsecret in Hs. rewrite Hsignature in Hg.
          injection Hs as <-. injection Hg as <-. congruence. }
        destruct (routeEvent_cases event)
          as [[Hbad Hroute] | (Hwell & Hroute & _)]; rewrite Hroute; cbn [fst snd].
        -- split.
           { split; [intros _|by eexists]. right. split; [done|]. right.
             by exists secret, (c :: signature), event. }
           split; [done|].
           intros rawBody' signature' secret'.
           rewrite elem_of_app, elem_of_cons, elem_of_nil. intros [Hin|[Heq|[]]].
           ++ by apply Hverify in Hin.
           ++ by injection Heq as -> -> ->.
        -- split.
           { unfold Webhook.received, NextResponse.json. rewrite create_Threw.
             split; [by left|]. intros [Hno | (_ & [[=] | Hmalformed])]; [done|].
             destruct Hmalformed as (secret' & signature' & event' & Hs & Hg & He & Hbad).
             by rewrite (Hthis _ _ _ Hs Hg He) in Hbad. }
           split.
           { intros response Hbuilt. apply json_status in Hbuilt. rewrite Hbuilt.
             split; [listed|]. split.
             - split; [intros _|done].
               rewrite routed_app. apply orb_true_iff. right.
               cbn [routed existsb isRoutingEffect orb].
               change (existsb isRoutingEffect (fst (Webhook.routeEvent event)))
                 with (routed (fst (Webhook.routeEvent event))).
               by apply routeEvent_routed.
             - split; [intros _|done]. split; [done|]. split; [done|].
               by exists secret, (c :: signature), event. }
           intros rawBody' signature' secret'.
           rewrite elem_of_app, elem_of_cons. intros [Hin|[Heq|Hin]].
           ++ by apply Hverify in Hin.
           ++ by injection Heq as -> -> ->.
           ++ by apply routeEvent_no_verification in Hin.
      * split.
        { rewrite Herror. split; [by left|].
          intros [Hno | (_ & [[=] | Hmalformed])]; [done|].
          destruct Hmalformed as (secret' & signature' & event' & Hs & Hg & He & _).
          rewrite Hsecret in Hs. rewrite Hsignature in Hg.
          injection Hs as <-. injection Hg as <-. congruence. }
        split.
        -- intros response Hbuilt. apply jsonError_status in Hbuilt. rewrite Hbuilt.
           split; [listed|]. split.
           ++ split; [done|]. rewrite routed_app, Hrouted. done.
           ++ split; [done|]. intros (_ & _ & secret' & signature' & event & Hs & Hg & He).
              congruence.
        -- intros rawBody' signature' secret'.
           rewrite elem_of_app, !elem_of_cons, elem_of_nil. intros [Hin|[Heq|[|[]]]].
           ++ by apply Hverify in Hin.
           ++ by injection Heq as -> -> ->.
           ++ done.
    + cbn [fst snd]. split.
      { split; [intros _|by eexists]. right. split; [done|]. by left. }
      split; [done|].
      intros ??? Hin. by apply Hverify in Hin.
  - rewrite Hpost. split.
    { rewrite Herror. split; [by left|]. by intros [Hno | [Hpass _]]. }
    split.
    + intros response Hbuilt. apply jsonError_status in Hbuilt. rewrite Hbuilt.
      split; [by apply elem_of_cons; right|]. rewrite Hrouted.
      assert (Hnot : code ≠ 200%Z).
      { intros ->. rewrite !elem_of_cons, elem_of_nil in Hcode.
        intuition discriminate. }
      split; (split; [done|]); [done|by intros [? _]].
    + intros ??? Hin. by apply Hverify in Hin.
Qed.

End WebhookOutcomes.

(* ===================================================================== *)
(** * Checkout: what reaches Stripe *)
(* ===================================================================== *)

Section CheckoutSession.

Import Cors PriceAllowlist Checkout.

Context `{Platform}.

Lemma validateItems_parsed (itemsInput : list json) :
  ∀ index parsedItems,
    validateItems index itemsInput = inr parsedItems →
    Forall2 (fun item parsed =>
               ∃ raw, itemPriceId item = Some raw
                      ∧ priceId parsed = JsString.trim raw
                      ∧ itemQuantity item = Some (quantity parsed))
      itemsInput parsedItems
    ∧ Forall vettedItem parsedItems.
Proof.
  induction itemsInput as [|item rest IH]; intros index parsedItems;
    cbn [validateItems].
  - intros [= <-]. split; constructor.
  - destruct (Js.asRecord item) as [itemObject|] eqn:Hrecord; [|done].
    destruct (Js.get (js "priceId") itemObject) as [[| | |raw| |]|] eqn:Hprice;
      try done.
    unfold validateStripePriceId.
    destruct (isEmpty (JsString.trim raw)); [done|].
    destruct (PRICE_ID_PATTERN_test (JsString.trim raw)) eqn:Hpattern; [|done].
    cbn [negb].
    destruct (Js.get (js "quantity") itemObject) as [[| |q| | |]|] eqn:Hq; try done.
    destruct (negb (Js.isInteger q) || Js.ltZ q 1 || Js.gtZ q MAX_QUANTITY)
      eqn:Hquantity; [done|].
    destruct (validateItems (S index) rest) as [|parsedRest] eqn:Hrest; [done|].
    intros [= <-]. destruct (IH _ _ Hrest) as [Hitems Hvetted]. split.
    + constructor; [|done]. exists raw. unfold itemPriceId, itemQuantity.
      rewrite Hrecord, Hprice, Hq. split; [done|]. split; done.
    + constructor; [|done]. split; cbn.
      * by apply PRICE_ID_PATTERN_test_spec.
      * by apply quantity_check_spec.
Qed.

(** X10.  What the checkout validator hands on.  The accepted payload
    has between 1 and 50 items, the input's items in order with their
    price ids trimmed; every one has a price id of the Stripe form and an
    integer quantity between 1 and 99.  The customer email is the trimmed
    input, and is dropped when that is empty; the metadata is the input's
    object, untouched. *)
Theorem checkout_payload_normalized (input : json) (payload : CheckoutPayload) :
  validatePayload input = inr payload →
  1 ≤ length (items payload) ≤ 50
  ∧ Forall2 (fun item parsed =>
               ∃ raw, itemPriceId item = Some raw
                      ∧ priceId parsed = JsString.trim raw
                      ∧ itemQuantity item = Some (quantity parsed))
      (bodyItems input) (items payload)
  ∧ Forall vettedItem (items payload)
  ∧ customerEmail payload
    = match bodyField "customerEmail" input with
      | Some (JString raw) =>
          match JsString.trim raw with
          | [] => None
          | c :: rest => Some (c :: rest)
          end
      | _ => None
      end
  ∧ metadata payload
    = match bodyField "metadata" input with
      | Some (JObject entries) => Some entries
      | _ => None
      end.
Proof.
  unfold validatePayload, bodyItems, bodyField.
  destruct (Js.asRecord input) as [body|]; [|done].
  destruct (Js.get (js "items") body) as [[| | | |itemsInput|]|]; try done.
  destruct (length itemsInput =? 0) eqn:Hempty; [done|].
  destruct (MAX_LINE_ITEMS <? length itemsInput) eqn:Hmany; [done|].
  destruct (validateItems 0 itemsInput) as [|parsedItems] eqn:Hitems; [done|].
  destruct (validateItems_parsed _ _ _ Hitems) as [Hparsed Hvetted].
  pose proof (Forall2_length _ _ _ Hparsed) as Hlength.
  apply Nat.eqb_neq in Hempty. apply Nat.ltb_ge in Hmany.
  unfold MAX_LINE_ITEMS in Hmany.
  assert (Hcount : 1 ≤ length parsedItems ≤ 50) by lia.
  destruct (Js.get (js "customerEmail") body) as [[| | |raw| |]|]; try done.
  - destruct (JsString.trim raw) as [|c rest]; cbn [length Nat.ltb Nat.leb];
      destruct (Js.get (js "metadata") body) as [[| | | | |entries]|]; try done;
      by intros [= <-].
  - destruct (Js.get (js "metadata") body) as [[| | | | |entries]|]; try done;
      by intros [= <-].
Qed.

Lemma sessionsCreated_app (a b : list Effect) :
  sessionsCreated (a ++ b) = sessionsCreated a ++ sessionsCreated b.
Proof. apply omap_app. Qed.

Lemma invalidIds_none (allowlist : StripePriceAllowlist) (payload : CheckoutPayload) :
  (0 <? length (invalidIds allowlist payload)) = false →
  ∀ item, item ∈ items payload → priceId item ∈ allowedPriceIds allowlist.
Proof.
  intros Hnone item Hitem.
  destruct (decide (priceId item ∈ allowedPriceIds allowlist)) as [|Hout]; [done|].
  assert (Hsome : (0 <? length (invalidIds allowlist payload)) = true).
  { apply invalidIds_nonempty. by exists item. }
  congruence.
Qed.

(** The ways through [POST]: an error response before the session block,
    or the session block on a validated payload. *)
Lemma checkout_POST_cases (env : Env) (request : Request) :
  (∃ trace message code,
     POST env request = (trace, jsonError env message code request)
     ∧ code ∈ [400; 403; 500]%Z
     ∧ (code = 403%Z ↔ isOriginAllowed env request = false)
     ∧ (∀ params key, ESessionsCreate params key ∉ trace)
     ∧ sessionsCreated trace = [])
  ∨ (∃ successUrl cancelUrl body payload trace,
       isOriginAllowed env request = true
       ∧ getRequiredUrl (SUCCESS_URL env) = Some successUrl
       ∧ getRequiredUrl (CANCEL_URL env) = Some cancelUrl
       ∧ requestJson request = Some body
       ∧ validatePayload body = inr payload
       ∧ (enforce (getStripePriceAllowlist env) = true →
          ∀ item, item ∈ items payload →
                  priceId item ∈ allowedPriceIds (getStripePriceAllowlist env))
       ∧ POST env request
         = (trace, snd (createSession env request successUrl cancelUrl payload))
       ∧ sessionsCreated trace
         = sessionsCreated (fst (createSession env request successUrl cancelUrl payload))
       ∧ (∀ params key,
            ESessionsCreate params key ∈ trace →
            ESessionsCreate params key
            ∈ fst (createSession env request successUrl cancelUrl payload))).
Proof.
  unfold POST.
  destruct (isOriginAllowed env request) eqn:Hallowed; cbn [negb].
  2:{ left. eexists _, _, 403%Z. split; [done|]. split; [listed|]. split; [done|].
      split; [intros; apply not_elem_of_nil|done]. }
  destruct (getRequiredUrl (SUCCESS_URL env)) as [successUrl|].
  2:{ left. eexists _, _, 500%Z. split; [done|]. split; [listed|]. split; [done|].
      split; [intros; apply not_elem_of_nil|done]. }
  destruct (getRequiredUrl (CANCEL_URL env)) as [cancelUrl|].
  2:{ left. eexists _, _, 500%Z. split; [done|]. split; [listed|]. split; [done|].
      split; [intros; apply not_elem_of_nil|done]. }
  assert (Hread : ∀ params key, ESessionsCreate params key ∉ [EReadJson]).
  { intros. rewrite elem_of_cons, elem_of_nil. by intros [|]. }
  destruct (requestJson request) as [body|].
  2:{ left. eexists _, _, 400%Z. split; [done|]. split; [listed|]. done. }
  destruct (validatePayload body) as [error|payload] eqn:Hvalid.
  { left. eexists _, _, 400%Z. split; [done|]. split; [listed|]. done. }
  cbn zeta.
  assert (Hproceed : ∀ logged,
            (∀ params key, ESessionsCreate params key ∉ logged) →
            sessionsCreated logged = [] →
            ∃ trace,
              (let '(effects, outcome) :=
                 createSession env request successUrl cancelUrl payload in
               (EReadJson :: logged ++ effects, outcome))
              = (trace, snd (createSession env request successUrl cancelUrl payload))
              ∧ sessionsCreated trace
                = sessionsCreated
                    (fst (createSession env request successUrl cancelUrl payload))
              ∧ (∀ params key,
                   ESessionsCreate params key ∈ trace →
                   ESessionsCreate params key
                   ∈ fst (createSession env request successUrl cancelUrl payload))).
  { intros logged Hlogged Hnone.
    destruct (createSession env request successUrl cancelUrl payload)
      as [effects outcome].
    eexists. split; [done|]. cbn [fst snd]. split.
    - change (EReadJson :: logged ++ effects) with ([EReadJson] ++ logged ++ effects).
      by rewrite !sessionsCreated_app, Hnone.
    - intros params key. rewrite elem_of_cons, elem_of_app.
      intros [|[Hin|]]; [done| |done]. by apply Hlogged in Hin. }
  assert (Hnil : ∀ params key, ESessionsCreate params key ∉ []).
  { intros. apply not_elem_of_nil. }
  assert (Hlog : ∀ level name detail params key,
            ESessionsCreate params key ∉ [ELog level name detail]).
  { intros. rewrite elem_of_cons, elem_of_nil. by intros [|]. }
  destruct (enforce (getStripePriceAllowlist env)) eqn:Henforce.
  - destruct (size (allowedPriceIds (getStripePriceAllowlist env)) =? 0).
    { left. eexists _, _, 500%Z. split; [done|]. split; [listed|]. done. }
    destruct (0 <? length (invalidIds (getStripePriceAllowlist env) payload))
      eqn:Hinvalid.
    { left. eexists _, _, 400%Z. split; [done|]. split; [listed|]. split; [done|].
      split; [|done].
      intros. rewrite !elem_of_cons, elem_of_nil. by intros [|[|]]. }
    destruct (Hproceed [] Hnil eq_refl) as (trace & Hpost & Hcreated & Hin).
    right. exists successUrl, cancelUrl, body, payload, trace.
    do 5 (split; [done|]). split; [|by split_and!].
    intros _. by apply invalidIds_none.
  - right. exists successUrl, cancelUrl, body, payload.
    destruct (0 <? size (allowedPriceIds (getStripePriceAllowlist env))).
    + destruct (0 <? length (invalidIds (getStripePriceAllowlist env) payload)).
      * destruct (Hproceed _ (Hlog LogWarn "checkout_warning_price_not_allowlisted"
                                  (invalidIds (getStripePriceAllowlist env) payload))
                    eq_refl) as (trace & Hpost & Hcreated & Hin).
        exists trace. by split_and!.
      * destruct (Hproceed [] Hnil eq_refl) as (trace & Hpost & Hcreated & Hin).
        exists trace. by split_and!.
    + destruct (Hproceed [] Hnil eq_refl) as (trace & Hpost & Hcreated & Hin).
      exists trace. by split_and!.
Qed.

(** X11.  Stripe is only ever asked to create a session for a vetted
    cart.  Whenever the checkout POST calls [sessions.create], the
    origin is allowed, the Stripe client is configured, the URLs are the
    validated SUCCESS_URL and CANCEL_URL, and the line items are the
    request's items in order: between 1 and 50 of them, each with a price
    id of the Stripe form and an integer quantity between 1 and 99, and,
    when the allowlist is enforced, each with an allowlisted price id. *)
Theorem checkout_session_items_vetted (env : Env) (request : Request)
    (params : SessionCreateParams) (key : option jsstring) :
  ESessionsCreate params key ∈ fst (POST env request) →
  isOriginAllowed env request = true
  ∧ getStripeClient env = true
  ∧ getRequiredUrl (SUCCESS_URL env) = Some (success_url params)
  ∧ getRequiredUrl (CANCEL_URL env) = Some (cancel_url params)
  ∧ 1 ≤ length (line_items params) ≤ 50
  ∧ Forall vettedItem (line_items params)
  ∧ (enforce (getStripePriceAllowlist env) = true →
     Forall (fun item => priceId item ∈ allowedPriceIds (getStripePriceAllowlist env))
       (line_items params))
  ∧ (∃ body,
       requestJson request = Some body
       ∧ Forall2 (fun item parsed =>
                    ∃ raw, itemPriceId item = Some raw
                           ∧ priceId parsed = JsString.trim raw
                           ∧ itemQuantity item = Some (quantity parsed))
           (bodyItems body) (line_items params)).
Proof.
  intros Hcreate.
  destruct (checkout_POST_cases env request)
    as [(trace & message & code & Hpost & _ & _ & Hnone & _)
       |(successUrl & cancelUrl & body & payload & trace & Hallowed & Hsuccess
         & Hcancel & Hjson & Hvalid & Henforced & Hpost & _ & Hin)];
    rewrite Hpost in Hcreate; cbn [fst] in Hcreate.
  { by apply Hnone in Hcreate. }
  apply Hin, createSession_session in Hcreate
    as (Hclient & (sanitized & _ & ->) & _ & _).
  cbn [line_items success_url cancel_url].
  split; [done|]. split; [done|]. split; [done|]. split; [done|].
  pose proof Hvalid as Hnormal.
  unfold validatePayload in Hnormal.
  destruct (Js.asRecord body) as [entries|] eqn:Hrecord; [|done].
  destruct (Js.get (js "items") entries) as [[| | | |itemsInput|]|] eqn:Hfield;
    try done.
  destruct (length itemsInput =? 0) eqn:Hempty; [done|].
  destruct (MAX_LINE_ITEMS <? length itemsInput) eqn:Hmany; [done|].
  destruct (validateItems 0 itemsInput) as [|parsedItems] eqn:Hitems; [done|].
  destruct (validateItems_parsed _ _ _ Hitems) as [Hparsed Hvetted].
  assert (Hsame : items payload = parsedItems).
  { revert Hnormal. repeat case_match; try done; by intros [= <-]. }
  rewrite Hsame in *.
  pose proof (Forall2_length _ _ _ Hparsed) as Hlength.
  apply Nat.eqb_neq in Hempty. apply Nat.ltb_ge in Hmany.
  unfold MAX_LINE_ITEMS in Hmany.
  split; [lia|]. split; [done|]. split.
  - intros Henforce. apply Forall_forall. intros item Hitem. by apply Henforced.
  - exists body. split; [done|]. unfold bodyItems, bodyField.
    by rewrite Hrecord, Hfield.
Qed.

(** X12.  The metadata and the idempotency key that reach Stripe.  The
    session's metadata always records [source = framer] and the server's
    default currency (DEFAULT_CURRENCY trimmed, or [gbp]), whatever the
    client sent under those keys; it has at most 51 entries, with keys of
    at most 40 word characters and values of at most 500 code units.  The
    idempotency key is the trimmed Idempotency-Key header cut to 255 code
    units, and is absent when the header is missing or blank. *)
Theorem checkout_session_metadata_and_key (env : Env) (request : Request)
    (params : SessionCreateParams) (key : option jsstring) :
  ESessionsCreate params key ∈ fst (POST env request) →
  params_metadata params !! js "source" = Some (js "framer")
  ∧ params_metadata params !! js "default_currency"
    = Some (JsString.slice0 500 (defaultCurrency env))
  ∧ (∀ name value,
       params_metadata params !! name = Some value →
       Forall (fun c => JsString.isWord c = true) name
       ∧ length name ≤ 40
       ∧ length value ≤ 500)
  ∧ size (params_metadata params) ≤ 51
  ∧ key
    = match headers_get request "idempotency-key" with
      | Some idempotencyKeyHeader =>
          match JsString.trim idempotencyKeyHeader with
          | [] => None
          | c :: rest => Some (JsString.slice0 255 (c :: rest))
          end
      | None => None
      end
  ∧ (∀ value, key = Some value → value ≠ [] ∧ length value ≤ 255).
Proof.
  intros Hcreate.
  destruct (checkout_POST_cases env request)
    as [(trace & message & code & Hpost & _ & _ & Hnone & _)
       |(successUrl & cancelUrl & body & payload & trace & _ & _ & _ & _ & _ & _
         & Hpost & _ & Hin)];
    rewrite Hpost in Hcreate; cbn [fst] in Hcreate.
  { by apply Hnone in Hcreate. }
  apply Hin, createSession_session in Hcreate
    as (_ & (sanitized & Hsanitized & ->) & Hkey & _).
  apply sanitizeMetadata_sanitized in Hsanitized as (Hsource & Hentries & Hsize).
  cbn [params_metadata].
  assert (Hdistinct : js "default_currency" ≠ js "source").
  { intros Heq. vm_compute in Heq. discriminate. }
  split; [by rewrite lookup_insert_ne|].
  split; [by rewrite lookup_insert_eq|].
  split; [|split; [|split; [done|]]].
  - intros name value [[<- <-]|[_ Hold]]%lookup_insert_Some; [|by apply Hentries].
    split; [|split].
    + apply forallb_true_Forall. by vm_compute.
    + vm_compute. lia.
    + apply slice0_length.
  - destruct (sanitized !! js "default_currency") as [old|] eqn:Hold.
    + rewrite map_size_insert_Some by done. lia.
    + rewrite map_size_insert_None by done. lia.
  - intros value Hvalue. rewrite Hkey in Hvalue.
    destruct (headers_get request "idempotency-key") as [header|]; [|done].
    destruct (JsString.trim header) as [|c rest]; [done|].
    assert (value = JsString.slice0 255 (c :: rest)) as -> by congruence.
    split; [|apply slice0_length].
    change (JsString.slice0 255 (c :: rest)) with (c :: take 254 rest). done.
Qed.

Lemma createSession_outcomes (env : Env) (request : Request)
    (successUrl cancelUrl : jsstring) (payload : CheckoutPayload) :
  let trace := fst (createSession env request successUrl cancelUrl payload) in
  let outcome := snd (createSession env request successUrl cancelUrl payload) in
  length (sessionsCreated trace) ≤ 1
  ∧ (∀ response,
       outcome = Responded response →
       status response ∈ [200; 500]%Z
       ∧ (status response = 200%Z →
          ∃ params key session c url,
            sessionsCreated trace = [(params, key)]
            ∧ sessionsCreate params key = Some session
            ∧ sessionUrl session = Some (c :: url)
            ∧ responseBody response
              = Some (JObject [(js "url", JString (c :: url));
                               (js "id", JString (sessionId session))])))
  ∧ (∀ message,
       outcome = Threw message →
       ¬ answerable env request
       ∨ (trace = [] ∧ sanitizeMetadata (metadata payload) = None)).
Proof.
  assert (Hthrown : ∀ (outcome : Outcome) body code message,
            outcome = NextResponse.create body code (corsHeaders env request) →
            outcome = Threw message → ¬ answerable env request).
  { intros outcome body code message -> Hthrew. apply (create_Threw env request body code).
    by exists message. }
  cbv zeta. unfold createSession.
  destruct (sanitizeMetadata (metadata payload)) as [sanitized|]; cbn zeta.
  2:{ cbn. split; [lia|]. split; [done|]. intros; by right. }
  match goal with
  | |- context [sessionsCreate ?p ?k] => set (params := p); set (key := k)
  end.
  destruct (getStripeClient env); cbn [negb].
  2:{ cbn [fst snd sessionsCreated omap]. split; [cbn; lia|]. split.
      - intros response ->%create_Responded. cbn. split; [listed|done].
      - intros message Hthrew. left. by eapply Hthrown. }
  destruct (sessionsCreate params key) as [session|] eqn:Hsession; cbn [fst snd].
  2:{ split; [cbn; lia|]. split.
      - intros response ->%create_Responded. cbn. split; [listed|done].
      - intros message Hthrew. left. by eapply Hthrown. }
  split; [cbn; lia|]. split.
  - intros response.
    destruct (sessionUrl session) as [[|c url]|] eqn:Hurl; intros ->%create_Responded;
      cbn [status responseBody]; (split; [listed|]); try done.
    intros _. by exists params, key, session, c, url.
  - intros message Hthrew. left.
    destruct (sessionUrl session) as [[|c url]|]; by eapply Hthrown.
Qed.

(** X13.  The outcomes of the checkout POST.  [sessions.create] is
    called at most once per request.  A response has status 200, 400,
    403 or 500, and status 200 means that the one session that was
    created has a non-empty redirect URL, which the body returns with
    the session id.  The handler leaves with an exception only in two
    cases, and then no session has been created: on a denied request
    that is not answerable, where building the 403 response throws; and
    on a validated payload whose metadata cannot be converted to strings
    (an object with an own [toString] property, or arrays nested deeper
    than the call stack allows). *)
Theorem checkout_POST_outcomes (env : Env) (request : Request) :
  length (sessionsCreated (fst (POST env request))) ≤ 1
  ∧ (∀ response,
       snd (POST env request) = Responded response →
       status response ∈ [200; 400; 403; 500]%Z
       ∧ (status response = 200%Z →
          ∃ params key session c url,
            sessionsCreated (fst (POST env request)) = [(params, key)]
            ∧ sessionsCreate params key = Some session
            ∧ sessionUrl session = Some (c :: url)
            ∧ responseBody response
              = Some (JObject [(js "url", JString (c :: url));
                               (js "id", JString (sessionId session))])))
  ∧ (∀ message,
       snd (POST env request) = Threw message →
       sessionsCreated (fst (POST env request)) = []
       ∧ ((isOriginAllowed env request = false
           ∧ ¬ answerable env request
           ∧ fst (POST env request) = [])
          ∨ ∃ body payload,
              isOriginAllowed env request = true
              ∧ requestJson request = Some body
              ∧ validatePayload body = inr payload
              ∧ sanitizeMetadata (metadata payload) = None
              ∧ message = sanitizeMetadataException (metadata payload))).
Proof.
  destruct (checkout_POST_cases env request)
    as [(trace & message & code & Hpost & Hcode & Hdenied & _ & Hnone)
       |(successUrl & cancelUrl & body & payload & trace & Hallowed & _ & _ & Hjson
         & Hvalid & _ & Hpost & Hcreated & _)];
    rewrite Hpost; cbn [fst snd].
  - rewrite Hnone. split; [cbn; lia|]. split.
    + intros response Hbuilt. apply jsonError_status in Hbuilt. rewrite Hbuilt. split.
      * by apply elem_of_cons; right.
      * intros ->. rewrite !elem_of_cons, elem_of_nil in Hcode. intuition discriminate.
    + intros thrown Hthrew. split; [done|]. left.
      assert (Hno : ¬ answerable env request).
      { apply (create_Threw env request
                 (Some (JObject [(js "error", JString (js message))])) code).
        by exists thrown. }
      assert (Hout : isOriginAllowed env request = false).
      { destruct (isOriginAllowed env request) eqn:Hallowed; [|done].
        by destruct (Hno (allowed_answerable env request Hallowed)). }
      split; [done|]. split; [done|].
      revert Hpost. unfold POST. rewrite Hout. cbn [negb]. by intros [= <- _].
  - destruct (createSession_outcomes env request successUrl cancelUrl payload)
      as (Honce & Hresponded & Hthrew).
    rewrite Hcreated. split; [done|]. split.
    + intros response Hresponse.
      destruct (Hresponded response Hresponse) as [Hstatus Hok]. split; [|done].
      rewrite !elem_of_cons, elem_of_nil in Hstatus. rewrite !elem_of_cons.
      intuition.
    + intros message Hmessage.
      destruct (Hthrew message Hmessage) as [Hno | [Hempty Hnone]];
        [by destruct (Hno (allowed_answerable env request Hallowed))|].
      rewrite Hempty. split; [done|]. right. exists body, payload.
      do 4 (split; [done|]).
      revert Hmessage. unfold createSession. rewrite Hnone. by intros [= <-].
Qed.

Lemma primitive_converts (value : json) :
  primitive value → ∃ text, JsConvert.toString callStackDepth value = inr text.
Proof. destruct value; cbn; try done; by eexists. Qed.

Lemma validatePayload_metadata (input : json) (payload : CheckoutPayload) :
  validatePayload input = inr payload →
  metadata payload
  = match bodyField "metadata" input with
    | Some (JObject entries) => Some entries
    | _ => None
    end.
Proof.
  unfold validatePayload, bodyField.
  repeat case_match; try done; by intros [= <-].
Qed.

(** X14.  The checkout POST always answers an answerable request when
    the metadata holds only strings, numbers, booleans and nulls: for a
    request whose body has no metadata object, or one whose values are all
    primitive, the handler returns a response and does not leave with an
    exception. *)
Theorem checkout_POST_responds (env : Env) (request : Request) :
  answerable env request →
  (∀ body entries,
     requestJson request = Some body →
     bodyField "metadata" body = Some (JObject entries) →
     Forall (fun entry => primitive (snd entry)) entries) →
  ∃ response, snd (POST env request) = Responded response.
Proof.
  intros Hanswerable Hprimitive.
  destruct (snd (POST env request)) as [response|message] eqn:Houtcome;
    [by exists response|exfalso].
  destruct (checkout_POST_cases env request)
    as [(trace & message' & code & Hpost & _)
       |(successUrl & cancelUrl & body & payload & trace & _ & _ & _ & Hjson & Hvalid
         & _ & Hpost & _)];
    rewrite Hpost in Houtcome; cbn [snd] in Houtcome.
  { by rewrite (jsonError_answerable env request _ _ Hanswerable) in Houtcome. }
  destruct (createSession_outcomes env request successUrl cancelUrl payload)
    as (_ & _ & Hthrew).
  destruct (Hthrew message Houtcome) as [Hno | [_ Hnone]]; [done|].
  rewrite (validatePayload_metadata _ _ Hvalid) in Hnone.
  unfold sanitizeMetadata in Hnone.
  destruct (bodyField "metadata" body) as [[| | | | |entries]|] eqn:Hfield; try done.
  specialize (Hprimitive body entries Hjson Hfield).
  destruct (sanitizeEntries_returns entries ∅) as [sanitized Hsanitized].
  { eapply Forall_impl; [exact Hprimitive|]. intros entry. apply primitive_converts. }
  by rewrite Hsanitized in Hnone.
Qed.

End CheckoutSession.

(* ===================================================================== *)
(** * Comma-separated configuration values *)
(* ===================================================================== *)

Section ConfigurationLists.

Import Cors PriceAllowlist.

Context `{Platform}.

Lemma trimStart_app (s : jsstring) : ∃ ws, s = ws ++ JsString.trimStart s.
Proof.
  induction s as [|c s [ws IH]]; [by exists []|]. cbn.
  destruct (JsString.isWhiteSpace c); [|by exists []].
  exists (c :: ws). cbn. by rewrite <- IH.
Qed.

Lemma trimStart_idempotent (s : jsstring) :
  JsString.trimStart (JsString.trimStart s) = JsString.trimStart s.
Proof.
  induction s as [|c s IH]; [done|]. cbn.
  destruct (JsString.isWhiteSpace c) eqn:Hc; [done|]. cbn. by rewrite Hc.
Qed.

Lemma trimStart_snoc (s : jsstring) (c : N) :
  JsString.isWhiteSpace c = false →
  JsString.trimStart (s ++ [c]) = JsString.trimStart s ++ [c].
Proof.
  intros Hc. induction s as [|d s IH]; cbn; [by rewrite Hc|].
  by destruct (JsString.isWhiteSpace d).
Qed.

Lemma trimEnd_app (s : jsstring) : ∃ ws, s = JsString.trimEnd s ++ ws.
Proof.
  unfold JsString.trimEnd. destruct (trimStart_app (rev s)) as [ws Hws].
  exists (rev ws). rewrite <- rev_app_distr, <- Hws. by rewrite rev_involutive.
Qed.

Lemma trimEnd_idempotent (s : jsstring) :
  JsString.trimEnd (JsString.trimEnd s) = JsString.trimEnd s.
Proof. unfold JsString.trimEnd. by rewrite rev_involutive, trimStart_idempotent. Qed.

Lemma trimStart_trimEnd (s : jsstring) :
  JsString.trimStart s = s →
  JsString.trimStart (JsString.trimEnd s) = JsString.trimEnd s.
Proof.
  destruct s as [|c s]; [done|]. cbn [JsString.trimStart].
  destruct (JsString.isWhiteSpace c) eqn:Hc.
  - intros Hshorter. destruct (trimStart_app s) as [ws Hws].
    apply (f_equal length) in Hshorter, Hws.
    rewrite length_app in Hws. cbn in Hshorter. lia.
  - intros _. unfold JsString.trimEnd. cbn [rev].
    rewrite trimStart_snoc, rev_app_distr by done. cbn. by rewrite Hc.
Qed.

Lemma trim_idempotent (s : jsstring) :
  JsString.trim (JsString.trim s) = JsString.trim s.
Proof.
  unfold JsString.trim.
  rewrite (trimStart_trimEnd (JsString.trimStart s)) by apply trimStart_idempotent.
  apply trimEnd_idempotent.
Qed.

Lemma trim_app (s : jsstring) : ∃ before after, s = before ++ JsString.trim s ++ after.
Proof.
  unfold JsString.trim. destruct (trimStart_app s) as [before Hbefore].
  destruct (trimEnd_app (JsString.trimStart s)) as [after Hafter].
  exists before, after. by rewrite <- Hafter.
Qed.

Lemma trim_elem_of (s : jsstring) (c : N) : c ∈ JsString.trim s → c ∈ s.
Proof.
  intros Hin. destruct (trim_app s) as (before & after & Hs). rewrite Hs.
  rewrite !elem_of_app. auto.
Qed.

Lemma split_nonempty (sep : N) (s : jsstring) : JsString.split sep s ≠ [].
Proof.
  induction s as [|c s IH]; cbn; [done|].
  destruct (c =? sep)%N; [done|]. by destruct (JsString.split sep s).
Qed.

Lemma split_pieces (sep : N) (s piece : jsstring) :
  piece ∈ JsString.split sep s → sep ∉ piece.
Proof.
  revert piece. induction s as [|c s IH]; intros piece; cbn.
  - intros ->%list_elem_of_singleton. apply not_elem_of_nil.
  - destruct (N.eqb_spec c sep) as [->|Hc].
    + intros [->|Hin]%elem_of_cons; [apply not_elem_of_nil|by apply IH].
    + destruct (JsString.split sep s) as [|h t] eqn:Hsplit.
      * by destruct (split_nonempty sep s).
      * intros [->|Hin]%elem_of_cons.
        -- rewrite not_elem_of_cons. split; [done|]. apply IH, list_elem_of_here.
        -- apply IH. by apply list_elem_of_further.
Qed.

Lemma join_split (sep : N) (s : jsstring) : join sep (JsString.split sep s) = s.
Proof.
  induction s as [|c s IH]; [done|]. cbn [JsString.split].
  destruct (N.eqb_spec c sep) as [->|Hc].
  - pose proof (split_nonempty sep s) as Hne.
    destruct (JsString.split sep s) as [|h t]; [done|].
    cbn [join app]. cbn [join] in IH. by rewrite IH.
  - pose proof (split_nonempty sep s) as Hne.
    destruct (JsString.split sep s) as [|h t]; [done|].
    cbn [join] in *. destruct t; cbn [app]; by rewrite <- IH.
Qed.

Lemma parseCsv_spec (input entry : jsstring) :
  entry ∈ parseCsv input
  ↔ entry ≠ [] ∧ ∃ piece, piece ∈ JsString.split 44 input ∧ JsString.trim piece = entry.
Proof.
  unfold parseCsv. rewrite list_elem_of_In, filter_In, in_map_iff.
  setoid_rewrite <- list_elem_of_In. rewrite Nat.ltb_lt. split.
  - intros [(piece & <- & Hpiece) Hlength]. split; [|by exists piece].
    intros Hnil. rewrite Hnil in Hlength. cbn in Hlength. lia.
  - intros [Hne (piece & Hpiece & <-)]. split; [by exists piece|].
    destruct (JsString.trim piece); [done|cbn; lia].
Qed.

Lemma parseAllowedOrigins_spec (env : Env) (origin : jsstring) :
  origin ∈ parseAllowedOrigins env ↔ listedIn (ALLOWED_ORIGIN env) origin.
Proof.
  unfold parseAllowedOrigins, listedIn.
  destruct (ALLOWED_ORIGIN env) as [value|].
  2:{ rewrite elem_of_nil. split; [done|]. by intros (_ & ? & ? & ? & _). }
  cbn zeta. destruct (JsString.trim value) as [|c raw] eqn:Htrim; cbn [isEmpty].
  - rewrite elem_of_nil. split; [done|].
    intros (Hne & raw' & piece & Hraw & Hpiece & Hentry).
    injection Hraw as <-. rewrite Htrim in Hpiece. cbn in Hpiece.
    apply list_elem_of_singleton in Hpiece as ->. by cbn in Hentry.
  - rewrite list_elem_of_In, filter_In, in_map_iff.
    setoid_rewrite <- list_elem_of_In. rewrite negb_true_iff, isEmpty_false. split.
    + intros [(piece & <- & Hpiece) Hne]. split; [done|].
      exists value, piece. by rewrite Htrim.
    + intros (Hne & raw' & piece & Hraw & Hpiece & <-). split; [|done].
      injection Hraw as <-. exists piece. by rewrite Htrim in Hpiece.
Qed.

Lemma listedIn_clean (value : option jsstring) (entry : jsstring) :
  listedIn value entry → (44%N ∉ entry) ∧ JsString.trim entry = entry.
Proof.
  intros (_ & raw & piece & _ & Hpiece & <-). split.
  - intros Hin%trim_elem_of. by apply split_pieces in Hpiece.
  - apply trim_idempotent.
Qed.

(** X15.  The two comma-separated settings are read alike.  A price id
    is in the allowed set, and an origin in the configured origins,
    exactly when it is a non-empty trimmed piece of the trimmed setting
    split at commas: empty pieces and white space around pieces are
    ignored.  Every entry is therefore free of commas and of surrounding
    white space, and splitting loses nothing: joining the pieces with
    commas gives the value back. *)
Theorem configuration_lists_entries (env : Env) :
  (∀ id, id ∈ allowedPriceIds (getStripePriceAllowlist env)
         ↔ listedIn (ALLOWED_STRIPE_PRICE_IDS env) id)
  ∧ (∀ origin, origin ∈ parseAllowedOrigins env ↔ listedIn (ALLOWED_ORIGIN env) origin)
  ∧ (∀ value entry,
       listedIn value entry → (44%N ∉ entry) ∧ JsString.trim entry = entry)
  ∧ (∀ s, join 44 (JsString.split 44 s) = s).
Proof.
  split; [|split; [apply parseAllowedOrigins_spec|split;
                   [apply listedIn_clean|apply join_split]]].
  intros id. unfold getStripePriceAllowlist, listedIn. cbn [allowedPriceIds].
  rewrite elem_of_list_to_set, parseCsv_spec.
  destruct (ALLOWED_STRIPE_PRICE_IDS env) as [raw|]; cbn [fmap option_fmap option_map default].
  - split.
    + intros [Hne (piece & Hpiece & Hid)]. split; [done|]. by exists raw, piece.
    + intros [Hne (raw' & piece & Hraw & Hpiece & Hid)]. split; [done|].
      injection Hraw as <-. by exists piece.
  - split.
    + intros [Hne (piece & Hpiece & Hid)]. cbn in Hpiece.
      apply list_elem_of_singleton in Hpiece as ->. by cbn in Hid.
    + by intros (_ & ? & ? & ? & _).
Qed.

End ConfigurationLists.

(* ===================================================================== *)
(** * Custom order: sanitized fields *)
(* ===================================================================== *)

Section CustomOrderFields.

Import Cors BodyReader CustomOrder.

Context `{Platform}.

Lemma removeAngleBrackets_sublist (s : jsstring) : removeAngleBrackets s `sublist_of` s.
Proof.
  induction s as [|c s IH]; [constructor|]. cbn.
  destruct (negb ((c =? 60)%N || (c =? 62)%N)); by constructor.
Qed.

Lemma removeAngleBrackets_none (s : jsstring) : noAngleBrackets (removeAngleBrackets s).
Proof.
  unfold noAngleBrackets, removeAngleBrackets. rewrite !list_elem_of_In, !filter_In.
  split; intros [_ Hc]; by vm_compute in Hc.
Qed.

Lemma removeJavascript_sublist (s : jsstring) :
  ∀ skip, removeJavascript skip s `sublist_of` s.
Proof.
  induction s as [|c s IH]; intros skip; [constructor|]. cbn [removeJavascript].
  destruct skip as [|k]; [|by constructor].
  destruct (JsString.startsWithIgnoreCase (js "javascript:") (c :: s)); by constructor.
Qed.

Lemma removeEventHandlers_sublist (s : jsstring) :
  ∀ skip, removeEventHandlers skip s `sublist_of` s.
Proof.
  induction s as [|c s IH]; intros skip; [constructor|]. cbn [removeEventHandlers].
  destruct skip as [|k]; [|by constructor].
  destruct (eventHandlerMatch (c :: s)); by constructor.
Qed.

Lemma trim_sublist (s : jsstring) : JsString.trim s `sublist_of` s.
Proof.
  destruct (trim_app s) as (before & after & Hs). rewrite Hs at 2.
  by apply sublist_inserts_l, sublist_inserts_r.
Qed.

Lemma sanitizeInput_sublist (input : jsstring) (maxLength : nat) :
  sanitizeInput input maxLength `sublist_of` input.
Proof.
  unfold sanitizeInput, JsString.slice0.
  etrans; [apply sublist_take|]. etrans; [apply trim_sublist|].
  etrans; [apply removeEventHandlers_sublist|].
  etrans; [apply removeJavascript_sublist|]. apply removeAngleBrackets_sublist.
Qed.

Lemma noAngleBrackets_sublist (s t : jsstring) :
  s `sublist_of` t → noAngleBrackets t → noAngleBrackets s.
Proof.
  intros Hsub [Hlt Hgt]. split; intros Hin; [apply Hlt|apply Hgt];
    by eapply elem_of_sublist.
Qed.

Lemma sanitizeInput_noAngleBrackets (input : jsstring) (maxLength : nat) :
  noAngleBrackets (sanitizeInput input maxLength).
Proof.
  unfold sanitizeInput, JsString.slice0.
  eapply noAngleBrackets_sublist; [|apply removeAngleBrackets_none].
  etrans; [apply sublist_take|]. etrans; [apply trim_sublist|].
  etrans; [apply removeEventHandlers_sublist|]. apply removeJavascript_sublist.
Qed.

Lemma take_trimStart (n : nat) (s : jsstring) :
  JsString.trimStart s = s → JsString.trimStart (take n s) = take n s.
Proof.
  destruct s as [|c s], n as [|n]; try done. cbn.
  destruct (JsString.isWhiteSpace c); [|done].
  intros Hshorter. destruct (trimStart_app s) as [ws Hws].
  apply (f_equal length) in Hshorter, Hws.
  rewrite length_app in Hws. cbn in Hshorter. lia.
Qed.

Lemma removeAngleBrackets_app (s t : jsstring) :
  removeAngleBrackets (s ++ t) = removeAngleBrackets s ++ removeAngleBrackets t.
Proof. apply List.filter_app. Qed.

Lemma removeJavascript_nested (t : jsstring) :
  removeJavascript 0 (js "javajavascript:script:" ++ t)
  = js "javascript:" ++ removeJavascript 0 t.
Proof. reflexivity. Qed.

Lemma removeEventHandlers_javascript (t : jsstring) :
  removeEventHandlers 0 (js "javascript:" ++ t)
  = js "javascript:" ++ removeEventHandlers 0 t.
Proof. by destruct t. Qed.

Lemma trimStart_app_r (a b : jsstring) (c : N) :
  JsString.isWhiteSpace c = false →
  ∃ a', JsString.trimStart (a ++ c :: b) = a' ++ c :: b.
Proof.
  intros Hc. induction a as [|d a [a' IH]]; cbn.
  - exists []. by rewrite Hc.
  - destruct (JsString.isWhiteSpace d); [by exists a'|by exists (d :: a)].
Qed.

Lemma trim_javascript (t : jsstring) :
  ∃ rest, JsString.trim (js "javascript:" ++ t) = js "javascript:" ++ rest.
Proof.
  unfold JsString.trim.
  change (JsString.trimStart (js "javascript:" ++ t)) with (js "javascript:" ++ t).
  unfold JsString.trimEnd. rewrite rev_app_distr.
  change (rev (js "javascript:")) with (58%N :: rev (js "javascript")).
  destruct (trimStart_app_r (rev t) (rev (js "javascript")) 58) as [a' Ha']; [done|].
  rewrite Ha'. exists (rev a'). by rewrite rev_app_distr.
Qed.

(** X16.  What [sanitizeInput] guarantees, and what it does not.  The
    result is the input with code units deleted and none added or
    reordered; it is at most [maxLength] code units long, contains no
    angle bracket and starts with no white space.  The patterns are
    removed in a single pass, so a removal can leave a new occurrence
    behind: a [javascript:] nested in another one survives, whatever
    follows it. *)
Theorem sanitizeInput_output (input : jsstring) (maxLength : nat) :
  sanitizeInput input maxLength `sublist_of` input
  ∧ length (sanitizeInput input maxLength) ≤ maxLength
  ∧ noAngleBrackets (sanitizeInput input maxLength)
  ∧ JsString.trimStart (sanitizeInput input maxLength) = sanitizeInput input maxLength
  ∧ (11 ≤ maxLength →
     JsString.startsWith (js "javascript:")
       (sanitizeInput (js "javajavascript:script:" ++ input) maxLength)
     = true).
Proof.
  split; [apply sanitizeInput_sublist|]. split; [apply slice0_length|].
  split; [apply sanitizeInput_noAngleBrackets|]. split.
  - unfold sanitizeInput, JsString.slice0. apply take_trimStart.
    unfold JsString.trim. apply trimStart_trimEnd, trimStart_idempotent.
  - intros Hlong. unfold sanitizeInput.
    rewrite removeAngleBrackets_app.
    change (removeAngleBrackets (js "javajavascript:script:"))
      with (js "javajavascript:script:").
    rewrite removeJavascript_nested, removeEventHandlers_javascript.
    destruct (trim_javascript
                (removeEventHandlers 0 (removeJavascript 0 (removeAngleBrackets input))))
      as [rest ->].
    apply startsWith_app. unfold JsString.slice0.
    exists (take (maxLength - 11) rest).
    rewrite take_app. f_equal.
    apply take_ge. cbn. lia.
Qed.

Lemma sanitizeColors_colors (rawColors : list json) :
  ∀ sanitizedColors,
    sanitizeColors rawColors = inr sanitizedColors →
    length sanitizedColors = length rawColors
    ∧ Forall (fun color => color ≠ []
                           ∧ length color ≤ MAX_COLOR_LENGTH
                           ∧ noAngleBrackets color) sanitizedColors.
Proof.
  induction rawColors as [|[| | |color| |] rest IH]; intros sanitizedColors;
    cbn [sanitizeColors]; try done.
  - intros [= <-]. split; [done|constructor].
  - destruct (isEmpty (sanitizeInput color MAX_COLOR_LENGTH)) eqn:Hempty; [done|].
    destruct (sanitizeColors rest) as [|sanitizedRest]; [done|].
    intros [= <-]. destruct (IH _ eq_refl) as [Hlength Hcolors]. split.
    + cbn. by rewrite Hlength.
    + constructor; [|done]. split; [by apply isEmpty_false|].
      split; [apply slice0_length|apply sanitizeInput_noAngleBrackets].
Qed.

(** X17.  The bounds of an accepted custom order.  Every text field of
    the payload is free of angle brackets; the name and the product type
    have at most 100 code units, the email at most 254, the orientation
    and the stitch type at most 100; there are between 1 and 10 colors,
    each non-empty and of at most 64 code units; a captcha token, when
    present, is non-empty and has at most 2048 code units. *)
Theorem custom_order_payload_bounds (input : json) (payload : CustomOrderData)
    (captchaToken : option jsstring) :
  validatePayload input = inr (payload, captchaToken) →
  Forall noAngleBrackets (textFields payload)
  ∧ length (name payload) ≤ 100
  ∧ length (email payload) ≤ 254
  ∧ length (productType payload) ≤ 100
  ∧ length (orientation payload) ≤ 100
  ∧ length (stitchType payload) ≤ 100
  ∧ 1 ≤ length (colors payload) ≤ 10
  ∧ Forall (fun color => color ≠ [] ∧ length color ≤ 64) (colors payload)
  ∧ (∀ token, captchaToken = Some token → token ≠ [] ∧ length token ≤ 2048).
Proof.
  unfold validatePayload.
  destruct (Js.asRecord input) as [body|]; [|done].
  destruct (Js.get (js "name") body) as [[| | |rawName| |]|]; try done.
  destruct (Js.get (js "email") body) as [[| | |rawEmail| |]|]; try done.
  destruct (Js.get (js "productType") body) as [[| | |rawProductType| |]|]; try done.
  cbn zeta.
  destruct (isEmpty _ || isEmpty _ || isEmpty _); [done|].
  destruct (negb _); [done|].
  destruct (_ || _ || _ || _); [done|].
  destruct (Js.get (js "colors") body) as [[| | | |rawColors|]|]; try done.
  destruct ((length rawColors =? 0) || (MAX_COLORS <? length rawColors)) eqn:Hcount;
    [done|].
  destruct (sanitizeColors rawColors) as [|sanitizedColors] eqn:Hcolors; [done|].
  destruct (sanitizeColors_colors _ _ Hcolors) as [Hlength Hsanitized].
  apply orb_false_iff in Hcount as [Hnonempty%Nat.eqb_neq Hfew%Nat.ltb_ge].
  unfold MAX_COLORS in Hfew.
  assert (Htoken : ∀ result,
            match Js.get (js "captchaToken") body with
            | None | Some JNull => inr None
            | Some (JString rawCaptchaToken) =>
                if isEmpty (JsString.trim rawCaptchaToken)
                   || (MAX_CAPTCHA_TOKEN_LENGTH <? length (JsString.trim rawCaptchaToken))
                then inl "Invalid captcha token."%string
                else inr (Some (JsString.trim rawCaptchaToken))
            | Some _ => inl "Invalid captcha token."%string
            end = inr result →
            ∀ token, result = Some token → token ≠ [] ∧ length token ≤ 2048).
  { intros result.
    destruct (Js.get (js "captchaToken") body) as [[| | |rawToken| |]|]; try done;
      try (by intros [= <-]).
    destruct (isEmpty (JsString.trim rawToken)
              || (MAX_CAPTCHA_TOKEN_LENGTH <? length (JsString.trim rawToken)))
      eqn:Hbad; [done|].
    intros [= <-] token [= <-].
    apply orb_false_iff in Hbad as [Hne%isEmpty_false Hshort%Nat.ltb_ge]. done. }
  destruct (Js.get (js "designImage") body) as [image|];
    [destruct (parseDesignImage (Some image)); [|done]|];
    (destruct (match Js.get (js "captchaToken") body with
               | None | Some JNull => _ | Some _ => _ end)
       as [|result] eqn:Hresult; [done|]);
    intros [= <- <-];
    cbn [name email productType orientation stitchType colors textFields];
    (split; [|split_and!; try apply slice0_length; try lia;
              [eapply Forall_impl; [exact Hsanitized|]; by intros ? (? & ? & ?)
              |by apply Htoken]]);
    (repeat (apply Forall_cons; split; [apply sanitizeInput_noAngleBrackets|]));
    (eapply Forall_impl; [exact Hsanitized|]; by intros ? (? & ? & ?)).
Qed.

End CustomOrderFields.

Section CustomOrderEmail.

Import Cors BodyReader CustomOrder.

Lemma splitAt_spec (sep : N) (s before after : jsstring) :
  splitAt sep s = Some (before, after)
  ↔ s = before ++ sep :: after ∧ sep ∉ before.
Proof.
  revert before. induction s as [|c s IH]; intros before; cbn.
  - split; [done|]. intros [Hs _]. by destruct before.
  - destruct (N.eqb_spec c sep) as [->|Hc].
    + split.
      * intros [= <- <-]. split; [done|apply not_elem_of_nil].
      * intros [Hs Hout]. destruct before as [|b before].
        -- by injection Hs as ->.
        -- injection Hs as <- _. by destruct Hout; left.
    + destruct (splitAt sep s) as [[b a]|].
      * split.
        -- intros [= <- <-]. destruct (proj1 (IH b) eq_refl) as [-> Hout].
           split; [done|]. rewrite not_elem_of_cons. split; [congruence|done].
        -- intros [Hs Hout]. destruct before as [|b' before].
           { by injection Hs as ->. }
           injection Hs as <- Hs. apply not_elem_of_cons in Hout as [_ Hout].
           pose proof (proj2 (IH before) (conj Hs Hout)) as Heq.
           by injection Heq as <- <-.
      * split; [done|]. intros [Hs Hout]. destruct before as [|b' before].
        { by injection Hs as ->. }
        injection Hs as <- Hs. apply not_elem_of_cons in Hout as [_ Hout].
        by pose proof (proj2 (IH before) (conj Hs Hout)).
Qed.

Lemma notSpaceOrAt_at : notSpaceOrAt 64 = false.
Proof. reflexivity. Qed.

Lemma existsb_dot (s : jsstring) :
  existsb (N.eqb 46) s = true ↔ ∃ x y, s = x ++ 46%N :: y.
Proof.
  rewrite existsb_exists. split.
  - intros (c & Hin & Hc). apply N.eqb_eq in Hc as <-.
    apply list_elem_of_In, list_elem_of_split in Hin as (x & y & ->). by exists x, y.
  - intros (x & y & ->). exists 46%N. split; [|done].
    apply list_elem_of_In. rewrite elem_of_app, elem_of_cons. auto.
Qed.

(** X18.  The addresses that [EMAIL_REGEX] accepts are exactly those of
    the shape [local@x.y] with [local], [x] and [y] non-empty and free of
    white space and of [@]; in particular an accepted address has a
    single [@] and at least five code units. *)
Theorem EMAIL_REGEX_test_shape (s : jsstring) :
  (EMAIL_REGEX_test s = true ↔ emailShape s)
  ∧ (EMAIL_REGEX_test s = true →
     5 ≤ length s ∧ length (List.filter (N.eqb 64) s) = 1).
Proof.
  assert (Hshape : EMAIL_REGEX_test s = true ↔ emailShape s).
  { unfold EMAIL_REGEX_test, emailShape. split.
    - destruct (splitAt 64 s) as [[[|c local] domain]|] eqn:Hsplit; try done.
      apply splitAt_spec in Hsplit as [-> Hout].
      rewrite !andb_true_iff, !forallb_true_Forall.
      intros [[Hlocal Hdomain] Hdot].
      destruct domain as [|d inner]; [done|].
      apply existsb_dot in Hdot as (x & y & Hinner).
      assert (Hne : inner ≠ []) by (intros ->; by destruct x).
      destruct (exists_last Hne) as (front & final & ->).
      rewrite removelast_last in Hinner. subst front.
      exists (c :: local), (d :: x), (y ++ [final]).
      split; [by rewrite <- !app_assoc|].
      split; [done|]. split; [done|]. split; [by destruct y|].
      apply Forall_app. split; [done|].
      replace (d :: (x ++ 46%N :: y) ++ [final])
        with ((d :: x) ++ 46%N :: (y ++ [final])) in Hdomain
        by (by rewrite <- !app_assoc).
      apply Forall_app in Hdomain as [Hx Hy]. apply Forall_cons in Hy as [_ Hy].
      by apply Forall_app.
    - intros (local & x & y & -> & Hlocal & Hx & Hy & Hall).
      apply Forall_app in Hall as [Hl Hxy]. apply Forall_app in Hxy as [Hxs Hys].
      assert (Hsplit : splitAt 64 (local ++ 64%N :: x ++ 46%N :: y)
                       = Some (local, x ++ 46%N :: y)).
      { apply splitAt_spec. split; [done|]. intros Hin.
        rewrite Forall_forall in Hl. specialize (Hl _ Hin).
        by rewrite notSpaceOrAt_at in Hl. }
      rewrite Hsplit. destruct local as [|c local]; [done|].
      rewrite !andb_true_iff, !forallb_true_Forall.
      split; [split; [done|]|].
      + apply Forall_app. split; [done|]. by constructor.
      + destruct x as [|d x]; [done|]. cbn [app].
        destruct (exists_last Hy) as (front & final & ->).
        replace (x ++ 46%N :: front ++ [final])
          with ((x ++ 46%N :: front) ++ [final])
          by (by rewrite <- !app_assoc).
        rewrite removelast_last. apply existsb_dot. by exists x, front. }
  split; [done|]. intros (local & x & y & -> & Hlocal & Hx & Hy & Hall)%Hshape.
  split.
  - rewrite length_app. cbn [length]. rewrite length_app. cbn [length].
    destruct local, x, y; cbn [length]; try done; lia.
  - assert (Hnone : ∀ l : jsstring,
              Forall (fun c => notSpaceOrAt c = true) l →
              List.filter (N.eqb 64) l = []).
    { induction l as [|c l IH]; [done|]. intros [Hc Hl]%Forall_cons.
      cbn [List.filter].
      destruct (N.eqb_spec 64 c) as [<-|_]; [by rewrite notSpaceOrAt_at in Hc|auto]. }
    apply Forall_app in Hall as [Hl Hxy]. apply Forall_app in Hxy as [Hxs Hys].
    rewrite List.filter_app. cbn [List.filter N.eqb Pos.eqb].
    rewrite List.filter_app. cbn [List.filter].
    change (N.eqb 64 46) with false. cbn iota.
    by rewrite !Hnone.
Qed.

End CustomOrderEmail.

Section CustomOrderClientIp.

Import Cors BodyReader CustomOrder.

Lemma nonEmptyTrimmed_Some (value : option jsstring) (text : jsstring) :
  nonEmptyTrimmed value = Some text →
  text ≠ [] ∧ ∃ raw, value = Some raw ∧ text = JsString.trim raw.
Proof.
  unfold nonEmptyTrimmed. destruct value as [raw|]; [|done]. cbn.
  destruct (JsString.trim raw) as [|c rest] eqn:Htrim; [done|].
  intros [= <-]. split; [done|]. by exists raw.
Qed.

Lemma slice0_nonempty (n : nat) (s : jsstring) :
  s ≠ [] → JsString.slice0 (S n) s ≠ [].
Proof. by destruct s. Qed.

(** X19.  The rate limiter's key.  [getClientIp] is never empty and has
    at most 100 code units.  It is the first comma-separated entry of
    [x-forwarded-for], trimmed and cut, whenever that is not blank;
    otherwise the trimmed and cut [x-real-ip]; and ["unknown"] when
    neither header gives an address. *)
Theorem getClientIp_value (request : Request) :
  getClientIp request ≠ []
  ∧ length (getClientIp request) ≤ 100
  ∧ (∀ forwarded hop,
       headers_get request "x-forwarded-for" = Some forwarded →
       head (JsString.split 44 forwarded) = Some hop →
       JsString.trim hop ≠ [] →
       getClientIp request = JsString.slice0 100 (JsString.trim hop))
  ∧ ((headers_get request "x-forwarded-for" = None
      ∨ ∃ forwarded hop,
          headers_get request "x-forwarded-for" = Some forwarded
          ∧ head (JsString.split 44 forwarded) = Some hop
          ∧ JsString.trim hop = []) →
     getClientIp request
     = match headers_get request "x-real-ip" with
       | Some realIp =>
           match JsString.trim realIp with
           | [] => js "unknown"
           | c :: rest => JsString.slice0 100 (c :: rest)
           end
       | None => js "unknown"
       end).
Proof.
  unfold getClientIp.
  set (fromRealIp :=
         match nonEmptyTrimmed (headers_get request "x-real-ip") with
         | Some realIp => JsString.slice0 100 realIp
         | None => js "unknown"
         end).
  assert (HfromRealIp :
    fromRealIp
    = match headers_get request "x-real-ip" with
      | Some realIp =>
          match JsString.trim realIp with
          | [] => js "unknown"
          | c :: rest => JsString.slice0 100 (c :: rest)
          end
      | None => js "unknown"
      end).
  { subst fromRealIp. unfold nonEmptyTrimmed.
    destruct (headers_get request "x-real-ip") as [realIp|]; [|done]. cbn.
    by destruct (JsString.trim realIp). }
  assert (Hreal : fromRealIp ≠ [] ∧ length fromRealIp ≤ 100).
  { subst fromRealIp.
    destruct (nonEmptyTrimmed (headers_get request "x-real-ip")) as [realIp|] eqn:Hip.
    - apply nonEmptyTrimmed_Some in Hip as [Hne _].
      split; [by apply slice0_nonempty|apply slice0_length].
    - split; [done|cbn; lia]. }
  clearbody fromRealIp.
  destruct (headers_get request "x-forwarded-for") as [[|c forwarded]|].
  - split; [tauto|]. split; [tauto|]. split; [|done].
    intros ? hop' [= <-] Hhead Hne. cbn in Hhead. by injection Hhead as <-.
  - pose proof (split_nonempty 44 (c :: forwarded)) as Hpieces.
    destruct (JsString.split 44 (c :: forwarded)) as [|hop pieces] eqn:Hsplit;
      [done|].
    cbn [head fmap option_fmap option_map].
    destruct (JsString.trim hop) as [|h firstHop] eqn:Hhop.
    + split; [tauto|]. split; [tauto|]. split; [|done].
      intros ? hop' [= <-] Hhead Hne. rewrite Hsplit in Hhead.
      injection Hhead as <-. by rewrite Hhop in Hne.
    + split; [by apply slice0_nonempty|]. split; [apply slice0_length|]. split.
      * intros ? hop' [= <-] Hhead _. rewrite Hsplit in Hhead.
        injection Hhead as <-. by rewrite Hhop.
      * intros [|(? & hop' & Hforwarded & Hhead & Hblank)]; [done|].
        injection Hforwarded as <-. rewrite Hsplit in Hhead.
        injection Hhead as <-. by rewrite Hhop in Hblank.
  - split; [tauto|]. split; [tauto|]. split; [done|]. done.
Qed.

End CustomOrderClientIp.

(* ===================================================================== *)
(** * Custom order: quota and outcomes *)
(* ===================================================================== *)

Section CustomOrderOutcomes.

Import Cors BodyReader CustomOrder.

Context `{Platform}.

Lemma readLoop_effects (maxBytes : N) (stream : BodyStream) :
  ∀ chunks totalBytes,
    forallb isReadEffect (fst (readLoop maxBytes stream chunks totalBytes)) = true.
Proof.
  induction stream as [| |[value|] rest IH]; intros chunks totalBytes;
    cbn [readLoop]; [done|done| |].
  - destruct (maxBytes <? totalBytes + byteLength value)%N; [done|].
    specialize (IH (chunks ++ [value]) (totalBytes + byteLength value)%N).
    by destruct (readLoop maxBytes rest (chunks ++ [value])
                   (totalBytes + byteLength value)).
  - specialize (IH chunks totalBytes).
    by destruct (readLoop maxBytes rest chunks totalBytes).
Qed.

Lemma read_effects (request : Request) (maxBytes : N) :
  forallb isReadEffect (fst (readRequestBodyWithLimit request maxBytes)) = true.
Proof.
  unfold readRequestBodyWithLimit.
  destruct (body request); [apply readLoop_effects|done].
Qed.

Lemma readEffects_silent (trace : list Effect) :
  forallb isReadEffect trace = true →
  emailsSent trace = [] ∧ captchaChecks trace = [].
Proof.
  induction trace as [|e trace IH]; [done|]. cbn [forallb].
  intros [He Htrace]%andb_true_iff. destruct (IH Htrace) as [Hemails Hchecks].
  destruct e; try done; (split; [exact Hemails|exact Hchecks]).
Qed.

Lemma emailsSent_app (a b : list Effect) :
  emailsSent (a ++ b) = emailsSent a ++ emailsSent b.
Proof. apply omap_app. Qed.

Lemma captchaChecks_app (a b : list Effect) :
  captchaChecks (a ++ b) = captchaChecks a ++ captchaChecks b.
Proof. apply omap_app. Qed.

Lemma captchaChecks_app_silent (a b : list Effect) :
  captchaChecks b = [] → captchaChecks (a ++ b) = captchaChecks a.
Proof. intros Hb. by rewrite captchaChecks_app, Hb, app_nil_r. Qed.

(** What the email delivery does after the effects [before]: it ends
    in an error response without an email, in the 200 response after an
    email whose [send] call resolved, or in the exception of an email
    whose [send] call rejected. *)
Lemma sendOrder_outcomes (env : Env) (request : Request)
    (sanitizedData : CustomOrderData) (before : list Effect) :
  emailsSent before = [] →
  let trace := fst (sendOrder env request sanitizedData before) in
  let outcome := snd (sendOrder env request sanitizedData before) in
  captchaChecks trace = captchaChecks before
  ∧ (∀ to subject,
       (to, subject) ∈ emailsSent trace →
       nonEmptyTrimmed (ORDER_EMAIL env) = Some to
       ∧ subject = js "New Custom Order - " ++ productType sanitizedData)
  ∧ ((∃ message,
        outcome = errorResponse env request 500 message ∧ emailsSent trace = [])
     ∨ (outcome
        = jsonResponse env request 200
            [(js "success", JBool true);
             (js "message",
              JString (js "Order received! We'll contact you within 24 hours."))]
        ∧ ∃ to subject resendApiKey,
            emailsSent trace = [(to, subject)]
            ∧ nonEmptyTrimmed (RESEND_API_KEY env) = Some resendApiKey
            ∧ emailsSend resendApiKey to subject = true)
     ∨ ((∃ message, outcome = Threw message)
        ∧ ∃ to subject resendApiKey,
            emailsSent trace = [(to, subject)]
            ∧ nonEmptyTrimmed (RESEND_API_KEY env) = Some resendApiKey
            ∧ emailsSend resendApiKey to subject = false)).
Proof.
  intros Hbefore. unfold sendOrder.
  destruct (nonEmptyTrimmed (ORDER_EMAIL env)) as [orderEmail|]; cbn [fst snd].
  2:{ rewrite Hbefore. split; [done|]. split; [by intros ? ? ?%elem_of_nil|].
      left. by eexists. }
  destruct (nonEmptyTrimmed (RESEND_API_KEY env)) as [resendApiKey|]; cbn [fst snd].
  2:{ rewrite emailsSent_app, Hbefore. split; [by apply captchaChecks_app_silent|].
      split; [by intros ? ? ?%elem_of_nil|]. left. by eexists. }
  destruct (emailsSend resendApiKey orderEmail _) eqn:Hsent; cbn [fst snd];
    rewrite emailsSent_app, Hbefore;
    (split; [by apply captchaChecks_app_silent|]);
    (split; [by intros ? ? [= -> ->]%list_elem_of_singleton|]).
  - right. left. split; [done|]. by eexists _, _, resendApiKey.
  - right. right. split; [by eexists|]. by eexists _, _, resendApiKey.
Qed.

(** What [deliver] does with a validated order. *)
Lemma deliver_outcomes (env : Env) (request : Request) (ip : jsstring)
    (sanitizedData : CustomOrderData) (captchaToken : option jsstring) :
  let trace := fst (deliver env request ip sanitizedData captchaToken) in
  let outcome := snd (deliver env request ip sanitizedData captchaToken) in
  (∀ to subject,
     (to, subject) ∈ emailsSent trace →
     nonEmptyTrimmed (ORDER_EMAIL env) = Some to
     ∧ subject = js "New Custom Order - " ++ productType sanitizedData
     ∧ ∀ secret,
         getTurnstileSecret env = Some secret →
         ∃ token errorCodes,
           captchaToken = Some token
           ∧ captchaChecks trace = [token]
           ∧ verifyTurnstileToken token secret ip = Some (true, errorCodes))
  ∧ ((∃ code message,
        outcome = errorResponse env request code message
        ∧ code ∈ [400; 403; 500]%Z
        ∧ emailsSent trace = [])
     ∨ (outcome
        = jsonResponse env request 200
            [(js "success", JBool true);
             (js "message",
              JString (js "Order received! We'll contact you within 24 hours."))]
        ∧ ∃ to subject resendApiKey,
            emailsSent trace = [(to, subject)]
            ∧ nonEmptyTrimmed (RESEND_API_KEY env) = Some resendApiKey
            ∧ emailsSend resendApiKey to subject = true)
     ∨ ((∃ message, outcome = Threw message)
        ∧ (emailsSent trace = []
           ∨ ∃ to subject resendApiKey,
               emailsSent trace = [(to, subject)]
               ∧ nonEmptyTrimmed (RESEND_API_KEY env) = Some resendApiKey
               ∧ emailsSend resendApiKey to subject = false))).
Proof.
  change (deliver env request ip sanitizedData captchaToken)
    with (match getTurnstileSecret env with
          | None => sendOrder env request sanitizedData []
          | Some turnstileSecret =>
              match captchaToken with
              | None =>
                  ([], errorResponse env request 400 "Captcha verification is required.")
              | Some token =>
                  match verifyTurnstileToken token turnstileSecret ip with
                  | None => ([EVerifyTurnstile token], Threw Js.propertyOfNothing)
                  | Some (verified, errorCodes) =>
                      if verified
                      then sendOrder env request sanitizedData [EVerifyTurnstile token]
                      else
                        ([EVerifyTurnstile token;
                          ELog LogWarn "custom_order_captcha_failed" errorCodes],
                         errorResponse env request 403 "Captcha verification failed.")
                  end
              end
          end).
  assert (Hsend : ∀ before,
    emailsSent before = [] →
    let trace := fst (sendOrder env request sanitizedData before) in
    let outcome := snd (sendOrder env request sanitizedData before) in
    (∃ code message,
        outcome = errorResponse env request code message
        ∧ code ∈ [400; 403; 500]%Z
        ∧ emailsSent trace = [])
     ∨ (outcome
        = jsonResponse env request 200
            [(js "success", JBool true);
             (js "message",
              JString (js "Order received! We'll contact you within 24 hours."))]
        ∧ ∃ to subject resendApiKey,
            emailsSent trace = [(to, subject)]
            ∧ nonEmptyTrimmed (RESEND_API_KEY env) = Some resendApiKey
            ∧ emailsSend resendApiKey to subject = true)
     ∨ ((∃ message, outcome = Threw message)
        ∧ (emailsSent trace = []
           ∨ ∃ to subject resendApiKey,
               emailsSent trace = [(to, subject)]
               ∧ nonEmptyTrimmed (RESEND_API_KEY env) = Some resendApiKey
               ∧ emailsSend resendApiKey to subject = false))).
  { intros before Hbefore.
    destruct (sendOrder_outcomes env request sanitizedData before Hbefore)
      as (_ & _ & [(message & Hout & Hnone)|[Hsent|[Hthrew Hrejected]]]).
    - left. exists 500%Z, message. split; [done|]. split; [listed|done].
    - right. by left.
    - right. right. split; [done|]. by right. }
  destruct (getTurnstileSecret env) as [turnstileSecret|].
  - destruct captchaToken as [token|].
    + destruct (verifyTurnstileToken token turnstileSecret ip)
        as [[[|] errorCodes]|] eqn:Hverify.
      * destruct (sendOrder_outcomes env request sanitizedData
                    [EVerifyTurnstile token] eq_refl) as (Hchecks & Hemail & _).
        split; [|by apply Hsend]. intros to subject Hin.
        destruct (Hemail to subject Hin) as [Hto Hsubject].
        split; [done|]. split; [done|]. intros secret [= <-].
        by exists token, errorCodes.
      * cbn [fst snd]. split; [by intros ? ? ?%elem_of_nil|]. left.
        eexists 403%Z, _. split; [done|]. split; [listed|done].
      * cbn [fst snd]. split; [by intros ? ? ?%elem_of_nil|]. right. right.
        split; [by eexists|by left].
    + cbn [fst snd]. split; [by intros ? ? ?%elem_of_nil|]. left.
      eexists 400%Z, _. split; [done|]. split; [listed|done].
  - destruct (sendOrder_outcomes env request sanitizedData [] eq_refl)
      as (Hchecks & Hemail & _).
    split; [|by apply Hsend]. intros to subject Hin.
    destruct (Hemail to subject Hin) as [Hto Hsubject].
    split; [done|]. split; [done|]. done.
Qed.

(** The [catch] block sends no email and verifies no captcha. *)
Lemma catchBlock_trace (env : Env) (request : Request)
    (tried : list Effect * Outcome) :
  emailsSent (fst (catchBlock env request tried)) = emailsSent (fst tried)
  ∧ captchaChecks (fst (catchBlock env request tried)) = captchaChecks (fst tried).
Proof.
  unfold catchBlock. destruct (snd tried); cbn [fst]; [done|].
  by rewrite emailsSent_app, captchaChecks_app, !app_nil_r.
Qed.

(** A response built inside the [try] block is the handler's answer. *)
Lemma catchBlock_built (env : Env) (request : Request)
    (tried : list Effect * Outcome) (code : Z) (fields : list (jsstring * json)) :
  snd tried = jsonResponse env request code fields →
  answers env request (snd (catchBlock env request tried))
    (jsonAnswer env request code (JObject fields)).
Proof.
  intros Htried. unfold catchBlock. rewrite Htried.
  destruct (jsonResponse_answers env request code fields) as [Hyes Hno].
  split; intros Hanswerable.
  - by rewrite (Hyes Hanswerable).
  - rewrite (Hno Hanswerable). cbn [headerException snd].
    by apply (proj2 (errorResponse_answers env request 500 _)).
Qed.

(** An exception raised inside the [try] block is answered 500. *)
Lemma catchBlock_threw (env : Env) (request : Request)
    (tried : list Effect * Outcome) (message : string) :
  snd tried = Threw message →
  snd (catchBlock env request tried)
  = errorResponse env request 500 "Failed to process order. Please try again.".
Proof. intros Htried. unfold catchBlock. by rewrite Htried. Qed.

(** The ways through the [try] block. *)
Lemma tryBlock_cases (env : Env) (request : Request) (ip : jsstring) :
  (∃ code message,
     tryBlock env request ip
     = (fst (readRequestBodyWithLimit request MAX_REQUEST_BYTES),
        errorResponse env request code message)
     ∧ code ∈ [400; 413]%Z)
  ∨ (∃ parsedBody sanitizedData captchaToken,
       validatePayload parsedBody = inr (sanitizedData, captchaToken)
       ∧ tryBlock env request ip
         = (fst (readRequestBodyWithLimit request MAX_REQUEST_BYTES)
            ++ fst (deliver env request ip sanitizedData captchaToken),
            snd (deliver env request ip sanitizedData captchaToken))).
Proof.
  unfold tryBlock.
  destruct (readRequestBodyWithLimit request MAX_REQUEST_BYTES)
    as [readEffects [text|[]]]; cbn [fst snd].
  - destruct (jsonParse text) as [parsedBody|].
    2:{ left. eexists 400%Z, _. split; [done|listed]. }
    destruct (validatePayload parsedBody) as [error|[sanitizedData captchaToken]]
      eqn:Hvalid.
    { left. eexists 400%Z, _. split; [done|listed]. }
    destruct (deliver env request ip sanitizedData captchaToken)
      as [effects outcome] eqn:Hdeliver.
    right. exists parsedBody, sanitizedData, captchaToken. split; [done|].
    by rewrite Hdeliver.
  - left. eexists 413%Z, _. split; [done|listed].
  - left. eexists 400%Z, _. split; [done|listed].
Qed.

(** The ways through [POST]. *)
Lemma custom_order_POST_cases (env : Env) (now : Z)
    (rateLimitMap : gmap jsstring RateLimit.RateLimitEntry) (request : Request) :
  let limited := RateLimit.rateLimit now (quotaKey request) quotaConfig rateLimitMap in
  snd (POST env now rateLimitMap request) = snd limited
  ∧ (RateLimit.allowed (fst limited) = false →
     fst (POST env now rateLimitMap request)
     = ([], jsonResponse env request 429
              [(js "error", JString (js "Too many requests. Please try again later."));
               (js "resetAt",
                JString (toISOString (RateLimit.result_resetAt (fst limited))))]))
  ∧ (RateLimit.allowed (fst limited) = true →
     (∃ code message,
        fst (POST env now rateLimitMap request)
        = ([], errorResponse env request code message)
        ∧ code ∈ [400; 413; 415]%Z)
     ∨ fst (POST env now rateLimitMap request)
       = catchBlock env request (tryBlock env request (getClientIp request))).
Proof.
  unfold POST, quotaKey, quotaConfig. cbn zeta.
  destruct (RateLimit.rateLimit now (js "custom-order:" ++ getClientIp request)
              {| RateLimit.requests := 5; RateLimit.window := 60000 |} rateLimitMap)
    as [rateLimitResult rateLimitMap'].
  cbn [fst snd].
  destruct (RateLimit.allowed rateLimitResult); cbn [negb].
  2:{ split; [done|]. split; [done|]. done. }
  destruct (negb (JsString.startsWith (js "application/json")
                    (default [] (toLowerCase <$> headers_get request "content-type")))).
  { split; [done|]. split; [done|]. intros _. left. eexists 415%Z, _.
    split; [done|listed]. }
  destruct (invalid (parseContentLength (headers_get request "content-length"))).
  { split; [done|]. split; [done|]. intros _. left. eexists 400%Z, _.
    split; [done|listed]. }
  destruct (match bytes (parseContentLength (headers_get request "content-length")) with
            | Some declared => (MAX_REQUEST_BYTES <? declared)%N
            | None => false
            end).
  { split; [done|]. split; [done|]. intros _. left. eexists 413%Z, _.
    split; [done|listed]. }
  unfold catchBlock.
  destruct (tryBlock env request (getClientIp request)) as [effects [response|message]];
    cbn [fst snd]; (split; [done|]); (split; [done|]); intros _; by right.
Qed.

(** What [POST] does once the limiter lets the request pass: the
    handler builds one response, with one of the other statuses, and 200
    exactly for an email whose [send] call resolved. *)
Lemma custom_order_POST_allowed (env : Env) (now : Z)
    (rateLimitMap : gmap jsstring RateLimit.RateLimitEntry) (request : Request) :
  RateLimit.allowed
    (fst (RateLimit.rateLimit now (quotaKey request) quotaConfig rateLimitMap)) = true →
  let trace := fst (fst (POST env now rateLimitMap request)) in
  let outcome := snd (fst (POST env now rateLimitMap request)) in
  ∃ code body,
    answers env request outcome (jsonAnswer env request code body)
    ∧ code ∈ [200; 400; 403; 413; 415; 500]%Z
    ∧ length (emailsSent trace) ≤ 1
    ∧ (code = 200%Z
       ↔ ∃ to subject resendApiKey,
           emailsSent trace = [(to, subject)]
           ∧ nonEmptyTrimmed (RESEND_API_KEY env) = Some resendApiKey
           ∧ emailsSend resendApiKey to subject = true)
    ∧ (∀ to subject,
         (to, subject) ∈ emailsSent trace →
         nonEmptyTrimmed (ORDER_EMAIL env) = Some to
         ∧ (∃ parsedBody sanitizedData captchaToken,
              validatePayload parsedBody = inr (sanitizedData, captchaToken)
              ∧ subject = js "New Custom Order - " ++ productType sanitizedData
              ∧ ∀ secret,
                  getTurnstileSecret env = Some secret →
                  ∃ token errorCodes,
                    captchaToken = Some token
                    ∧ captchaChecks trace = [token]
                    ∧ verifyTurnstileToken token secret (getClientIp request)
                      = Some (true, errorCodes))).
Proof.
  intros Hallowed trace outcome. subst trace outcome.
  destruct (custom_order_POST_cases env now rateLimitMap request)
    as (_ & _ & Hcases).
  assert (Hnone : ∀ code : Z,
            code ≠ 200%Z →
            code = 200%Z
            ↔ ∃ to subject resendApiKey,
                @nil (jsstring * jsstring) = [(to, subject)]
                ∧ nonEmptyTrimmed (RESEND_API_KEY env) = Some resendApiKey
                ∧ emailsSend resendApiKey to subject = true).
  { intros code Hcode. split; [done|by intros (? & ? & ? & ? & _)]. }
  destruct (Hcases Hallowed) as [(code & message & -> & Hcode)| ->]; cbn [fst snd].
  { eexists code, _. split; [apply errorResponse_answers|].
    rewrite !elem_of_cons, elem_of_nil in Hcode.
    split; [rewrite !elem_of_cons; intuition|]. split; [cbn; lia|].
    split; [apply Hnone; intuition congruence|]. by intros ? ? ?%elem_of_nil. }
  destruct (catchBlock_trace env request (tryBlock env request (getClientIp request)))
    as [-> ->].
  destruct (readEffects_silent _ (read_effects request MAX_REQUEST_BYTES))
    as [Hemails Hchecks].
  destruct (tryBlock_cases env request (getClientIp request))
    as [(code & message & Htry & Hcode)
       |(parsedBody & sanitizedData & captchaToken & Hvalid & Htry)].
  { eexists code, _. split; [apply catchBlock_built; by rewrite Htry|].
    rewrite Htry. cbn [fst]. rewrite Hemails.
    rewrite !elem_of_cons, elem_of_nil in Hcode.
    split; [rewrite !elem_of_cons; intuition|]. split; [cbn; lia|].
    split; [apply Hnone; intuition congruence|]. by intros ? ? ?%elem_of_nil. }
  destruct (deliver_outcomes env request (getClientIp request) sanitizedData captchaToken)
    as (Hemail & Hout).
  set (delivered := fst (deliver env request (getClientIp request)
                           sanitizedData captchaToken)) in *.
  assert (Hsent : ∀ to subject,
            (to, subject) ∈ emailsSent delivered →
            nonEmptyTrimmed (ORDER_EMAIL env) = Some to
            ∧ (∃ parsedBody sanitizedData captchaToken,
                 validatePayload parsedBody = inr (sanitizedData, captchaToken)
                 ∧ subject = js "New Custom Order - " ++ productType sanitizedData
                 ∧ ∀ secret,
                     getTurnstileSecret env = Some secret →
                     ∃ token errorCodes,
                       captchaToken = Some token
                       ∧ captchaChecks delivered = [token]
                       ∧ verifyTurnstileToken token secret (getClientIp request)
                         = Some (true, errorCodes))).
  { intros to subject Hin. destruct (Hemail to subject Hin) as (Hto & Hsubject & Hcaptcha).
    split; [done|]. by exists parsedBody, sanitizedData, captchaToken. }
  destruct Hout as [(code & message & Hout & Hcode & Hnomail)
                   |[[Hout (to & subject & key & Hmail & Hkey & Haccepted)]
                    |[[message Hout] Hmail]]].
  - eexists code, _. split; [apply catchBlock_built; by rewrite Htry|].
    rewrite Htry. cbn [fst]. rewrite emailsSent_app, captchaChecks_app, Hemails, Hchecks.
    cbn [app]. rewrite Hnomail in *.
    rewrite !elem_of_cons, elem_of_nil in Hcode.
    split; [rewrite !elem_of_cons; intuition|]. split; [cbn; lia|].
    split; [apply Hnone; intuition congruence|]. by intros ? ? ?%elem_of_nil.
  - eexists 200%Z, _. split; [apply catchBlock_built; by rewrite Htry|].
    rewrite Htry. cbn [fst]. rewrite emailsSent_app, captchaChecks_app, Hemails, Hchecks.
    cbn [app]. split; [listed|]. split; [rewrite Hmail; cbn; lia|].
    split; [|exact Hsent]. split; [intros _|done]. by exists to, subject, key.
  - eexists 500%Z, _. split.
    { erewrite catchBlock_threw by (rewrite Htry; exact Hout).
      apply errorResponse_answers. }
    rewrite Htry. cbn [fst]. rewrite emailsSent_app, captchaChecks_app, Hemails, Hchecks.
    cbn [app]. split; [listed|].
    split; [destruct Hmail as [->|(? & ? & ? & -> & _)]; cbn; lia|].
    split; [|exact Hsent]. split; [done|].
    intros (to & subject & key & Hsent' & Hkey & Haccepted).
    destruct Hmail as [Hmail|(to' & subject' & key' & Hmail & Hkey' & Hrejected)];
      rewrite Hmail in Hsent'; [done|].
    injection Hsent' as -> ->. rewrite Hkey in Hkey'. injection Hkey' as ->.
    by rewrite Haccepted in Hrejected.
Qed.

(** X20.  Every custom-order request is counted.  Whatever the request
    and its outcome, also when the handler throws, it leaves the rate
    limiter's map exactly as one [rateLimit] call for the key
    [custom-order:<ip>] with the limit of 5 per minute leaves it, so
    rejected requests count too and no other key is touched.  When that
    call is denied, nothing of the request is read and the handler builds
    the 429 response with the time the window ends, which is the answer
    when the request is answerable and the exception of its headers
    otherwise.  A response of the handler has status 429 exactly when
    the call is denied. *)
Theorem custom_order_quota_accounting (env : Env) (now : Z)
    (rateLimitMap : gmap jsstring RateLimit.RateLimitEntry) (request : Request) :
  let limited := RateLimit.rateLimit now (quotaKey request) quotaConfig rateLimitMap in
  snd (POST env now rateLimitMap request) = snd limited
  ∧ (∀ other, other ≠ quotaKey request →
              snd (POST env now rateLimitMap request) !! other = rateLimitMap !! other)
  ∧ (RateLimit.allowed (fst limited) = false →
     fst (fst (POST env now rateLimitMap request)) = []
     ∧ answers env request (snd (fst (POST env now rateLimitMap request)))
         (jsonAnswer env request 429
            (JObject
               [(js "error", JString (js "Too many requests. Please try again later."));
                (js "resetAt",
                 JString (toISOString (RateLimit.result_resetAt (fst limited))))])))
  ∧ (∀ response,
       snd (fst (POST env now rateLimitMap request)) = Responded response →
       status response = 429%Z ↔ RateLimit.allowed (fst limited) = false).
Proof.
  intros limited.
  destruct (custom_order_POST_cases env now rateLimitMap request)
    as (Hmap & Hdenied & _).
  fold limited in Hmap, Hdenied.
  split; [done|]. split; [|split].
  - intros other Hother. rewrite Hmap. subst limited.
    apply rateLimit_other. done.
  - intros Hdeny. rewrite (Hdenied Hdeny). cbn [fst snd].
    split; [done|]. apply jsonResponse_answers.
  - intros response Hresponse.
    destruct (RateLimit.allowed (fst limited)) eqn:Hok.
    + destruct (custom_order_POST_allowed env now rateLimitMap request Hok)
        as (code & body & Hanswers & Hcode & _).
      destruct (answers_outcome _ _ _ _ Hanswers) as [Hbuilt|Hthrew];
        rewrite Hresponse in *; [|done].
      injection Hbuilt as ->. cbn [status jsonAnswer].
      rewrite !elem_of_cons, elem_of_nil in Hcode.
      split; [intros ->; intuition discriminate|done].
    + rewrite (Hdenied eq_refl) in Hresponse. cbn [fst snd] in Hresponse.
      by apply json_status in Hresponse.
Qed.


End CustomOrderOutcomes.

(* ===================================================================== *)
(** * Custom order: the limit at work *)
(* ===================================================================== *)

Section CustomOrderTraffic.

Import Cors BodyReader CustomOrder.

Context `{Platform}.

(** The limiter decides the 429: a request that it lets pass is never
    answered 429, and one that it denies is answered 429 when it is
    answerable. *)
Lemma POST_limited (env : Env) (now : Z)
    (rateLimitMap : gmap jsstring RateLimit.RateLimitEntry) (request : Request) :
  let limited := RateLimit.rateLimit now (quotaKey request) quotaConfig rateLimitMap in
  snd (POST env now rateLimitMap request) = snd limited
  ∧ (RateLimit.allowed (fst limited) = true →
     tooManyRequests (fst (POST env now rateLimitMap request)) = false)
  ∧ (answerable env request →
     tooManyRequests (fst (POST env now rateLimitMap request))
     = negb (RateLimit.allowed (fst limited))).
Proof.
  intros limited.
  destruct (custom_order_POST_cases env now rateLimitMap request)
    as (Hmap & Hdenied & _).
  fold limited in Hmap, Hdenied. split; [done|].
  assert (Hpass : RateLimit.allowed (fst limited) = true →
                  tooManyRequests (fst (POST env now rateLimitMap request)) = false).
  { intros Hok.
    destruct (custom_order_POST_allowed env now rateLimitMap request Hok)
      as (code & body & Hanswers & Hcode & _).
    unfold tooManyRequests.
    destruct (answers_outcome _ _ _ _ Hanswers) as [-> | ->]; [|done].
    cbn [status jsonAnswer]. rewrite !elem_of_cons, elem_of_nil in Hcode.
    destruct Hcode as [->|[->|[->|[->|[->|[->|[]]]]]]]; done. }
  split; [done|]. intros Hanswerable.
  destruct (RateLimit.allowed (fst limited)) eqn:Hok; [by apply Hpass|].
  rewrite (Hdenied eq_refl). unfold tooManyRequests. cbn [fst snd negb].
  by rewrite (proj1 (jsonResponse_answers env request 429 _) Hanswerable).
Qed.

Lemma customOrderRequests_limiter (env : Env) (key : jsstring)
    (calls : list (Z * Request)) :
  ∀ rateLimitMap,
    Forall (fun call => quotaKey (snd call) = key) calls →
    Forall (fun call => answerable env (snd call)) calls →
    map tooManyRequests (fst (customOrderRequests env calls rateLimitMap))
    = map (fun result => negb (RateLimit.allowed result))
        (fst (RateLimit.rateLimitCalls (map fst calls) key quotaConfig rateLimitMap))
    ∧ snd (customOrderRequests env calls rateLimitMap)
      = snd (RateLimit.rateLimitCalls (map fst calls) key quotaConfig rateLimitMap).
Proof.
  induction calls as [|[now request] later IH]; intros rateLimitMap Hkey Hanswerable;
    [done|].
  apply Forall_cons in Hkey as [Hrequest Hlater]. cbn [snd] in Hrequest.
  apply Forall_cons in Hanswerable as [Hfirst Hrest]. cbn [snd] in Hfirst.
  cbn [customOrderRequests map fst RateLimit.rateLimitCalls].
  destruct (POST_limited env now rateLimitMap request) as (Hmap & _ & Hlimited).
  specialize (Hlimited Hfirst).
  rewrite Hrequest in Hlimited, Hmap.
  destruct (POST env now rateLimitMap request) as [answer rateLimitMap1].
  destruct (RateLimit.rateLimit now key quotaConfig rateLimitMap)
    as [result rateLimitMap2].
  cbn [fst snd] in Hlimited, Hmap. subst rateLimitMap2.
  destruct (IH rateLimitMap1 Hlater Hrest) as [Hanswers Hfinal].
  destruct (customOrderRequests env later rateLimitMap1) as [answers final1].
  destruct (RateLimit.rateLimitCalls (map fst later) key quotaConfig rateLimitMap1)
    as [results final2].
  cbn [fst snd map] in *. by rewrite Hlimited, Hanswers, Hfinal.
Qed.

Lemma denied_after_five (len start : nat) (r : Z) :
  start ≤ 6 →
  map (fun result => negb (RateLimit.allowed result))
    (map (windowResult 5 r) (seq start len))
  = replicate (Nat.min len (6 - start)) false ++ replicate (len - (6 - start)) true.
Proof.
  revert start. induction len as [|len IH]; intros start Hstart; [done|].
  cbn [seq map]. unfold windowResult at 1. cbn [RateLimit.allowed].
  destruct (decide (start = 6)) as [->|Hless].
  - rewrite bool_decide_false by lia. cbn [negb Nat.sub Nat.min replicate app].
    assert (Hall : ∀ n s, 6 ≤ s →
              map (fun result => negb (RateLimit.allowed result))
                (map (windowResult 5 r) (seq s n)) = replicate n true).
    { clear. induction n as [|n IHn]; intros s Hs; [done|]. cbn [seq map replicate].
      unfold windowResult at 1. cbn [RateLimit.allowed].
      rewrite bool_decide_false by lia. cbn [negb]. f_equal. apply IHn. lia. }
    by rewrite Hall by lia.
  - rewrite bool_decide_true by lia. cbn [negb]. rewrite IH by lia.
    replace (6 - start) with (S (6 - S start)) by lia.
    cbn [Nat.min Nat.sub replicate app]. done.
Qed.

(** X24.  The limit of five custom-order requests per minute is
    enforced end to end.  For answerable requests from one client
    address, starting with no open window and all within one minute of
    the first, the first five pass the limiter and every later one is
    answered 429, whatever the requests contain. *)
Theorem custom_order_limit_enforced (env : Env) (ip : jsstring)
    (rateLimitMap : gmap jsstring RateLimit.RateLimitEntry)
    (first : Z) (firstRequest : Request) (later : list (Z * Request)) :
  Forall (fun call => answerable env (snd call)) ((first, firstRequest) :: later) →
  Forall (fun call => getClientIp (snd call) = ip) ((first, firstRequest) :: later) →
  freshOrExpired rateLimitMap (js "custom-order:" ++ ip) first →
  Forall (fun call => (fst call ≤ first + 60000)%Z) later →
  map tooManyRequests
    (fst (customOrderRequests env ((first, firstRequest) :: later) rateLimitMap))
  = replicate (Nat.min (S (length later)) 5) false
    ++ replicate (S (length later) - 5) true.
Proof.
  intros Hanswerable Hip Hfresh Hwithin.
  destruct (customOrderRequests_limiter env (js "custom-order:" ++ ip)
              ((first, firstRequest) :: later) rateLimitMap) as [Hanswers _];
    [|done|].
  { eapply Forall_impl; [exact Hip|]. intros call Hcall. unfold quotaKey.
    by rewrite Hcall. }
  rewrite Hanswers. cbn [map fst].
  destruct (rateLimitCalls_window 5 60000 (js "custom-order:" ++ ip) rateLimitMap
              first (map fst later)) as [Hresults _]; [lia|done| |].
  { apply Forall_forall. intros now (call & -> & Hcall)%list_elem_of_fmap.
    rewrite Forall_forall in Hwithin. by apply Hwithin. }
  change {| RateLimit.requests := Z.of_nat 5; RateLimit.window := 60000 |}
    with quotaConfig in Hresults.
  rewrite Hresults, length_map, denied_after_five by lia. done.
Qed.

Lemma quotaKey_inj (a b : Request) :
  quotaKey a = quotaKey b → getClientIp a = getClientIp b.
Proof. unfold quotaKey. apply app_inv_head. Qed.

(** X25.  The limit follows the address the client claims.  The key is
    taken from request headers, so requests that each name a different
    address, none of which has an entry yet, are never answered 429,
    however many they are and however fast they come. *)
Theorem custom_order_limit_follows_claimed_address (env : Env)
    (calls : list (Z * Request)) :
  ∀ rateLimitMap,
    NoDup (map (fun call => getClientIp (snd call)) calls) →
    Forall (fun call => rateLimitMap !! quotaKey (snd call) = None) calls →
    Forall (fun answer => tooManyRequests answer = false)
      (fst (customOrderRequests env calls rateLimitMap)).
Proof.
  induction calls as [|[now request] later IH]; intros rateLimitMap Hdistinct Hfresh;
    [constructor|].
  cbn [map snd] in Hdistinct. apply NoDup_cons in Hdistinct as [Hnew Hdistinct].
  apply Forall_cons in Hfresh as [Hrequest Hlater]. cbn [snd] in Hrequest.
  cbn [customOrderRequests].
  destruct (POST_limited env now rateLimitMap request) as (Hmap & Hlimited & _).
  rewrite (rateLimit_new rateLimitMap (quotaKey request) now quotaConfig)
    in Hlimited, Hmap by (by left).
  destruct (POST env now rateLimitMap request) as [answer rateLimitMap1].
  cbn [fst snd negb RateLimit.allowed] in Hlimited, Hmap. subst rateLimitMap1.
  specialize (Hlimited eq_refl).
  specialize (IH (<[quotaKey request :=
                      {| RateLimit.count := 1;
                         RateLimit.resetAt := now + RateLimit.window quotaConfig |}]>
                    rateLimitMap) Hdistinct).
  destruct (customOrderRequests env later _) as [answers final].
  cbn [fst]. constructor; [done|]. apply IH.
  apply Forall_forall. intros call Hcall.
  rewrite Forall_forall in Hlater. rewrite lookup_insert_ne; [by apply Hlater|].
  intros Hsame%quotaKey_inj. apply Hnew. rewrite Hsame.
  apply list_elem_of_fmap. by exists call.
Qed.

End CustomOrderTraffic.

(* ===================================================================== *)
(** * The checkout client *)
(* ===================================================================== *)

Section FramerClientCart.

Import Cors PriceAllowlist FramerClient.

Lemma mapGet_None (key : jsstring) (entries : list (jsstring * jsnumber)) :
  mapGet key entries = None ↔ key ∉ map fst entries.
Proof.
  induction entries as [|[k v] entries IH]; cbn [mapGet map fst].
  - split; [intros _; apply not_elem_of_nil|done].
  - unfold JsString.eqb. destruct (bool_decide_reflect (k = key)) as [Hk|Hk].
    + split; [done|]. intros Hout. destruct Hout. subst. apply list_elem_of_here.
    + rewrite IH, not_elem_of_cons. split; [|tauto]. intros ?. split; [congruence|done].
Qed.

Lemma mapGet_mapSet (key key' : jsstring) (value : jsnumber)
    (entries : list (jsstring * jsnumber)) :
  mapGet key (mapSet key' value entries)
  = if bool_decide (key' = key) then Some value else mapGet key entries.
Proof.
  induction entries as [|[k v] entries IH]; cbn [mapSet mapGet]; unfold JsString.eqb.
  - done.
  - destruct (bool_decide_reflect (k = key')) as [Hk|Hk]; cbn [mapGet];
      unfold JsString.eqb; rewrite ?IH;
      destruct (bool_decide_reflect (k = key)), (bool_decide_reflect (key' = key));
      congruence.
Qed.

Lemma mapSet_keys (key : jsstring) (value : jsnumber)
    (entries : list (jsstring * jsnumber)) :
  map fst (mapSet key value entries)
  = if bool_decide (key ∈ map fst entries) then map fst entries
    else map fst entries ++ [key].
Proof.
  induction entries as [|[k v] entries IH]; cbn [mapSet map fst]; unfold JsString.eqb.
  - rewrite bool_decide_false; [done|apply not_elem_of_nil].
  - destruct (bool_decide_reflect (k = key)) as [Hk|Hk]; cbn [map fst].
    + subst k. rewrite bool_decide_true; [done|apply list_elem_of_here].
    + rewrite IH. destruct (bool_decide_reflect (key ∈ map fst entries)) as [Hin|Hin].
      * rewrite bool_decide_true; [done|by apply list_elem_of_further].
      * rewrite bool_decide_false; [done|].
        rewrite not_elem_of_cons. split; [congruence|done].
Qed.

Lemma mapSet_length (key : jsstring) (value : jsnumber)
    (entries : list (jsstring * jsnumber)) :
  length (mapSet key value entries)
  = if bool_decide (key ∈ map fst entries) then length entries
    else S (length entries).
Proof.
  rewrite <- (length_map fst), mapSet_keys.
  case_bool_decide; rewrite ?length_app, !length_map; cbn; lia.
Qed.

Lemma mapGet_elem_of (entries : list (jsstring * jsnumber)) (entry : jsstring * jsnumber) :
  NoDup (map fst entries) → entry ∈ entries →
  mapGet (fst entry) entries = Some (snd entry).
Proof.
  induction entries as [|[k v] entries IH]; cbn; [by intros _ ?%elem_of_nil|].
  intros [Hk Hnodup]%NoDup_cons [->|Hin]%elem_of_cons; unfold JsString.eqb; cbn.
  - by rewrite bool_decide_true.
  - rewrite bool_decide_false; [by apply IH|].
    intros ->. apply Hk. apply list_elem_of_fmap. by exists entry.
Qed.

Lemma cartTotal_app (id : jsstring) (a b : list FramerCartItem.t) :
  cartTotal id (a ++ b) = (cartTotal id a + cartTotal id b)%Z.
Proof. induction a as [|item a IH]; cbn [app cartTotal]; lia. Qed.

Lemma cartTotal_absent (id : jsstring) (items : list FramerCartItem.t) :
  id ∉ map FramerCartItem.stripePriceId items → cartTotal id items = 0%Z.
Proof.
  induction items as [|item items IH]; [done|]. cbn.
  intros [Hitem Hitems]%not_elem_of_cons. unfold JsString.eqb.
  rewrite bool_decide_false by congruence. rewrite IH by done. lia.
Qed.

Lemma integerInRange_value (n : jsnumber) :
  integerInRange n →
  ∃ (z : Z) (q : Q),
    n = NumFinite q ∧ (q == inject_Z z)%Q ∧ (1 ≤ z ≤ 99)%Z ∧ integerValue n = z.
Proof.
  intros (z & q & Hz & -> & Hq). exists z, q. split; [done|]. split; [done|].
  split; [done|]. cbn. rewrite (Qfloor_comp _ _ Hq). apply Qfloor_Z.
Qed.

(** [Math.min(99, current + quantity)] on integers. *)
Lemma capped_sum (c z : Z) (q : Q) :
  (q == inject_Z z)%Q →
  min 99 (add (NumFinite (inject_Z c)) (NumFinite q))
  = NumFinite (inject_Z (Z.min 99 (c + z))).
Proof.
  intros Hq. cbn [add].
  assert (Hsum : Qred (inject_Z c + q) = inject_Z (c + z)).
  { rewrite <- (Qred_inject_Z (c + z)). apply Qred_complete.
    rewrite Hq, inject_Z_plus. reflexivity. }
  rewrite Hsum. cbn [min].
  destruct (Qle_bool (inject_Z 99) (inject_Z (c + z))) eqn:Hle.
  - apply Qle_bool_iff in Hle. rewrite <- Zle_Qle in Hle.
    by rewrite Z.min_l by done.
  - assert (¬ (99 ≤ c + z)%Z) as Hlt.
    { intros Hge. rewrite Zle_Qle in Hge. apply Qle_bool_iff in Hge. congruence. }
    by rewrite Z.min_r by lia.
Qed.

Lemma aggregated_step (seen : list FramerCartItem.t) (item : FramerCartItem.t)
    (quantityByPriceId : list (jsstring * jsnumber)) :
  aggregated seen quantityByPriceId →
  validCartItem item →
  aggregated (seen ++ [item]) (aggregateLoop [item] quantityByPriceId).
Proof.
  intros (Hnodup & Hkeys & Hvalues & Hlength) [Hid Hquantity].
  apply integerInRange_value in Hquantity as (z & q & Hq & Hqz & Hz & Hvalue).
  cbn [aggregateLoop fold_left]. rewrite Hq.
  set (id0 := FramerCartItem.stripePriceId item).
  assert (Htotal : ∀ id, cartTotal id (seen ++ [item])
                         = (cartTotal id seen
                            + if bool_decide (id0 = id) then z else 0)%Z).
  { intros id. rewrite cartTotal_app. cbn [cartTotal]. fold id0.
    unfold JsString.eqb. rewrite Hvalue. case_bool_decide; lia. }
  assert (Hnext :
    min 99 (add (default (NumFinite 0) (mapGet id0 quantityByPriceId)) (NumFinite q))
    = NumFinite (inject_Z (Z.min 99 (cartTotal id0 (seen ++ [item]))))
    ∧ (1 ≤ cartTotal id0 (seen ++ [item]))%Z).
  { rewrite Htotal, bool_decide_true by done.
    destruct (mapGet id0 quantityByPriceId) as [current|] eqn:Hcurrent;
      cbn [default from_option id].
    - destruct (Hvalues _ _ Hcurrent) as [-> Hpositive].
      rewrite (capped_sum _ z q Hqz). split; [|lia]. do 2 f_equal. lia.
    - apply mapGet_None in Hcurrent. rewrite Hkeys in Hcurrent.
      rewrite (cartTotal_absent _ _ Hcurrent).
      change (NumFinite 0) with (NumFinite (inject_Z 0)).
      rewrite (capped_sum 0 z q Hqz). split; [done|lia]. }
  destruct Hnext as [Hnext Hpositive]. rewrite Hnext.
  split; [|split; [|split]].
  - rewrite mapSet_keys. case_bool_decide as Hin; [done|].
    apply NoDup_app. split; [done|]. split; [|apply NoDup_singleton].
    intros id Hid0 ->%list_elem_of_singleton. done.
  - intros id. rewrite mapSet_keys, map_app, elem_of_app. cbn [map]. fold id0.
    rewrite list_elem_of_singleton, <- Hkeys.
    case_bool_decide as Hin.
    + split; [tauto|]. intros [?| ->]; done.
    + by rewrite elem_of_app, list_elem_of_singleton.
  - intros id value. rewrite mapGet_mapSet. case_bool_decide as Hsame.
    + subst id. by intros [= <-].
    + intros Hold. destruct (Hvalues _ _ Hold) as [-> Hone].
      rewrite Htotal, bool_decide_false by done. rewrite Z.add_0_r. done.
  - rewrite mapSet_length, length_app. cbn [length]. case_bool_decide; lia.
Qed.

Lemma aggregateLoop_app (a b : list FramerCartItem.t)
    (quantityByPriceId : list (jsstring * jsnumber)) :
  aggregateLoop (a ++ b) quantityByPriceId
  = aggregateLoop b (aggregateLoop a quantityByPriceId).
Proof. apply fold_left_app. Qed.

Lemma aggregateLoop_aggregated (items : list FramerCartItem.t) :
  ∀ seen quantityByPriceId,
    aggregated seen quantityByPriceId →
    Forall validCartItem items →
    aggregated (seen ++ items) (aggregateLoop items quantityByPriceId).
Proof.
  induction items as [|item items IH]; intros seen quantityByPriceId Hseen Hvalid.
  - by rewrite app_nil_r.
  - apply Forall_cons in Hvalid as [Hitem Hitems].
    change (item :: items) with ([item] ++ items).
    rewrite aggregateLoop_app, app_assoc.
    apply IH; [|done]. by apply aggregated_step.
Qed.

Lemma assertValidItemsFrom_None (items : list FramerCartItem.t) :
  ∀ index, assertValidItemsFrom index items = None ↔ Forall validCartItem items.
Proof.
  induction items as [|item items IH]; intros index; cbn [assertValidItemsFrom].
  - split; [constructor|done].
  - rewrite Forall_cons. unfold validCartItem at 1.
    destruct (isEmpty (FramerCartItem.stripePriceId item)) eqn:Hempty.
    { apply isEmpty_true in Hempty. split; [done|]. by intros [[? _] _]. }
    apply isEmpty_false in Hempty.
    destruct (negb (Js.isInteger (FramerCartItem.quantity item))
              || Js.ltZ (FramerCartItem.quantity item) 1
              || Js.gtZ (FramerCartItem.quantity item) 99) eqn:Hquantity.
    + split; [done|]. intros [[_ Hrange] _].
      apply quantity_check_spec in Hrange. unfold Checkout.MAX_QUANTITY in Hrange.
      congruence.
    + apply (quantity_check_spec (FramerCartItem.quantity item)) in Hquantity.
      rewrite IH. tauto.
Qed.

Lemma assertValidCartItems_None (items : list FramerCartItem.t) :
  assertValidCartItems items = None ↔ items ≠ [] ∧ Forall validCartItem items.
Proof.
  unfold assertValidCartItems. destruct items as [|item items].
  - cbn. split; [done|]. by intros [? _].
  - cbn [length Nat.eqb]. rewrite assertValidItemsFrom_None. split; [done|tauto].
Qed.

(** X22.  What [aggregateItems] sends for a cart that has passed
    [assertValidCartItems]: one line per distinct price id of the cart,
    whose quantity is the total quantity of that price id in the cart,
    capped at 99.  Quantities above the cap are cut, not reported. *)
Theorem aggregateItems_totals (items : list FramerCartItem.t) :
  assertValidCartItems items = None →
  NoDup (map priceId (aggregateItems items))
  ∧ (∀ id, id ∈ map priceId (aggregateItems items)
           ↔ id ∈ map FramerCartItem.stripePriceId items)
  ∧ (∀ item, item ∈ aggregateItems items →
             quantity item
             = NumFinite (inject_Z (Z.min 99 (cartTotal (priceId item) items)))
             ∧ (1 ≤ cartTotal (priceId item) items)%Z)
  ∧ 1 ≤ length (aggregateItems items) ≤ length items.
Proof.
  intros [Hnonempty Hvalid]%assertValidCartItems_None.
  destruct (aggregateLoop_aggregated items [] []) as (Hnodup & Hkeys & Hvalues & Hlength);
    [|done|].
  { split; [constructor|]. split; [done|]. split; [done|]. done. }
  cbn [app] in *. unfold aggregateItems.
  assert (Hids : map priceId
                   (map (fun entry => {| priceId := fst entry; quantity := snd entry |})
                      (aggregateLoop items []))
                 = map fst (aggregateLoop items [])).
  { rewrite map_map. by apply map_ext. }
  rewrite Hids, length_map. split; [done|]. split; [done|]. split.
  - intros item (entry & -> & Hentry)%list_elem_of_fmap. cbn [priceId quantity].
    apply Hvalues. by apply mapGet_elem_of.
  - split; [|done]. destruct items as [|item items]; [done|].
    assert (Hin : FramerCartItem.stripePriceId item ∈ map fst (aggregateLoop (item :: items) [])).
    { apply Hkeys. cbn. apply list_elem_of_here. }
    destruct (aggregateLoop (item :: items) []); [by apply elem_of_nil in Hin|].
    cbn. lia.
Qed.

End FramerClientCart.

Section FramerClientServer.

Import Cors PriceAllowlist FramerClient.

Lemma validateItems_client (lines : list CheckoutItem) :
  ∀ index,
    Forall (fun line => PRICE_ID_PATTERN_test (JsString.trim (priceId line)) = true
                        ∧ integerInRange (quantity line)) lines →
    Checkout.validateItems index
      (map (fun item => JObject [(js "priceId", JString (priceId item));
                                 (js "quantity", JNumber (quantity item))]) lines)
    = inr (map (fun item => {| priceId := JsString.trim (priceId item);
                               quantity := quantity item |}) lines).
Proof.
  induction lines as [|line lines IH]; intros index Hlines; [done|].
  apply Forall_cons in Hlines as [[Hpattern Hquantity] Hlines].
  cbn [map Checkout.validateItems Js.asRecord].
  change (Js.get (js "priceId")
            [(js "priceId", JString (priceId line));
             (js "quantity", JNumber (quantity line))])
    with (Some (JString (priceId line))).
  change (Js.get (js "quantity")
            [(js "priceId", JString (priceId line));
             (js "quantity", JNumber (quantity line))])
    with (Some (JNumber (quantity line))).
  cbn iota. unfold validateStripePriceId. rewrite Hpattern.
  assert (Hne : isEmpty (JsString.trim (priceId line)) = false).
  { apply isEmpty_false. intros Hnil. by rewrite Hnil in Hpattern. }
  rewrite Hne. cbn [negb].
  apply quantity_check_spec in Hquantity. rewrite Hquantity.
  by rewrite IH.
Qed.

Lemma validateItems_client_inv (lines : list CheckoutItem) :
  ∀ index parsedItems,
    Checkout.validateItems index
      (map (fun item => JObject [(js "priceId", JString (priceId item));
                                 (js "quantity", JNumber (quantity item))]) lines)
    = inr parsedItems →
    Forall (fun line => PRICE_ID_PATTERN_test (JsString.trim (priceId line)) = true) lines.
Proof.
  induction lines as [|line lines IH]; intros index parsedItems; [constructor|].
  cbn [map Checkout.validateItems Js.asRecord].
  change (Js.get (js "priceId")
            [(js "priceId", JString (priceId line));
             (js "quantity", JNumber (quantity line))])
    with (Some (JString (priceId line))).
  change (Js.get (js "quantity")
            [(js "priceId", JString (priceId line));
             (js "quantity", JNumber (quantity line))])
    with (Some (JNumber (quantity line))).
  cbn iota. unfold validateStripePriceId.
  destruct (isEmpty (JsString.trim (priceId line))); [done|].
  destruct (PRICE_ID_PATTERN_test (JsString.trim (priceId line))) eqn:Hpattern; [|done].
  cbn [negb].
  destruct (negb (Js.isInteger (quantity line)) || Js.ltZ (quantity line) 1
            || Js.gtZ (quantity line) Checkout.MAX_QUANTITY); [done|].
  destruct (Checkout.validateItems (S index) _) as [|parsedRest] eqn:Hrest; [done|].
  intros _. constructor; [done|]. by eapply IH.
Qed.

Lemma aggregateItems_lines (items : list FramerCartItem.t) :
  assertValidCartItems items = None →
  1 ≤ length (aggregateItems items)
  ∧ Forall (fun line => integerInRange (quantity line)
                        ∧ priceId line ∈ map FramerCartItem.stripePriceId items)
      (aggregateItems items)
  ∧ (∀ item, item ∈ items →
             FramerCartItem.stripePriceId item ∈ map priceId (aggregateItems items)).
Proof.
  intros [Hnonempty Hvalid]%assertValidCartItems_None.
  destruct (aggregateLoop_aggregated items [] []) as (Hnodup & Hkeys & Hvalues & Hlength);
    [|done|].
  { split; [constructor|]. split; [done|]. split; [done|]. done. }
  cbn [app] in *. unfold aggregateItems.
  assert (Hids : map priceId
                   (map (fun entry => {| priceId := fst entry; quantity := snd entry |})
                      (aggregateLoop items []))
                 = map fst (aggregateLoop items [])).
  { rewrite map_map. by apply map_ext. }
  rewrite Hids, length_map. split; [|split].
  - destruct items as [|item items]; [done|].
    assert (Hin : FramerCartItem.stripePriceId item
                  ∈ map fst (aggregateLoop (item :: items) [])).
    { apply Hkeys. cbn. apply list_elem_of_here. }
    destruct (aggregateLoop (item :: items) []); [by apply elem_of_nil in Hin|].
    cbn. lia.
  - apply Forall_forall. intros line (entry & -> & Hentry)%list_elem_of_fmap.
    cbn [priceId quantity]. split.
    + destruct (Hvalues _ _ (mapGet_elem_of _ _ Hnodup Hentry)) as [Heq Hone].
      rewrite Heq.
      exists (Z.min 99 (cartTotal (fst entry) items)),
             (inject_Z (Z.min 99 (cartTotal (fst entry) items))).
      split; [lia|]. split; [done|]. reflexivity.
    + apply Hkeys. apply list_elem_of_fmap. by exists entry.
  - intros item Hitem. apply Hkeys. apply list_elem_of_fmap. by exists item.
Qed.

(** The server's validator on a body of the shape the client builds. *)
Lemma validatePayload_client_body (lines : list json) (email : option jsstring)
    (metadata : option (list (jsstring * json))) :
  Checkout.validatePayload
    (JObject ([(js "items", JArray lines)]
              ++ match email with
                 | Some (c :: rest) => [(js "customerEmail", JString (c :: rest))]
                 | _ => []
                 end
              ++ match metadata with
                 | Some entries => [(js "metadata", JObject entries)]
                 | None => []
                 end))
  = if (length lines =? 0)%nat then inl Checkout.ItemsNotArray
    else if (Checkout.MAX_LINE_ITEMS <? length lines)%nat then inl Checkout.ItemsTooMany
    else
      match Checkout.validateItems 0 lines with
      | inl e => inl e
      | inr parsedItems =>
          inr {| Checkout.items := parsedItems;
                 Checkout.customerEmail :=
                   match email with
                   | Some (c :: rest) =>
                       if (0 <? length (JsString.trim (c :: rest)))%nat
                       then Some (JsString.trim (c :: rest)) else None
                   | _ => None
                   end;
                 Checkout.metadata := metadata |}
      end.
Proof.
  unfold Checkout.validatePayload. cbn [Js.asRecord app].
  change (Js.get (js "items") ((js "items", JArray lines) :: _))
    with (Some (JArray lines)).
  cbn iota.
  destruct (length lines =? 0)%nat; [done|].
  destruct (Checkout.MAX_LINE_ITEMS <? length lines)%nat; [done|].
  destruct (Checkout.validateItems 0 lines) as [|parsedItems]; [done|].
  assert (Hget : ∀ key k v rest,
            Js.get key ((k, v) :: rest)
            = if JsString.eqb k key then Some v else Js.get key rest) by done.
  assert (Hie : JsString.eqb (js "items") (js "customerEmail") = false) by done.
  assert (Him : JsString.eqb (js "items") (js "metadata") = false) by done.
  assert (Hee : JsString.eqb (js "customerEmail") (js "customerEmail") = true) by done.
  assert (Hem : JsString.eqb (js "customerEmail") (js "metadata") = false) by done.
  assert (Hme : JsString.eqb (js "metadata") (js "customerEmail") = false) by done.
  assert (Hmm : JsString.eqb (js "metadata") (js "metadata") = true) by done.
  destruct email as [[|c rest]|], metadata as [entries|]; cbn [app];
    rewrite !Hget, ?Hie, ?Him, ?Hee, ?Hem, ?Hme, ?Hmm; cbn [Js.get];
    try destruct (0 <? length (JsString.trim (c :: rest)))%nat; reflexivity.
Qed.

(** X23.  The client and the server fit together.  For a cart that has
    passed the client's [assertValidCartItems], the server's validator
    accepts the request body that the client builds exactly when every
    price id of the cart is of the Stripe form and the cart has at most
    50 distinct price ids; the accepted payload then holds the aggregated
    lines with trimmed price ids, the trimmed customer email (none when
    blank) and the metadata. *)
Theorem client_request_accepted_by_server (items : list FramerCartItem.t)
    (customerEmail : option jsstring) (metadata : option (list (jsstring * jsstring))) :
  assertValidCartItems items = None →
  ∃ body,
    requestPayload items customerEmail metadata = inr body
    ∧ ((∃ payload, Checkout.validatePayload body = inr payload)
       ↔ stripePriceIds items ∧ length (aggregateItems items) ≤ 50)
    ∧ (∀ payload,
         Checkout.validatePayload body = inr payload →
         payload = serverPayload items customerEmail metadata).
Proof.
  intros Hvalid. unfold requestPayload. rewrite Hvalid.
  eexists. split; [reflexivity|].
  destruct (aggregateItems_lines items Hvalid) as (Hsome & Hlines & Hcovered).
  set (lines := map (fun item => JObject [(js "priceId", JString (priceId item));
                                          (js "quantity", JNumber (quantity item))])
                  (aggregateItems items)).
  assert (Hbody :
    match metadata with
    | Some entries =>
        [(js "metadata",
          JObject (map (fun entry => (fst entry, JString (snd entry))) entries))]
    | None => []
    end
    = match (fun entries => map (fun entry => (fst entry, JString (snd entry))) entries)
            <$> metadata with
      | Some entries => [(js "metadata", JObject entries)]
      | None => []
      end) by (by destruct metadata).
  rewrite Hbody, validatePayload_client_body. clear Hbody.
  assert (Hlength : length lines = length (aggregateItems items))
    by (subst lines; apply length_map).
  rewrite Hlength.
  destruct (length (aggregateItems items) =? 0)%nat eqn:Hzero.
  { apply Nat.eqb_eq in Hzero. lia. }
  assert (Hemail :
    match JsString.trim <$> customerEmail with
    | Some (c :: rest) =>
        if (0 <? length (JsString.trim (c :: rest)))%nat
        then Some (JsString.trim (c :: rest)) else None
    | _ => None
    end
    = match JsString.trim <$> customerEmail with
      | Some (c :: rest) => Some (c :: rest)
      | _ => None
      end).
  { destruct customerEmail as [raw|]; [|done]. cbn [fmap option_fmap option_map].
    destruct (JsString.trim raw) as [|c rest] eqn:Htrim; [done|].
    by rewrite <- Htrim, trim_idempotent, Htrim. }
  rewrite Hemail. clear Hemail.
  destruct (Checkout.MAX_LINE_ITEMS <? length (aggregateItems items))%nat eqn:Hmany.
  { apply Nat.ltb_lt in Hmany. unfold Checkout.MAX_LINE_ITEMS in Hmany.
    split; [|done]. split; [by intros [? ?]|]. intros [_ ?]. lia. }
  apply Nat.ltb_ge in Hmany. unfold Checkout.MAX_LINE_ITEMS in Hmany.
  destruct (Checkout.validateItems 0 lines) as [error|parsedItems] eqn:Hitems.
  - split; [|done]. split; [by intros [? ?]|]. intros [Hstripe _]. exfalso.
    subst lines. rewrite validateItems_client in Hitems; [done|].
    eapply Forall_impl; [exact Hlines|]. intros line [Hquantity Hin]. split; [|done].
    apply list_elem_of_fmap in Hin as (item & -> & Hitem).
    unfold stripePriceIds in Hstripe. rewrite Forall_forall in Hstripe.
    by apply Hstripe.
  - pose proof (validateItems_client_inv _ _ _ Hitems) as Hpatterns.
    assert (Hstripe : stripePriceIds items).
    { apply Forall_forall. intros item Hitem.
      apply Hcovered, list_elem_of_fmap in Hitem as (line & -> & Hline).
      rewrite Forall_forall in Hpatterns. by apply Hpatterns. }
    split; [split; [done|by eexists]|].
    intros payload [= <-]. unfold serverPayload. f_equal.
    subst lines. rewrite validateItems_client in Hitems; [by injection Hitems|].
    apply Forall_forall. intros line Hline.
    rewrite Forall_forall in Hpatterns. rewrite Forall_forall in Hlines.
    split; [by apply Hpatterns|by apply Hlines].
Qed.

End FramerClientServer.

(* ===================================================================== *)
(** * Growth of the limiter's map, and production defaults *)
(* ===================================================================== *)

Section CustomOrderGrowth.

Import Cors BodyReader CustomOrder.

Context `{Platform}.

(** X26.  The limiter's map grows with the addresses that clients
    claim: requests that each name a different address, none of which has
    an entry yet, each add one entry to the map, whatever they contain
    and whether or not they are otherwise valid. *)
Theorem custom_order_map_growth (env : Env) (calls : list (Z * Request)) :
  ∀ rateLimitMap,
    NoDup (map (fun call => getClientIp (snd call)) calls) →
    Forall (fun call => rateLimitMap !! quotaKey (snd call) = None) calls →
    size (snd (customOrderRequests env calls rateLimitMap))
    = size rateLimitMap + length calls.
Proof.
  induction calls as [|[now request] later IH]; intros rateLimitMap Hdistinct Hfresh.
  - cbn. lia.
  - cbn [map snd] in Hdistinct. apply NoDup_cons in Hdistinct as [Hnew Hdistinct].
    apply Forall_cons in Hfresh as [Hrequest Hlater]. cbn [snd] in Hrequest.
    cbn [customOrderRequests].
    destruct (POST_limited env now rateLimitMap request) as (Hmap & _).
    rewrite (rateLimit_new rateLimitMap (quotaKey request) now quotaConfig)
      in Hmap by (by left).
    destruct (POST env now rateLimitMap request) as [answer rateLimitMap1].
    cbn [fst snd] in Hmap. subst rateLimitMap1.
    specialize (IH (<[quotaKey request :=
                        {| RateLimit.count := 1;
                           RateLimit.resetAt := now + RateLimit.window quotaConfig |}]>
                      rateLimitMap) Hdistinct).
    destruct (customOrderRequests env later _) as [answers final].
    cbn [snd length] in *. rewrite IH.
    + rewrite map_size_insert_None by done. lia.
    + apply Forall_forall. intros call Hcall.
      rewrite Forall_forall in Hlater. rewrite lookup_insert_ne; [by apply Hlater|].
      intros Hsame%quotaKey_inj. apply Hnew. rewrite Hsame.
      apply list_elem_of_fmap. by exists call.
Qed.

End CustomOrderGrowth.

Section CheckoutFailsClosed.

Import Cors PriceAllowlist Checkout.

Context `{Platform}.

Lemma validatePayload_items_nonempty (input : json) (payload : CheckoutPayload) :
  validatePayload input = inr payload → items payload ≠ [].
Proof.
  unfold validatePayload.
  destruct (Js.asRecord input) as [body|]; [|done].
  destruct (Js.get (js "items") body) as [[| | | |itemsInput|]|]; try done.
  destruct (length itemsInput =? 0) eqn:Hempty; [done|].
  destruct (MAX_LINE_ITEMS <? length itemsInput); [done|].
  destruct (validateItems 0 itemsInput) as [|parsedItems] eqn:Hitems; [done|].
  destruct (validateItems_parsed _ _ _ Hitems) as [Hparsed _].
  apply Forall2_length in Hparsed. apply Nat.eqb_neq in Hempty.
  assert (Hne : parsedItems ≠ []) by (intros ->; cbn in Hparsed; lia).
  repeat case_match; try done; by intros [= <-].
Qed.

(** X27.  Production fails closed.  With NODE_ENV set to [production],
    ENFORCE_STRIPE_PRICE_ALLOWLIST unset or blank, and no allowed price id
    configured, the allowlist is enforced and the checkout POST never
    creates a session and never answers 200, whatever the request. *)
Theorem checkout_production_fails_closed (env : Env) (request : Request) :
  NODE_ENV env = Some (js "production") →
  (ENFORCE_STRIPE_PRICE_ALLOWLIST env = None
   ∨ ∃ raw, ENFORCE_STRIPE_PRICE_ALLOWLIST env = Some raw ∧ JsString.trim raw = []) →
  allowedPriceIds (getStripePriceAllowlist env) = ∅ →
  enforce (getStripePriceAllowlist env) = true
  ∧ sessionsCreated (fst (POST env request)) = []
  ∧ (∀ response, snd (POST env request) = Responded response →
                 status response ≠ 200%Z).
Proof.
  intros Hproduction Hunset Hnone.
  assert (Henforce : enforce (getStripePriceAllowlist env) = true).
  { unfold getStripePriceAllowlist. cbn [enforce].
    assert (Hraw : default [] (JsString.trim <$> ENFORCE_STRIPE_PRICE_ALLOWLIST env) = []).
    { destruct Hunset as [->|(raw & -> & Hblank)]; [done|]. cbn. by rewrite Hblank. }
    rewrite Hraw. cbn [length Nat.ltb Nat.leb]. by rewrite bool_decide_true. }
  split; [done|].
  destruct (checkout_POST_cases env request)
    as [(trace & message & code & Hpost & Hcode & _ & _ & Hcreated)
       |(successUrl & cancelUrl & body & payload & trace & _ & _ & _ & _ & Hvalid
         & Henforced & _)].
  - rewrite Hpost. cbn [fst snd]. split; [done|].
    intros response <-%jsonError_status Hstatus. rewrite Hstatus in Hcode.
    rewrite !elem_of_cons, elem_of_nil in Hcode. intuition discriminate.
  - exfalso. apply validatePayload_items_nonempty in Hvalid.
    destruct (items payload) as [|item rest]; [done|].
    specialize (Henforced Henforce item (list_elem_of_here _ _)).
    rewrite Hnone in Henforced. by apply elem_of_empty in Henforced.
Qed.

End CheckoutFailsClosed.

(* ===================================================================== *)
(** * The further properties on sample inputs *)
(* ===================================================================== *)

(** X3 on the empty map: a call for ["b"] does not change what ["a"]
    gets. *)
Lemma rateLimit_identifiers_isolated_witness :
  fst (RateLimit.rateLimit 2000 (js "a") quotaConfig
         (rateLimitTraffic [(1000%Z, js "b", quotaConfig)] ∅))
  = fst (RateLimit.rateLimit 2000 (js "a") quotaConfig ∅).
Proof.
  refine (proj2 (rateLimit_identifiers_isolated (js "a")
                   [(1000%Z, js "b", quotaConfig)] ∅ 2000 quotaConfig _)).
  repeat constructor. cbn. discriminate.
Defined.

(** X5 with a limit of 5: seven calls in one window, five allowed. *)
Lemma rateLimit_window_quota_witness :
  length
    (List.filter RateLimit.allowed
       (fst (RateLimit.rateLimitCalls [1000; 1001; 1002; 61000; 2000; 3000; 4000]%Z
               (js "client") {| RateLimit.requests := 5; RateLimit.window := 60000 |}
               ∅)))
  = 5.
Proof.
  apply (rateLimit_window_quota 5 60000 (js "client") ∅ 1000
           [1001; 1002; 61000; 2000; 3000; 4000]%Z).
  - lia.
  - left. apply lookup_empty.
  - repeat constructor; lia.
Defined.

(** X6 with a limit of 2: four calls within 60002 ms, all allowed. *)
Lemma rateLimit_boundary_burst_witness :
  map RateLimit.allowed
    (fst (RateLimit.rateLimitCalls [1000; 60999; 61001; 61002]%Z (js "client")
            {| RateLimit.requests := 2; RateLimit.window := 60000 |} ∅))
  = [true; true; true; true].
Proof.
  apply (rateLimit_boundary_burst 2 60000 (js "client") ∅ 1000 61001
           [60999%Z] [61002%Z]).
  - lia.
  - left. apply lookup_empty.
  - reflexivity.
  - reflexivity.
  - repeat constructor; lia.
  - lia.
  - repeat constructor; lia.
Defined.

(** X7 on a body of five bytes with a limit of three. *)
Lemma readRequestBodyWithLimit_outcome_witness :
  snd (BodyReader.readRequestBodyWithLimit (H := Reference.platform None)
         TrafficSamples.hello 3)
  = BodyReader.ReadFailed BodyReader.too_large
  ↔ (3 < totalLength (streamChunks TrafficSamples.helloStream))%N.
Proof.
  exact (proj1 (proj2 (proj2
           (readRequestBodyWithLimit_outcome (H := Reference.platform None)
              TrafficSamples.hello 3 TrafficSamples.helloStream eq_refl)))).
Defined.

(** X8 on a notification signed for the reference platform. *)
Lemma webhook_verified_event_acknowledged_witness :
  snd (Webhook.POST (H := Reference.platform (Some TrafficSamples.paymentEvent))
         Samples.env TrafficSamples.signedWebhook)
  = Responded (jsonAnswer Samples.env TrafficSamples.signedWebhook 200
                 (JObject [(js "received", JBool true)])).
Proof.
  refine (proj1 (proj1 (proj2 (proj2
            (webhook_verified_event_acknowledged
               (H := Reference.platform (Some TrafficSamples.paymentEvent))
               Samples.env TrafficSamples.signedWebhook
               (js "whsec_1") (js "whsec_1{}") TrafficSamples.paymentEvent
               _ _ _ _ _)) _)) _).
  - split; [by exists (js "whsec_1")|].
    split; [by eexists _, _|].
    split; [reflexivity|].
    split; [intros declared Hdeclared; vm_compute in Hdeclared; discriminate|].
    eexists. reflexivity.
  - reflexivity.
  - reflexivity.
  - reflexivity.
  - reflexivity.
  - intros [Hnull|[_ [Hobject|Hobject]]]; [discriminate Hnull| |];
      vm_compute in Hobject; discriminate Hobject.
  - reflexivity.
Defined.

(** X10 on a cart with a padded price id and a metadata object. *)
Lemma checkout_payload_normalized_witness :
  Forall vettedItem (Checkout.items SessionSamples.notePayload).
Proof.
  exact (proj1 (proj2 (proj2
           (checkout_payload_normalized SessionSamples.noteCart
              SessionSamples.notePayload eq_refl)))).
Defined.

Lemma noteCart_trace :
  fst (Checkout.POST (H := Reference.platform (Some SessionSamples.noteCart))
         Samples.env SessionSamples.request)
  = [EReadJson;
     ESessionsCreate SessionSamples.noteParams (Some (js "order-42"));
     ELog LogInfo "checkout_session_created" [js "cs_test_1"]].
Proof. reflexivity. Defined.

(** X11 on the session created for that cart. *)
Lemma checkout_session_items_vetted_witness :
  Forall vettedItem (line_items SessionSamples.noteParams).
Proof.
  refine (proj1 (proj2 (proj2 (proj2 (proj2 (proj2
            (checkout_session_items_vetted
               (H := Reference.platform (Some SessionSamples.noteCart))
               Samples.env SessionSamples.request SessionSamples.noteParams
               (Some (js "order-42")) _))))))).
  rewrite noteCart_trace. apply list_elem_of_further, list_elem_of_here.
Defined.

(** X12 on the same session. *)
Lemma checkout_session_metadata_and_key_witness :
  params_metadata SessionSamples.noteParams !! js "source" = Some (js "framer").
Proof.
  refine (proj1 (checkout_session_metadata_and_key
                   (H := Reference.platform (Some SessionSamples.noteCart))
                   Samples.env SessionSamples.request SessionSamples.noteParams
                   (Some (js "order-42")) _)).
  rewrite noteCart_trace. apply list_elem_of_further, list_elem_of_here.
Defined.

(** X14 on the same request: the metadata holds one string. *)
Lemma checkout_POST_responds_witness :
  ∃ response,
    snd (Checkout.POST (H := Reference.platform (Some SessionSamples.noteCart))
           Samples.env SessionSamples.request)
    = Responded response.
Proof.
  apply (checkout_POST_responds (H := Reference.platform (Some SessionSamples.noteCart))).
  - reflexivity.
  - intros body entries Hbody Hmetadata.
    injection Hbody as <-. injection Hmetadata as <-.
    repeat constructor.
Defined.

(** X17 on an accepted order. *)
Lemma custom_order_payload_bounds_witness :
  ∃ payload,
    CustomOrder.validatePayload (H := Reference.platform None)
      CustomOrderSamples.blankImageOrder
    = inr (payload, None)
    ∧ Forall noAngleBrackets (textFields payload).
Proof.
  eexists. split; [reflexivity|].
  refine (proj1 (custom_order_payload_bounds (H := Reference.platform None)
                   CustomOrderSamples.blankImageOrder _ None _)).
  reflexivity.
Defined.

(** X22 on a cart with 60 and 60 of one price and 1 of another. *)
Lemma aggregateItems_totals_witness :
  NoDup (map priceId (FramerClient.aggregateItems ClientSamples.cart)).
Proof.
  exact (proj1 (aggregateItems_totals ClientSamples.cart eq_refl)).
Defined.

(** X23 on the same cart. *)
Lemma client_request_accepted_by_server_witness :
  ∃ body,
    FramerClient.requestPayload ClientSamples.cart (Some (js " ann@example.com ")) None
    = inr body
    ∧ ((∃ payload, Checkout.validatePayload body = inr payload)
       ↔ stripePriceIds ClientSamples.cart
         ∧ length (FramerClient.aggregateItems ClientSamples.cart) ≤ 50)
    ∧ (∀ payload,
         Checkout.validatePayload body = inr payload →
         payload
         = serverPayload ClientSamples.cart (Some (js " ann@example.com ")) None).
Proof.
  exact (client_request_accepted_by_server ClientSamples.cart
           (Some (js " ann@example.com ")) None eq_refl).
Defined.

(** X24 on six requests from one address. *)
Lemma custom_order_limit_enforced_witness :
  map (tooManyRequests)
    (fst (customOrderRequests (H := Reference.platform None) Samples.env
            TrafficSamples.sixRequests ∅))
  = [false; false; false; false; false; true].
Proof.
  refine (custom_order_limit_enforced (H := Reference.platform None) Samples.env
            (js "203.0.113.7") ∅ 1000 (TrafficSamples.fromAddress "203.0.113.7")
            (map (fun now => (now, TrafficSamples.fromAddress "203.0.113.7"))
               [2000; 3000; 4000; 5000; 6000]%Z) _ _ _ _).
  - repeat constructor.
  - repeat constructor.
  - left. apply lookup_empty.
  - repeat constructor; cbn; lia.
Defined.

(** X25 on three requests that name three addresses. *)
Lemma custom_order_limit_follows_claimed_address_witness :
  Forall (fun answer => tooManyRequests answer = false)
    (fst (customOrderRequests (H := Reference.platform None) Samples.env
            TrafficSamples.threeAddresses ∅)).
Proof.
  apply (custom_order_limit_follows_claimed_address (H := Reference.platform None)).
  - apply (bool_decide_unpack _). by vm_compute.
  - repeat constructor.
Defined.

(** X26 on three requests that name three addresses. *)
Lemma custom_order_map_growth_witness :
  size (snd (customOrderRequests (H := Reference.platform None) Samples.env
               TrafficSamples.threeAddresses ∅))
  = 3.
Proof.
  rewrite (custom_order_map_growth (H := Reference.platform None) Samples.env
             TrafficSamples.threeAddresses ∅).
  - by rewrite map_size_empty.
  - apply (bool_decide_unpack _). by vm_compute.
  - repeat constructor.
Defined.

(** X27 on a production environment without an allowlist. *)
Lemma checkout_production_fails_closed_witness :
  sessionsCreated
    (fst (Checkout.POST (H := Reference.platform (Some SessionSamples.noteCart))
            ProductionSamples.env SessionSamples.request))
  = [].
Proof.
  refine (proj1 (proj2
            (checkout_production_fails_closed
               (H := Reference.platform (Some SessionSamples.noteCart))
               ProductionSamples.env SessionSamples.request _ _ _))).
  - reflexivity.
  - right. exists (js "  "). split; reflexivity.
  - reflexivity.
Defined.
